(** * NL2VIS: schema inference, chart recommendation and chart materialisation

    A shallow embedding of the TypeScript sources
      - the chart recommender, ml-chart-recommender.ts (extractFeatures,
        recommendCharts, isIdentifierColumn, generateChart,
        generateMLVisualizations),
      - the metrics extractor, carried by server/pdf-extractor.ts
        (extractMetrics, calculateCorrelation),
      - the file parser, carried by server/pdf-extractor.ts
        (detectColumnTypes),
      - server/pdf-extractor.ts itself (convertJsonToParsedData, cleanValue),
      - server/routes.ts (POST /api/analysis/:id/chart, the file filter and
        the file type of POST /api/upload, GET /api/analysis/:id/columns),
      - the other sources carried by server/pdf-extractor.ts:
        generateVisualizations, aggregateData and calculateDistribution
        (parsers), the categorical statistics of calculateDataSummary
        (gemini), extractMetricsFromPDF and the columns and rows of
        parsePDFWithGemini (pdf-parser),
      - the chart dialog, client/src/components/create-chart-dialog.tsx
        (canCreate, handleCreate, the handlers and effects on its state),
    together with the part of the JavaScript runtime these functions rely on.

    Conventions of the embedding.
      - A JavaScript number is an IEEE 754 binary64 value: the primitive
        type [float], with its own arithmetic.
      - A string is a sequence of code units below 256 ([string]).
      - An object used as a dictionary is the list of its own properties in
        the order [Object.entries] enumerates them (canonical array indices
        first, ascending, then the other keys in creation order).  Reading a
        key that is not an own property falls back to [Object.prototype].
      - An exception is an explicit outcome ([Threw]).
      - [Date.now()] is a parameter [now] of the function that reads it. *)

From Stdlib Require Import Floats ZArith NArith List String Ascii Bool Lia.
From Stdlib Require Import Permutation Sorted DecimalString.
Import ListNotations.

Local Open Scope list_scope.
Local Open Scope bool_scope.

(* ===================================================================== *)
(** * Strings *)
(* ===================================================================== *)

Module JsStr.

Definition code (c : ascii) : nat := nat_of_ascii c.

(** WhiteSpace and LineTerminator code units (below 256): TAB, LF, VT, FF,
    CR, SP and NBSP. *)
Definition is_ws (c : ascii) : bool :=
  let n := code c in
  (Nat.leb 9 n && Nat.leb n 13) || Nat.eqb n 32 || Nat.eqb n 160.

Definition is_digit (c : ascii) : bool :=
  let n := code c in Nat.leb 48 n && Nat.leb n 57.

Definition digit_val (c : ascii) : Z := Z.of_nat (code c) - 48.

(** Case folding of the [i] flag: only ASCII letters have a partner. *)
Definition lower (c : ascii) : ascii :=
  let n := code c in
  if Nat.leb 65 n && Nat.leb n 90 then ascii_of_nat (n + 32) else c.

Definition ci_eqb (a b : ascii) : bool := Ascii.eqb (lower a) (lower b).

Fixpoint to_list (s : string) : list ascii :=
  match s with
  | EmptyString => []
  | String c s' => c :: to_list s'
  end.

Fixpoint of_list (l : list ascii) : string :=
  match l with
  | [] => EmptyString
  | c :: l' => String c (of_list l')
  end.

Fixpoint drop_ws (l : list ascii) : list ascii :=
  match l with
  | c :: l' => if is_ws c then drop_ws l' else l
  | [] => []
  end.

(** [String.prototype.trim] *)
Definition trim (s : string) : string :=
  of_list (rev (drop_ws (rev (drop_ws (to_list s))))).

(** [String.prototype.toLowerCase], on ASCII letters. *)
Definition toLowerCase (s : string) : string :=
  of_list (map lower (to_list s)).

Definition is_empty (s : string) : bool :=
  match s with EmptyString => true | _ => false end.

Fixpoint repeat_char (c : ascii) (n : nat) : string :=
  match n with
  | O => EmptyString
  | S n' => String c (repeat_char c n')
  end.

(** Decimal digits of a non-negative integer. *)
Definition of_Z (z : Z) : string := NilZero.string_of_int (Z.to_int z).

Definition of_nat (n : nat) : string := of_Z (Z.of_nat n).

End JsStr.

(* ===================================================================== *)
(** * Regular expressions

    The patterns of the sources are regular; [RegExp.prototype.test] is
    membership of some substring, decided here with derivatives. *)
(* ===================================================================== *)

Module Regex.

Inductive re : Type :=
| Void                      (* matches nothing *)
| Eps                       (* the empty string *)
| Chr (c : ascii)           (* a literal character, under the [i] flag *)
| Digit                     (* \d *)
| AnyChar                   (* any code unit *)
| Seq (r1 r2 : re)
| Alt (r1 r2 : re)
| Star (r : re).

Fixpoint nullable (r : re) : bool :=
  match r with
  | Void | Chr _ | Digit | AnyChar => false
  | Eps | Star _ => true
  | Seq r1 r2 => nullable r1 && nullable r2
  | Alt r1 r2 => nullable r1 || nullable r2
  end.

Fixpoint deriv (c : ascii) (r : re) : re :=
  match r with
  | Void | Eps => Void
  | Chr d => if JsStr.ci_eqb c d then Eps else Void
  | Digit => if JsStr.is_digit c then Eps else Void
  | AnyChar => Eps
  | Seq r1 r2 =>
      if nullable r1
      then Alt (Seq (deriv c r1) r2) (deriv c r2)
      else Seq (deriv c r1) r2
  | Alt r1 r2 => Alt (deriv c r1) (deriv c r2)
  | Star r1 => Seq (deriv c r1) (Star r1)
  end.

Fixpoint full_match (r : re) (s : string) : bool :=
  match s with
  | EmptyString => nullable r
  | String c s' => full_match (deriv c r) s'
  end.

(** A literal word, e.g. [empty] in [/^empty\d+$/i]. *)
Fixpoint lit (w : string) : re :=
  match w with
  | EmptyString => Eps
  | String c w' => Seq (Chr c) (lit w')
  end.

Definition opt (r : re) : re := Alt r Eps.
Definition plus (r : re) : re := Seq r (Star r).

Fixpoint alts (l : list re) : re :=
  match l with
  | [] => Void
  | [r] => r
  | r :: l' => Alt r (alts l')
  end.

(** Anchoring: [/^r$/], [/^r/], [/r$/] and [/r/]. *)
Definition anchored (r : re) : re := r.
Definition at_start (r : re) : re := Seq r (Star AnyChar).
Definition at_end (r : re) : re := Seq (Star AnyChar) r.
Definition anywhere (r : re) : re := Seq (Star AnyChar) (Seq r (Star AnyChar)).

(** [pattern.test(s)] *)
Definition test (r : re) (s : string) : bool := full_match r s.

End Regex.

(* ===================================================================== *)
(** * Numbers: binary64 arithmetic and its conversions to and from text *)
(* ===================================================================== *)

Module JsNum.

Local Open Scope Z_scope.

Definition isNaN (f : float) : bool := PrimFloat.is_nan f.

(** ToBoolean on a number: false for [+0], [-0] and [NaN]. *)
Definition truthy (f : float) : bool :=
  negb (PrimFloat.is_nan f || PrimFloat.is_zero f).

Definition of_Z (z : Z) : float := PrimFloat.of_uint63 (Uint63.of_Z z).

(** An array length or a counter as a number (exact below 2^53). *)
Definition of_nat (n : nat) : float := of_Z (Z.of_nat n).

(** The binary64 value nearest to [p / q] (ties to even), for [0 <= p] and
    [0 < q]. *)
Definition round_ratio (neg : bool) (p q : Z) : float :=
  if p <=? 0 then (if neg then PrimFloat.neg_zero else PrimFloat.zero)
  else
    let scaled := fun e => if 0 <=? e then (p, q * 2 ^ e) else (p * 2 ^ (- e), q) in
    let e1 := Z.log2 p - Z.log2 q - 52 in
    let m1 := let (n, d) := scaled e1 in n / d in
    let e2 := if m1 <? 2 ^ 52 then e1 - 1 else e1 in
    let e := Z.max e2 (-1074) in
    let (n, d) := scaled e in
    let m := n / d in
    let r := n mod d in
    let m' := if (d <? 2 * r) || ((d =? 2 * r) && Z.odd m) then m + 1 else m in
    let f := FloatOps.Z.ldexp (of_Z m') e in
    if neg then PrimFloat.opp f else f.

(** A finite non-zero number as [(negative, m, e)] with value [m * 2^e]. *)
Definition decode (f : float) : option (bool * Z * Z) :=
  match FloatOps.Prim2SF f with
  | S754_finite s m e => Some (s, Zpos m, e)
  | _ => None
  end.

Definition frac_of (m e : Z) : Z * Z :=
  if 0 <=? e then (m * 2 ^ e, 1) else (m, 2 ^ (- e)).

(** [num/den >= 10^j] *)
Definition ge_pow10 (num den j : Z) : bool :=
  if 0 <=? j then den * 10 ^ j <=? num else den <=? num * 10 ^ (- j).

Definition ndigits (z : Z) : Z := Z.of_nat (String.length (JsStr.of_Z z)).

(** The decimal exponent [n] with [10^(n-1) <= num/den < 10^n]. *)
Definition dec_exponent (num den : Z) : Z :=
  let n0 := if den <=? num then ndigits (num / den) else 1 - ndigits (den / num) in
  let n1 := if ge_pow10 num den n0 then n0 + 1 else n0 in
  if ge_pow10 num den (n1 - 1) then n1 else n1 - 1.

(** Shortest digits: the least [k], and the [k]-digit [s] and exponent [n]
    with [s * 10^(n-k)] reading back as [f]; the closest such [s]. *)
Fixpoint shortest (f : float) (num den n : Z) (ks : list Z) : Z * Z :=
  match ks with
  | [] => (0, n)
  | k :: ks' =>
      let '(sn, sd) :=
        if 0 <=? n - k then (num, den * 10 ^ (n - k))
        else (num * 10 ^ (k - n), den) in
      let lo := sn / sd in
      let r := sn mod sd in
      let hi := lo + 1 in
      let back := fun c =>
        if 0 <=? n - k then round_ratio false (c * 10 ^ (n - k)) 1
        else round_ratio false c (10 ^ (k - n)) in
      let ok_lo := (10 ^ (k - 1) <=? lo) && PrimFloat.eqb (back lo) f in
      let ok_hi := PrimFloat.eqb (back hi) f in
      let pick_hi := if hi =? 10 ^ k then (10 ^ (k - 1), n + 1) else (hi, n) in
      if ok_lo && ok_hi then
        if (2 * r <? sd) || ((2 * r =? sd) && Z.even lo) then (lo, n) else pick_hi
      else if ok_lo then (lo, n)
      else if ok_hi then pick_hi
      else shortest f num den n ks'
  end.

Definition zeros (n : Z) : string := JsStr.repeat_char "0"%char (Z.to_nat n).

Definition substr (a len : Z) (s : string) : string :=
  String.substring (Z.to_nat a) (Z.to_nat len) s.

(** Number::toString (radix 10) on a positive finite number. *)
Definition positive_to_string (f : float) (m e : Z) : string :=
  let (num, den) := frac_of m e in
  let n0 := dec_exponent num den in
  let (s, n) :=
    shortest f num den n0 [1;2;3;4;5;6;7;8;9;10;11;12;13;14;15;16;17] in
  let ds := JsStr.of_Z s in
  let k := Z.of_nat (String.length ds) in
  if (k <=? n) && (n <=? 21) then (ds ++ zeros (n - k))%string
  else if (0 <? n) && (n <=? 21) then
    (substr 0 n ds ++ "." ++ substr n (k - n) ds)%string
  else if (-6 <? n) && (n <=? 0) then ("0." ++ zeros (- n) ++ ds)%string
  else
    let sg := if 0 <=? n - 1 then "e+"%string else "e-"%string in
    let ex := (sg ++ JsStr.of_Z (Z.abs (n - 1)))%string in
    if k =? 1 then (ds ++ ex)%string
    else (substr 0 1 ds ++ "." ++ substr 1 (k - 1) ds ++ ex)%string.

(** [String(x)] for a number [x]. *)
Definition toString (f : float) : string :=
  if PrimFloat.is_nan f then "NaN"%string
  else if PrimFloat.is_zero f then "0"%string
  else if PrimFloat.is_infinity f then
    (if PrimFloat.get_sign f then "-Infinity" else "Infinity")%string
  else match decode f with
       | Some (s, m, e) =>
           ((if s then "-" else EmptyString) ++ positive_to_string (PrimFloat.abs f) m e)%string
       | None => "NaN"%string
       end.

(* ------------------------------------------------------------------- *)
(** ** Reading numbers *)

Fixpoint span_digits (l : list ascii) : list ascii * list ascii :=
  match l with
  | c :: l' =>
      if JsStr.is_digit c
      then let (ds, rest) := span_digits l' in (c :: ds, rest)
      else ([], l)
  | [] => ([], [])
  end.

Definition Z_of_digits (ds : list ascii) : Z :=
  fold_left (fun a c => 10 * a + JsStr.digit_val c) ds 0.

Definition is_char (c : ascii) (cs : string) : bool :=
  existsb (Ascii.eqb c) (JsStr.to_list cs).

(** ExponentPart, when one is present and well formed. *)
Definition read_exponent (l : list ascii) : Z * list ascii :=
  match l with
  | c :: l1 =>
      if is_char c "eE" then
        let '(neg, l2) :=
          match l1 with
          | d :: l2 =>
              if Ascii.eqb d "-" then (true, l2)
              else if Ascii.eqb d "+" then (false, l2) else (false, l1)
          | [] => (false, l1)
          end in
        let (ds, rest) := span_digits l2 in
        match ds with
        | [] => (0, l)
        | _ => ((if neg then - Z_of_digits ds else Z_of_digits ds), rest)
        end
      else (0, l)
  | [] => (0, l)
  end.

Fixpoint strip_prefix (w l : list ascii) : option (list ascii) :=
  match w, l with
  | [], _ => Some l
  | a :: w', b :: l' => if Ascii.eqb a b then strip_prefix w' l' else None
  | _ :: _, [] => None
  end.

(** StrUnsignedDecimalLiteral, the longest prefix of [l] that is one. *)
Definition read_unsigned (neg : bool) (l : list ascii) : option (float * list ascii) :=
  match strip_prefix (JsStr.to_list "Infinity") l with
  | Some rest =>
      Some ((if neg then PrimFloat.neg_infinity else PrimFloat.infinity), rest)
  | None =>
      let (ip, l1) := span_digits l in
      let '(fp, l2) :=
        match l1 with
        | c :: l1' =>
            if Ascii.eqb c "." then
              let (fp, l2) := span_digits l1' in
              match ip, fp with
              | [], [] => ([], l1)
              | _, _ => (fp, l2)
              end
            else ([], l1)
        | [] => ([], l1)
        end in
      match ip, fp with
      | [], [] => None
      | _, _ =>
          let (ex, rest) := read_exponent l2 in
          let mant := Z_of_digits (ip ++ fp) in
          let e10 := ex - Z.of_nat (List.length fp) in
          let v := if 0 <=? e10 then round_ratio neg (mant * 10 ^ e10) 1
                   else round_ratio neg mant (10 ^ (- e10)) in
          Some (v, rest)
      end
  end.

Definition read_signed (l : list ascii) : option (float * list ascii) :=
  match l with
  | c :: l' =>
      if Ascii.eqb c "-" then read_unsigned true l'
      else if Ascii.eqb c "+" then read_unsigned false l'
      else read_unsigned false l
  | [] => None
  end.

Definition radix_digit (radix : Z) (c : ascii) : option Z :=
  let n := Z.of_nat (JsStr.code (JsStr.lower c)) in
  let v := if (48 <=? n) && (n <=? 57) then n - 48
           else if (97 <=? n) && (n <=? 102) then n - 87 else 99 in
  if v <? radix then Some v else None.

Fixpoint read_radix (radix : Z) (l : list ascii) (acc : Z) : option Z :=
  match l with
  | [] => Some acc
  | c :: l' =>
      match radix_digit radix c with
      | Some v => read_radix radix l' (radix * acc + v)
      | None => None
      end
  end.

(** The StringToNumber conversion behind [Number(s)]. *)
Definition ofString (s : string) : float :=
  let l := JsStr.to_list (JsStr.trim s) in
  match l with
  | [] => PrimFloat.zero
  | z :: x :: ((_ :: _) as ds) =>
      let radix :=
        if negb (Ascii.eqb z "0") then 0
        else if is_char x "xX" then 16
        else if is_char x "oO" then 8
        else if is_char x "bB" then 2 else 0 in
      if radix =? 0 then
        match read_signed l with
        | Some (v, []) => v
        | _ => PrimFloat.nan
        end
      else
        match read_radix radix ds 0 with
        | Some v => round_ratio false v 1
        | None => PrimFloat.nan
        end
  | _ =>
      match read_signed l with
      | Some (v, []) => v
      | _ => PrimFloat.nan
      end
  end.

(** [parseFloat(s)] *)
Definition parseFloat (s : string) : float :=
  match read_signed (JsStr.drop_ws (JsStr.to_list s)) with
  | Some (v, _) => v
  | None => PrimFloat.nan
  end.

(** [x.toFixed(3)] *)
Definition toFixed3 (f : float) : string :=
  match decode f with
  | None => if PrimFloat.is_zero f then "0.000"%string else toString f
  | Some (s, m, e) =>
      let (num, den) := frac_of m e in
      if ge_pow10 num den 21 then toString f
      else
        let n := (2 * num * 1000 + den) / (2 * den) in
        let ds := JsStr.of_Z n in
        let k := Z.of_nat (String.length ds) in
        let ds' := if k <=? 3 then (zeros (4 - k) ++ ds)%string else ds in
        let k' := Z.of_nat (String.length ds') in
        ((if s then "-" else EmptyString) ++
         substr 0 (k' - 3) ds' ++ "." ++ substr (k' - 3) 3 ds')%string
  end.

(** [Math.min(...xs)] and [Math.max(...xs)] *)
Definition min2 (a b : float) : float :=
  if PrimFloat.is_nan a || PrimFloat.is_nan b then PrimFloat.nan
  else if PrimFloat.ltb b a then b
  else if PrimFloat.ltb a b then a
  else if PrimFloat.get_sign a then a else b.

Definition max2 (a b : float) : float :=
  if PrimFloat.is_nan a || PrimFloat.is_nan b then PrimFloat.nan
  else if PrimFloat.ltb a b then b
  else if PrimFloat.ltb b a then a
  else if PrimFloat.get_sign a then b else a.

Definition math_min (xs : list float) : float := fold_left min2 xs PrimFloat.infinity.
Definition math_max (xs : list float) : float := fold_left max2 xs PrimFloat.neg_infinity.

(** [xs.reduce((a, b) => a + b, 0)] *)
Definition sum (xs : list float) : float := fold_left PrimFloat.add xs PrimFloat.zero.

End JsNum.

(* ===================================================================== *)
(** * Values, coercions, dictionaries and array methods *)
(* ===================================================================== *)

Module Js.

(** A cell of a row.  [VObject text] is a value that is not primitive (the
    members of [Object.prototype] are such values); [text] is what its
    conversion to a primitive gives. *)
Inductive value : Type :=
| VUndefined
| VNull
| VBool (b : bool)
| VNum (n : float)
| VStr (s : string)
| VObject (text : string).

(** ToBoolean *)
Definition truthy (v : value) : bool :=
  match v with
  | VUndefined | VNull => false
  | VBool b => b
  | VNum n => JsNum.truthy n
  | VStr s => negb (JsStr.is_empty s)
  | VObject _ => true
  end.

(** [a || b] *)
Definition or_else (a b : value) : value := if truthy a then a else b.

(** [Number(v)] *)
Definition ToNumber (v : value) : float :=
  match v with
  | VUndefined => PrimFloat.nan
  | VNull => PrimFloat.zero
  | VBool true => PrimFloat.one
  | VBool false => PrimFloat.zero
  | VNum n => n
  | VStr s => JsNum.ofString s
  | VObject text => JsNum.ofString text
  end.

(** [String(v)] *)
Definition ToString (v : value) : string :=
  match v with
  | VUndefined => "undefined"
  | VNull => "null"
  | VBool true => "true"
  | VBool false => "false"
  | VNum n => JsNum.toString n
  | VStr s => s
  | VObject text => text
  end.

(** The global [isNaN(v)], applied as [isNaN(Number(v))]. *)
Definition isNaN (v : value) : bool := JsNum.isNaN (ToNumber v).

Definition is_number (v : value) : bool :=
  match v with VNum _ => true | _ => false end.
Definition is_boolean (v : value) : bool :=
  match v with VBool _ => true | _ => false end.

(** [v === 'lit'] *)
Definition is_str (v : value) (lit : string) : bool :=
  match v with VStr s => String.eqb s lit | _ => false end.

(** [v !== null && v !== undefined] *)
Definition not_nullish (v : value) : bool :=
  match v with VUndefined | VNull => false | _ => true end.

(* ------------------------------------------------------------------- *)
(** ** Exceptions *)

Inductive outcome (A : Type) : Type :=
| Returned (a : A)
| Threw (error : string).
Arguments Returned {A} a.
Arguments Threw {A} error.

Definition bind {A B : Type} (m : outcome A) (k : A -> outcome B) : outcome B :=
  match m with
  | Returned a => k a
  | Threw e => Threw e
  end.

(* ------------------------------------------------------------------- *)
(** ** Objects used as dictionaries *)

(** Own properties, in the order of [Object.entries]. *)
Definition dict (V : Type) : Type := list (string * V).

(** A canonical array index: the decimal form of an integer below
    [2^32 - 1]. *)
Definition array_index (k : string) : option Z :=
  match JsStr.to_list k with
  | [] => None
  | c :: rest =>
      if forallb JsStr.is_digit (c :: rest)
         && (negb (Ascii.eqb c "0") || match rest with [] => true | _ => false end)
         && Nat.leb (List.length rest) 9
      then
        let i := JsNum.Z_of_digits (c :: rest) in
        if (i <? 4294967295)%Z then Some i else None
      else None
  end.

Definition is_index (k : string) : bool :=
  match array_index k with Some _ => true | None => false end.

Fixpoint own {V : Type} (k : string) (o : dict V) : option V :=
  match o with
  | [] => None
  | (k', v) :: o' => if String.eqb k k' then Some v else own k o'
  end.

Definition keys {V : Type} (o : dict V) : list string := map fst o.

(** The names every object created by [{}] inherits. *)
Definition prototype_names : list string :=
  [ "constructor"; "__defineGetter__"; "__defineSetter__"; "hasOwnProperty";
    "__lookupGetter__"; "__lookupSetter__"; "isPrototypeOf";
    "propertyIsEnumerable"; "toString"; "valueOf"; "__proto__";
    "toLocaleString" ]%string.

Definition inherited (k : string) : bool :=
  existsb (String.eqb k) prototype_names.

(** What an inherited member converts to when used as a primitive. *)
Definition inherited_text (k : string) : string :=
  if String.eqb k "__proto__" then "[object Object]"
  else if String.eqb k "constructor" then "function Object() { [native code] }"
  else "function " ++ k ++ "() { [native code] }".

Fixpoint replace {V : Type} (k : string) (v : V) (o : dict V) : dict V :=
  match o with
  | [] => []
  | (k', v') :: o' =>
      if String.eqb k k' then (k', v) :: o' else (k', v') :: replace k v o'
  end.

(** A new index key goes before the first key that is not an index or is a
    larger index. *)
Fixpoint insert_index {V : Type} (i : Z) (k : string) (v : V) (o : dict V) : dict V :=
  match o with
  | [] => [(k, v)]
  | (k', v') :: o' =>
      match array_index k' with
      | Some j => if (j <? i)%Z then (k', v') :: insert_index i k v o'
                  else (k, v) :: o
      | None => (k, v) :: o
      end
  end.

Definition insert_new {V : Type} (k : string) (v : V) (o : dict V) : dict V :=
  match array_index k with
  | Some i => insert_index i k v o
  | None => o ++ [(k, v)]
  end.

(** Defining the own property [k]: a computed key of an object literal,
    or an assignment to a key other than [__proto__]. *)
Definition define {V : Type} (k : string) (v : V) (o : dict V) : dict V :=
  match own k o with
  | Some _ => replace k v o
  | None => insert_new k v o
  end.

(** [o[k] = v] for a primitive [v]: the [__proto__] setter ignores it. *)
Definition assign {V : Type} (k : string) (v : V) (o : dict V) : dict V :=
  if String.eqb k "__proto__" then o else define k v o.

(** A row: [row[col]] reads the own property, else the inherited one. *)
Definition row : Type := dict value.

Definition get (r : row) (col : string) : value :=
  match own col r with
  | Some v => v
  | None => if inherited col then VObject (inherited_text col) else VUndefined
  end.

(* ------------------------------------------------------------------- *)
(** ** Array methods *)

(** [a || b] on the result of [find] or of an index: [undefined] and the
    empty string are falsy. *)
Definition name_truthy (a : option string) : bool :=
  match a with
  | Some s => negb (JsStr.is_empty s)
  | None => false
  end.

Definition name_or (a b : option string) : option string :=
  if name_truthy a then a else b.

(** [xs.slice(0, n)] *)
Definition slice0 {A : Type} (n : nat) (xs : list A) : list A := firstn n xs.

(** [new Set(xs).size] for strings *)
Fixpoint distinct (xs : list string) : list string :=
  match xs with
  | [] => []
  | x :: xs' => x :: filter (fun y => negb (String.eqb x y)) (distinct xs')
  end.

Definition set_size (xs : list string) : nat := List.length (distinct xs).

(** [xs.sort(comparefn)]: the sort is stable; [after a b] says that
    [comparefn(a, b) > 0], that is, [a] has to come after [b]. *)
Section Sort.
Context {A : Type} (after : A -> A -> bool).

Fixpoint insert_sorted (x : A) (l : list A) : list A :=
  match l with
  | [] => [x]
  | y :: l' => if after x y then y :: insert_sorted x l' else x :: l
  end.

Fixpoint sort (l : list A) : list A :=
  match l with
  | [] => []
  | x :: l' => insert_sorted x (sort l')
  end.
End Sort.

End Js.


(* ===================================================================== *)
(** * shared/schema.ts *)
(* ===================================================================== *)

Module Schema.

Inductive ColumnType : Type := TNumber | TString | TDate | TBoolean.

Definition ColumnType_eqb (a b : ColumnType) : bool :=
  match a, b with
  | TNumber, TNumber | TString, TString | TDate, TDate | TBoolean, TBoolean => true
  | _, _ => false
  end.

Record ParsedData : Type := {
  columns : list string;
  rows : list Js.row;
  columnTypes : Js.dict ColumnType
}.

(** [columnTypes[col] === 'ty']: an inherited member is never a type name. *)
Definition has_type (pd : ParsedData) (ty : ColumnType) (col : string) : bool :=
  match Js.own col (columnTypes pd) with
  | Some t => ColumnType_eqb t ty
  | None => false
  end.

Inductive ChartType : Type := Bar | Line | Pie | Scatter | Area.

Definition ChartType_name (t : ChartType) : string :=
  match t with
  | Bar => "bar" | Line => "line" | Pie => "pie"
  | Scatter => "scatter" | Area => "area"
  end.

Record ChartConfig : Type := {
  id : string;
  type : ChartType;
  title : string;
  xAxis : option string;
  yAxis : option string;
  dataKey : option string;
  data : list (Js.dict Js.value)
}.

End Schema.

(* ===================================================================== *)
(** * server/ml-chart-recommender.ts *)
(* ===================================================================== *)

#[local] Set Warnings "-inexact-float".

Module Recommender.

Import Regex.

(** [/^empty\d+$/i] and [/^column\d+$/i] *)
Definition re_empty : re := anchored (Seq (lit "empty") (plus Digit)).
Definition re_column : re := anchored (Seq (lit "column") (plus Digit)).

(** [!/^empty\d+$/i.test(col) && !/^column\d+$/i.test(col)] *)
Definition notPlaceholder (col : string) : bool :=
  negb (test re_empty col) && negb (test re_column col).

Definition IDENTIFIER_PATTERNS : list re :=
  [ anchored (Seq (lit "sl") (Seq (opt (Chr "_")) (lit "no")));   (* /^sl_?no$/i *)
    anchored (lit "id");                                          (* /^id$/i *)
    at_end (lit "_id");                                           (* /_id$/i *)
    at_start (Seq (lit "serial") (Seq (opt (Chr "_")) (lit "no"))); (* /^serial_?no/i *)
    anchored (lit "index") ].                                     (* /^index$/i *)

Definition isIdentifierColumn (columnName : string) : bool :=
  existsb (fun pattern => test pattern columnName) IDENTIFIER_PATTERNS.

Definition words (ws : list string) : re := anywhere (alts (map lit ws)).

(** [/date|time|year|month|day|week|quarter/i] *)
Definition re_time : re :=
  words ["date"; "time"; "year"; "month"; "day"; "week"; "quarter"]%string.
(** [/date|time|year|month|day/i] *)
Definition re_time_area : re :=
  words ["date"; "time"; "year"; "month"; "day"]%string.
Definition re_date_kw : re :=
  words ["date"; "time"; "year"; "month"; "day"; "week"; "quarter"; "period"]%string.
Definition re_time_kw : re :=
  words ["time"; "hour"; "minute"; "second"; "timestamp"]%string.
Definition re_category_kw : re :=
  words ["category"; "type"; "class"; "group"; "status"; "label"; "name"]%string.
Definition re_metric_kw : re :=
  words ["value"; "amount"; "price"; "cost"; "revenue"; "sales"; "count";
         "total"; "sum"; "avg"; "average"; "metric"; "score"; "rating"]%string.

Record DataFeatures : Type := {
  numNumericColumns : nat;
  numStringColumns : nat;
  numDateColumns : nat;
  numBooleanColumns : nat;
  totalColumns : nat;
  totalRows : nat;
  hasTimeSeries : bool;
  hasCategoricalData : bool;
  hasMultipleMetrics : bool;
  dataCompleteness : float;
  uniqueValueRatio : float;
  valueRange : float;
  valueVariance : float;
  hasDateKeywords : bool;
  hasTimeKeywords : bool;
  hasCategoryKeywords : bool;
  hasMetricKeywords : bool
}.

(** [new Set(rows.map(r => String(r[col] || ''))).size] *)
Definition uniqueCount (rows : list Js.row) (col : string) : nat :=
  Js.set_size
    (map (fun r => Js.ToString (Js.or_else (Js.get r col) (Js.VStr EmptyString))) rows).

(** [row[col] !== null && row[col] !== undefined && row[col] !== ''] *)
Definition filled (v : Js.value) : bool :=
  Js.not_nullish v && negb (Js.is_str v EmptyString).

(** [Math.pow(d, 2)] *)
Definition square (d : float) : float := PrimFloat.mul d d.

Definition extractFeatures (parsedData : Schema.ParsedData) : DataFeatures :=
  let columns := Schema.columns parsedData in
  let rows := Schema.rows parsedData in
  let numericColumns := filter (Schema.has_type parsedData Schema.TNumber) columns in
  let stringColumns := filter (Schema.has_type parsedData Schema.TString) columns in
  let dateColumns := filter (Schema.has_type parsedData Schema.TDate) columns in
  let booleanColumns := filter (Schema.has_type parsedData Schema.TBoolean) columns in
  let uniqueRatios :=
    map (fun col =>
           PrimFloat.div (JsNum.of_nat (uniqueCount rows col))
                         (JsNum.of_nat (Nat.max (List.length rows) 1)))
        columns in
  let avgUniqueRatio :=
    PrimFloat.div (JsNum.sum uniqueRatios) (JsNum.of_nat (List.length uniqueRatios)) in
  let stats :=
    flat_map (fun col =>
      let values :=
        filter (fun v => negb (JsNum.isNaN v))
               (map (fun r => Js.ToNumber (Js.get r col)) rows) in
      match values with
      | [] => []
      | _ =>
          let min := JsNum.math_min values in
          let max := JsNum.math_max values in
          let len := JsNum.of_nat (List.length values) in
          let mean := PrimFloat.div (JsNum.sum values) len in
          let variance :=
            PrimFloat.div
              (fold_left (fun sum v => PrimFloat.add sum (square (PrimFloat.sub v mean)))
                         values PrimFloat.zero)
              len in
          [(PrimFloat.sub max min, variance)]
      end) numericColumns in
  let ranges := map fst stats in
  let variances := map snd stats in
  let average := fun xs : list float =>
    match xs with
    | [] => PrimFloat.zero
    | _ => PrimFloat.div (JsNum.sum xs) (JsNum.of_nat (List.length xs))
    end in
  let hasTimeSeries :=
    Nat.ltb 0 (List.length dateColumns) || existsb (test re_time) columns in
  let hasCategoricalData :=
    Nat.ltb 0 (List.length stringColumns)
    && existsb (fun col =>
                  PrimFloat.ltb (JsNum.of_nat (uniqueCount rows col))
                                (PrimFloat.mul (JsNum.of_nat (List.length rows)) 0.5))
               stringColumns in
  let totalCells := List.length rows * List.length columns in
  let filledCells :=
    List.length
      (flat_map (fun r => filter (fun col => filled (Js.get r col)) columns) rows) in
  let dataCompleteness :=
    if Nat.ltb 0 totalCells
    then PrimFloat.div (JsNum.of_nat filledCells) (JsNum.of_nat totalCells)
    else PrimFloat.one in
  let columnNamesLower := map JsStr.toLowerCase columns in
  {| numNumericColumns := List.length numericColumns;
     numStringColumns := List.length stringColumns;
     numDateColumns := List.length dateColumns;
     numBooleanColumns := List.length booleanColumns;
     totalColumns := List.length columns;
     totalRows := List.length rows;
     hasTimeSeries := hasTimeSeries;
     hasCategoricalData := hasCategoricalData;
     hasMultipleMetrics := Nat.ltb 1 (List.length numericColumns);
     dataCompleteness := dataCompleteness;
     uniqueValueRatio := avgUniqueRatio;
     valueRange := average ranges;
     valueVariance := average variances;
     hasDateKeywords := existsb (test re_date_kw) columnNamesLower;
     hasTimeKeywords := existsb (test re_time_kw) columnNamesLower;
     hasCategoryKeywords := existsb (test re_category_kw) columnNamesLower;
     hasMetricKeywords := existsb (test re_metric_kw) columnNamesLower |}.

Record ChartRecommendation : Type := {
  chartType : Schema.ChartType;
  confidence : float;
  xAxis : option string;
  yAxis : option string;
  dataKey : option string;
  title : string;
  reasoning : string
}.

Definition name_neqb (a : string) (b : option string) : bool :=
  match b with Some s => negb (String.eqb a s) | None => true end.

(** [uniqueCount >= 2 && uniqueCount <= 20 && uniqueCount < rows.length * 0.7] *)
Definition fewCategories (rows : list Js.row) (col : string) : bool :=
  let uniqueCount := uniqueCount rows col in
  Nat.leb 2 uniqueCount && Nat.leb uniqueCount 20
  && PrimFloat.ltb (JsNum.of_nat uniqueCount)
                   (PrimFloat.mul (JsNum.of_nat (List.length rows)) 0.7).

(** Recommendation 1 *)
Definition barRule (parsedData : Schema.ParsedData) (features : DataFeatures)
  : list ChartRecommendation :=
  let columns := Schema.columns parsedData in
  let rows := Schema.rows parsedData in
  let numericColumns := filter (Schema.has_type parsedData Schema.TNumber) columns in
  let stringColumns := filter (Schema.has_type parsedData Schema.TString) columns in
  if hasCategoricalData features && Nat.ltb 0 (numNumericColumns features) then
    let goodStringColumns := filter (fun col => negb (isIdentifierColumn col)) stringColumns in
    let goodNumericColumns := filter (fun col => negb (isIdentifierColumn col)) numericColumns in
    let categoryCol :=
      Js.name_or (find (fewCategories rows) goodStringColumns)
        (Js.name_or (find (fun col => Nat.ltb 1 (uniqueCount rows col)) goodStringColumns)
           (Js.name_or (find (fewCategories rows) stringColumns)
              (hd_error stringColumns))) in
    let valueCol :=
      Js.name_or (find notPlaceholder goodNumericColumns)
        (Js.name_or (find notPlaceholder numericColumns) (hd_error numericColumns)) in
    match categoryCol, valueCol with
    | Some category, Some value =>
        if negb (JsStr.is_empty category) && negb (JsStr.is_empty value)
           && negb (isIdentifierColumn category)
           && negb (isIdentifierColumn value)
           && negb (test re_empty category)
           && negb (test re_column category)
        then
          [ {| chartType := Schema.Bar;
               confidence := 0.95;
               xAxis := Some category;
               yAxis := Some value;
               dataKey := None;
               title := value ++ " by " ++ category;
               reasoning := "Categorical data with numeric metrics - ideal for bar charts showing comparisons" |} ]
        else []
    | _, _ => []
    end
  else [].

(** The two columns recommendation 1 resolves before its guard. *)
Module BarRule.

(** [categoryCol] *)
Definition categoryCol (parsedData : Schema.ParsedData) : option string :=
  let columns := Schema.columns parsedData in
  let rows := Schema.rows parsedData in
  let stringColumns := filter (Schema.has_type parsedData Schema.TString) columns in
  let goodStringColumns := filter (fun col => negb (isIdentifierColumn col)) stringColumns in
  Js.name_or (find (fewCategories rows) goodStringColumns)
    (Js.name_or (find (fun col => Nat.ltb 1 (uniqueCount rows col)) goodStringColumns)
       (Js.name_or (find (fewCategories rows) stringColumns)
          (hd_error stringColumns))).

(** [valueCol] *)
Definition valueCol (parsedData : Schema.ParsedData) : option string :=
  let columns := Schema.columns parsedData in
  let numericColumns := filter (Schema.has_type parsedData Schema.TNumber) columns in
  let goodNumericColumns := filter (fun col => negb (isIdentifierColumn col)) numericColumns in
  Js.name_or (find notPlaceholder goodNumericColumns)
    (Js.name_or (find notPlaceholder numericColumns) (hd_error numericColumns)).

End BarRule.

(** Recommendation 2 *)
Definition lineRule (parsedData : Schema.ParsedData) (features : DataFeatures)
  : list ChartRecommendation :=
  let columns := Schema.columns parsedData in
  let numericColumns := filter (Schema.has_type parsedData Schema.TNumber) columns in
  let dateColumns := filter (Schema.has_type parsedData Schema.TDate) columns in
  let goodNumericColumns := filter (fun col => negb (isIdentifierColumn col)) numericColumns in
  if hasTimeSeries features && Nat.ltb 0 (numNumericColumns features) then
    let timeCol :=
      Js.name_or (hd_error dateColumns)
        (Js.name_or (find (fun col => test re_time col && negb (isIdentifierColumn col)) columns)
           (Js.name_or (hd_error goodNumericColumns) (hd_error numericColumns))) in
    let valueCol :=
      Js.name_or (find (fun col => name_neqb col timeCol) goodNumericColumns)
        (Js.name_or
           (find (fun col => name_neqb col timeCol && negb (isIdentifierColumn col))
                 numericColumns)
           (hd_error numericColumns)) in
    match valueCol with
    | Some value =>
        if Js.name_truthy timeCol && negb (JsStr.is_empty value)
           && negb (isIdentifierColumn value)
        then
          [ {| chartType := Schema.Line;
               confidence := 0.95;
               xAxis := timeCol;
               yAxis := Some value;
               dataKey := None;
               title := value ++ " over Time";
               reasoning := "Time series data detected - line chart shows trends over time" |} ]
        else []
    | None => []
    end
  else if Nat.leb 2 (numNumericColumns features) && Nat.ltb 10 (totalRows features) then
    match goodNumericColumns, numericColumns with
    | g0 :: g1 :: _, _ =>
        [ {| chartType := Schema.Line;
             confidence := 0.75;
             xAxis := Some g0;
             yAxis := Some g1;
             dataKey := None;
             title := g1 ++ " vs " ++ g0;
             reasoning := "Multiple numeric columns with sufficient data points for trend analysis" |} ]
    | _, n0 :: n1 :: _ =>
        [ {| chartType := Schema.Line;
             confidence := 0.65;
             xAxis := Some n0;
             yAxis := Some n1;
             dataKey := None;
             title := n1 ++ " vs " ++ n0;
             reasoning := "Multiple numeric columns with sufficient data points for trend analysis" |} ]
    | _, _ => []
    end
  else [].

(** [uniqueCount >= 2 && uniqueCount <= 10] *)
Definition pieCategories (rows : list Js.row) (col : string) : bool :=
  Nat.leb 2 (uniqueCount rows col) && Nat.leb (uniqueCount rows col) 10.

(** Recommendation 3 *)
Definition pieRule (parsedData : Schema.ParsedData) (features : DataFeatures)
  : list ChartRecommendation :=
  let columns := Schema.columns parsedData in
  let rows := Schema.rows parsedData in
  let numericColumns := filter (Schema.has_type parsedData Schema.TNumber) columns in
  let stringColumns := filter (Schema.has_type parsedData Schema.TString) columns in
  if hasCategoricalData features && Nat.ltb 0 (List.length stringColumns)
     && Nat.eqb (List.length numericColumns) 0 then
    let goodStringColumns := filter (fun col => negb (isIdentifierColumn col)) stringColumns in
    let categoryCol :=
      Js.name_or (find (pieCategories rows) goodStringColumns)
        (Js.name_or
           (find (fun col => pieCategories rows col && negb (isIdentifierColumn col))
                 stringColumns)
           (hd_error stringColumns)) in
    match categoryCol with
    | Some category =>
        if negb (JsStr.is_empty category) && negb (isIdentifierColumn category)
           && pieCategories rows category
           && Nat.eqb (List.length numericColumns) 0
        then
          [ {| chartType := Schema.Pie;
               confidence := 0.65;
               xAxis := None;
               yAxis := None;
               dataKey := Some "value"%string;
               title := "Distribution of " ++ category;
               reasoning := "Categorical distribution with "
                            ++ JsStr.of_nat (uniqueCount rows category)
                            ++ " categories - suitable for pie chart" |} ]
        else []
    | None => []
    end
  else [].

(** Recommendation 4 *)
Definition scatterRule (parsedData : Schema.ParsedData) (features : DataFeatures)
  : list ChartRecommendation :=
  let columns := Schema.columns parsedData in
  let numericColumns := filter (Schema.has_type parsedData Schema.TNumber) columns in
  if Nat.leb 2 (numNumericColumns features) && Nat.leb 20 (totalRows features) then
    let goodNumericColumns := filter (fun col => negb (isIdentifierColumn col)) numericColumns in
    match goodNumericColumns, numericColumns with
    | g0 :: g1 :: _, _ =>
        [ {| chartType := Schema.Scatter;
             confidence := 0.8;
             xAxis := Some g0;
             yAxis := Some g1;
             dataKey := None;
             title := g0 ++ " vs " ++ g1;
             reasoning := "Two numeric variables with sufficient data points - ideal for correlation analysis" |} ]
    | _, n0 :: n1 :: _ =>
        [ {| chartType := Schema.Scatter;
             confidence := 0.6;
             xAxis := Some n0;
             yAxis := Some n1;
             dataKey := None;
             title := n0 ++ " vs " ++ n1;
             reasoning := "Two numeric variables with sufficient data points - ideal for correlation analysis" |} ]
    | _, _ => []
    end
  else [].

(** Recommendation 5 *)
Definition areaRule (parsedData : Schema.ParsedData) (features : DataFeatures)
  : list ChartRecommendation :=
  let columns := Schema.columns parsedData in
  let numericColumns := filter (Schema.has_type parsedData Schema.TNumber) columns in
  let dateColumns := filter (Schema.has_type parsedData Schema.TDate) columns in
  if hasTimeSeries features && Nat.ltb 0 (numNumericColumns features) then
    let goodNumericColumns := filter (fun col => negb (isIdentifierColumn col)) numericColumns in
    let timeCol :=
      Js.name_or (hd_error dateColumns)
        (find (fun col => test re_time_area col && negb (isIdentifierColumn col)) columns) in
    let valueCol := Js.name_or (hd_error goodNumericColumns) (hd_error numericColumns) in
    match valueCol with
    | Some value =>
        if Js.name_truthy timeCol && negb (JsStr.is_empty value)
           && negb (isIdentifierColumn value)
        then
          [ {| chartType := Schema.Area;
               confidence := 0.7;
               xAxis := timeCol;
               yAxis := Some value;
               dataKey := None;
               title := value ++ " Trend (Area)";
               reasoning := "Time series data - area chart emphasizes volume and trends" |} ]
        else []
    | None => []
    end
  else [].

(** The candidates in the order the rules push them. *)
Definition recommendations (parsedData : Schema.ParsedData) (features : DataFeatures)
  : list ChartRecommendation :=
  barRule parsedData features ++ lineRule parsedData features
  ++ pieRule parsedData features ++ scatterRule parsedData features
  ++ areaRule parsedData features.

(** [(a, b) => b.confidence - a.confidence] is positive *)
Definition byConfidence (a b : ChartRecommendation) : bool :=
  PrimFloat.ltb PrimFloat.zero (PrimFloat.sub (confidence b) (confidence a)).

Definition recommendCharts (parsedData : Schema.ParsedData) (features : DataFeatures)
  : list ChartRecommendation :=
  Js.sort byConfidence (recommendations parsedData features).

(* ------------------------------------------------------------------- *)
(** ** generateChart *)

(** [String(row[axis] || 'Unknown').trim()] *)
Definition category_of (axis : string) (r : Js.row) : string :=
  JsStr.trim (Js.ToString (Js.or_else (Js.get r axis) (Js.VStr "Unknown"))).

(** [Number(row[axis]) || 0] *)
Definition value_of (axis : string) (r : Js.row) : float :=
  let n := Js.ToNumber (Js.get r axis) in
  if JsNum.truthy n then n else PrimFloat.zero.

(** One turn of the loop that fills [aggregated]: an inherited member is
    truthy, so no array is created for it, and it has no [push]. *)
Definition aggregate_step (x y : string) (acc : Js.outcome (Js.dict (list float)))
  (r : Js.row) : Js.outcome (Js.dict (list float)) :=
  Js.bind acc (fun aggregated =>
    let category := category_of x r in
    let value := value_of y r in
    match Js.own category aggregated with
    | Some values => Js.Returned (Js.replace category (values ++ [value]) aggregated)
    | None =>
        if Js.inherited category
        then Js.Threw "TypeError: aggregated[category].push is not a function"
        else Js.Returned (Js.define category [value] aggregated)
    end).

Definition aggregate (x y : string) (rows : list Js.row)
  : Js.outcome (Js.dict (list float)) :=
  fold_left (aggregate_step x y) rows (Js.Returned []).

(** [values.reduce((a, b) => a + b, 0) / values.length] *)
Definition mean (values : list float) : float :=
  PrimFloat.div (JsNum.sum values) (JsNum.of_nat (List.length values)).

(** [{ [finalXAxis]: category, [finalYAxis]: mean }] *)
Definition barEntry (x y : string) (entry : string * list float) : Js.dict Js.value :=
  Js.define y (Js.VNum (mean (snd entry))) (Js.define x (Js.VStr (fst entry)) []).

(** A counter of the pie chart.  A counter that is a number is an integer
    bounded by the length of [rows], hence below [2^32]; it is kept as a
    [nat].  [Text] is what [+ 1] makes of a value that is no number. *)
Inductive counter : Type :=
| Count (n : nat)
| Text (s : string).

(** [(counts[value] || 0) + 1] *)
Definition bump (counts : Js.dict counter) (value : string) : counter :=
  match Js.own value counts with
  | Some (Count n) => Count (n + 1)
  | Some (Text s) => if JsStr.is_empty s then Count 1 else Text (s ++ "1")
  | None =>
      if Js.inherited value then Text (Js.inherited_text value ++ "1")
      else Count 1
  end.

Definition count_step (x : string) (counts : Js.dict counter) (r : Js.row)
  : Js.dict counter :=
  let value := category_of x r in
  if negb (JsStr.is_empty value) && negb (String.eqb value "Unknown")
  then Js.assign value (bump counts value) counts
  else counts.

Definition countValues (x : string) (rows : list Js.row) : Js.dict counter :=
  fold_left (count_step x) rows [].

Definition counter_value (c : counter) : Js.value :=
  match c with
  | Count n => Js.VNum (JsNum.of_nat n)
  | Text s => Js.VStr s
  end.

(** [(a, b) => b.value - a.value] is positive *)
Definition byCount (a b : string * counter) : bool :=
  match snd a, snd b with
  | Count m, Count n => Nat.ltb m n
  | _, _ =>
      PrimFloat.ltb PrimFloat.zero
        (PrimFloat.sub (Js.ToNumber (counter_value (snd b)))
                       (Js.ToNumber (counter_value (snd a))))
  end.

(** The entries of the pie chart, sorted and capped. *)
Definition pieEntries (x : string) (rows : list Js.row) : list (string * counter) :=
  Js.slice0 15 (Js.sort byCount (countValues x rows)).

(** [{ name, value }] *)
Definition pieEntry (entry : string * counter) : Js.dict Js.value :=
  [("name"%string, Js.VStr (fst entry)); ("value"%string, counter_value (snd entry))].

(** The filter of the scatter and line charts. *)
Definition validPair (x y : string) (r : Js.row) : bool :=
  let xVal := Js.get r x in
  let yVal := Js.get r y in
  Js.not_nullish xVal && Js.not_nullish yVal
  && negb (Js.isNaN xVal) && negb (Js.isNaN yVal).

(** [{ [finalXAxis]: Number(row[finalXAxis]), [finalYAxis]: Number(row[finalYAxis]) }] *)
Definition pointEntry (x y : string) (r : Js.row) : Js.dict Js.value :=
  Js.define y (Js.VNum (Js.ToNumber (Js.get r y)))
    (Js.define x (Js.VNum (Js.ToNumber (Js.get r x))) []).

Definition pointLimit (chartType : Schema.ChartType) : nat :=
  match chartType with Schema.Scatter => 200 | _ => 100 end.

Definition points (chartType : Schema.ChartType) (x y : string) (rows : list Js.row)
  : list (Js.dict Js.value) :=
  Js.slice0 (pointLimit chartType) (map (pointEntry x y) (filter (validPair x y) rows)).

Section Axes.
Variable parsedData : Schema.ParsedData.

Let columns := Schema.columns parsedData.
Let numericColumns := filter (Schema.has_type parsedData Schema.TNumber) columns.
Let stringColumns := filter (Schema.has_type parsedData Schema.TString) columns.
Let goodNumericColumns := filter (fun col => negb (isIdentifierColumn col)) numericColumns.
Let goodStringColumns := filter (fun col => negb (isIdentifierColumn col)) stringColumns.

(** [if (!axis) axis = fallback] *)
Definition resolve (axis fallback : option string) : option string :=
  if Js.name_truthy axis then axis else fallback.

Definition defaultCategory : option string :=
  Js.name_or (find notPlaceholder goodStringColumns)
    (Js.name_or (find notPlaceholder stringColumns) (hd_error stringColumns)).

Definition defaultValue : option string :=
  Js.name_or (find notPlaceholder goodNumericColumns)
    (Js.name_or (find notPlaceholder numericColumns) (hd_error numericColumns)).

Definition defaultSecond (finalXAxis : option string) : option string :=
  Js.name_or
    (find (fun col => name_neqb col finalXAxis && notPlaceholder col) goodNumericColumns)
    (Js.name_or
       (find (fun col => name_neqb col finalXAxis && notPlaceholder col) numericColumns)
       (Js.name_or (nth_error numericColumns 1) (hd_error numericColumns))).

(** [if (data.length === 0) return null; return { id: ..., ... }] *)
Definition finish (now : Z) (chartType : Schema.ChartType) (title : string)
  (finalXAxis finalYAxis finalDataKey : option string)
  (data : list (Js.dict Js.value)) : option Schema.ChartConfig :=
  match data with
  | [] => None
  | _ =>
      Some {| Schema.id := Schema.ChartType_name chartType ++ "-" ++ JsStr.of_Z now;
              Schema.type := chartType;
              Schema.title := title;
              Schema.xAxis := finalXAxis;
              Schema.yAxis := finalYAxis;
              Schema.dataKey := finalDataKey;
              Schema.data := data |}
  end.

(** [now] is the value [Date.now()] returns during the call. *)
Definition generateChart (now : Z) (chartType : Schema.ChartType)
  (xAxis yAxis dataKey : option string) : Js.outcome (option Schema.ChartConfig) :=
  let rows := Schema.rows parsedData in
  match chartType with
  | Schema.Bar =>
      let finalXAxis := resolve xAxis defaultCategory in
      let finalYAxis := resolve yAxis defaultValue in
      match finalXAxis, finalYAxis with
      | Some x, Some y =>
          if JsStr.is_empty x || JsStr.is_empty y then Js.Returned None
          else
            Js.bind (aggregate x y rows) (fun aggregated =>
              Js.Returned
                (finish now chartType (y ++ " by " ++ x) finalXAxis finalYAxis dataKey
                   (Js.slice0 20 (map (barEntry x y) aggregated))))
      | _, _ => Js.Returned None
      end
  | Schema.Pie =>
      let finalXAxis := resolve xAxis defaultCategory in
      match finalXAxis with
      | Some x =>
          if JsStr.is_empty x then Js.Returned None
          else
            Js.Returned
              (finish now chartType ("Distribution of " ++ x) finalXAxis yAxis
                 (Some "value"%string) (map pieEntry (pieEntries x rows)))
      | None => Js.Returned None
      end
  | Schema.Scatter | Schema.Line =>
      let finalXAxis := resolve xAxis defaultValue in
      let finalYAxis := resolve yAxis (defaultSecond finalXAxis) in
      match finalXAxis, finalYAxis with
      | Some x, Some y =>
          if JsStr.is_empty x || JsStr.is_empty y then Js.Returned None
          else
            Js.Returned
              (finish now chartType
                 (match chartType with
                  | Schema.Scatter => y ++ " vs " ++ x
                  | _ => y ++ " over " ++ x
                  end)
                 finalXAxis finalYAxis dataKey (points chartType x y rows))
      | _, _ => Js.Returned None
      end
  | Schema.Area => Js.Returned None
  end.
End Axes.

(* ------------------------------------------------------------------- *)
(** ** generateMLVisualizations *)

(** [const chart = generateChart(parsedData, chartType);
     if (chart) visualizations.push(chart);]
    [clock chartType] is the value [Date.now()] returns during the call
    for that chart type. *)
Definition pushChart (parsedData : Schema.ParsedData) (clock : Schema.ChartType -> Z)
  (chartType : Schema.ChartType) (visualizations : list Schema.ChartConfig)
  : Js.outcome (list Schema.ChartConfig) :=
  Js.bind (generateChart parsedData (clock chartType) chartType None None None)
    (fun chart =>
       Js.Returned
         match chart with
         | Some c => visualizations ++ [c]
         | None => visualizations
         end).

Definition generateMLVisualizations (parsedData : Schema.ParsedData)
  (clock : Schema.ChartType -> Z) : Js.outcome (list Schema.ChartConfig) :=
  let columns := Schema.columns parsedData in
  let numericColumns := filter (Schema.has_type parsedData Schema.TNumber) columns in
  let stringColumns := filter (Schema.has_type parsedData Schema.TString) columns in
  let goodNumericColumns := filter (fun col => negb (isIdentifierColumn col)) numericColumns in
  let goodStringColumns := filter (fun col => negb (isIdentifierColumn col)) stringColumns in
  let visualizations : list Schema.ChartConfig := [] in
  (* 1. Bar Chart *)
  Js.bind
    (if Nat.ltb 0 (List.length goodStringColumns)
        && Nat.ltb 0 (List.length goodNumericColumns)
     then pushChart parsedData clock Schema.Bar visualizations
     else if Nat.ltb 0 (List.length stringColumns)
             && Nat.ltb 0 (List.length numericColumns)
     then pushChart parsedData clock Schema.Bar visualizations
     else Js.Returned visualizations)
    (fun visualizations =>
  (* 2. Pie Chart *)
  Js.bind
    (if Nat.ltb 0 (List.length goodStringColumns)
     then pushChart parsedData clock Schema.Pie visualizations
     else if Nat.ltb 0 (List.length stringColumns)
     then pushChart parsedData clock Schema.Pie visualizations
     else Js.Returned visualizations)
    (fun visualizations =>
  (* 3. Scatter Plot *)
  Js.bind
    (if Nat.leb 2 (List.length goodNumericColumns)
     then pushChart parsedData clock Schema.Scatter visualizations
     else if Nat.leb 2 (List.length numericColumns)
     then pushChart parsedData clock Schema.Scatter visualizations
     else Js.Returned visualizations)
    (fun visualizations =>
  (* 4. Line Chart *)
  if Nat.leb 2 (List.length goodNumericColumns)
  then pushChart parsedData clock Schema.Line visualizations
  else if Nat.leb 2 (List.length numericColumns)
  then pushChart parsedData clock Schema.Line visualizations
  else Js.Returned visualizations))).

End Recommender.

(* ===================================================================== *)
(** * server/metrics-extractor.ts *)
(* ===================================================================== *)

Module Metrics.

(** [xs.reduce((sum, xi, i) => sum + xi * y[i], 0)] for arrays of one length *)
Definition sumProducts (x y : list float) : float :=
  fold_left (fun sum p => PrimFloat.add sum (PrimFloat.mul (fst p) (snd p)))
            (combine x y) PrimFloat.zero.

Definition sumSquares (x : list float) : float :=
  fold_left (fun sum xi => PrimFloat.add sum (PrimFloat.mul xi xi)) x PrimFloat.zero.

Definition numerator (x y : list float) : float :=
  let n := JsNum.of_nat (List.length x) in
  PrimFloat.sub (PrimFloat.mul n (sumProducts x y))
                (PrimFloat.mul (JsNum.sum x) (JsNum.sum y)).

Definition denominator (x y : list float) : float :=
  let n := JsNum.of_nat (List.length x) in
  let sumX := JsNum.sum x in
  let sumY := JsNum.sum y in
  PrimFloat.sqrt
    (PrimFloat.mul
       (PrimFloat.sub (PrimFloat.mul n (sumSquares x)) (PrimFloat.mul sumX sumX))
       (PrimFloat.sub (PrimFloat.mul n (sumSquares y)) (PrimFloat.mul sumY sumY))).

Definition calculateCorrelation (x y : list float) : float :=
  if negb (Nat.eqb (List.length x) (List.length y)) || Nat.eqb (List.length x) 0
  then PrimFloat.zero
  else if PrimFloat.eqb (denominator x y) PrimFloat.zero then PrimFloat.zero
  else JsNum.parseFloat
         (JsNum.toFixed3 (PrimFloat.div (numerator x y) (denominator x y))).

(** The pairs [(numericColumns[i], numericColumns[j])], [i < j], in the
    order the two loops visit them. *)
Fixpoint pairs (cols : list string) : list (string * string) :=
  match cols with
  | [] => []
  | col1 :: rest => map (pair col1) rest ++ pairs rest
  end.

(** The rows in which both columns convert to a number. *)
Definition jointValues (rows : list Js.row) (col1 col2 : string)
  : list (float * float) :=
  flat_map (fun r =>
    let v1 := Js.ToNumber (Js.get r col1) in
    let v2 := Js.ToNumber (Js.get r col2) in
    if negb (JsNum.isNaN v1) && negb (JsNum.isNaN v2) then [(v1, v2)] else []) rows.

(** [if (!correlations[col]) correlations[col] = {}]: an inherited member
    is truthy and nothing is created for it. *)
Definition ensure (col : string) (correlations : Js.dict (Js.dict float))
  : Js.dict (Js.dict float) :=
  match Js.own col correlations with
  | Some _ => correlations
  | None => if Js.inherited col then correlations
            else Js.define col [] correlations
  end.

(** [correlations[a][b] = r]: when [correlations[a]] is not an own
    property the write lands on the inherited object and the returned
    dictionary does not change. *)
Definition put (a b : string) (r : float) (correlations : Js.dict (Js.dict float))
  : Js.dict (Js.dict float) :=
  match Js.own a correlations with
  | Some inner => Js.replace a (Js.assign b r inner) correlations
  | None => correlations
  end.

Definition correlate (rows : list Js.row) (correlations : Js.dict (Js.dict float))
  (p : string * string) : Js.dict (Js.dict float) :=
  let (col1, col2) := p in
  let joint := jointValues rows col1 col2 in
  if Nat.ltb 1 (List.length joint) then
    let correlation := calculateCorrelation (map fst joint) (map snd joint) in
    put col2 col1 correlation
      (put col1 col2 correlation (ensure col2 (ensure col1 correlations)))
  else correlations.

(** The [correlations] object [extractMetrics] builds (lines 567-598). *)
Definition correlationsOf (parsedData : Schema.ParsedData) : Js.dict (Js.dict float) :=
  let numericColumns :=
    filter (Schema.has_type parsedData Schema.TNumber) (Schema.columns parsedData) in
  fold_left (correlate (Schema.rows parsedData)) (pairs numericColumns) [].

(** The [correlations] field of the value [extractMetrics] returns. *)
Definition extractMetrics_correlations (parsedData : Schema.ParsedData)
  : option (Js.dict (Js.dict float)) :=
  match correlationsOf parsedData with
  | [] => None
  | correlations => Some correlations
  end.

End Metrics.

(* ===================================================================== *)
(** * Type inference: server/file-parser.ts and server/pdf-extractor.ts *)
(* ===================================================================== *)

Module Inference.

Section Dates.
(** Whether [Date.parse] accepts a string: outside the ISO format the
    language leaves this to the implementation. *)
Variable dateParses : string -> bool.

(** [!isNaN(new Date(val).getTime())] *)
Definition validDate (val : Js.value) : bool :=
  match val with
  | Js.VUndefined => false
  | Js.VNull => true
  | Js.VBool _ => true
  | Js.VNum n => negb (PrimFloat.is_nan n) && PrimFloat.leb (PrimFloat.abs n) 8.64e15
  | Js.VStr s => dateParses s
  | Js.VObject text => dateParses text
  end.

(** [typeof val === 'boolean' || val === 'true' || val === 'false'
     || val === true || val === false] *)
Definition booleanLike (val : Js.value) : bool :=
  Js.is_boolean val || Js.is_str val "true" || Js.is_str val "false".

(* ----------------------------------------------------------------- *)
(** ** detectColumnTypes (file-parser.ts) *)

Definition sampleValues (rows : list Js.row) (column : string) : list Js.value :=
  filter (fun val => Js.not_nullish val && negb (Js.is_str val EmptyString))
         (map (fun r => Js.get r column) (Js.slice0 100 rows)).

Definition detectColumnType (rows : list Js.row) (column : string)
  : Schema.ColumnType :=
  let sampleValues := sampleValues rows column in
  match sampleValues with
  | [] => Schema.TString
  | _ =>
      if forallb (fun val => Js.is_number val || negb (Js.isNaN val)) sampleValues
      then Schema.TNumber
      else if forallb booleanLike sampleValues then Schema.TBoolean
      else if forallb validDate sampleValues then Schema.TDate
      else Schema.TString
  end.

Definition detectColumnTypes (rows : list Js.row) (columns : list string)
  : Js.dict Schema.ColumnType :=
  fold_left (fun types column => Js.assign column (detectColumnType rows column) types)
            columns [].

(* ----------------------------------------------------------------- *)
(** ** convertJsonToParsedData (pdf-extractor.ts), lines 356-429: the
    inference over the cleaned rows *)

(** [samples[col]] after the collecting loop. *)
Definition samplesOf (cleanedRows : list Js.row) (cleanedColumns : list string)
  (col : string) : list Js.value :=
  flat_map (fun r =>
    flat_map (fun c =>
      if String.eqb c col && Js.not_nullish (Js.get r c) then [Js.get r c] else [])
      cleanedColumns)
    (Js.slice0 (Nat.min 100 (List.length cleanedRows)) cleanedRows).

Definition numberLike (val : Js.value) : bool :=
  match val with
  | Js.VNum _ => true
  | Js.VStr s => negb (JsNum.isNaN (JsNum.ofString s))
                 && negb (JsStr.is_empty (JsStr.trim s))
  | _ => false
  end.

Definition dateLike (val : Js.value) : bool :=
  match val with
  | Js.VStr s => dateParses s && Nat.ltb 5 (String.length s)
  | _ => false
  end.

Definition inferSampleType (colSamples : list Js.value) : Schema.ColumnType :=
  match colSamples with
  | [] => Schema.TString
  | _ =>
      if forallb booleanLike colSamples then Schema.TBoolean
      else if forallb numberLike colSamples then Schema.TNumber
      else if forallb dateLike colSamples then Schema.TDate
      else Schema.TString
  end.

Definition convertJsonToParsedData_columnTypes
  (cleanedRows : list Js.row) (cleanedColumns : list string)
  : Js.dict Schema.ColumnType :=
  match cleanedRows with
  | [] => []
  | _ =>
      fold_left (fun columnTypes col =>
                   Js.assign col
                     (inferSampleType (samplesOf cleanedRows cleanedColumns col))
                     columnTypes)
                cleanedColumns []
  end.
End Dates.

End Inference.

(* ===================================================================== *)
(** * server/routes.ts: POST /api/analysis/:id/chart *)
(* ===================================================================== *)

Module Routes.

Inductive response : Type :=
| Json (chart : Schema.ChartConfig)              (* res.json(chart) *)
| Error (status : nat) (error : string).         (* res.status(..).json({ error }) *)

Record body : Type := {
  chartType : option string;
  xAxis : option string;
  yAxis : option string;
  dataKey : option string
}.

(** [['bar', 'line', 'pie', 'scatter'].includes(chartType)] *)
Definition requestedType (chartType : option string) : option Schema.ChartType :=
  match chartType with
  | Some s =>
      if String.eqb s "bar" then Some Schema.Bar
      else if String.eqb s "line" then Some Schema.Line
      else if String.eqb s "pie" then Some Schema.Pie
      else if String.eqb s "scatter" then Some Schema.Scatter
      else None
  | None => None
  end.

(** [columns.includes(axis)] *)
Definition includes (columns : list string) (axis : string) : bool :=
  existsb (String.eqb axis) columns.

(** [axis && !columns.includes(axis)] *)
Definition unknownAxis (columns : list string) (axis : option string) : bool :=
  match axis with
  | Some a => negb (JsStr.is_empty a) && negb (includes columns a)
  | None => false
  end.

Definition quote : string := String (ascii_of_nat 34) EmptyString.

Definition notFound (axis : option string) : string :=
  "Column " ++ quote ++ match axis with Some a => a | None => "undefined" end
  ++ quote ++ " not found in dataset".

(** The handler; [analysis] is what [storage.getAnalysis(id)] resolved to. *)
Definition createChart (now : Z) (analysis : option Schema.ParsedData) (req : body)
  : response :=
  match requestedType (chartType req) with
  | None => Error 400 "Valid chartType is required (bar, line, pie, scatter)"
  | Some chartType =>
      match analysis with
      | None => Error 404 "Analysis not found"
      | Some parsedData =>
          if unknownAxis (Schema.columns parsedData) (xAxis req) then
            Error 400 (notFound (xAxis req))
          else if unknownAxis (Schema.columns parsedData) (yAxis req) then
            Error 400 (notFound (yAxis req))
          else
            match Recommender.generateChart parsedData now chartType
                    (xAxis req) (yAxis req) (dataKey req) with
            | Js.Returned (Some chart) => Json chart
            | Js.Returned None =>
                Error 400 "Could not generate chart with selected axes. Check that axes are compatible with chart type."
            | Js.Threw _ => Error 500 "Failed to create chart"
            end
      end
  end.

End Routes.


(* ===================================================================== *)
(** * server/parsers.ts: generateVisualizations *)
(* ===================================================================== *)

Module Parsers.

(** [String(row[categoryCol] || "Unknown")] *)
Definition category_of (col : string) (r : Js.row) : string :=
  Js.ToString (Js.or_else (Js.get r col) (Js.VStr "Unknown")).

(** One turn of the loop of aggregateData. *)
Definition aggregate_step (categoryCol valueCol : string)
  (acc : Js.outcome (Js.dict (list float))) (r : Js.row)
  : Js.outcome (Js.dict (list float)) :=
  Js.bind acc (fun aggregated =>
    let category := category_of categoryCol r in
    let value := Recommender.value_of valueCol r in
    match Js.own category aggregated with
    | Some values => Js.Returned (Js.replace category (values ++ [value]) aggregated)
    | None =>
        if Js.inherited category
        then Js.Threw "TypeError: aggregated[category].push is not a function"
        else Js.Returned (Js.define category [value] aggregated)
    end).

Definition aggregateData (rows : list Js.row) (categoryCol valueCol : string)
  : Js.outcome (list (Js.dict Js.value)) :=
  Js.bind (fold_left (aggregate_step categoryCol valueCol) rows (Js.Returned []))
    (fun aggregated =>
       Js.Returned (map (Recommender.barEntry categoryCol valueCol) aggregated)).

(** [counts[value] = (counts[value] || 0) + 1] *)
Definition count_step (column : string) (counts : Js.dict Recommender.counter)
  (r : Js.row) : Js.dict Recommender.counter :=
  let value := category_of column r in
  Js.assign value (Recommender.bump counts value) counts.

Definition calculateDistribution (rows : list Js.row) (column : string)
  : list (Js.dict Js.value) :=
  map Recommender.pieEntry
    (Js.sort Recommender.byCount (fold_left (count_step column) rows [])).

(** The rule-based charts. *)
Definition ruleBased (parsedData : Schema.ParsedData)
  : Js.outcome (list Schema.ChartConfig) :=
  let columns := Schema.columns parsedData in
  let rows := Schema.rows parsedData in
  let numericColumns := filter (Schema.has_type parsedData Schema.TNumber) columns in
  let stringColumns := filter (Schema.has_type parsedData Schema.TString) columns in
  Js.bind
    match stringColumns, numericColumns with
    | categoryCol :: _, valueCol :: _ =>
        Js.bind (aggregateData rows categoryCol valueCol) (fun aggregated =>
          Js.Returned
            [ {| Schema.id := "bar-1";
                 Schema.type := Schema.Bar;
                 Schema.title := valueCol ++ " by " ++ categoryCol;
                 Schema.xAxis := Some categoryCol;
                 Schema.yAxis := Some valueCol;
                 Schema.dataKey := None;
                 Schema.data := Js.slice0 15 aggregated |} ])
    | _, _ => Js.Returned []
    end
    (fun bars =>
       let lines :=
         match numericColumns with
         | n0 :: n1 :: _ =>
             [ {| Schema.id := "line-1";
                  Schema.type := Schema.Line;
                  Schema.title := n1 ++ " over " ++ n0;
                  Schema.xAxis := Some n0;
                  Schema.yAxis := Some n1;
                  Schema.dataKey := None;
                  Schema.data := Js.slice0 50 rows |} ]
         | _ => []
         end in
       let pies :=
         match stringColumns with
         | categoryCol :: _ =>
             [ {| Schema.id := "pie-1";
                  Schema.type := Schema.Pie;
                  Schema.title := "Distribution of " ++ categoryCol;
                  Schema.xAxis := None;
                  Schema.yAxis := None;
                  Schema.dataKey := Some "value"%string;
                  Schema.data := Js.slice0 10 (calculateDistribution rows categoryCol) |} ]
         | [] => []
         end in
       let scatters :=
         match numericColumns with
         | n0 :: n1 :: _ =>
             [ {| Schema.id := "scatter-1";
                  Schema.type := Schema.Scatter;
                  Schema.title := n0 ++ " vs " ++ n1;
                  Schema.xAxis := Some n0;
                  Schema.yAxis := Some n1;
                  Schema.dataKey := None;
                  Schema.data := Js.slice0 100 rows |} ]
         | _ => []
         end in
       Js.Returned (bars ++ lines ++ pies ++ scatters)).

(** [try { ... if (mlVisualizations.length > 0) return mlVisualizations }
     catch (error) { console.warn(...) }]: what the ML path hands back. *)
Definition mlVisualizations (parsedData : Schema.ParsedData)
  (clock : Schema.ChartType -> Z) (useML : bool) : option (list Schema.ChartConfig) :=
  if useML then
    match Recommender.generateMLVisualizations parsedData clock with
    | Js.Returned (chart :: charts) => Some (chart :: charts)
    | Js.Returned [] => None
    | Js.Threw _ => None
    end
  else None.

Definition generateVisualizations (parsedData : Schema.ParsedData)
  (clock : Schema.ChartType -> Z) (useML : bool)
  : Js.outcome (list Schema.ChartConfig) :=
  match mlVisualizations parsedData clock useML with
  | Some visualizations => Js.Returned visualizations
  | None => ruleBased parsedData
  end.

End Parsers.

(* ===================================================================== *)
(** * server/pdf-extractor.ts: cleaning the extracted table *)
(* ===================================================================== *)

#[local] Set Warnings "-register-all".

Module Extractor.

(** A value of the extracted table: what [JSON.parse] builds.  The fields
    of an object are its own properties. *)
Inductive json : Type :=
| JNull
| JBool (b : bool)
| JNum (n : float)
| JStr (s : string)
| JArray (items : list json)
| JObject (fields : list (string * json)).

(** The characters [.] does not match. *)
Definition is_line_terminator (c : ascii) : bool :=
  Nat.eqb (JsStr.code c) 10 || Nat.eqb (JsStr.code c) 13.

(** [/(Approx.)/i] matches at the head of [l]. *)
Definition approxAt (l : list ascii) : bool :=
  match l with
  | a :: p :: p' :: r :: o :: x :: d :: _ =>
      JsStr.ci_eqb a "A" && JsStr.ci_eqb p "p" && JsStr.ci_eqb p' "p"
      && JsStr.ci_eqb r "r" && JsStr.ci_eqb o "o" && JsStr.ci_eqb x "x"
      && negb (is_line_terminator d)
  | _ => false
  end.

(** [strVal.replace(/(Approx.)/i, "")]: the leftmost match is removed. *)
Fixpoint removeApprox (l : list ascii) : list ascii :=
  match l with
  | [] => []
  | c :: l' => if approxAt l then skipn 7 l else c :: removeApprox l'
  end.

(** [strVal === "---" || strVal === "-" || strVal === "NIL"
     || strVal === "NA" || strVal === ""] *)
Definition isMarker (strVal : string) : bool :=
  String.eqb strVal "---" || String.eqb strVal "-" || String.eqb strVal "NIL"
  || String.eqb strVal "NA" || String.eqb strVal EmptyString.

(** The last part of cleanValue, from [String(value).trim()] on. *)
Definition cleanText (text : string) : Js.value :=
  let strVal := JsStr.trim text in
  let strVal :=
    JsStr.of_list (filter (fun c => negb (Ascii.eqb c ",")) (JsStr.to_list strVal)) in
  let strVal := JsStr.trim (JsStr.of_list (removeApprox (JsStr.to_list strVal))) in
  if isMarker strVal then Js.VNull else Js.VStr strVal.

(** [parts.join(sep)] *)
Fixpoint join (sep : string) (parts : list string) : string :=
  match parts with
  | [] => EmptyString
  | [part] => part
  | part :: rest => (part ++ sep ++ join sep rest)%string
  end.

Section CleanValue.

(** [JSON.stringify] on the fields of an object. *)
Variable stringify : list (string * json) -> string.

Fixpoint cleanValue (value : json) : Js.value :=
  match value with
  | JNull => Js.VNull
  | JNum n => Js.VNum n
  | JBool b => Js.VBool b
  | JArray items =>
      let parts := filter Js.not_nullish (map cleanValue items) in
      match parts with
      | [] => Js.VNull
      | _ => Js.VStr (join " " (map Js.ToString parts))
      end
  | JObject fields =>
      cleanText
        match Js.own "text" fields with
        | Some (JStr text) => text
        | _ =>
            match Js.own "value" fields with
            | Some (JStr text) => text
            | Some (JNum n) => JsNum.toString n
            | _ => stringify fields
            end
        end
  | JStr text => cleanText text
  end.

End CleanValue.

(* ------------------------------------------------------------------- *)
(** ** The names of the columns *)

(** [[#\-\s]] *)
Definition is_strip (c : ascii) : bool :=
  Ascii.eqb c "#" || Ascii.eqb c "-" || JsStr.is_ws c.

Fixpoint drop_strip (l : list ascii) : list ascii :=
  match l with
  | c :: l' => if is_strip c then drop_strip l' else l
  | [] => []
  end.

(** [.replace(/^[#\-\s]+|[#\-\s]+$/g, '')] *)
Definition stripEnds (l : list ascii) : list ascii :=
  rev (drop_strip (rev (drop_strip l))).

(** [.replace(/\s+/g, '_')]; [inRun] says that the character before was
    white space. *)
Fixpoint underscoreSpaces (inRun : bool) (l : list ascii) : list ascii :=
  match l with
  | [] => []
  | c :: l' =>
      if JsStr.is_ws c
      then (if inRun then underscoreSpaces true l'
            else "_"%char :: underscoreSpaces true l')
      else c :: underscoreSpaces false l'
  end.

(** [[a-zA-Z0-9_]] *)
Definition is_word (c : ascii) : bool :=
  let n := JsStr.code c in
  (Nat.leb 97 n && Nat.leb n 122) || (Nat.leb 65 n && Nat.leb n 90)
  || JsStr.is_digit c || Ascii.eqb c "_".

(** The function mapped over the columns, [index] counting from 0. *)
Definition cleanColumnName (col : string) (index : nat) : string :=
  let cleaned :=
    JsStr.of_list
      (filter is_word
         (underscoreSpaces false (stripEnds (JsStr.to_list (JsStr.trim col))))) in
  if JsStr.is_empty cleaned
  then ("Column_" ++ JsStr.of_nat (index + 1))%string
  else cleaned.

(** [columns.map((col, index) => ...)] *)
Fixpoint cleanColumnsFrom (index : nat) (columns : list string) : list string :=
  match columns with
  | [] => []
  | col :: rest => cleanColumnName col index :: cleanColumnsFrom (index + 1) rest
  end.

Definition cleanedColumns (columns : list string) : list string :=
  cleanColumnsFrom 0 columns.

(* ------------------------------------------------------------------- *)
(** ** The final pass: number columns hold numbers *)

(** [if (columnTypes[col] === 'number' && newRow[col] !== null)
       newRow[col] = Number(newRow[col])] *)
Definition convertCell (columnTypes : Js.dict Schema.ColumnType)
  (newRow : Js.row) (col : string) : Js.row :=
  match Js.own col columnTypes, Js.get newRow col with
  | Some Schema.TNumber, Js.VNull => newRow
  | Some Schema.TNumber, cell => Js.assign col (Js.VNum (Js.ToNumber cell)) newRow
  | _, _ => newRow
  end.

(** [const newRow = { ...row }; for (const col of cleanedColumns) ...] *)
Definition finalRow (columnTypes : Js.dict Schema.ColumnType)
  (cleanedColumns : list string) (row : Js.row) : Js.row :=
  fold_left (convertCell columnTypes) cleanedColumns row.

Definition finalRows (columnTypes : Js.dict Schema.ColumnType)
  (cleanedColumns : list string) (cleanedRows : list Js.row) : list Js.row :=
  map (finalRow columnTypes cleanedColumns) cleanedRows.

End Extractor.

(* ===================================================================== *)
(** * server/gemini.ts: calculateDataSummary, a categorical column *)
(* ===================================================================== *)

Module Gemini.

(** [value === null || value === undefined || value === ""] *)
Definition missing (value : Js.value) : bool :=
  match value with
  | Js.VNull | Js.VUndefined => true
  | Js.VStr s => JsStr.is_empty s
  | _ => false
  end.

(** [values]: the cells of the column that are not missing, in row order. *)
Definition columnValues (rows : list Js.row) (col : string) : list Js.value :=
  filter (fun value => negb (missing value)) (map (fun row => Js.get row col) rows).

(** [const key = String(val); frequencies[key] = (frequencies[key] || 0) + 1] *)
Definition frequency_step (frequencies : Js.dict Recommender.counter)
  (val : Js.value) : Js.dict Recommender.counter :=
  let key := Js.ToString val in
  Js.assign key (Recommender.bump frequencies key) frequencies.

Definition frequenciesOf (values : list Js.value) : Js.dict Recommender.counter :=
  fold_left frequency_step values [].

(** [.reduce((acc, [val, count]) => { acc[val] = count; return acc }, {})] *)
Definition collect (entries : list (string * Recommender.counter))
  : Js.dict Recommender.counter :=
  fold_left (fun acc entry => Js.assign (fst entry) (snd entry) acc) entries [].

Record CategoricalStats : Type := {
  uniqueCount : nat;
  topValues : Js.dict Recommender.counter
}.

(** The branch of a column whose type is not number. *)
Definition categoricalStats (rows : list Js.row) (col : string) : CategoricalStats :=
  let frequencies := frequenciesOf (columnValues rows col) in
  {| uniqueCount := List.length (Js.keys frequencies);
     topValues := collect (Js.slice0 10 (Js.sort Recommender.byCount frequencies)) |}.

End Gemini.

(* ===================================================================== *)
(** * server/pdf-parser.ts: extractMetricsFromPDF *)
(* ===================================================================== *)

Module PdfParser.

(** A pattern: its name, the source of its regular expression and whether
    the literal carries the [g] flag. *)
Record pattern : Type := {
  name : string;
  source : string;
  global : bool
}.

Definition patterns : list pattern :=
  [ {| name := "total"; source := "total[:\s]+([\d,]+\.?\d*)"; global := false |};
    {| name := "average"; source := "average[:\s]+([\d,]+\.?\d*)"; global := false |};
    {| name := "sum"; source := "sum[:\s]+([\d,]+\.?\d*)"; global := false |};
    {| name := "count"; source := "count[:\s]+([\d,]+\.?\d*)"; global := false |};
    {| name := "percentage"; source := "(\d+\.?\d*)%"; global := true |};
    {| name := "currency"; source := "\$([\d,]+\.?\d*)"; global := true |} ]%string.

(** [values.length === 1 ? values[0] : values] *)
Inductive metric : Type :=
| Single (value : float)
| Several (values : list float).

Section Matching.

(** [captures p text]: the text of the first group of every match of the
    pattern in [text], in the order of the matches. *)
Variable captures : pattern -> string -> list string.

(** [text.matchAll(regex)]: String.prototype.matchAll throws a TypeError
    when the flags of the regular expression do not contain [g]
    (ECMAScript 2020, 21.1.3.12, step 2.b.iii). *)
Definition matchAll (text : string) (p : pattern) : Js.outcome (list string) :=
  if global p then Js.Returned (captures p text)
  else Js.Threw "TypeError: String.prototype.matchAll called with a non-global RegExp argument".

(** [match[1].replace(/,/g, '')] *)
Definition removeCommas (s : string) : string :=
  JsStr.of_list (filter (fun c => negb (Ascii.eqb c ",")) (JsStr.to_list s)).

(** One turn of the loop over the patterns. *)
Definition metric_step (text : string) (acc : Js.outcome (Js.dict metric))
  (p : pattern) : Js.outcome (Js.dict metric) :=
  Js.bind acc (fun metrics =>
    Js.bind (matchAll text p) (fun found =>
      let values :=
        filter (fun value => negb (JsNum.isNaN value))
               (map (fun m => JsNum.parseFloat (removeCommas m)) found) in
      Js.Returned
        match values with
        | [] => metrics
        | [value] => Js.assign (name p) (Single value) metrics
        | _ => Js.assign (name p) (Several values) metrics
        end)).

Definition metricsOf (text : string) (ps : list pattern)
  : Js.outcome (Js.dict metric) :=
  fold_left (metric_step text) ps (Js.Returned []).

Definition extractMetricsFromPDF (text : string) : Js.outcome (Js.dict metric) :=
  metricsOf text patterns.

End Matching.

(* ------------------------------------------------------------------- *)
(** ** parsePDFWithGemini: the columns and rows made of the answer *)

(** [extracted.columns.indexOf(col)] *)
Fixpoint indexOf (col : string) (columns : list string) : Z :=
  match columns with
  | [] => -1
  | c :: rest =>
      if String.eqb c col then 0
      else let i := indexOf col rest in
           if (i <? 0)%Z then -1 else (i + 1)%Z
  end.

(** The function mapped over [extracted.columns], an array of strings. *)
Definition cleanColumn (extractedColumns : list string) (col : string) : string :=
  let cleaned :=
    JsStr.of_list
      (Extractor.underscoreSpaces false
         (Extractor.stripEnds (JsStr.to_list (JsStr.trim col)))) in
  if JsStr.is_empty cleaned
  then ("Column_" ++ JsStr.of_Z (indexOf col extractedColumns + 1))%string
  else cleaned.

Definition columns (extractedColumns : list string) : list string :=
  map (cleanColumn extractedColumns) extractedColumns.

(** [row[col] !== undefined ? row[col] : null] *)
Definition cell (row : Js.row) (col : string) : Js.value :=
  match Js.get row col with
  | Js.VUndefined => Js.VNull
  | value => value
  end.

(** [.replace(/[$,\s]/g, '')] *)
Definition removeMoney (s : string) : string :=
  JsStr.of_list
    (filter (fun c => negb (Ascii.eqb c "$" || Ascii.eqb c "," || JsStr.is_ws c))
            (JsStr.to_list s)).

(** The conversion of a cell that is not null, undefined or empty. *)
Definition convert (value : Js.value) : Js.value :=
  let untouched :=
    match value with
    | Js.VNull | Js.VUndefined => true
    | Js.VStr s => JsStr.is_empty s
    | _ => false
    end in
  if untouched then value
  else
    let strVal := JsStr.trim (Js.ToString value) in
    let numVal := JsNum.ofString (removeMoney strVal) in
    if negb (JsNum.isNaN numVal) && negb (JsStr.is_empty strVal)
       && negb (String.eqb strVal "-")
    then Js.VNum numVal
    else Js.VStr strVal.

(** The object [cleanedRow] while it is filled: its own properties, and
    whether its prototype has been set to [null]. *)
Record building : Type := {
  detached : bool;
  properties : Js.row
}.

(** [cleanedRow[col] = value].  While the object inherits from
    [Object.prototype], an assignment to [__proto__] goes to the setter,
    which sets the prototype to [null] for [null] and ignores any other
    primitive value; every other assignment defines an own property. *)
Definition setCell (row : Js.row) (cleanedRow : building) (col : string) : building :=
  let value := convert (cell row col) in
  if String.eqb col "__proto__" && negb (detached cleanedRow) then
    match value with
    | Js.VNull => {| detached := true; properties := properties cleanedRow |}
    | _ => cleanedRow
    end
  else {| detached := detached cleanedRow;
          properties := Js.define col value (properties cleanedRow) |}.

(** The function mapped over [extracted.rows]: the own properties of the
    row it returns. *)
Definition cleanedRow (columns : list string) (row : Js.row) : Js.row :=
  properties
    (fold_left (setCell row) columns {| detached := false; properties := [] |}).

End PdfParser.

(* ===================================================================== *)
(** * server/routes.ts: POST /api/upload, which files are taken *)
(* ===================================================================== *)

Module Upload.

Definition allowedTypes : list string :=
  [ "text/csv";
    "application/vnd.openxmlformats-officedocument.spreadsheetml.sheet";
    "application/vnd.ms-excel";
    "application/json";
    "application/pdf" ]%string.

(** [/\.(csv|xlsx|xls|json|pdf)$/i] *)
Definition re_extension : Regex.re :=
  Regex.at_end
    (Regex.Seq (Regex.Chr ".")
       (Regex.Alt (Regex.lit "csv")
          (Regex.Alt (Regex.lit "xlsx")
             (Regex.Alt (Regex.lit "xls")
                (Regex.Alt (Regex.lit "json") (Regex.lit "pdf")))))).

(** The filter of multer: [true] stands for [cb(null, true)], [false] for
    [cb(new Error("Invalid file type. ..."))]. *)
Definition fileFilter (mimetype originalname : string) : bool :=
  Routes.includes allowedTypes mimetype || Regex.test re_extension originalname.

(** [s.endsWith(searchString)] *)
Definition endsWith (s searchString : string) : bool :=
  match JsNum.strip_prefix (rev (JsStr.to_list searchString)) (rev (JsStr.to_list s)) with
  | Some _ => true
  | None => false
  end.

Inductive FileType : Type := Csv | Xlsx | Json | Pdf.

(** The file type the handler settles on; [None] is the answer 400,
    "Unsupported file type". *)
Definition fileType (filename : string) : option FileType :=
  if endsWith filename ".csv" then Some Csv
  else if endsWith filename ".xlsx" || endsWith filename ".xls" then Some Xlsx
  else if endsWith filename ".json" then Some Json
  else if endsWith filename ".pdf" then Some Pdf
  else None.

End Upload.

(* ===================================================================== *)
(** * server/routes.ts: GET /api/analysis/:id/columns *)
(* ===================================================================== *)

Module Api.

(** A column as the client receives it: JSON keeps the [type] member only
    when [columnTypes[col]] is one of the type names. *)
Record Column : Type := {
  name : string;
  type : option Schema.ColumnType
}.

(** [parsedData.columns.map(col => ({ name: col, type: columnTypes[col] }))];
    [None] is the answer 404. *)
Definition getColumns (analysis : option Schema.ParsedData) : option (list Column) :=
  match analysis with
  | None => None
  | Some parsedData =>
      Some (map (fun col => {| name := col;
                               type := Js.own col (Schema.columnTypes parsedData) |})
                (Schema.columns parsedData))
  end.

End Api.

(* ===================================================================== *)
(** * client/src/components/create-chart-dialog.tsx *)
(* ===================================================================== *)

Module Dialog.

(** The chart types of the dialog: ['bar' | 'line' | 'pie' | 'scatter']. *)
Inductive ChartKind : Type := Bar | Line | Pie | Scatter.

Definition kindName (k : ChartKind) : string :=
  match k with
  | Bar => "bar" | Line => "line" | Pie => "pie" | Scatter => "scatter"
  end.

(** The state of the component: one field for each [useState]. *)
Record state : Type := {
  open : bool;
  chartType : ChartKind;
  xAxis : string;
  yAxis : string
}.

Definition initial : state :=
  {| open := false; chartType := Bar; xAxis := EmptyString; yAxis := EmptyString |}.

(** The calls of the setters an effect makes while it runs; [None] where
    it does not call the setter. *)
Record calls : Type := {
  toChartType : option ChartKind;
  toXAxis : option string;
  toYAxis : option string
}.

Definition noCalls : calls :=
  {| toChartType := None; toXAxis := None; toYAxis := None |}.

(** The state once the queued calls are applied: each call replaces the
    value of its hook. *)
Definition enqueue (queued : calls) (s : state) : state :=
  {| open := open s;
     chartType := match toChartType queued with Some k => k | None => chartType s end;
     xAxis := match toXAxis queued with Some x => x | None => xAxis s end;
     yAxis := match toYAxis queued with Some y => y | None => yAxis s end |}.

Section Columns.

(** [columnsData?.columns || []] *)
Variable columns : list Api.Column.

Definition has_type (ty : Schema.ColumnType) (col : Api.Column) : bool :=
  match Api.type col with
  | Some t => Schema.ColumnType_eqb t ty
  | None => false
  end.

Definition numericColumns : list Api.Column := filter (has_type Schema.TNumber) columns.
Definition stringColumns : list Api.Column := filter (has_type Schema.TString) columns.

(** The items of the select of the x-axis. *)
Definition xOptions (k : ChartKind) : list Api.Column :=
  match k with
  | Pie | Bar => stringColumns
  | Line | Scatter => numericColumns
  end.

(** The effect that resets the selections when the dialog opens. *)
Definition resetOnOpen (s : state) : state :=
  if open s
  then {| open := open s; chartType := Bar;
          xAxis := EmptyString; yAxis := EmptyString |}
  else s.

(** [numericColumns.find(col => col.name !== xAxis)?.name
     || numericColumns[0].name] *)
Definition otherNumeric (xAxis : string) (first : Api.Column) : string :=
  match find (fun col => negb (String.eqb (Api.name col) xAxis)) numericColumns with
  | Some col => if JsStr.is_empty (Api.name col) then Api.name first else Api.name col
  | None => Api.name first
  end.

(** The effect that selects the first available columns; both updates
    read the axes of the render the effect belongs to. *)
Definition autoSelect (s : state) : state :=
  if Nat.ltb 0 (List.length columns) && open s then
    match chartType s with
    | Pie =>
        match stringColumns with
        | first :: _ =>
            if JsStr.is_empty (xAxis s)
            then {| open := open s; chartType := chartType s;
                    xAxis := Api.name first; yAxis := yAxis s |}
            else s
        | [] => s
        end
    | Bar =>
        {| open := open s; chartType := chartType s;
           xAxis := match stringColumns with
                    | first :: _ =>
                        if JsStr.is_empty (xAxis s) then Api.name first else xAxis s
                    | [] => xAxis s
                    end;
           yAxis := match numericColumns with
                    | first :: _ =>
                        if JsStr.is_empty (yAxis s) then Api.name first else yAxis s
                    | [] => yAxis s
                    end |}
    | Line | Scatter =>
        {| open := open s; chartType := chartType s;
           xAxis := match numericColumns with
                    | first :: _ =>
                        if JsStr.is_empty (xAxis s) then Api.name first else xAxis s
                    | [] => xAxis s
                    end;
           yAxis := match numericColumns with
                    | first :: _ :: _ =>
                        if JsStr.is_empty (yAxis s)
                        then otherNumeric (xAxis s) first else yAxis s
                    | _ => yAxis s
                    end |}
    end
  else s.

(** [onValueChange] of the select of the chart type. *)
Definition changeType (value : ChartKind) (s : state) : state :=
  {| open := open s; chartType := value;
     xAxis := EmptyString; yAxis := EmptyString |}.

(** The calls of the effect that resets the selections:
    [if (open) { setChartType('bar'); setXAxis(''); setYAxis('') }]. *)
Definition resetCalls (s : state) : calls :=
  if open s
  then {| toChartType := Some Bar;
          toXAxis := Some EmptyString; toYAxis := Some EmptyString |}
  else noCalls.

(** [if (!axis && options.length > 0) setAxis(options[0].name)] *)
Definition firstOption (axis : string) (options : list Api.Column) : option string :=
  match options with
  | first :: _ => if JsStr.is_empty axis then Some (Api.name first) else None
  | [] => None
  end.

(** The calls of the effect that selects the first available columns. *)
Definition autoSelectCalls (s : state) : calls :=
  if Nat.ltb 0 (List.length columns) && open s then
    match chartType s with
    | Pie =>
        {| toChartType := None;
           toXAxis := firstOption (xAxis s) stringColumns;
           toYAxis := None |}
    | Bar =>
        {| toChartType := None;
           toXAxis := firstOption (xAxis s) stringColumns;
           toYAxis := firstOption (yAxis s) numericColumns |}
    | Line | Scatter =>
        {| toChartType := None;
           toXAxis := firstOption (xAxis s) numericColumns;
           toYAxis := match numericColumns with
                      | first :: _ :: _ =>
                          if JsStr.is_empty (yAxis s)
                          then Some (otherNumeric (xAxis s) first) else None
                      | _ => None
                      end |}
    end
  else noCalls.

(** The effects of one commit.  Both effects read the state [s] of the
    render the commit belongs to; their calls are queued in the order of
    the effects and applied together, so that a later call of a setter
    wins.  The reset effect depends on [open] alone and runs when [open]
    differs from the commit before ([openChanged]); the other effect runs
    after every render, its dependencies [numericColumns] and
    [stringColumns] being new arrays each time. *)
Definition effects (openChanged : bool) (s : state) : state :=
  enqueue (autoSelectCalls s)
    (if openChanged then enqueue (resetCalls s) s else s).

End Columns.

(** The component between two events: the state of its hooks, whether the
    query for the columns has data, and the value [open] had at the
    commit before. *)
Record component : Type := {
  hooks : state;
  loaded : bool;
  committed : bool
}.

Definition mounted : component :=
  {| hooks := initial; loaded := false; committed := false |}.

Section Steps.

(** The columns the server lists; the component sees them once the query
    has data, and [[]] before. *)
Variable columns : list Api.Column.

Definition shown (c : component) : list Api.Column :=
  if loaded c then columns else [].

(** What can happen to the component: the query gets its data (a request
    under way is not cancelled when the dialog closes); the dialog is
    opened or closed; a chart type is chosen; an item of one of the two
    selects is chosen (the select of the y-axis is not rendered for a pie
    chart); a render is committed and its effects run.  React commits a
    render after each event; the relation also admits events that follow
    each other without a commit in between. *)
Inductive step : component -> component -> Prop :=
| Loaded (c : component) :
    step c {| hooks := hooks c; loaded := true; committed := committed c |}
| SetOpen (c : component) (b : bool) :
    step c {| hooks := {| open := b; chartType := chartType (hooks c);
                          xAxis := xAxis (hooks c); yAxis := yAxis (hooks c) |};
              loaded := loaded c; committed := committed c |}
| ChangeType (c : component) (value : ChartKind) :
    step c {| hooks := changeType value (hooks c);
              loaded := loaded c; committed := committed c |}
| SelectX (c : component) (col : Api.Column) :
    In col (xOptions (shown c) (chartType (hooks c))) ->
    step c {| hooks := {| open := open (hooks c); chartType := chartType (hooks c);
                          xAxis := Api.name col; yAxis := yAxis (hooks c) |};
              loaded := loaded c; committed := committed c |}
| SelectY (c : component) (col : Api.Column) :
    chartType (hooks c) <> Pie ->
    In col (numericColumns (shown c)) ->
    step c {| hooks := {| open := open (hooks c); chartType := chartType (hooks c);
                          xAxis := xAxis (hooks c); yAxis := Api.name col |};
              loaded := loaded c; committed := committed c |}
| Commit (c : component) :
    step c {| hooks := effects (shown c)
                         (negb (Bool.eqb (open (hooks c)) (committed c)))
                         (hooks c);
              loaded := loaded c; committed := open (hooks c) |}.

Inductive reachable : component -> Prop :=
| Mounted : reachable mounted
| Step (c c' : component) : reachable c -> step c c' -> reachable c'.

End Steps.

(** [canCreate] *)
Definition canCreate (s : state) : bool :=
  match chartType s with
  | Pie => negb (JsStr.is_empty (xAxis s))
  | _ => negb (JsStr.is_empty (xAxis s)) && negb (JsStr.is_empty (yAxis s))
  end.

(** [handleCreate]: the body of the request it sends, if it sends one. *)
Definition handleCreate (s : state) : option Routes.body :=
  match chartType s with
  | Pie =>
      if JsStr.is_empty (xAxis s) then None
      else Some {| Routes.chartType := Some (kindName Pie);
                   Routes.xAxis := Some (xAxis s);
                   Routes.yAxis := None;
                   Routes.dataKey := None |}
  | k =>
      if JsStr.is_empty (xAxis s) || JsStr.is_empty (yAxis s) then None
      else Some {| Routes.chartType := Some (kindName k);
                   Routes.xAxis := Some (xAxis s);
                   Routes.yAxis := Some (yAxis s);
                   Routes.dataKey := None |}
  end.

End Dialog.

(* ===================================================================== *)
(** * Tables used as concrete inputs *)
(* ===================================================================== *)

Module Tables.

Import Js Schema.

Definition catVal (cat : string) (val : float) : Js.row :=
  [("cat"%string, VStr cat); ("val"%string, VNum val)].

Definition typed : Js.dict ColumnType :=
  [("cat"%string, TString); ("val"%string, TNumber)].

(** [[{cat:"A",val:10},{cat:"A",val:20},{cat:"B",val:5}]] *)
Definition sales : ParsedData :=
  {| columns := ["cat"; "val"]%string;
     rows := [catVal "A" 10; catVal "A" 20; catVal "B" 5];
     columnTypes := typed |}.

(** Categories that are canonical array indices, met as 2 then 1. *)
Definition ranked : ParsedData :=
  {| columns := ["cat"; "val"]%string;
     rows := [catVal "2" 1; catVal "1" 2];
     columnTypes := typed |}.

(** A category that is the name of a member of [Object.prototype]. *)
Definition trades : ParsedData :=
  {| columns := ["cat"; "val"]%string;
     rows := [catVal "constructor" 7];
     columnTypes := typed |}.

(** Two numeric columns only. *)
Definition xy (x y : float) : Js.row :=
  [("x"%string, VNum x); ("y"%string, VNum y)].

Definition cloud (n : nat) : ParsedData :=
  {| columns := ["x"; "y"]%string;
     rows := repeat (xy 1 2) n;
     columnTypes := [("x"%string, TNumber); ("y"%string, TNumber)] |}.

(** A column of the booleans [true] and [false]. *)
Definition flags : list Js.row :=
  [ [("flag"%string, VBool true)]; [("flag"%string, VBool false)] ].

(** A categorical column beside a numeric column named by a decoder. *)
Definition unnamed : ParsedData :=
  {| columns := ["cat"; "column1"]%string;
     rows := map (fun c => [("cat"%string, VStr c); ("column1"%string, VNum 1)])
                 ["A"; "A"; "A"; "B"; "B"]%string;
     columnTypes := [("cat"%string, TString); ("column1"%string, TNumber)] |}.

(** A categorical column beside a numeric column, under given names. *)
Definition named (category value : string) : ParsedData :=
  {| columns := [category; value];
     rows := map (fun c => [(category, VStr c); (value, VNum 1)])
                 ["A"; "A"; "A"; "B"; "B"]%string;
     columnTypes := [(category, TString); (value, TNumber)] |}.

End Tables.

(* ===================================================================== *)
(** * Type inference *)
(* ===================================================================== *)

Section TypeInference.

Variable dateParses : string -> bool.

Lemma booleanLike_cases (v : Js.value) :
  Inference.booleanLike v = true ->
  (exists b, v = Js.VBool b) \/ v = Js.VStr "true" \/ v = Js.VStr "false".
Proof.
  unfold Inference.booleanLike.
  destruct v as [ | | b | n | s | t ]; simpl; try discriminate.
  - intros _. left. now exists b.
  - intros H. apply orb_true_iff in H.
    destruct H as [H | H]; apply String.eqb_eq in H; subst; auto.
Qed.

(** The inference of convertJsonToParsedData tests booleans first: a
    non-empty sample of booleans and of the strings true/false is boolean. *)
Lemma inferSampleType_boolean (colSamples : list Js.value) :
  colSamples <> [] ->
  forallb Inference.booleanLike colSamples = true ->
  Inference.inferSampleType dateParses colSamples = Schema.TBoolean.
Proof.
  intros Hne Hall. unfold Inference.inferSampleType.
  destruct colSamples as [ | v vs ]; [ congruence | ].
  now rewrite Hall.
Qed.

(** A boolean converts to the number 1 or 0; the strings true and false
    convert to NaN. *)
Lemma booleanLike_numeric (v : Js.value) :
  Inference.booleanLike v = true ->
  (Js.is_number v || negb (Js.isNaN v)) = Js.is_boolean v.
Proof.
  intros H. destruct (booleanLike_cases v H) as [[b ->] | [-> | ->]].
  - now destruct b.
  - vm_compute. reflexivity.
  - vm_compute. reflexivity.
Qed.

Lemma forallb_booleanLike_numeric (vs : list Js.value) :
  forallb Inference.booleanLike vs = true ->
  forallb (fun val => Js.is_number val || negb (Js.isNaN val)) vs
  = forallb Js.is_boolean vs.
Proof.
  induction vs as [ | v vs IH ]; simpl; [ reflexivity | ].
  intros H. apply andb_true_iff in H. destruct H as [Hv Hvs].
  now rewrite (booleanLike_numeric v Hv), (IH Hvs).
Qed.

(** detectColumnTypes tests numbers first: on a non-empty sample of
    booleans and true/false strings it answers boolean exactly when some
    sampled value is one of the strings. *)
Lemma detectColumnType_booleanLike (rows : list Js.row) (column : string) :
  Inference.sampleValues rows column <> [] ->
  forallb Inference.booleanLike (Inference.sampleValues rows column) = true ->
  Inference.detectColumnType dateParses rows column
  = if forallb Js.is_boolean (Inference.sampleValues rows column)
    then Schema.TNumber else Schema.TBoolean.
Proof.
  intros Hne Hall. unfold Inference.detectColumnType.
  destruct (Inference.sampleValues rows column) as [ | v vs ] eqn:E;
    [ congruence | ].
  rewrite (forallb_booleanLike_numeric _ Hall), Hall.
  now destruct (forallb Js.is_boolean (v :: vs)).
Qed.

(** C1: at the column [true, false] detectColumnTypes (file-parser.ts)
    infers number, not boolean, whatever the date parser accepts: its
    number test runs before its boolean test and Number(true) is 1.  On the
    same rows the inference of convertJsonToParsedData, which tests
    booleans first, infers boolean. *)
Theorem detectColumnTypes_booleans_as_number :
  Inference.detectColumnTypes dateParses Tables.flags ["flag"%string]
  = [("flag"%string, Schema.TNumber)]
  /\ Inference.convertJsonToParsedData_columnTypes dateParses Tables.flags ["flag"%string]
     = [("flag"%string, Schema.TBoolean)].
Proof.
  split; reflexivity.
Qed.

End TypeInference.

(* ===================================================================== *)
(** * The two stages of generateChart *)
(* ===================================================================== *)

(** What generateChart has computed when it reaches its last statement:
    the title, the final axes and dataKey, and the data. *)
Record draft : Type := {
  draftTitle : string;
  draftX : option string;
  draftY : option string;
  draftKey : option string;
  draftData : list (Js.dict Js.value)
}.

Definition draftOf (parsedData : Schema.ParsedData) (chartType : Schema.ChartType)
  (xAxis yAxis dataKey : option string) : Js.outcome (option draft) :=
  let rows := Schema.rows parsedData in
  match chartType with
  | Schema.Bar =>
      let finalXAxis := Recommender.resolve xAxis (Recommender.defaultCategory parsedData) in
      let finalYAxis := Recommender.resolve yAxis (Recommender.defaultValue parsedData) in
      match finalXAxis, finalYAxis with
      | Some x, Some y =>
          if Js.name_truthy finalXAxis && Js.name_truthy finalYAxis then
            Js.bind (Recommender.aggregate x y rows) (fun aggregated =>
              Js.Returned (Some
                {| draftTitle := y ++ " by " ++ x;
                   draftX := finalXAxis; draftY := finalYAxis; draftKey := dataKey;
                   draftData := Js.slice0 20 (map (Recommender.barEntry x y) aggregated) |}))
          else Js.Returned None
      | _, _ => Js.Returned None
      end
  | Schema.Pie =>
      let finalXAxis := Recommender.resolve xAxis (Recommender.defaultCategory parsedData) in
      match finalXAxis with
      | Some x =>
          if Js.name_truthy finalXAxis then
            Js.Returned (Some
              {| draftTitle := "Distribution of " ++ x;
                 draftX := finalXAxis; draftY := yAxis; draftKey := Some "value"%string;
                 draftData := map Recommender.pieEntry (Recommender.pieEntries x rows) |})
          else Js.Returned None
      | None => Js.Returned None
      end
  | Schema.Scatter | Schema.Line =>
      let finalXAxis := Recommender.resolve xAxis (Recommender.defaultValue parsedData) in
      let finalYAxis :=
        Recommender.resolve yAxis (Recommender.defaultSecond parsedData finalXAxis) in
      match finalXAxis, finalYAxis with
      | Some x, Some y =>
          if Js.name_truthy finalXAxis && Js.name_truthy finalYAxis then
            Js.Returned (Some
              {| draftTitle := match chartType with
                               | Schema.Scatter => y ++ " vs " ++ x
                               | _ => y ++ " over " ++ x
                               end;
                 draftX := finalXAxis; draftY := finalYAxis; draftKey := dataKey;
                 draftData := Recommender.points chartType x y rows |})
          else Js.Returned None
      | _, _ => Js.Returned None
      end
  | Schema.Area => Js.Returned None
  end.

(** The last statement: null for empty data, else the payload with its id. *)
Definition stamp (now : Z) (chartType : Schema.ChartType) (d : option draft)
  : option Schema.ChartConfig :=
  match d with
  | Some d =>
      Recommender.finish now chartType (draftTitle d) (draftX d) (draftY d)
        (draftKey d) (draftData d)
  | None => None
  end.

Lemma generateChart_draft (parsedData : Schema.ParsedData) (now : Z)
  (chartType : Schema.ChartType) (xAxis yAxis dataKey : option string) :
  Recommender.generateChart parsedData now chartType xAxis yAxis dataKey
  = Js.bind (draftOf parsedData chartType xAxis yAxis dataKey)
      (fun d => Js.Returned (stamp now chartType d)).
Proof.
  unfold Recommender.generateChart, draftOf.
  destruct chartType; try reflexivity.
  - destruct (Recommender.resolve xAxis _) as [x | ]; [ | reflexivity ].
    destruct (Recommender.resolve yAxis _) as [y | ]; [ | reflexivity ].
    simpl Js.name_truthy.
    destruct (JsStr.is_empty x), (JsStr.is_empty y); try reflexivity.
    simpl. destruct (Recommender.aggregate x y _); reflexivity.
  - destruct (Recommender.resolve xAxis _) as [x | ]; [ | reflexivity ].
    destruct (Recommender.resolve yAxis _) as [y | ]; [ | reflexivity ].
    simpl Js.name_truthy.
    destruct (JsStr.is_empty x), (JsStr.is_empty y); reflexivity.
  - destruct (Recommender.resolve xAxis _) as [x | ]; [ | reflexivity ].
    simpl Js.name_truthy. destruct (JsStr.is_empty x); reflexivity.
  - destruct (Recommender.resolve xAxis _) as [x | ]; [ | reflexivity ].
    destruct (Recommender.resolve yAxis _) as [y | ]; [ | reflexivity ].
    simpl Js.name_truthy.
    destruct (JsStr.is_empty x), (JsStr.is_empty y); reflexivity.
Qed.

(* ===================================================================== *)
(** * Determinism *)
(* ===================================================================== *)

(** A payload without its [id]. *)
Definition payloadBody (chart : Schema.ChartConfig)
  : Schema.ChartType * string * option string * option string * option string
    * list (Js.dict Js.value) :=
  (Schema.type chart, Schema.title chart, Schema.xAxis chart, Schema.yAxis chart,
   Schema.dataKey chart, Schema.data chart).

Definition outcomeBody (o : Js.outcome (option Schema.ChartConfig))
  : Js.outcome (option _) :=
  match o with
  | Js.Returned chart => Js.Returned (option_map payloadBody chart)
  | Js.Threw e => Js.Threw e
  end.

(** The [id] a returned payload carries. *)
Definition outcomeId (o : Js.outcome (option Schema.ChartConfig)) : option string :=
  match o with
  | Js.Returned (Some chart) => Some (Schema.id chart)
  | _ => None
  end.

Lemma stamp_body (now1 now2 : Z) (chartType : Schema.ChartType) (d : option draft) :
  option_map payloadBody (stamp now1 chartType d)
  = option_map payloadBody (stamp now2 chartType d).
Proof.
  destruct d as [d | ]; [ | reflexivity ].
  unfold stamp, Recommender.finish. now destruct (draftData d).
Qed.

Lemma stamp_id (now : Z) (chartType : Schema.ChartType) (d : option draft)
  (chart : Schema.ChartConfig) :
  stamp now chartType d = Some chart ->
  Schema.id chart = (Schema.ChartType_name chartType ++ "-" ++ JsStr.of_Z now)%string.
Proof.
  destruct d as [d | ]; [ | discriminate ].
  unfold stamp, Recommender.finish. destruct (draftData d); [ discriminate | ].
  intros H. injection H as <-. reflexivity.
Qed.

(** C2 (counterexample): two calls of generateChart with the same table,
    chart type and axes, made at clock readings 0 and 1, return payloads
    that differ (in their id). *)
Lemma generateChart_id_differs :
  Recommender.generateChart Tables.sales 0 Schema.Bar
    (Some "cat"%string) (Some "val"%string) None
  <> Recommender.generateChart Tables.sales 1 Schema.Bar
       (Some "cat"%string) (Some "val"%string) None.
Proof.
  intros H. apply (f_equal outcomeId) in H. vm_compute in H. discriminate H.
Qed.

(** C2 (amended): extractFeatures and recommendCharts are functions of
    their arguments alone, and so is generateChart in every field of its
    result but [id]: two calls with identical arguments agree on whether
    they throw, return null or return a payload, and on the type, title,
    axes, dataKey and data of the payload; the id is the chart type, a dash
    and the reading of the clock, so that it agrees when the clock does. *)
Theorem generateChart_deterministic_but_id :
  forall (parsedData : Schema.ParsedData) (chartType : Schema.ChartType)
         (xAxis yAxis dataKey : option string) (now1 now2 : Z),
    outcomeBody (Recommender.generateChart parsedData now1 chartType xAxis yAxis dataKey)
    = outcomeBody (Recommender.generateChart parsedData now2 chartType xAxis yAxis dataKey)
    /\ (forall chart,
          Recommender.generateChart parsedData now1 chartType xAxis yAxis dataKey
          = Js.Returned (Some chart) ->
          Schema.id chart
          = (Schema.ChartType_name chartType ++ "-" ++ JsStr.of_Z now1)%string)
    /\ (now1 = now2 ->
        Recommender.generateChart parsedData now1 chartType xAxis yAxis dataKey
        = Recommender.generateChart parsedData now2 chartType xAxis yAxis dataKey)
    /\ (forall parsedData', parsedData' = parsedData ->
        Recommender.extractFeatures parsedData' = Recommender.extractFeatures parsedData)
    /\ (forall parsedData' features features',
          parsedData' = parsedData -> features' = features ->
          Recommender.recommendCharts parsedData' features'
          = Recommender.recommendCharts parsedData features).
Proof.
  intros pd ct x y dk now1 now2.
  assert (Pure : (forall pd', pd' = pd ->
                    Recommender.extractFeatures pd' = Recommender.extractFeatures pd)
                 /\ (forall pd' features features',
                       pd' = pd -> features' = features ->
                       Recommender.recommendCharts pd' features'
                       = Recommender.recommendCharts pd features))
    by (split; intros; subst; reflexivity).
  rewrite !generateChart_draft.
  destruct (draftOf pd ct x y dk) as [d | e]; simpl.
  - split; [ | split; [ | split ] ]; [ | | | exact Pure ].
    + f_equal. apply stamp_body.
    + intros chart H. injection H as H. eapply stamp_id; exact H.
    + now intros ->.
  - split; [ reflexivity | split; [ discriminate | split ] ];
      [ reflexivity | exact Pure ].
Qed.

(* ===================================================================== *)
(** * Dictionaries: reading back what was defined *)
(* ===================================================================== *)

Section DictFacts.

Context {V : Type}.
Implicit Types (o : Js.dict V) (k : string) (v : V).

Lemma own_replace_same k v o :
  Js.own k o <> None -> Js.own k (Js.replace k v o) = Some v.
Proof.
  induction o as [ | [k' v'] o IH ]; simpl; [ congruence | ].
  destruct (String.eqb k k') eqn:E; simpl; rewrite E; auto.
Qed.

Lemma own_replace_other k k' v o :
  k' <> k -> Js.own k' (Js.replace k v o) = Js.own k' o.
Proof.
  intros Hne. induction o as [ | [k0 v0] o IH ]; simpl; [ reflexivity | ].
  destruct (String.eqb k k0) eqn:E; simpl.
  - apply String.eqb_eq in E. subst k0.
    apply String.eqb_neq in Hne. now rewrite Hne.
  - now rewrite IH.
Qed.

Lemma keys_replace k v o : Js.keys (Js.replace k v o) = Js.keys o.
Proof.
  unfold Js.keys.
  induction o as [ | [k' v'] o IH ]; simpl; [ reflexivity | ].
  destruct (String.eqb k k'); simpl; [ reflexivity | ].
  now rewrite IH.
Qed.

Lemma own_app k o1 o2 :
  Js.own k (o1 ++ o2)
  = match Js.own k o1 with Some v => Some v | None => Js.own k o2 end.
Proof.
  induction o1 as [ | [k' v'] o1 IH ]; simpl; [ reflexivity | ].
  now destruct (String.eqb k k').
Qed.

Lemma own_insert_index (i : Z) k k' v o :
  Js.own k o = None ->
  Js.own k' (Js.insert_index i k v o)
  = if String.eqb k' k then Some v else Js.own k' o.
Proof.
  induction o as [ | [k0 v0] o IH ]; simpl; [ reflexivity | ].
  destruct (String.eqb k k0) eqn:Ek; [ discriminate | ]. intros Hnone.
  destruct (Js.array_index k0) as [j | ]; [ destruct (j <? i)%Z | ]; simpl;
    try reflexivity.
  rewrite (IH Hnone).
  destruct (String.eqb k' k0) eqn:E0; [ | reflexivity ].
  destruct (String.eqb k' k) eqn:E; [ | reflexivity ].
  apply String.eqb_eq in E0, E. subst. now rewrite String.eqb_refl in Ek.
Qed.

Lemma own_insert_new k k' v o :
  Js.own k o = None ->
  Js.own k' (Js.insert_new k v o)
  = if String.eqb k' k then Some v else Js.own k' o.
Proof.
  intros Hnone. unfold Js.insert_new.
  destruct (Js.array_index k) as [i | ].
  - now apply own_insert_index.
  - rewrite own_app. simpl.
    destruct (String.eqb k' k) eqn:E.
    + apply String.eqb_eq in E. subst. now rewrite Hnone.
    + now destruct (Js.own k' o).
Qed.

Lemma own_define k k' v o :
  Js.own k' (Js.define k v o)
  = if String.eqb k' k then Some v else Js.own k' o.
Proof.
  unfold Js.define. destruct (Js.own k o) eqn:E.
  - destruct (String.eqb k' k) eqn:E'.
    + apply String.eqb_eq in E'. subst. apply own_replace_same. congruence.
    + apply own_replace_other. intros ->. now rewrite String.eqb_refl in E'.
  - now apply own_insert_new.
Qed.

Lemma own_define_same k v o : Js.own k (Js.define k v o) = Some v.
Proof. rewrite own_define. now rewrite String.eqb_refl. Qed.

Lemma own_In k v o : Js.own k o = Some v -> In (k, v) o.
Proof.
  induction o as [ | [k' v'] o IH ]; simpl; [ discriminate | ].
  destruct (String.eqb k k') eqn:E.
  - apply String.eqb_eq in E. subst. intros H. injection H as ->. now left.
  - intros H. right. now apply IH.
Qed.

Lemma own_None_keys k o : Js.own k o = None <-> ~ In k (Js.keys o).
Proof.
  induction o as [ | [k' v'] o IH ]; simpl; [ tauto | ].
  destruct (String.eqb k k') eqn:E.
  - apply String.eqb_eq in E. subst. split; [ discriminate | tauto ].
  - apply String.eqb_neq in E. rewrite IH. split.
    + intros H [H' | H']; [ congruence | tauto ].
    + tauto.
Qed.

End DictFacts.

(* ===================================================================== *)
(** * generateChart: when the answer is null *)
(* ===================================================================== *)

(** The final axes after the defaulting of generateChart leave an axis the
    chart type needs undefined or empty. *)
Definition noAxisPair (parsedData : Schema.ParsedData) (chartType : Schema.ChartType)
  (xAxis yAxis : option string) : Prop :=
  match chartType with
  | Schema.Bar =>
      Js.name_truthy (Recommender.resolve xAxis (Recommender.defaultCategory parsedData)) = false
      \/ Js.name_truthy (Recommender.resolve yAxis (Recommender.defaultValue parsedData)) = false
  | Schema.Pie =>
      Js.name_truthy (Recommender.resolve xAxis (Recommender.defaultCategory parsedData)) = false
  | Schema.Scatter | Schema.Line =>
      let finalXAxis := Recommender.resolve xAxis (Recommender.defaultValue parsedData) in
      Js.name_truthy finalXAxis = false
      \/ Js.name_truthy
           (Recommender.resolve yAxis (Recommender.defaultSecond parsedData finalXAxis)) = false
  | Schema.Area => False
  end.

(** A value the pie chart does not count: empty, 'Unknown', or the one key
    whose assignment an object ignores. *)
Definition uncounted (value : string) : Prop :=
  value = EmptyString \/ value = "Unknown"%string \/ value = "__proto__"%string.

(** Nothing is left to plot: no row to aggregate (bar), no row with a
    counted value (pie), no row passing the filter (scatter, line); an area
    chart has no branch in generateChart and never gets data. *)
Definition emptyResult (parsedData : Schema.ParsedData) (chartType : Schema.ChartType)
  (xAxis yAxis : option string) : Prop :=
  match chartType with
  | Schema.Bar => Schema.rows parsedData = []
  | Schema.Pie =>
      forall x, Recommender.resolve xAxis (Recommender.defaultCategory parsedData) = Some x ->
        forall r, In r (Schema.rows parsedData) -> uncounted (Recommender.category_of x r)
  | Schema.Scatter | Schema.Line =>
      forall x y,
        Recommender.resolve xAxis (Recommender.defaultValue parsedData) = Some x ->
        Recommender.resolve yAxis (Recommender.defaultSecond parsedData (Some x)) = Some y ->
        forall r, In r (Schema.rows parsedData) -> Recommender.validPair x y r = false
  | Schema.Area => True
  end.

Lemma count_step_uncounted (x : string) (counts : Js.dict Recommender.counter)
  (r : Js.row) :
  uncounted (Recommender.category_of x r) -> Recommender.count_step x counts r = counts.
Proof.
  unfold Recommender.count_step. intros [H | [H | H]]; rewrite H; reflexivity.
Qed.

Lemma countValues_uncounted (x : string) (rows : list Js.row) :
  (forall r, In r rows -> uncounted (Recommender.category_of x r)) ->
  Recommender.countValues x rows = [].
Proof.
  unfold Recommender.countValues. generalize (@nil (string * Recommender.counter)).
  induction rows as [ | r rows IH ]; intros acc H; simpl; [ reflexivity | ].
  rewrite count_step_uncounted by (apply H; now left).
  apply IH. intros r' Hr'. apply H. now right.
Qed.

Lemma filter_none {A : Type} (f : A -> bool) (l : list A) :
  (forall a, In a l -> f a = false) -> filter f l = [].
Proof.
  induction l as [ | a l IH ]; intros H; simpl; [ reflexivity | ].
  rewrite (H a) by now left. apply IH. intros b Hb. apply H. now right.
Qed.

Lemma defaultCategory_none (parsedData : Schema.ParsedData) :
  filter (Schema.has_type parsedData Schema.TString) (Schema.columns parsedData) = [] ->
  Recommender.defaultCategory parsedData = None.
Proof.
  intros H. unfold Recommender.defaultCategory. now rewrite H.
Qed.

(** C9: generateChart returns null, and does not throw, whenever no axis
    pair can be resolved or the filtered or aggregated result set is empty;
    so it does for a bar chart requested without axes on a table that has no
    string column. *)
Theorem generateChart_null :
  forall (parsedData : Schema.ParsedData) (now : Z) (chartType : Schema.ChartType)
         (xAxis yAxis dataKey : option string),
    noAxisPair parsedData chartType xAxis yAxis
    \/ emptyResult parsedData chartType xAxis yAxis
    \/ (chartType = Schema.Bar /\ xAxis = None /\ yAxis = None
        /\ filter (Schema.has_type parsedData Schema.TString)
                  (Schema.columns parsedData) = []) ->
    Recommender.generateChart parsedData now chartType xAxis yAxis dataKey
    = Js.Returned None.
Proof.
  intros pd now ct x y dk H.
  assert (H' : noAxisPair pd ct x y \/ emptyResult pd ct x y).
  { destruct H as [H | [H | (-> & -> & -> & H)]]; auto.
    left. simpl. left. unfold Recommender.resolve. simpl.
    now rewrite (defaultCategory_none pd H). }
  clear H. rewrite generateChart_draft. unfold draftOf.
  destruct ct; simpl in H'.
  - (* bar *)
    destruct (Recommender.resolve x _) as [fx | ]; [ | reflexivity ].
    destruct (Recommender.resolve y _) as [fy | ]; [ | reflexivity ].
    destruct H' as [[H | H] | H].
    + now rewrite H.
    + rewrite H. now rewrite andb_false_r.
    + rewrite H. now destruct (_ && _).
  - (* line *)
    destruct (Recommender.resolve x _) as [fx | ] eqn:Ex; [ | reflexivity ].
    destruct (Recommender.resolve y _) as [fy | ] eqn:Ey; [ | reflexivity ].
    destruct H' as [[H | H] | H].
    + now rewrite H.
    + rewrite H. now rewrite andb_false_r.
    + destruct (_ && _); [ | reflexivity ]. simpl. unfold stamp. simpl.
      unfold Recommender.points.
      now rewrite (filter_none _ _ (H fx fy eq_refl Ey)).
  - (* pie *)
    destruct (Recommender.resolve x _) as [fx | ] eqn:Ex; [ | reflexivity ].
    destruct H' as [H | H].
    + now rewrite H.
    + destruct (Js.name_truthy _); [ | reflexivity ]. simpl. unfold stamp. simpl.
      unfold Recommender.pieEntries.
      now rewrite (countValues_uncounted fx _ (H fx eq_refl)).
  - (* scatter *)
    destruct (Recommender.resolve x _) as [fx | ] eqn:Ex; [ | reflexivity ].
    destruct (Recommender.resolve y _) as [fy | ] eqn:Ey; [ | reflexivity ].
    destruct H' as [[H | H] | H].
    + now rewrite H.
    + rewrite H. now rewrite andb_false_r.
    + destruct (_ && _); [ | reflexivity ]. simpl. unfold stamp. simpl.
      unfold Recommender.points.
      now rewrite (filter_none _ _ (H fx fy eq_refl Ey)).
  - reflexivity.
Qed.

(** On the two numeric columns of [Tables.cloud] a bar chart without axes
    finds no category column. *)
Lemma generateChart_null_witness :
  (noAxisPair (Tables.cloud 3) Schema.Bar None None
   \/ emptyResult (Tables.cloud 3) Schema.Bar None None
   \/ (Schema.Bar = Schema.Bar /\ @None string = None /\ @None string = None
       /\ filter (Schema.has_type (Tables.cloud 3) Schema.TString)
                 (Schema.columns (Tables.cloud 3)) = []))
  /\ Recommender.generateChart (Tables.cloud 3) 0 Schema.Bar None None None
     = Js.Returned None.
Proof.
  assert (H : noAxisPair (Tables.cloud 3) Schema.Bar None None
              \/ emptyResult (Tables.cloud 3) Schema.Bar None None
              \/ (Schema.Bar = Schema.Bar /\ @None string = None /\ @None string = None
                  /\ filter (Schema.has_type (Tables.cloud 3) Schema.TString)
                            (Schema.columns (Tables.cloud 3)) = [])).
  { right. right. repeat split; reflexivity. }
  split; [ exact H | exact (generateChart_null (Tables.cloud 3) 0 Schema.Bar None None None H) ].
Defined.

(* ===================================================================== *)
(** * generateChart: scatter and line *)
(* ===================================================================== *)

(** A cell that is not null, not undefined, and converts to a number. *)
Definition numericCoercible (v : Js.value) : Prop :=
  v <> Js.VNull /\ v <> Js.VUndefined /\ JsNum.isNaN (Js.ToNumber v) = false.

Lemma not_nullish_spec (v : Js.value) :
  Js.not_nullish v = true <-> v <> Js.VNull /\ v <> Js.VUndefined.
Proof.
  destruct v; simpl; split; try discriminate; try tauto;
    intros _; split; discriminate.
Qed.

Lemma validPair_spec (x y : string) (r : Js.row) :
  Recommender.validPair x y r = true
  <-> numericCoercible (Js.get r x) /\ numericCoercible (Js.get r y).
Proof.
  unfold Recommender.validPair, numericCoercible, Js.isNaN.
  rewrite !andb_true_iff, !negb_true_iff, !not_nullish_spec. tauto.
Qed.

(** What generateChart answers for a scatter or line chart on the final
    axes [fx] and [fy]. *)
Definition pointsPayload (parsedData : Schema.ParsedData) (now : Z)
  (chartType : Schema.ChartType) (xAxis yAxis dataKey : option string)
  (fx fy : string) : Prop :=
  let rows := Schema.rows parsedData in
  let limit := match chartType with Schema.Scatter => 200 | _ => 100 end in
  let valid := filter (Recommender.validPair fx fy) rows in
  let kept := firstn limit valid in
  let answer :=
    Recommender.generateChart parsedData now chartType xAxis yAxis dataKey in
  (* the rows that pass are those with two numeric-coercible cells *)
  (forall r, In r valid
             <-> In r rows /\ numericCoercible (Js.get r fx)
                 /\ numericCoercible (Js.get r fy))
  (* without such a row the answer is null *)
  /\ (valid = [] -> answer = Js.Returned None)
  (* otherwise a chart is returned; its data are the first [limit] of
     these rows, in row order *)
  /\ (valid <> [] ->
      exists chart,
        answer = Js.Returned (Some chart)
        /\ Schema.type chart = chartType
        /\ Schema.id chart
           = (Schema.ChartType_name chartType ++ "-" ++ JsStr.of_Z now)%string
        /\ Schema.title chart
           = (match chartType with
              | Schema.Scatter => fy ++ " vs " ++ fx
              | _ => fy ++ " over " ++ fx
              end)%string
        /\ Schema.xAxis chart = Some fx
        /\ Schema.yAxis chart = Some fy
        /\ Schema.dataKey chart = dataKey
        /\ Schema.data chart = map (Recommender.pointEntry fx fy) kept
        /\ List.length (Schema.data chart) = Nat.min limit (List.length valid))
  /\ List.length kept = Nat.min limit (List.length valid)
  (* each plotted row holds the two cells converted to numbers, and
     nothing else *)
  /\ (forall r k,
        Js.own k (Recommender.pointEntry fx fy r)
        = if String.eqb k fy then Some (Js.VNum (Js.ToNumber (Js.get r fy)))
          else if String.eqb k fx then Some (Js.VNum (Js.ToNumber (Js.get r fx)))
          else None)
  (* 500 valid rows give exactly [limit] points, the first [limit] rows *)
  /\ (List.length rows = 500 ->
      (forall r, In r rows ->
         numericCoercible (Js.get r fx) /\ numericCoercible (Js.get r fy)) ->
      kept = firstn limit rows /\ List.length kept = limit
      /\ exists chart,
           answer = Js.Returned (Some chart)
           /\ Schema.data chart
              = map (Recommender.pointEntry fx fy) (firstn limit rows)
           /\ List.length (Schema.data chart) = limit).

Lemma filter_all {A : Type} (f : A -> bool) (l : list A) :
  (forall a, In a l -> f a = true) -> filter f l = l.
Proof.
  induction l as [ | a l IH ]; intros H; simpl; [ reflexivity | ].
  rewrite (H a) by now left. f_equal. apply IH. intros b Hb. apply H. now right.
Qed.

(** C8: for a scatter or a line chart generateChart keeps exactly the rows
    whose two axis cells are non-null and convert to a number, converts
    both, and plots the first 200 (scatter) or 100 (line) of them in row
    order; 500 valid rows give exactly 200, respectively 100, points.  The
    chart has the type asked for, id '<type>-' followed by the time, title
    '<y> vs <x>' (scatter) or '<y> over <x>' (line), the two axes and the
    dataKey of the call; a point holds Number(cell) under each axis and
    nothing else; when no row passes the answer is null. *)
Theorem generateChart_points :
  forall (parsedData : Schema.ParsedData) (now : Z) (chartType : Schema.ChartType)
         (xAxis yAxis dataKey : option string) (fx fy : string),
    chartType = Schema.Scatter \/ chartType = Schema.Line ->
    Recommender.resolve xAxis (Recommender.defaultValue parsedData) = Some fx ->
    Recommender.resolve yAxis (Recommender.defaultSecond parsedData (Some fx)) = Some fy ->
    fx <> EmptyString -> fy <> EmptyString ->
    pointsPayload parsedData now chartType xAxis yAxis dataKey fx fy.
Proof.
  intros pd now ct x y dk fx fy Hct Hx Hy Hfx Hfy.
  assert (Ex : JsStr.is_empty fx = false)
    by (destruct fx; [ now contradiction Hfx | reflexivity ]).
  assert (Ey : JsStr.is_empty fy = false)
    by (destruct fy; [ now contradiction Hfy | reflexivity ]).
  unfold pointsPayload. cbv zeta.
  set (limit := match ct with Schema.Scatter => 200 | _ => 100 end).
  set (valid := filter (Recommender.validPair fx fy) (Schema.rows pd)).
  assert (Hpos : 0 < limit) by (unfold limit; destruct ct; lia).
  assert (G : Recommender.generateChart pd now ct x y dk
              = Js.Returned
                  (Recommender.finish now ct
                     (match ct with
                      | Schema.Scatter => fy ++ " vs " ++ fx
                      | _ => fy ++ " over " ++ fx
                      end)%string
                     (Some fx) (Some fy) dk
                     (map (Recommender.pointEntry fx fy) (firstn limit valid)))).
  { unfold Recommender.generateChart, limit, valid.
    destruct Hct as [-> | ->]; rewrite Hx, Hy, Ex, Ey; simpl;
      unfold Recommender.points, Js.slice0; now rewrite firstn_map. }
  assert (Chart : forall l : list Js.row,
            l <> [] ->
            Recommender.generateChart pd now ct x y dk
            = Js.Returned
                (Recommender.finish now ct
                   (match ct with
                    | Schema.Scatter => fy ++ " vs " ++ fx
                    | _ => fy ++ " over " ++ fx
                    end)%string
                   (Some fx) (Some fy) dk
                   (map (Recommender.pointEntry fx fy) (firstn limit l))) ->
            exists chart,
              Recommender.generateChart pd now ct x y dk = Js.Returned (Some chart)
              /\ Schema.type chart = ct
              /\ Schema.id chart
                 = (Schema.ChartType_name ct ++ "-" ++ JsStr.of_Z now)%string
              /\ Schema.title chart
                 = (match ct with
                    | Schema.Scatter => fy ++ " vs " ++ fx
                    | _ => fy ++ " over " ++ fx
                    end)%string
              /\ Schema.xAxis chart = Some fx
              /\ Schema.yAxis chart = Some fy
              /\ Schema.dataKey chart = dk
              /\ Schema.data chart
                 = map (Recommender.pointEntry fx fy) (firstn limit l)
              /\ List.length (Schema.data chart) = Nat.min limit (List.length l)).
  { intros l Hl E. rewrite E. unfold Recommender.finish.
    destruct l as [ | r l ]; [ now contradiction Hl | ].
    destruct limit as [ | n ]; [ lia | ].
    cbn [firstn map]. eexists. split; [ reflexivity | ].
    cbn [Schema.type Schema.id Schema.title Schema.xAxis Schema.yAxis
         Schema.dataKey Schema.data].
    repeat (split; [ reflexivity | ]).
    cbn [List.length]. now rewrite length_map, length_firstn. }
  split; [ | split; [ | split; [ | split; [ | split; [ | ] ] ] ] ].
  - intros r. unfold valid. rewrite filter_In, validPair_spec. tauto.
  - intros E. rewrite G, E. now destruct limit.
  - intros Hne. now apply Chart.
  - apply length_firstn.
  - intros r k. unfold Recommender.pointEntry. rewrite !own_define. reflexivity.
  - intros Hlen Hall.
    assert (V : valid = Schema.rows pd).
    { unfold valid. apply filter_all. intros r Hr. apply validPair_spec.
      now apply Hall. }
    assert (L : Nat.min limit 500 = limit) by (unfold limit; destruct ct; lia).
    split; [ now rewrite V | ].
    split; [ now rewrite length_firstn, V, Hlen | ].
    destruct (Chart (Schema.rows pd)) as (chart & E & _ & _ & _ & _ & _ & _ & D & N).
    + intros E. rewrite E in Hlen. discriminate Hlen.
    + now rewrite <- V.
    + exists chart. split; [ exact E | split; [ exact D | ] ].
      now rewrite N, Hlen.
Qed.

(** 500 rows of [{x: 1, y: 2}], no axis supplied: the final axes are the
    two numeric columns. *)
Lemma generateChart_points_witness :
  (Schema.Scatter = Schema.Scatter \/ Schema.Scatter = Schema.Line)
  /\ Recommender.resolve None (Recommender.defaultValue (Tables.cloud 500))
     = Some "x"%string
  /\ Recommender.resolve None
       (Recommender.defaultSecond (Tables.cloud 500) (Some "x"%string))
     = Some "y"%string
  /\ "x"%string <> EmptyString /\ "y"%string <> EmptyString
  /\ pointsPayload (Tables.cloud 500) 0 Schema.Scatter None None None "x" "y".
Proof.
  assert (H1 : Schema.Scatter = Schema.Scatter \/ Schema.Scatter = Schema.Line)
    by (left; reflexivity).
  assert (H2 : Recommender.resolve None (Recommender.defaultValue (Tables.cloud 500))
               = Some "x"%string) by (vm_compute; reflexivity).
  assert (H3 : Recommender.resolve None
                 (Recommender.defaultSecond (Tables.cloud 500) (Some "x"%string))
               = Some "y"%string) by (vm_compute; reflexivity).
  assert (H4 : "x"%string <> EmptyString) by discriminate.
  assert (H5 : "y"%string <> EmptyString) by discriminate.
  exact (conj H1 (conj H2 (conj H3 (conj H4 (conj H5
           (generateChart_points (Tables.cloud 500) 0 Schema.Scatter None None None
              "x" "y" H1 H2 H3 H4 H5)))))).
Defined.

(* ===================================================================== *)
(** * The sort of arrays *)
(* ===================================================================== *)

Section SortFacts.

Context {A : Type} (after : A -> A -> bool).

Lemma insert_sorted_perm (x : A) (l : list A) :
  Permutation (x :: l) (Js.insert_sorted after x l).
Proof.
  induction l as [ | y l IH ]; simpl; [ apply Permutation_refl | ].
  destruct (after x y).
  - eapply perm_trans; [ apply perm_swap | ]. now apply perm_skip.
  - apply Permutation_refl.
Qed.

Lemma sort_perm (l : list A) : Permutation l (Js.sort after l).
Proof.
  induction l as [ | x l IH ]; simpl; [ apply perm_nil | ].
  eapply perm_trans; [ apply perm_skip, IH | apply insert_sorted_perm ].
Qed.

Lemma sort_In (l : list A) (x : A) : In x (Js.sort after l) <-> In x l.
Proof.
  split; apply Permutation_in; [ apply Permutation_sym | ]; apply sort_perm.
Qed.

Lemma sort_length (l : list A) : List.length (Js.sort after l) = List.length l.
Proof. symmetry. apply Permutation_length, sort_perm. Qed.

End SortFacts.

(* ===================================================================== *)
(** * Axes and columns *)
(* ===================================================================== *)

(** An axis that is either absent or a column of the table. *)
Definition axisOf (parsedData : Schema.ParsedData) (axis : option string) : Prop :=
  forall col, axis = Some col -> In col (Schema.columns parsedData).

(** The same, for an axis that is a non-empty name. *)
Definition namedAxisOf (parsedData : Schema.ParsedData) (axis : option string) : Prop :=
  forall col, axis = Some col -> col <> EmptyString ->
              In col (Schema.columns parsedData).

Section AxisFacts.

Variable parsedData : Schema.ParsedData.

Lemma axisOf_None : axisOf parsedData None.
Proof. intros col H. discriminate H. Qed.

Lemma axisOf_Some (col : string) :
  In col (Schema.columns parsedData) -> axisOf parsedData (Some col).
Proof. intros H c E. injection E as <-. exact H. Qed.

Lemma axisOf_name_or (a b : option string) :
  axisOf parsedData a -> axisOf parsedData b -> axisOf parsedData (Js.name_or a b).
Proof. unfold Js.name_or. now destruct (Js.name_truthy a). Qed.

Lemma axisOf_find (p : string -> bool) (l : list string) :
  incl l (Schema.columns parsedData) -> axisOf parsedData (find p l).
Proof. intros Hl col H. apply Hl. now apply (find_some p l). Qed.

Lemma axisOf_nth_error (n : nat) (l : list string) :
  incl l (Schema.columns parsedData) -> axisOf parsedData (nth_error l n).
Proof. intros Hl col H. apply Hl. now apply (nth_error_In l n). Qed.

Lemma axisOf_hd_error (l : list string) :
  incl l (Schema.columns parsedData) -> axisOf parsedData (hd_error l).
Proof. intros Hl. destruct l; [ apply axisOf_None | apply axisOf_Some, Hl; now left ]. Qed.

Lemma incl_filter_columns (p : string -> bool) (l : list string) :
  incl l (Schema.columns parsedData) -> incl (filter p l) (Schema.columns parsedData).
Proof. intros Hl col H. apply Hl. apply filter_In in H. tauto. Qed.

Lemma incl_cons_cons (a b : string) (l l' : list string) :
  incl l' (Schema.columns parsedData) -> l' = a :: b :: l ->
  In a (Schema.columns parsedData) /\ In b (Schema.columns parsedData).
Proof. intros Hl ->. split; apply Hl; simpl; auto. Qed.

End AxisFacts.

Create HintDb axes.

#[local] Hint Resolve axisOf_None axisOf_Some axisOf_name_or axisOf_find
  axisOf_nth_error axisOf_hd_error incl_filter_columns incl_refl : axes.

Lemma defaultCategory_axis (parsedData : Schema.ParsedData) :
  axisOf parsedData (Recommender.defaultCategory parsedData).
Proof. unfold Recommender.defaultCategory. auto 10 with axes. Qed.

Lemma defaultValue_axis (parsedData : Schema.ParsedData) :
  axisOf parsedData (Recommender.defaultValue parsedData).
Proof. unfold Recommender.defaultValue. auto 10 with axes. Qed.

Lemma defaultSecond_axis (parsedData : Schema.ParsedData) (fx : option string) :
  axisOf parsedData (Recommender.defaultSecond parsedData fx).
Proof. unfold Recommender.defaultSecond. auto 10 with axes. Qed.

(** The candidates of every rule take their axes from the columns; the
    dataKey is absent or the literal 'value'. *)
Definition candidateAxes (parsedData : Schema.ParsedData)
  (rec : Recommender.ChartRecommendation) : Prop :=
  axisOf parsedData (Recommender.xAxis rec)
  /\ axisOf parsedData (Recommender.yAxis rec)
  /\ (Recommender.dataKey rec = None
      \/ Recommender.dataKey rec = Some "value"%string).

Ltac rule_cases :=
  repeat match goal with
         | H : In _ [] |- _ => destruct H
         | H : In _ [_] |- _ => destruct H as [<- | []]
         | H : In _ (if ?b then _ else _) |- _ => destruct b
         | H : In _ (match ?o with Some _ => _ | None => _ end) |- _ =>
             let E := fresh "E" in destruct o eqn:E
         | H : In _ (match ?l with [] => _ | _ :: _ => _ end) |- _ =>
             let E := fresh "E" in destruct l eqn:E
         end.

(** [In col columns] from an equation that shows [col] among the first two
    elements of a sublist of the columns. *)
Ltac in_columns :=
  apply axisOf_Some;
  match goal with
  | E : ?X = _ |- In ?s ?C =>
      let Hin := fresh in
      assert (Hin : In s X) by (rewrite E; simpl; auto);
      revert Hin; generalize s;
      change (incl X C); auto 8 with axes
  end.

Ltac axes_done :=
  repeat split; simpl; auto 12 with axes;
  try match goal with
      | E : _ = Some ?s |- axisOf _ (Some ?s) => rewrite <- E; auto 12 with axes
      end;
  try in_columns.

Lemma barRule_axes parsedData features rec :
  In rec (Recommender.barRule parsedData features) -> candidateAxes parsedData rec.
Proof. unfold Recommender.barRule. intros H. rule_cases; axes_done. Qed.

Lemma lineRule_axes parsedData features rec :
  In rec (Recommender.lineRule parsedData features) -> candidateAxes parsedData rec.
Proof. unfold Recommender.lineRule. intros H. rule_cases; axes_done. Qed.

Lemma pieRule_axes parsedData features rec :
  In rec (Recommender.pieRule parsedData features) -> candidateAxes parsedData rec.
Proof. unfold Recommender.pieRule. intros H. rule_cases; axes_done. Qed.

Lemma scatterRule_axes parsedData features rec :
  In rec (Recommender.scatterRule parsedData features) -> candidateAxes parsedData rec.
Proof. unfold Recommender.scatterRule. intros H. rule_cases; axes_done. Qed.

Lemma areaRule_axes parsedData features rec :
  In rec (Recommender.areaRule parsedData features) -> candidateAxes parsedData rec.
Proof. unfold Recommender.areaRule. intros H. rule_cases; axes_done. Qed.

Lemma recommendations_cases parsedData features rec :
  In rec (Recommender.recommendations parsedData features) ->
  In rec (Recommender.barRule parsedData features)
  \/ In rec (Recommender.lineRule parsedData features)
  \/ In rec (Recommender.pieRule parsedData features)
  \/ In rec (Recommender.scatterRule parsedData features)
  \/ In rec (Recommender.areaRule parsedData features).
Proof.
  unfold Recommender.recommendations. rewrite !in_app_iff. tauto.
Qed.

Lemma recommendCharts_In parsedData features rec :
  In rec (Recommender.recommendCharts parsedData features)
  <-> In rec (Recommender.recommendations parsedData features).
Proof. apply sort_In. Qed.

Lemma recommendCharts_axes parsedData features rec :
  In rec (Recommender.recommendCharts parsedData features) ->
  candidateAxes parsedData rec.
Proof.
  intros H. apply recommendCharts_In, recommendations_cases in H.
  destruct H as [H | [H | [H | [H | H]]]];
    eauto using barRule_axes, lineRule_axes, pieRule_axes, scatterRule_axes,
      areaRule_axes.
Qed.

Lemma resolve_given (axis fallback : option string) :
  Js.name_truthy axis = true -> Recommender.resolve axis fallback = axis.
Proof. unfold Recommender.resolve. now intros ->. Qed.

Lemma resolve_omitted (axis fallback : option string) :
  Js.name_truthy axis = false -> Recommender.resolve axis fallback = fallback.
Proof. unfold Recommender.resolve. now intros ->. Qed.

Lemma stamp_fields (now : Z) (chartType : Schema.ChartType) (d : draft)
  (chart : Schema.ChartConfig) :
  stamp now chartType (Some d) = Some chart ->
  Schema.type chart = chartType /\ Schema.title chart = draftTitle d
  /\ Schema.xAxis chart = draftX d /\ Schema.yAxis chart = draftY d
  /\ Schema.dataKey chart = draftKey d /\ Schema.data chart = draftData d
  /\ draftData d <> [].
Proof.
  unfold stamp, Recommender.finish. destruct (draftData d) eqn:E; [ discriminate | ].
  intros H. injection H as <-. simpl. repeat split; auto. discriminate.
Qed.

Lemma draftOf_axes parsedData chartType xAxis yAxis dataKey d :
  draftOf parsedData chartType xAxis yAxis dataKey = Js.Returned (Some d) ->
  draftX d
  = Recommender.resolve xAxis
      (match chartType with
       | Schema.Bar | Schema.Pie => Recommender.defaultCategory parsedData
       | _ => Recommender.defaultValue parsedData
       end)
  /\ draftY d
     = match chartType with
       | Schema.Pie => yAxis
       | Schema.Bar => Recommender.resolve yAxis (Recommender.defaultValue parsedData)
       | _ => Recommender.resolve yAxis
                (Recommender.defaultSecond parsedData (draftX d))
       end
  /\ draftKey d
     = match chartType with Schema.Pie => Some "value"%string | _ => dataKey end.
Proof.
  unfold draftOf. destruct chartType; try discriminate.
  - destruct (Recommender.resolve xAxis _) as [x | ] eqn:Ex; [ | discriminate ].
    destruct (Recommender.resolve yAxis _) as [y | ] eqn:Ey; [ | discriminate ].
    destruct (_ && _); [ | discriminate ].
    destruct (Recommender.aggregate x y _); [ | discriminate ].
    simpl. intros H. injection H as <-. simpl. auto.
  - destruct (Recommender.resolve xAxis _) as [x | ] eqn:Ex; [ | discriminate ].
    destruct (Recommender.resolve yAxis _) as [y | ] eqn:Ey; [ | discriminate ].
    destruct (_ && _); [ | discriminate ].
    intros H. injection H as <-. simpl. auto.
  - destruct (Recommender.resolve xAxis _) as [x | ] eqn:Ex; [ | discriminate ].
    destruct (Js.name_truthy _); [ | discriminate ].
    intros H. injection H as <-. simpl. auto.
  - destruct (Recommender.resolve xAxis _) as [x | ] eqn:Ex; [ | discriminate ].
    destruct (Recommender.resolve yAxis _) as [y | ] eqn:Ey; [ | discriminate ].
    destruct (_ && _); [ | discriminate ].
    intros H. injection H as <-. simpl. auto.
Qed.

Lemma generateChart_Some parsedData now chartType xAxis yAxis dataKey chart :
  Recommender.generateChart parsedData now chartType xAxis yAxis dataKey
  = Js.Returned (Some chart) ->
  exists d, draftOf parsedData chartType xAxis yAxis dataKey = Js.Returned (Some d)
            /\ stamp now chartType (Some d) = Some chart.
Proof.
  rewrite generateChart_draft.
  destruct (draftOf _ _ _ _ _) as [[d | ] | e]; simpl; try discriminate.
  intros H. injection H as H. now exists d.
Qed.

(** The axes of a payload: an axis the caller supplies is passed on as it
    is; an axis the caller omits is taken from the columns.  (A pie chart
    passes [yAxis] on and sets [dataKey] to 'value'.) *)
Definition payloadAxes (parsedData : Schema.ParsedData) (chartType : Schema.ChartType)
  (xAxis yAxis dataKey : option string) (chart : Schema.ChartConfig) : Prop :=
  (Js.name_truthy xAxis = true -> Schema.xAxis chart = xAxis)
  /\ (Js.name_truthy xAxis = false -> axisOf parsedData (Schema.xAxis chart))
  /\ (Js.name_truthy yAxis = true \/ chartType = Schema.Pie ->
      Schema.yAxis chart = yAxis)
  /\ (Js.name_truthy yAxis = false -> chartType <> Schema.Pie ->
      axisOf parsedData (Schema.yAxis chart))
  /\ Schema.dataKey chart
     = match chartType with Schema.Pie => Some "value"%string | _ => dataKey end.

Lemma generateChart_axes parsedData now chartType xAxis yAxis dataKey chart :
  Recommender.generateChart parsedData now chartType xAxis yAxis dataKey
  = Js.Returned (Some chart) ->
  payloadAxes parsedData chartType xAxis yAxis dataKey chart.
Proof.
  intros H. apply generateChart_Some in H. destruct H as (d & Hd & Hs).
  unfold payloadAxes.
  apply stamp_fields in Hs. destruct Hs as (_ & _ & -> & -> & -> & _).
  apply draftOf_axes in Hd. destruct Hd as (Hx & Hy & ->).
  rewrite Hy, Hx. clear Hx Hy.
  repeat split.
  - intros T. now apply resolve_given.
  - intros T. rewrite (resolve_omitted _ _ T).
    destruct chartType; auto using defaultCategory_axis, defaultValue_axis.
  - intros [T | ->]; [ | reflexivity ].
    destruct chartType; auto using resolve_given.
  - intros T Hpie. destruct chartType; try congruence;
      rewrite (resolve_omitted _ _ T);
      auto using defaultValue_axis, defaultSecond_axis.
Qed.

Lemma includes_In (columns : list string) (axis : string) :
  Routes.includes columns axis = true -> In axis columns.
Proof.
  unfold Routes.includes. rewrite existsb_exists.
  intros (c & Hc & E). apply String.eqb_eq in E. now subst.
Qed.

Lemma known_named (parsedData : Schema.ParsedData) (axis : option string) :
  Routes.unknownAxis (Schema.columns parsedData) axis = false ->
  namedAxisOf parsedData axis.
Proof.
  intros H col -> Hne. simpl in H.
  destruct col; [ now contradiction Hne | ]. simpl in H.
  apply negb_false_iff in H. now apply includes_In.
Qed.

Lemma axisOf_named (parsedData : Schema.ParsedData) (axis : option string) :
  axisOf parsedData axis -> namedAxisOf parsedData axis.
Proof. intros H col E _. now apply H. Qed.

(** C3 (counterexample): "nope" is no column of the table, yet generateChart
    answers the bar request on it with a payload (one 'Unknown' group) whose
    xAxis is "nope". *)
Lemma generateChart_unknown_axis_payload :
  ~ In "nope"%string (Schema.columns Tables.sales)
  /\ exists chart,
       Recommender.generateChart Tables.sales 0 Schema.Bar
         (Some "nope"%string) (Some "val"%string) None
       = Js.Returned (Some chart)
       /\ Schema.xAxis chart = Some "nope"%string.
Proof.
  split.
  - simpl. intros [H | [H | []]]; discriminate H.
  - eexists. split; [ vm_compute; reflexivity | reflexivity ].
Qed.

(** C3 (amended): every xAxis and yAxis of a candidate of recommendCharts
    is a column of the table, and its dataKey is absent or the literal
    'value'; generateChart takes from the columns every axis the caller
    omits and passes on unchecked every axis the caller supplies; the route
    handler answers 400 when a supplied axis is no column, so that every
    payload it returns has its named axes among the columns. *)
Theorem axes_are_columns :
  forall (parsedData : Schema.ParsedData),
    (forall features rec,
        In rec (Recommender.recommendCharts parsedData features) ->
        candidateAxes parsedData rec)
    /\ (forall now chartType xAxis yAxis dataKey chart,
          Recommender.generateChart parsedData now chartType xAxis yAxis dataKey
          = Js.Returned (Some chart) ->
          payloadAxes parsedData chartType xAxis yAxis dataKey chart)
    /\ (forall now req,
          Routes.requestedType (Routes.chartType req) <> None ->
          Routes.unknownAxis (Schema.columns parsedData) (Routes.xAxis req) = true
          \/ Routes.unknownAxis (Schema.columns parsedData) (Routes.yAxis req) = true ->
          exists message,
            Routes.createChart now (Some parsedData) req = Routes.Error 400 message)
    /\ (forall now req chart,
          Routes.createChart now (Some parsedData) req = Routes.Json chart ->
          namedAxisOf parsedData (Schema.xAxis chart)
          /\ namedAxisOf parsedData (Schema.yAxis chart)).
Proof.
  intros pd. split; [ | split; [ | split ] ].
  - intros features rec. apply recommendCharts_axes.
  - intros now ct x y dk chart. apply generateChart_axes.
  - intros now req Hct Hunknown. unfold Routes.createChart.
    destruct (Routes.requestedType _) as [ct | ]; [ | congruence ].
    destruct (Routes.unknownAxis _ (Routes.xAxis req)); [ eauto | ].
    destruct Hunknown as [H | ->]; [ discriminate | eauto ].
  - intros now req chart. unfold Routes.createChart.
    destruct (Routes.requestedType _) as [ct | ]; [ | discriminate ].
    destruct (Routes.unknownAxis _ (Routes.xAxis req)) eqn:Ux; [ discriminate | ].
    destruct (Routes.unknownAxis _ (Routes.yAxis req)) eqn:Uy; [ discriminate | ].
    destruct (Recommender.generateChart _ _ _ _ _ _) as [[c | ] | e] eqn:G;
      try discriminate.
    intros H. injection H as ->.
    apply generateChart_axes in G. destruct G as (Gx & Gx' & Gy & Gy' & _).
    split.
    + destruct (Js.name_truthy (Routes.xAxis req)) eqn:T.
      * rewrite (Gx eq_refl). now apply known_named.
      * now apply axisOf_named, Gx'.
    + destruct (Js.name_truthy (Routes.yAxis req)) eqn:T.
      * rewrite Gy by now left. now apply known_named.
      * assert (P : ct = Schema.Pie \/ ct <> Schema.Pie)
          by (destruct ct; auto; right; discriminate).
        destruct P as [-> | P].
        -- rewrite Gy by now right. now apply known_named.
        -- now apply axisOf_named, Gy'.
Qed.

(* ===================================================================== *)
(** * recommendCharts: the bar candidate *)
(* ===================================================================== *)

Lemma name_or_cases (a b : option string) (s : string) :
  Js.name_or a b = Some s ->
  (a = Some s /\ Js.name_truthy a = true) \/ (Js.name_truthy a = false /\ b = Some s).
Proof. unfold Js.name_or. destruct (Js.name_truthy a); auto. Qed.

Lemma lineRule_type parsedData features rec :
  In rec (Recommender.lineRule parsedData features) ->
  Recommender.chartType rec = Schema.Line.
Proof. unfold Recommender.lineRule. intros H. rule_cases; reflexivity. Qed.

Lemma pieRule_type parsedData features rec :
  In rec (Recommender.pieRule parsedData features) ->
  Recommender.chartType rec = Schema.Pie.
Proof. unfold Recommender.pieRule. intros H. rule_cases; reflexivity. Qed.

Lemma scatterRule_type parsedData features rec :
  In rec (Recommender.scatterRule parsedData features) ->
  Recommender.chartType rec = Schema.Scatter.
Proof. unfold Recommender.scatterRule. intros H. rule_cases; reflexivity. Qed.

Lemma areaRule_type parsedData features rec :
  In rec (Recommender.areaRule parsedData features) ->
  Recommender.chartType rec = Schema.Area.
Proof. unfold Recommender.areaRule. intros H. rule_cases; reflexivity. Qed.

Lemma barRule_type parsedData features rec :
  In rec (Recommender.barRule parsedData features) ->
  Recommender.chartType rec = Schema.Bar.
Proof. unfold Recommender.barRule. intros H. rule_cases; reflexivity. Qed.

(** A bar candidate comes from the bar rule. *)
Lemma bar_from_barRule parsedData features rec :
  In rec (Recommender.recommendCharts parsedData features) ->
  Recommender.chartType rec = Schema.Bar ->
  In rec (Recommender.barRule parsedData features).
Proof.
  intros H Hbar. apply recommendCharts_In, recommendations_cases in H.
  destruct H as [H | [H | [H | [H | H]]]]; [ exact H | | | | ];
    [ apply lineRule_type in H | apply pieRule_type in H
    | apply scatterRule_type in H | apply areaRule_type in H ];
    congruence.
Qed.

(** What the guard of the bar rule lets through. *)
Definition barColumns (parsedData : Schema.ParsedData)
  (rec : Recommender.ChartRecommendation) : Prop :=
  let numericColumns :=
    filter (Schema.has_type parsedData Schema.TNumber) (Schema.columns parsedData) in
  exists category value,
    Recommender.xAxis rec = Some category
    /\ Recommender.yAxis rec = Some value
    /\ Recommender.isIdentifierColumn category = false
    /\ Regex.test Recommender.re_empty category = false
    /\ Regex.test Recommender.re_column category = false
    /\ Recommender.isIdentifierColumn value = false
    /\ (Recommender.notPlaceholder value = false ->
        hd_error numericColumns = Some value
        /\ Js.name_truthy (find Recommender.notPlaceholder numericColumns) = false).

Lemma barRule_columns parsedData features rec :
  In rec (Recommender.barRule parsedData features) -> barColumns parsedData rec.
Proof.
  unfold Recommender.barRule, barColumns.
  destruct (_ && _); [ | intros [] ].
  match goal with
  | |- In _ (match ?c with Some _ => _ | None => _ end) -> _ =>
      destruct c as [category | ]; [ | intros [] ]
  end.
  match goal with
  | |- In _ (match ?v with Some _ => _ | None => _ end) -> _ =>
      destruct v as [value | ] eqn:Ev; [ | intros [] ]
  end.
  match goal with
  | |- In _ (if ?g then _ else _) -> _ => destruct g eqn:G; [ | intros [] ]
  end.
  intros [<- | []]. simpl.
  rewrite !andb_true_iff, !negb_true_iff in G.
  destruct G as (((((_ & _) & Gc) & Gv) & Ge) & Gk).
  exists category, value. repeat split; auto.
  - apply name_or_cases in Ev. destruct Ev as [[Ev _] | [_ Ev]].
    + apply find_some in Ev. destruct Ev as [_ Ev]. congruence.
    + apply name_or_cases in Ev. destruct Ev as [[Ev _] | [_ Ev]]; [ | exact Ev ].
      apply find_some in Ev. destruct Ev as [_ Ev]. congruence.
  - apply name_or_cases in Ev. destruct Ev as [[Ev _] | [_ Ev]].
    + apply find_some in Ev. destruct Ev as [_ Ev]. congruence.
    + apply name_or_cases in Ev. destruct Ev as [[Ev _] | [T _]]; [ | exact T ].
      apply find_some in Ev. destruct Ev as [_ Ev]. congruence.
Qed.

(** C4 (counterexample): on a table whose only numeric column is named
    "column1" recommendCharts emits a bar candidate whose value column is
    that placeholder-named column. *)
Lemma bar_candidate_placeholder_value :
  exists rec,
    In rec (Recommender.recommendCharts Tables.unnamed
              (Recommender.extractFeatures Tables.unnamed))
    /\ Recommender.chartType rec = Schema.Bar
    /\ Recommender.yAxis rec = Some "column1"%string
    /\ Regex.test Recommender.re_column "column1" = true.
Proof.
  eexists. split; [ vm_compute; left; reflexivity | ].
  repeat split; vm_compute; reflexivity.
Qed.

(** The candidate the bar rule pushes. *)
Definition barCandidate (category value : string) : Recommender.ChartRecommendation :=
  {| Recommender.chartType := Schema.Bar;
     Recommender.confidence := 0.95;
     Recommender.xAxis := Some category;
     Recommender.yAxis := Some value;
     Recommender.dataKey := None;
     Recommender.title := (value ++ " by " ++ category)%string;
     Recommender.reasoning :=
       "Categorical data with numeric metrics - ideal for bar charts showing comparisons" |}.

(** What the bar rule asks of the features and of the two columns it has
    resolved. *)
Definition barAccepted (parsedData : Schema.ParsedData)
  (features : Recommender.DataFeatures) (category value : string) : Prop :=
  Recommender.hasCategoricalData features = true
  /\ 0 < Recommender.numNumericColumns features
  /\ Recommender.BarRule.categoryCol parsedData = Some category
  /\ Recommender.BarRule.valueCol parsedData = Some value
  /\ category <> EmptyString /\ value <> EmptyString
  /\ Recommender.isIdentifierColumn category = false
  /\ Recommender.isIdentifierColumn value = false
  /\ Regex.test Recommender.re_empty category = false
  /\ Regex.test Recommender.re_column category = false.

(** The bar rule, read through the two columns it resolves. *)
Lemma barRule_resolved parsedData features :
  Recommender.barRule parsedData features
  = if Recommender.hasCategoricalData features
       && Nat.ltb 0 (Recommender.numNumericColumns features)
    then
      match Recommender.BarRule.categoryCol parsedData,
            Recommender.BarRule.valueCol parsedData with
      | Some category, Some value =>
          if negb (JsStr.is_empty category) && negb (JsStr.is_empty value)
             && negb (Recommender.isIdentifierColumn category)
             && negb (Recommender.isIdentifierColumn value)
             && negb (Regex.test Recommender.re_empty category)
             && negb (Regex.test Recommender.re_column category)
          then [barCandidate category value]
          else []
      | _, _ => []
      end
    else [].
Proof. reflexivity. Qed.

Lemma is_empty_false_iff (s : string) : JsStr.is_empty s = false <-> s <> EmptyString.
Proof. destruct s; simpl; split; congruence. Qed.

Lemma barRule_In parsedData features rec :
  In rec (Recommender.barRule parsedData features)
  <-> exists category value,
        barAccepted parsedData features category value
        /\ rec = barCandidate category value.
Proof.
  rewrite barRule_resolved. unfold barAccepted. split.
  - destruct (Recommender.hasCategoricalData features); [ | intros [] ].
    destruct (Nat.ltb_spec 0 (Recommender.numNumericColumns features)) as [Hn | _];
      [ | intros [] ].
    cbn [andb].
    destruct (Recommender.BarRule.categoryCol parsedData) as [category | ];
      [ | intros [] ].
    destruct (Recommender.BarRule.valueCol parsedData) as [value | ];
      [ | intros [] ].
    match goal with
    | |- In _ (if ?g then _ else _) -> _ => destruct g eqn:G; [ | intros [] ]
    end.
    intros [<- | []].
    rewrite !andb_true_iff, !negb_true_iff, !is_empty_false_iff in G.
    destruct G as (((((Gc & Gv) & Ic) & Iv) & Ge) & Gk).
    exists category, value. repeat split; assumption.
  - intros (category & value & (Hc & Hn & Ec & Ev & Gc & Gv & Ic & Iv & Ge & Gk) & ->).
    rewrite Hc, Ec, Ev. apply Nat.ltb_lt in Hn. rewrite Hn.
    apply is_empty_false_iff in Gc, Gv. rewrite Gc, Gv, Ic, Iv, Ge, Gk.
    now left.
Qed.

Lemma bar_candidate_In parsedData features rec :
  In rec (Recommender.recommendCharts parsedData features)
  /\ Recommender.chartType rec = Schema.Bar
  <-> exists category value,
        barAccepted parsedData features category value
        /\ rec = barCandidate category value.
Proof.
  rewrite <- barRule_In. split.
  - intros [H Hbar]. now apply bar_from_barRule.
  - intros H. split; [ | now apply barRule_type in H ].
    apply recommendCharts_In. unfold Recommender.recommendations.
    apply in_or_app. now left.
Qed.

(** C4 (amended): recommendCharts emits a bar candidate exactly when the
    features show categorical data and a numeric column, the rule resolves a
    category column and a value column, both with a name, the category
    column is neither an identifier nor placeholder-named (empty<digits> or
    column<digits>) and the value column is not an identifier; the candidate
    then has the resolved columns as its axes.  Hence there is no bar
    candidate whenever the resolved category column is an identifier or
    placeholder-named, or the resolved value column is an identifier, or a
    column is not resolved: the tables with the columns (user_id, amount),
    (Column2, amount), (EMPTY7, amount) and (cat, order_id) get none.  The
    value column of a bar candidate may be placeholder-named, but only as
    the last resort [numericColumns[0]], when the search for a numeric column
    without a placeholder name finds none to use. *)
Theorem bar_candidate_columns :
  forall (parsedData : Schema.ParsedData) (features : Recommender.DataFeatures),
    (forall rec,
        In rec (Recommender.recommendCharts parsedData features)
        /\ Recommender.chartType rec = Schema.Bar
        <-> exists category value,
              barAccepted parsedData features category value
              /\ rec = barCandidate category value)
    /\ (forall category value,
          Recommender.BarRule.categoryCol parsedData = Some category ->
          Recommender.BarRule.valueCol parsedData = Some value ->
          Recommender.isIdentifierColumn category = true
          \/ Regex.test Recommender.re_empty category = true
          \/ Regex.test Recommender.re_column category = true
          \/ Recommender.isIdentifierColumn value = true ->
          forall rec,
            In rec (Recommender.recommendCharts parsedData features) ->
            Recommender.chartType rec <> Schema.Bar)
    /\ (Recommender.BarRule.categoryCol parsedData = None
        \/ Recommender.BarRule.valueCol parsedData = None ->
        forall rec,
          In rec (Recommender.recommendCharts parsedData features) ->
          Recommender.chartType rec <> Schema.Bar)
    /\ (forall rec,
          In rec (Recommender.recommendCharts parsedData features) ->
          Recommender.chartType rec = Schema.Bar ->
          Recommender.xAxis rec = Recommender.BarRule.categoryCol parsedData
          /\ Recommender.yAxis rec = Recommender.BarRule.valueCol parsedData
          /\ barColumns parsedData rec)
    /\ (forall category value,
          In (category, value)
             [ ("user_id", "amount"); ("Column2", "amount");
               ("EMPTY7", "amount"); ("cat", "order_id") ]%string ->
          let table := Tables.named category value in
          Recommender.hasCategoricalData (Recommender.extractFeatures table) = true
          /\ Recommender.numNumericColumns (Recommender.extractFeatures table) = 1
          /\ Recommender.BarRule.categoryCol table = Some category
          /\ Recommender.BarRule.valueCol table = Some value
          /\ Recommender.recommendCharts table (Recommender.extractFeatures table)
             = [])
    /\ Recommender.recommendCharts (Tables.named "cat" "amount")
         (Recommender.extractFeatures (Tables.named "cat" "amount"))
       = [barCandidate "cat" "amount"].
Proof.
  intros pd features.
  split; [ | split; [ | split; [ | split; [ | split ] ] ] ].
  - intros rec. apply bar_candidate_In.
  - intros category value Ec Ev Hbad rec Hin Hbar.
    destruct (proj1 (bar_candidate_In pd features rec) (conj Hin Hbar))
      as (c & v & (_ & _ & Ec' & Ev' & _ & _ & Ic & Iv & Ge & Gk) & _).
    rewrite Ec in Ec'. rewrite Ev in Ev'.
    injection Ec' as <-. injection Ev' as <-.
    destruct Hbad as [H | [H | [H | H]]]; congruence.
  - intros Hnone rec Hin Hbar.
    destruct (proj1 (bar_candidate_In pd features rec) (conj Hin Hbar))
      as (c & v & (_ & _ & Ec' & Ev' & _) & _).
    destruct Hnone as [H | H]; congruence.
  - intros rec Hin Hbar.
    destruct (proj1 (bar_candidate_In pd features rec) (conj Hin Hbar))
      as (c & v & (_ & _ & Ec' & Ev' & _) & ->).
    split; [ now rewrite Ec' | ].
    split; [ now rewrite Ev' | ].
    apply barRule_columns with (features := features).
    now apply bar_from_barRule.
  - intros category value Hin. simpl in Hin.
    destruct Hin as [E | [E | [E | [E | []]]]]; injection E as <- <-;
      repeat split; vm_compute; reflexivity.
  - vm_compute. reflexivity.
Qed.

(** The bar candidate of [Tables.unnamed]. *)
Lemma bar_candidate_columns_witness :
  let rec := barCandidate "cat" "column1" in
  In rec (Recommender.recommendCharts Tables.unnamed
            (Recommender.extractFeatures Tables.unnamed))
  /\ Recommender.chartType rec = Schema.Bar
  /\ Recommender.xAxis rec = Recommender.BarRule.categoryCol Tables.unnamed
  /\ Recommender.yAxis rec = Recommender.BarRule.valueCol Tables.unnamed
  /\ barColumns Tables.unnamed rec.
Proof.
  intros rec.
  assert (H1 : In rec (Recommender.recommendCharts Tables.unnamed
                         (Recommender.extractFeatures Tables.unnamed)))
    by (vm_compute; left; reflexivity).
  assert (H2 : Recommender.chartType rec = Schema.Bar) by reflexivity.
  exact (conj H1 (conj H2
           (proj1 (proj2 (proj2 (proj2
              (bar_candidate_columns Tables.unnamed
                 (Recommender.extractFeatures Tables.unnamed))))) rec H1 H2))).
Defined.

(* ===================================================================== *)
(** * Sorting by a key, largest first *)
(* ===================================================================== *)

Section KeySort.

Context {A : Type} (key : A -> nat).

(** [a] has to come after [b] when its key is smaller. *)
Definition byKey (a b : A) : bool := Nat.ltb (key a) (key b).

Definition descending : list A -> Prop :=
  StronglySorted (fun a b => key b <= key a).

Lemma insert_key_descending (x : A) (l : list A) :
  descending l -> descending (Js.insert_sorted byKey x l).
Proof.
  unfold descending. induction 1 as [ | y l Hl IH Hy ]; simpl.
  - constructor; [ constructor | constructor ].
  - unfold byKey at 1. destruct (Nat.ltb_spec (key x) (key y)) as [Hlt | Hge].
    + constructor; [ exact IH | ].
      assert (P : Permutation (x :: l) (Js.insert_sorted byKey x l))
        by apply insert_sorted_perm.
      eapply Permutation_Forall; [ exact P | ].
      constructor; [ lia | exact Hy ].
    + constructor; [ constructor; assumption | ].
      constructor; [ exact Hge | ].
      eapply Forall_impl; [ | exact Hy ]. simpl. intros a Ha. lia.
Qed.

Lemma sort_key_descending (l : list A) : descending (Js.sort byKey l).
Proof.
  induction l as [ | x l IH ]; simpl.
  - constructor.
  - now apply insert_key_descending.
Qed.

(** Stability: the elements of one key keep their order. *)
Lemma insert_key_stable (n : nat) (x : A) (l : list A) :
  filter (fun a => Nat.eqb (key a) n) (Js.insert_sorted byKey x l)
  = filter (fun a => Nat.eqb (key a) n) (x :: l).
Proof.
  induction l as [ | y l IH ]; simpl; [ reflexivity | ].
  unfold byKey at 1. destruct (Nat.ltb_spec (key x) (key y)) as [Hlt | Hge].
  - simpl. rewrite IH. simpl.
    destruct (Nat.eqb_spec (key x) n), (Nat.eqb_spec (key y) n);
      try reflexivity; lia.
  - reflexivity.
Qed.

Lemma sort_key_stable (n : nat) (l : list A) :
  filter (fun a => Nat.eqb (key a) n) (Js.sort byKey l)
  = filter (fun a => Nat.eqb (key a) n) l.
Proof.
  induction l as [ | x l IH ]; simpl; [ reflexivity | ].
  rewrite insert_key_stable. simpl. now rewrite IH.
Qed.

(** In a descending list an element of larger key stands before one of
    smaller key. *)
Lemma descending_before (l : list A) (a b : A) :
  descending l -> In a l -> In b l -> key b < key a ->
  exists l1 l2 l3, l = l1 ++ a :: l2 ++ b :: l3.
Proof.
  unfold descending. induction 1 as [ | x l Hl IH Hx ]; intros Ha Hb Hlt.
  - destruct Ha.
  - rewrite Forall_forall in Hx.
    destruct Ha as [-> | Ha].
    + destruct Hb as [-> | Hb]; [ lia | ].
      apply in_split in Hb. destruct Hb as (l2 & l3 & ->).
      now exists [], l2, l3.
    + destruct Hb as [-> | Hb].
      * specialize (Hx a Ha). lia.
      * destruct (IH Ha Hb Hlt) as (l1 & l2 & l3 & ->).
        now exists (x :: l1), l2, l3.
Qed.

(** The sort depends on the comparison of the elements of the list only. *)
Lemma insert_sorted_ext (after1 after2 : A -> A -> bool) (x : A) (l : list A) :
  (forall y, In y l -> after1 x y = after2 x y) ->
  Js.insert_sorted after1 x l = Js.insert_sorted after2 x l.
Proof.
  induction l as [ | y l IH ]; intros H; simpl; [ reflexivity | ].
  rewrite (H y) by now left.
  destruct (after2 x y); [ | reflexivity ].
  f_equal. apply IH. intros z Hz. apply H. now right.
Qed.

Lemma sort_ext (after1 after2 : A -> A -> bool) (l : list A) :
  (forall x y, In x l -> In y l -> after1 x y = after2 x y) ->
  Js.sort after1 l = Js.sort after2 l.
Proof.
  induction l as [ | x l IH ]; intros H; simpl; [ reflexivity | ].
  rewrite IH by (intros a b Ha Hb; apply H; now right).
  apply insert_sorted_ext. intros y Hy. apply H; [ now left | right ].
  now apply (sort_In after2 l y).
Qed.

End KeySort.

(* ===================================================================== *)
(** * recommendCharts: the order of the candidates *)
(* ===================================================================== *)

(** The confidence constants of the five rules. *)
Definition confidences : list float := [0.95; 0.75; 0.65; 0.8; 0.6; 0.7]%float.

(** Hundredths, for the constants above. *)
Definition rank (c : float) : nat :=
  if PrimFloat.eqb c 0.95 then 95
  else if PrimFloat.eqb c 0.8 then 80
  else if PrimFloat.eqb c 0.75 then 75
  else if PrimFloat.eqb c 0.7 then 70
  else if PrimFloat.eqb c 0.65 then 65
  else if PrimFloat.eqb c 0.6 then 60
  else 0.

Definition confidenceRank (rec : Recommender.ChartRecommendation) : nat :=
  rank (Recommender.confidence rec).

Ltac known_confidence H :=
  simpl in H;
  repeat (destruct H as [H | H]; [ subst | ]); [ .. | destruct H ].

(** On the constants the comparisons of binary64 agree with the ranks. *)
Lemma rank_compare (a b : float) :
  In a confidences -> In b confidences ->
  PrimFloat.ltb PrimFloat.zero (PrimFloat.sub b a) = Nat.ltb (rank a) (rank b)
  /\ PrimFloat.leb b a = Nat.leb (rank b) (rank a)
  /\ PrimFloat.eqb a b = Nat.eqb (rank a) (rank b).
Proof.
  intros Ha Hb. unfold confidences in Ha, Hb.
  known_confidence Ha; known_confidence Hb; vm_compute; auto.
Qed.

Ltac rule_confidence :=
  intros H; rule_cases; simpl; auto 10.

Lemma recommendations_confidence parsedData features rec :
  In rec (Recommender.recommendations parsedData features) ->
  In (Recommender.confidence rec) confidences.
Proof.
  intros H. apply recommendations_cases in H. unfold confidences.
  destruct H as [H | [H | [H | [H | H]]]]; revert H;
    [ unfold Recommender.barRule | unfold Recommender.lineRule
    | unfold Recommender.pieRule | unfold Recommender.scatterRule
    | unfold Recommender.areaRule ];
    rule_confidence.
Qed.

Lemma recommendCharts_byRank parsedData features :
  Recommender.recommendCharts parsedData features
  = Js.sort (byKey confidenceRank) (Recommender.recommendations parsedData features).
Proof.
  unfold Recommender.recommendCharts. apply sort_ext. intros a b Ha Hb.
  unfold Recommender.byConfidence, byKey, confidenceRank.
  apply rank_compare;
    now apply recommendations_confidence with parsedData features.
Qed.

Lemma scatterRule_confidence parsedData features rec :
  In rec (Recommender.scatterRule parsedData features) ->
  Recommender.confidence rec = 0.8%float \/ Recommender.confidence rec = 0.6%float.
Proof. unfold Recommender.scatterRule. intros H. rule_cases; simpl; auto. Qed.

Lemma barRule_confidence parsedData features rec :
  In rec (Recommender.barRule parsedData features) ->
  Recommender.confidence rec = 0.95%float.
Proof. unfold Recommender.barRule. intros H. rule_cases; reflexivity. Qed.

Lemma scatter_from_scatterRule parsedData features rec :
  In rec (Recommender.recommendCharts parsedData features) ->
  Recommender.chartType rec = Schema.Scatter ->
  In rec (Recommender.scatterRule parsedData features).
Proof.
  intros H Hs. apply recommendCharts_In, recommendations_cases in H.
  destruct H as [H | [H | [H | [H | H]]]]; [ | | | exact H | ];
    [ apply barRule_type in H | apply lineRule_type in H
    | apply pieRule_type in H | apply areaRule_type in H ];
    congruence.
Qed.

Lemma StronglySorted_In_impl {A : Type} (R R' : A -> A -> Prop) (l : list A) :
  (forall a b, In a l -> In b l -> R a b -> R' a b) ->
  StronglySorted R l -> StronglySorted R' l.
Proof.
  intros H S. induction S as [ | x l Sl IH Hx ]; constructor.
  - apply IH. intros a b Ha Hb. apply H; now right.
  - rewrite Forall_forall in *. intros b Hb. apply H; [ now left | now right | ].
    now apply Hx.
Qed.

Lemma filter_ext_In {A : Type} (f g : A -> bool) (l : list A) :
  (forall a, In a l -> f a = g a) -> filter f l = filter g l.
Proof.
  induction l as [ | a l IH ]; intros H; simpl; [ reflexivity | ].
  rewrite (H a) by now left.
  rewrite IH by (intros b Hb; apply H; now right). reflexivity.
Qed.

(** C6: recommendCharts returns the candidates of the rules sorted by
    confidence, highest first, candidates of one confidence in the order
    the rules pushed them; a bar candidate has confidence 0.95, a scatter
    candidate 0.8 or 0.6, and the bar candidate stands before the scatter
    candidate whenever the table yields both. *)
Theorem recommendCharts_ranked :
  forall (parsedData : Schema.ParsedData) (features : Recommender.DataFeatures),
    let pushed := Recommender.recommendations parsedData features in
    let ranked := Recommender.recommendCharts parsedData features in
    Permutation pushed ranked
    /\ StronglySorted
         (fun a b => PrimFloat.leb (Recommender.confidence b)
                                   (Recommender.confidence a) = true)
         ranked
    /\ (forall c, In c confidences ->
          filter (fun rec => PrimFloat.eqb (Recommender.confidence rec) c) ranked
          = filter (fun rec => PrimFloat.eqb (Recommender.confidence rec) c) pushed)
    /\ (forall bar scatter,
          In bar ranked -> In scatter ranked ->
          Recommender.chartType bar = Schema.Bar ->
          Recommender.chartType scatter = Schema.Scatter ->
          Recommender.confidence bar = 0.95%float
          /\ (Recommender.confidence scatter = 0.8%float
              \/ Recommender.confidence scatter = 0.6%float)
          /\ exists l1 l2 l3, ranked = l1 ++ bar :: l2 ++ scatter :: l3).
Proof.
  intros pd features pushed ranked.
  assert (Known : forall rec, In rec ranked ->
                              In (Recommender.confidence rec) confidences).
  { intros rec H. apply recommendations_confidence with pd features.
    now apply recommendCharts_In. }
  assert (Desc : descending confidenceRank ranked).
  { subst ranked. rewrite recommendCharts_byRank. apply sort_key_descending. }
  split; [ | split; [ | split ] ].
  - apply sort_perm.
  - eapply StronglySorted_In_impl; [ | exact Desc ]. simpl.
    intros a b Ha Hb Hle. unfold confidenceRank in Hle.
    destruct (rank_compare (Recommender.confidence a) (Recommender.confidence b)
                (Known a Ha) (Known b Hb)) as (_ & -> & _).
    now apply Nat.leb_le.
  - intros c Hc.
    rewrite (filter_ext_In _ (fun rec => Nat.eqb (confidenceRank rec) (rank c)) ranked).
    + rewrite (filter_ext_In _ (fun rec => Nat.eqb (confidenceRank rec) (rank c)) pushed).
      * subst ranked. rewrite recommendCharts_byRank. apply sort_key_stable.
      * intros rec Hrec. apply rank_compare; [ | exact Hc ].
        now apply recommendations_confidence with pd features.
    + intros rec Hrec. apply rank_compare; [ now apply Known | exact Hc ].
  - intros bar scatter Hb Hs Tb Ts.
    assert (Cb : Recommender.confidence bar = 0.95%float)
      by (eapply barRule_confidence, bar_from_barRule; eassumption).
    assert (Cs : Recommender.confidence scatter = 0.8%float
                 \/ Recommender.confidence scatter = 0.6%float)
      by (eapply scatterRule_confidence, scatter_from_scatterRule; eassumption).
    split; [ exact Cb | split; [ exact Cs | ] ].
    apply (descending_before confidenceRank); auto.
    unfold confidenceRank. rewrite Cb.
    destruct Cs as [-> | ->]; vm_compute; lia.
Qed.

(* ===================================================================== *)
(** * First appearance *)
(* ===================================================================== *)

Definition mem (k : string) (l : list string) : bool := existsb (String.eqb k) l.

Lemma mem_In (k : string) (l : list string) : mem k l = true <-> In k l.
Proof.
  unfold mem. rewrite existsb_exists. split.
  - intros (c & Hc & E). apply String.eqb_eq in E. now subst.
  - intros H. exists k. split; [ exact H | apply String.eqb_refl ].
Qed.

Lemma mem_false (k : string) (l : list string) : mem k l = false <-> ~ In k l.
Proof.
  rewrite <- mem_In. destruct (mem k l); split; congruence.
Qed.

Lemma distinct_In (k : string) (l : list string) :
  In k (Js.distinct l) <-> In k l.
Proof.
  induction l as [ | x l IH ]; simpl; [ tauto | ].
  rewrite filter_In, IH, negb_true_iff, String.eqb_neq.
  destruct (String.eqb_spec x k); tauto.
Qed.

Lemma distinct_NoDup (l : list string) : NoDup (Js.distinct l).
Proof.
  induction l as [ | x l IH ]; simpl; constructor.
  - rewrite filter_In, negb_true_iff, String.eqb_neq. tauto.
  - now apply NoDup_filter.
Qed.

(** The distinct values of a list that grows at its end. *)
Lemma distinct_snoc (l : list string) (c : string) :
  Js.distinct (l ++ [c]) = if mem c l then Js.distinct l else Js.distinct l ++ [c].
Proof.
  induction l as [ | x l IH ]; simpl; [ reflexivity | ].
  rewrite IH. destruct (String.eqb_spec c x) as [-> | Hne]; simpl.
  - destruct (mem x l); [ reflexivity | ].
    rewrite filter_app. simpl. rewrite String.eqb_refl. simpl.
    now rewrite app_nil_r.
  - destruct (mem c l); [ reflexivity | ].
    rewrite filter_app. simpl.
    assert (E : String.eqb x c = false) by (apply String.eqb_neq; congruence).
    now rewrite E.
Qed.

(* ===================================================================== *)
(** * The order of the keys of a dictionary *)
(* ===================================================================== *)

(** [k] may stand before [k'] among the own keys of an object: indices come
    first, in ascending order. *)
Definition keyBefore (k k' : string) : Prop :=
  match Js.array_index k, Js.array_index k' with
  | Some i, Some j => (i <= j)%Z
  | Some _, None => True
  | None, Some _ => False
  | None, None => True
  end.

Definition keyOrdered (ks : list string) : Prop := StronglySorted keyBefore ks.

Definition notIndex (k : string) : bool := negb (Js.is_index k).

Section KeyOrder.

Context {V : Type}.
Implicit Types (o : Js.dict V) (k : string) (v : V).

Lemma keys_app o1 o2 : Js.keys (o1 ++ o2) = Js.keys o1 ++ Js.keys o2.
Proof. unfold Js.keys. apply map_app. Qed.

Lemma insert_index_perm (i : Z) k v o :
  Permutation (k :: Js.keys o) (Js.keys (Js.insert_index i k v o)).
Proof.
  induction o as [ | [k' v'] o IH ]; simpl; [ apply Permutation_refl | ].
  destruct (Js.array_index k') as [j | ]; [ destruct (j <? i)%Z | ]; simpl;
    try apply Permutation_refl.
  eapply perm_trans; [ apply perm_swap | ]. now apply perm_skip.
Qed.

Lemma insert_new_perm k v o :
  Permutation (k :: Js.keys o) (Js.keys (Js.insert_new k v o)).
Proof.
  unfold Js.insert_new. destruct (Js.array_index k).
  - apply insert_index_perm.
  - rewrite keys_app. simpl. apply Permutation_cons_append.
Qed.

Lemma insert_index_ordered (i : Z) k v o :
  Js.array_index k = Some i ->
  keyOrdered (Js.keys o) -> keyOrdered (Js.keys (Js.insert_index i k v o)).
Proof.
  intros Hk. unfold keyOrdered.
  induction o as [ | [k' v'] o IH ]; simpl; intros S.
  - constructor; [ constructor | constructor ].
  - inversion S as [ | ? ? S' F' ]; subst.
    assert (Stop : StronglySorted keyBefore (k :: k' :: Js.keys o)
                   \/ exists j, Js.array_index k' = Some j /\ (j < i)%Z).
    { destruct (Js.array_index k') as [j | ] eqn:Ek'.
      - destruct (Z.ltb_spec j i) as [Hlt | Hge]; [ right; eauto | left ].
        constructor; [ exact S | ]. constructor.
        + unfold keyBefore. now rewrite Hk, Ek'.
        + eapply Forall_impl; [ | exact F' ]. intros z. unfold keyBefore.
          rewrite Hk, Ek'. destruct (Js.array_index z); [ lia | tauto ].
      - left. constructor; [ exact S | ]. constructor.
        + unfold keyBefore. now rewrite Hk, Ek'.
        + eapply Forall_impl; [ | exact F' ]. intros z. unfold keyBefore.
          rewrite Hk, Ek'. now destruct (Js.array_index z). }
    destruct (Js.array_index k') as [j | ] eqn:Ek'.
    + destruct (Z.ltb_spec j i) as [Hlt | Hge]; simpl.
      * constructor; [ now apply IH | ].
        eapply Permutation_Forall; [ apply insert_index_perm | ].
        constructor; [ | exact F' ].
        unfold keyBefore. rewrite Ek', Hk. lia.
      * destruct Stop as [Stop | (j' & E & Hlt)]; [ exact Stop | ].
        injection E as <-. lia.
    + destruct Stop as [Stop | (j' & E & _)]; [ exact Stop | discriminate ].
Qed.

Lemma insert_new_ordered k v o :
  keyOrdered (Js.keys o) -> keyOrdered (Js.keys (Js.insert_new k v o)).
Proof.
  unfold Js.insert_new. destruct (Js.array_index k) as [i | ] eqn:Ek.
  - now apply insert_index_ordered.
  - rewrite keys_app. simpl. unfold keyOrdered.
    induction 1 as [ | x l S IH F ]; simpl.
    + constructor; [ constructor | constructor ].
    + constructor; [ exact IH | ].
      apply Forall_app. split; [ exact F | ].
      constructor; [ | constructor ].
      unfold keyBefore. rewrite Ek. now destruct (Js.array_index x).
Qed.

Lemma insert_index_notIndex (i : Z) k v o :
  Js.array_index k = Some i ->
  filter notIndex (Js.keys (Js.insert_index i k v o)) = filter notIndex (Js.keys o).
Proof.
  intros Hk.
  assert (Nk : notIndex k = false) by (unfold notIndex, Js.is_index; now rewrite Hk).
  induction o as [ | [k' v'] o IH ]; simpl.
  - now rewrite Nk.
  - destruct (Js.array_index k') as [j | ]; [ destruct (j <? i)%Z | ]; simpl;
      rewrite ?Nk, ?IH; reflexivity.
Qed.

Lemma insert_new_notIndex k v o :
  filter notIndex (Js.keys (Js.insert_new k v o))
  = filter notIndex (Js.keys o ++ [k]).
Proof.
  unfold Js.insert_new. destruct (Js.array_index k) as [i | ] eqn:Ek.
  - rewrite (insert_index_notIndex i k v o Ek), filter_app. simpl.
    unfold notIndex at 3, Js.is_index. rewrite Ek. simpl. now rewrite app_nil_r.
  - now rewrite keys_app.
Qed.

End KeyOrder.

(** Without index keys the order of the keys is the order of creation. *)
Lemma filter_notIndex_all (ks : list string) :
  (forall k, In k ks -> Js.is_index k = false) -> filter notIndex ks = ks.
Proof.
  intros H. apply filter_all. intros k Hk. unfold notIndex. now rewrite (H k Hk).
Qed.

(* ===================================================================== *)
(** * generateChart: the groups of a bar chart *)
(* ===================================================================== *)

Section BarGroups.

Variables x y : string.

(** The rows of category [k]. *)
Definition rowsOf (rows : list Js.row) (k : string) : list Js.row :=
  filter (fun r => String.eqb (Recommender.category_of x r) k) rows.

(** The values of the rows of category [k], in row order, if there is one. *)
Definition groupOf (rows : list Js.row) (k : string) : option (list float) :=
  match rowsOf rows k with
  | [] => None
  | rs => Some (map (Recommender.value_of y) rs)
  end.

Definition categories (rows : list Js.row) : list string :=
  map (Recommender.category_of x) rows.

Lemma groupOf_None (rows : list Js.row) (k : string) :
  groupOf rows k = None <-> ~ In k (categories rows).
Proof.
  unfold groupOf, rowsOf, categories. rewrite in_map_iff. split.
  - destruct (filter _ rows) as [ | r rs ] eqn:E; [ | discriminate ].
    intros _ (r & Hr & Hin).
    assert (Hf : In r (filter (fun r => String.eqb (Recommender.category_of x r) k) rows))
      by (apply filter_In; split; [ exact Hin | now apply String.eqb_eq ]).
    rewrite E in Hf. destruct Hf.
  - intros H. destruct (filter _ rows) as [ | r rs ] eqn:E; [ reflexivity | ].
    exfalso. apply H. exists r.
    assert (Hf : In r (filter (fun r => String.eqb (Recommender.category_of x r) k) rows))
      by (rewrite E; now left).
    apply filter_In in Hf. destruct Hf as [Hin Hk].
    apply String.eqb_eq in Hk. tauto.
Qed.

Lemma groupOf_snoc_same (rows : list Js.row) (r : Js.row) :
  groupOf (rows ++ [r]) (Recommender.category_of x r)
  = Some (match groupOf rows (Recommender.category_of x r) with
          | Some values => values ++ [Recommender.value_of y r]
          | None => [Recommender.value_of y r]
          end).
Proof.
  unfold groupOf, rowsOf. rewrite filter_app. simpl. rewrite String.eqb_refl.
  destruct (filter _ rows) as [ | r' rs ]; simpl; [ reflexivity | ].
  now rewrite map_app.
Qed.

Lemma groupOf_snoc_other (rows : list Js.row) (r : Js.row) (k : string) :
  k <> Recommender.category_of x r -> groupOf (rows ++ [r]) k = groupOf rows k.
Proof.
  intros Hne. unfold groupOf, rowsOf. rewrite filter_app. simpl.
  assert (E : String.eqb (Recommender.category_of x r) k = false)
    by (apply String.eqb_neq; congruence).
  now rewrite E, app_nil_r.
Qed.

(** What [aggregated] holds after the rows [seen]. *)
Record aggregated_after (seen : list Js.row) (aggregated : Js.dict (list float))
  : Prop := {
  after_own : forall k, Js.own k aggregated = groupOf seen k;
  after_nodup : NoDup (Js.keys aggregated);
  after_ordered : keyOrdered (Js.keys aggregated);
  after_seen : filter notIndex (Js.keys aggregated)
               = filter notIndex (Js.distinct (categories seen))
}.

Lemma aggregated_nil : aggregated_after [] [].
Proof.
  constructor; simpl; auto; constructor.
Qed.

Lemma aggregate_step_after (seen : list Js.row) (aggregated : Js.dict (list float))
  (r : Js.row) :
  aggregated_after seen aggregated ->
  Js.inherited (Recommender.category_of x r) = false ->
  exists aggregated',
    Recommender.aggregate_step x y (Js.Returned aggregated) r = Js.Returned aggregated'
    /\ aggregated_after (seen ++ [r]) aggregated'.
Proof.
  intros [Hown Hnd Hord Hseen] Hplain.
  unfold Recommender.aggregate_step. simpl.
  set (c := Recommender.category_of x r) in *.
  set (v := Recommender.value_of y r).
  destruct (Js.own c aggregated) as [values | ] eqn:Ec.
  - eexists. split; [ reflexivity | ].
    assert (Hin : mem c (categories seen) = true).
    { apply mem_In. destruct (mem c (categories seen)) eqn:M.
      - now apply mem_In.
      - exfalso. apply mem_false, groupOf_None in M. rewrite <- Hown in M.
        congruence. }
    constructor.
    + intros k. destruct (String.eqb_spec k c) as [-> | Hne].
      * rewrite own_replace_same by congruence.
        unfold c. rewrite groupOf_snoc_same. fold c. now rewrite <- Hown, Ec.
      * rewrite own_replace_other by exact Hne.
        rewrite groupOf_snoc_other by exact Hne. apply Hown.
    + now rewrite keys_replace.
    + now rewrite keys_replace.
    + rewrite keys_replace, Hseen. unfold categories. rewrite map_app. simpl.
      fold c. fold (categories seen). now rewrite distinct_snoc, Hin.
  - rewrite Hplain. eexists. split; [ reflexivity | ].
    assert (Hin : mem c (categories seen) = false).
    { apply mem_false, groupOf_None. now rewrite <- Hown. }
    assert (Hdef : Js.define c [v] aggregated = Js.insert_new c [v] aggregated)
      by (unfold Js.define; now rewrite Ec).
    constructor.
    + intros k. rewrite own_define.
      destruct (String.eqb_spec k c) as [-> | Hne].
      * unfold c. rewrite groupOf_snoc_same. fold c. now rewrite <- Hown, Ec.
      * rewrite groupOf_snoc_other by exact Hne. apply Hown.
    + rewrite Hdef. eapply Permutation_NoDup; [ apply insert_new_perm | ].
      constructor; [ | exact Hnd ]. now apply own_None_keys.
    + rewrite Hdef. now apply insert_new_ordered.
    + rewrite Hdef, insert_new_notIndex, filter_app, Hseen.
      unfold categories. rewrite map_app. simpl. fold c. fold (categories seen).
      now rewrite distinct_snoc, Hin, filter_app.
Qed.

Lemma aggregate_after_fold (rows seen : list Js.row)
  (aggregated : Js.dict (list float)) :
  aggregated_after seen aggregated ->
  (forall r, In r rows -> Js.inherited (Recommender.category_of x r) = false) ->
  exists aggregated',
    fold_left (Recommender.aggregate_step x y) rows (Js.Returned aggregated)
    = Js.Returned aggregated'
    /\ aggregated_after (seen ++ rows) aggregated'.
Proof.
  revert seen aggregated.
  induction rows as [ | r rows IH ]; intros seen aggregated Hafter Hplain;
    cbn [fold_left].
  - exists aggregated. now rewrite app_nil_r.
  - destruct (aggregate_step_after seen aggregated r Hafter) as (agg1 & -> & H1).
    { apply Hplain. now left. }
    destruct (IH (seen ++ [r]) agg1 H1) as (agg2 & E2 & H2).
    { intros r' Hr'. apply Hplain. now right. }
    exists agg2. split; [ exact E2 | ].
    now rewrite <- app_assoc in H2.
Qed.

(** The loop of the bar chart, on rows whose categories are not names of
    members of [Object.prototype]. *)
Lemma aggregate_after (rows : list Js.row) :
  (forall r, In r rows -> Js.inherited (Recommender.category_of x r) = false) ->
  exists aggregated,
    Recommender.aggregate x y rows = Js.Returned aggregated
    /\ aggregated_after rows aggregated.
Proof.
  intros H. apply (aggregate_after_fold rows [] [] aggregated_nil H).
Qed.

(** With an inherited name among the categories the loop throws. *)
Lemma aggregate_step_Threw (e : string) (r : Js.row) :
  Recommender.aggregate_step x y (Js.Threw e) r = Js.Threw e.
Proof. reflexivity. Qed.

End BarGroups.

(** What generateChart answers for a bar chart on the final axes [fx] and
    [fy]. *)
Definition barPayload (parsedData : Schema.ParsedData) (now : Z)
  (xAxis yAxis dataKey : option string) (fx fy : string) : Prop :=
  let rows := Schema.rows parsedData in
  let answer :=
    Recommender.generateChart parsedData now Schema.Bar xAxis yAxis dataKey in
  exists groups : Js.dict (list float),
    (* one group for each category, holding the values of its rows *)
    (forall k, Js.own k groups = groupOf fx fy rows k)
    /\ NoDup (Js.keys groups)
    /\ (forall k, In k (Js.keys groups) <-> In k (categories fx rows))
    (* the order of the groups *)
    /\ keyOrdered (Js.keys groups)
    /\ filter notIndex (Js.keys groups)
       = filter notIndex (Js.distinct (categories fx rows))
    /\ ((forall r, In r rows -> Js.is_index (Recommender.category_of fx r) = false) ->
        Js.keys groups = Js.distinct (categories fx rows))
    (* without rows the answer is null *)
    /\ (rows = [] -> answer = Js.Returned None)
    (* otherwise a chart is returned; its data are at most the first 20
       groups *)
    /\ (rows <> [] ->
        exists chart,
          answer = Js.Returned (Some chart)
          /\ Schema.type chart = Schema.Bar
          /\ Schema.id chart = ("bar-" ++ JsStr.of_Z now)%string
          /\ Schema.title chart = (fy ++ " by " ++ fx)%string
          /\ Schema.xAxis chart = Some fx
          /\ Schema.yAxis chart = Some fy
          /\ Schema.dataKey chart = dataKey
          /\ Schema.data chart
             = firstn 20 (map (Recommender.barEntry fx fy) groups)
          /\ List.length (Schema.data chart)
             = Nat.min 20 (List.length (Js.distinct (categories fx rows))))
    (* the entry of a group: its key under [fx], under [fy] the sum of its
       values divided by their number, and nothing else *)
    /\ (forall g k,
          Js.own k (Recommender.barEntry fx fy g)
          = if String.eqb k fy
            then Some (Js.VNum
                         (PrimFloat.div
                            (fold_left PrimFloat.add (snd g) PrimFloat.zero)
                            (JsNum.of_nat (List.length (snd g)))))
            else if String.eqb k fx then Some (Js.VStr (fst g))
            else None).

(** Cells of the value column that are no numbers: the strings "12", "abc",
    "0x10" and " 7 ", the booleans, null, and a row without the cell. *)
Definition mixed : Schema.ParsedData :=
  {| Schema.columns := ["cat"; "val"]%string;
     Schema.rows :=
       map (fun cell => ("cat"%string, Js.VStr "A") :: cell)
         [ [("val"%string, Js.VStr "12")]; [("val"%string, Js.VBool true)];
           [("val"%string, Js.VStr "abc")]; [("val"%string, Js.VNull)];
           []; [("val"%string, Js.VStr "0x10")];
           [("val"%string, Js.VStr " 7 ")]; [("val"%string, Js.VBool false)] ];
     Schema.columnTypes := Tables.typed |}.

(** The coercions of the two cells. *)
Lemma category_of_null (axis : string) (r : Js.row) :
  Js.get r axis = Js.VNull -> Recommender.category_of axis r = "Unknown"%string.
Proof. unfold Recommender.category_of. intros ->. vm_compute. reflexivity. Qed.

Lemma category_of_truthy (axis : string) (r : Js.row) :
  Js.truthy (Js.get r axis) = true ->
  Recommender.category_of axis r = JsStr.trim (Js.ToString (Js.get r axis)).
Proof. unfold Recommender.category_of, Js.or_else. now intros ->. Qed.

Lemma value_of_not_numeric (axis : string) (r : Js.row) :
  Js.isNaN (Js.get r axis) = true -> Recommender.value_of axis r = PrimFloat.zero.
Proof.
  unfold Recommender.value_of, Js.isNaN, JsNum.isNaN, JsNum.truthy.
  now intros ->.
Qed.

(** C5 (counterexample): the categories are met as "2" then "1"; the bar
    payload lists the group of "1" before the group of "2". *)
Lemma generateChart_bar_not_first_seen :
  categories "cat" (Schema.rows Tables.ranked) = ["2"; "1"]%string
  /\ exists chart,
       Recommender.generateChart Tables.ranked 0 Schema.Bar
         (Some "cat"%string) (Some "val"%string) None
       = Js.Returned (Some chart)
       /\ map (Js.own "cat") (Schema.data chart)
          = [Some (Js.VStr "1"); Some (Js.VStr "2")].
Proof.
  split; [ vm_compute; reflexivity | ].
  eexists. split; vm_compute; reflexivity.
Qed.

(** C5 (amended): for a bar chart generateChart groups the rows by a key,
    'Unknown' for a null x-axis cell and the trimmed string form of the cell
    when the cell is truthy, takes in each group the mean of the y-axis cells
    converted to numbers (0 for what is no number), and plots at most the
    first 20 groups in the order of the own keys of an object: the groups
    whose key is a canonical array index first, by ascending index, then the
    other groups in the order of first appearance, which is the order of all
    groups when no key is an index.  (The statement is for rows whose key is
    not the name of a member of Object.prototype.)  For
    [{cat:"A",val:10},{cat:"A",val:20},{cat:"B",val:5}] with axes cat and val
    the data are [{cat:"A",val:15},{cat:"B",val:5}].  The chart has type
    'bar', id 'bar-' followed by the time, title '<y> by <x>', the two axes
    and the dataKey of the call; an entry holds the key under the x-axis and
    the sum of the values of the group divided by their number under the
    y-axis.  The value of a row is Number(cell), and 0 when that is NaN or
    zero: the cells "12", true, "abc", null, a missing cell, "0x10", " 7 "
    and false of one category count as 12, 1, 0, 0, 0, 16, 7 and 0, with
    mean 4.5.  Without rows the answer is null. *)
Theorem generateChart_bar_groups :
  forall (parsedData : Schema.ParsedData) (now : Z)
         (xAxis yAxis dataKey : option string) (fx fy : string),
    Recommender.resolve xAxis (Recommender.defaultCategory parsedData) = Some fx ->
    Recommender.resolve yAxis (Recommender.defaultValue parsedData) = Some fy ->
    fx <> EmptyString -> fy <> EmptyString ->
    (forall r, In r (Schema.rows parsedData) ->
               Js.inherited (Recommender.category_of fx r) = false) ->
    barPayload parsedData now xAxis yAxis dataKey fx fy
    (* the key of a row *)
    /\ (forall r, Js.get r fx = Js.VNull ->
                  Recommender.category_of fx r = "Unknown"%string)
    /\ (forall r, Js.truthy (Js.get r fx) = true ->
                  Recommender.category_of fx r
                  = JsStr.trim (Js.ToString (Js.get r fx)))
    /\ (forall r,
          Recommender.category_of fx r
          = JsStr.trim
              (Js.ToString
                 (if Js.truthy (Js.get r fx) then Js.get r fx
                  else Js.VStr "Unknown")))
    (* the value of a row *)
    /\ (forall r, Js.isNaN (Js.get r fy) = true ->
                  Recommender.value_of fy r = PrimFloat.zero)
    /\ (forall r,
          Recommender.value_of fy r
          = let n := Js.ToNumber (Js.get r fy) in
            if PrimFloat.is_nan n || PrimFloat.is_zero n then PrimFloat.zero else n)
    /\ (exists chart,
          Recommender.generateChart Tables.sales now Schema.Bar
            (Some "cat"%string) (Some "val"%string) dataKey
          = Js.Returned (Some chart)
          /\ Schema.data chart
             = [ [("cat"%string, Js.VStr "A"); ("val"%string, Js.VNum 15)];
                 [("cat"%string, Js.VStr "B"); ("val"%string, Js.VNum 5)] ])
    /\ (exists chart,
          Recommender.generateChart mixed now Schema.Bar
            (Some "cat"%string) (Some "val"%string) dataKey
          = Js.Returned (Some chart)
          /\ map (Recommender.value_of "val") (Schema.rows mixed)
             = [12; 1; 0; 0; 0; 16; 7; 0]%float
          /\ Schema.data chart
             = [ [("cat"%string, Js.VStr "A"); ("val"%string, Js.VNum 4.5)] ]).
Proof.
  intros pd now x y dk fx fy Hx Hy Hfx Hfy Hplain.
  assert (Ex : JsStr.is_empty fx = false)
    by (destruct fx; [ now contradiction Hfx | reflexivity ]).
  assert (Ey : JsStr.is_empty fy = false)
    by (destruct fy; [ now contradiction Hfy | reflexivity ]).
  split; [ | split; [ | split; [ | split; [ | split; [ | split; [ | split ] ] ] ] ] ].
  - destruct (aggregate_after fx fy (Schema.rows pd) Hplain)
      as (groups & Hagg & [Hown Hnd Hord Hseen]).
    assert (Hkeys : forall k, In k (Js.keys groups)
                              <-> In k (categories fx (Schema.rows pd))).
    { intros k. split.
      - intros Hin. destruct (Js.own k groups) eqn:E.
        + rewrite Hown in E.
          destruct (mem k (categories fx (Schema.rows pd))) eqn:M.
          * now apply mem_In.
          * apply mem_false, groupOf_None with (y := fy) in M. congruence.
        + apply own_None_keys in E. contradiction.
      - intros Hin. destruct (Js.own k groups) eqn:E.
        + apply own_In in E. unfold Js.keys.
          change k with (fst (k, l)). now apply in_map.
        + rewrite Hown in E. apply groupOf_None in E. contradiction. }
    assert (G : Recommender.generateChart pd now Schema.Bar x y dk
                = Js.Returned
                    (Recommender.finish now Schema.Bar (fy ++ " by " ++ fx)%string
                       (Some fx) (Some fy) dk
                       (firstn 20 (map (Recommender.barEntry fx fy) groups)))).
    { unfold Recommender.generateChart. rewrite Hx, Hy, Ex, Ey. simpl.
      now rewrite Hagg. }
    assert (Hlen : List.length groups
                   = List.length (Js.distinct (categories fx (Schema.rows pd)))).
    { rewrite <- (length_map fst groups). apply Permutation_length.
      apply NoDup_Permutation; [ exact Hnd | apply distinct_NoDup | ].
      intros k. rewrite distinct_In. apply Hkeys. }
    exists groups.
    split; [ exact Hown | ].
    split; [ exact Hnd | ].
    split; [ exact Hkeys | ].
    split; [ exact Hord | ].
    split; [ exact Hseen | ].
    split; [ | split; [ | split ] ].
    + intros Hno.
      rewrite <- (filter_notIndex_all (Js.keys groups)).
      * rewrite Hseen. apply filter_notIndex_all.
        intros k Hk. rewrite distinct_In in Hk. unfold categories in Hk.
        apply in_map_iff in Hk. destruct Hk as (r & <- & Hr). now apply Hno.
      * intros k Hk. apply Hkeys in Hk. unfold categories in Hk.
        apply in_map_iff in Hk. destruct Hk as (r & <- & Hr). now apply Hno.
    + intros E. rewrite G.
      assert (Eg : groups = []).
      { rewrite E in Hlen. simpl in Hlen. now destruct groups. }
      now rewrite Eg.
    + intros Hne. rewrite G.
      destruct groups as [ | g groups ].
      * exfalso. destruct (Schema.rows pd) as [ | r rows ];
          [ now apply Hne | discriminate Hlen ].
      * remember (firstn 20 (map (Recommender.barEntry fx fy) (g :: groups)))
          as data eqn:Ed.
        assert (Ld : List.length data
                     = Nat.min 20
                         (List.length
                            (Js.distinct (categories fx (Schema.rows pd))))).
        { subst data. now rewrite length_firstn, length_map, Hlen. }
        unfold Recommender.finish. destruct data as [ | e data ].
        -- exfalso. rewrite <- Hlen in Ld. discriminate Ld.
        -- eexists. split; [ reflexivity | ].
           cbn [Schema.type Schema.id Schema.title Schema.xAxis Schema.yAxis
                Schema.dataKey Schema.data].
           repeat (split; [ reflexivity | ]). exact Ld.
    + intros g k. unfold Recommender.barEntry. rewrite !own_define. reflexivity.
  - intros r. apply category_of_null.
  - intros r. apply category_of_truthy.
  - intros r. reflexivity.
  - intros r. apply value_of_not_numeric.
  - intros r. unfold Recommender.value_of, JsNum.truthy. cbv zeta.
    now destruct (PrimFloat.is_nan _ || PrimFloat.is_zero _).
  - eexists. split; [ vm_compute; reflexivity | reflexivity ].
  - eexists. split; [ vm_compute; reflexivity | split; vm_compute; reflexivity ].
Qed.

(** The table of the example. *)
Lemma generateChart_bar_groups_witness :
  Recommender.resolve (Some "cat"%string) (Recommender.defaultCategory Tables.sales)
  = Some "cat"%string
  /\ Recommender.resolve (Some "val"%string) (Recommender.defaultValue Tables.sales)
     = Some "val"%string
  /\ "cat"%string <> EmptyString /\ "val"%string <> EmptyString
  /\ (forall r, In r (Schema.rows Tables.sales) ->
                Js.inherited (Recommender.category_of "cat" r) = false)
  /\ barPayload Tables.sales 0 (Some "cat"%string) (Some "val"%string) None
       "cat" "val".
Proof.
  assert (H1 : Recommender.resolve (Some "cat"%string)
                 (Recommender.defaultCategory Tables.sales) = Some "cat"%string)
    by reflexivity.
  assert (H2 : Recommender.resolve (Some "val"%string)
                 (Recommender.defaultValue Tables.sales) = Some "val"%string)
    by reflexivity.
  assert (H3 : "cat"%string <> EmptyString) by discriminate.
  assert (H4 : "val"%string <> EmptyString) by discriminate.
  assert (H5 : forall r, In r (Schema.rows Tables.sales) ->
                         Js.inherited (Recommender.category_of "cat" r) = false).
  { simpl. intros r [<- | [<- | [<- | []]]]; vm_compute; reflexivity. }
  exact (conj H1 (conj H2 (conj H3 (conj H4 (conj H5
           (proj1 (generateChart_bar_groups Tables.sales 0
                     (Some "cat"%string) (Some "val"%string) None "cat" "val"
                     H1 H2 H3 H4 H5))))))).
Defined.

(* ===================================================================== *)
(** * generateChart: the shares of a pie chart *)
(* ===================================================================== *)

(** C7: a row whose x-axis cell is "constructor" is not counted: the entry
    of the pie payload for it carries, in place of the count 1, the text of
    the inherited member followed by "1". *)
Theorem generateChart_pie_inherited_name :
  exists chart,
    Recommender.generateChart Tables.trades 0 Schema.Pie (Some "cat"%string) None None
    = Js.Returned (Some chart)
    /\ Schema.data chart
       = [ [("name"%string, Js.VStr "constructor");
            ("value"%string, Js.VStr "function Object() { [native code] }1")] ].
Proof.
  eexists. split; [ vm_compute; reflexivity | reflexivity ].
Qed.

(** Cells that are falsy without being null (false, 0, NaN, the empty
    string) are turned into 'Unknown' by [row[x] || 'Unknown'] and are not
    counted either: of [true, false] only true gets an entry. *)
Lemma generateChart_pie_falsy_cells :
  exists chart,
    Recommender.generateChart
      {| Schema.columns := ["flag"%string]; Schema.rows := Tables.flags;
         Schema.columnTypes := [("flag"%string, Schema.TBoolean)] |}
      0 Schema.Pie (Some "flag"%string) None None
    = Js.Returned (Some chart)
    /\ Schema.data chart
       = [ [("name"%string, Js.VStr "true"); ("value"%string, Js.VNum 1)] ].
Proof.
  eexists. split; [ vm_compute; reflexivity | reflexivity ].
Qed.

Section PieCounts.

Variable x : string.

(** A value the loop of the pie chart counts. *)
Definition counted (value : string) : bool :=
  negb (JsStr.is_empty value) && negb (String.eqb value "Unknown").

Definition occurrences (rows : list Js.row) (k : string) : nat :=
  List.length (rowsOf x rows k).

Definition countOf (rows : list Js.row) (k : string) : option Recommender.counter :=
  if counted k && Nat.ltb 0 (occurrences rows k)
  then Some (Recommender.Count (occurrences rows k))
  else None.

Lemma occurrences_snoc (rows : list Js.row) (r : Js.row) (k : string) :
  occurrences (rows ++ [r]) k
  = occurrences rows k + (if String.eqb (Recommender.category_of x r) k then 1 else 0).
Proof.
  unfold occurrences, rowsOf. rewrite filter_app, length_app. simpl.
  now destruct (String.eqb _ k).
Qed.

Record counts_after (seen : list Js.row) (counts : Js.dict Recommender.counter)
  : Prop := {
  counts_own : forall k, Js.own k counts = countOf seen k;
  counts_nodup : NoDup (Js.keys counts)
}.

Lemma count_step_after (seen : list Js.row) (counts : Js.dict Recommender.counter)
  (r : Js.row) :
  counts_after seen counts ->
  Js.inherited (Recommender.category_of x r) = false ->
  counts_after (seen ++ [r]) (Recommender.count_step x counts r).
Proof.
  intros [Hown Hnd] Hplain. unfold Recommender.count_step.
  set (c := Recommender.category_of x r) in *.
  fold (counted c).
  assert (Hother : forall k, k <> c -> countOf (seen ++ [r]) k = countOf seen k).
  { intros k Hne. unfold countOf. rewrite occurrences_snoc. fold c.
    assert (E : String.eqb c k = false) by (apply String.eqb_neq; congruence).
    now rewrite E, Nat.add_0_r. }
  destruct (counted c) eqn:Hc.
  - assert (Hassign : forall v, Js.assign c v counts = Js.define c v counts).
    { intros v. unfold Js.assign.
      destruct (String.eqb_spec c "__proto__") as [E | _]; [ | reflexivity ].
      rewrite E in Hplain. discriminate Hplain. }
    rewrite Hassign.
    assert (Hbump : Recommender.bump counts c
                    = Recommender.Count (occurrences seen c + 1)).
    { unfold Recommender.bump. rewrite Hown, Hplain. unfold countOf. rewrite Hc.
      simpl. destruct (Nat.ltb_spec 0 (occurrences seen c)); [ reflexivity | ].
      f_equal. lia. }
    constructor.
    + intros k. rewrite own_define, Hbump.
      destruct (String.eqb_spec k c) as [-> | Hne]; [ | now rewrite Hother ].
      unfold countOf. rewrite occurrences_snoc. fold c.
      rewrite String.eqb_refl, Hc. simpl.
      destruct (Nat.ltb_spec 0 (occurrences seen c + 1)); [ reflexivity | lia ].
    + unfold Js.define. destruct (Js.own c counts) eqn:E.
      * now rewrite keys_replace.
      * eapply Permutation_NoDup; [ apply insert_new_perm | ].
        constructor; [ now apply own_None_keys | exact Hnd ].
  - constructor; [ | exact Hnd ].
    intros k. destruct (String.eqb_spec k c) as [-> | Hne].
    + rewrite Hown. unfold countOf. now rewrite Hc.
    + now rewrite Hother.
Qed.

Lemma countValues_after_fold (rows seen : list Js.row)
  (counts : Js.dict Recommender.counter) :
  counts_after seen counts ->
  (forall r, In r rows -> Js.inherited (Recommender.category_of x r) = false) ->
  counts_after (seen ++ rows) (fold_left (Recommender.count_step x) rows counts).
Proof.
  revert seen counts.
  induction rows as [ | r rows IH ]; intros seen counts Hafter Hplain;
    cbn [fold_left].
  - now rewrite app_nil_r.
  - replace (seen ++ r :: rows) with ((seen ++ [r]) ++ rows)
      by now rewrite <- app_assoc.
    apply IH.
    + apply count_step_after; [ exact Hafter | apply Hplain; now left ].
    + intros r' Hr'. apply Hplain. now right.
Qed.

Lemma countValues_after (rows : list Js.row) :
  (forall r, In r rows -> Js.inherited (Recommender.category_of x r) = false) ->
  counts_after rows (Recommender.countValues x rows).
Proof.
  intros H. apply (countValues_after_fold rows [] []); [ | exact H ].
  constructor; [ | constructor ].
  intros k. unfold countOf. simpl. now rewrite andb_false_r.
Qed.

End PieCounts.

Definition countKey (entry : string * Recommender.counter) : nat :=
  match snd entry with
  | Recommender.Count n => n
  | Recommender.Text _ => 0
  end.

Lemma In_own_NoDup {V : Type} (k : string) (v : V) (o : Js.dict V) :
  NoDup (Js.keys o) -> In (k, v) o -> Js.own k o = Some v.
Proof.
  induction o as [ | [k' v'] o IH ]; simpl; [ tauto | ].
  intros Hnd [E | Hin].
  - injection E as -> ->. now rewrite String.eqb_refl.
  - inversion Hnd as [ | ? ? Hnotin Hnd' ]; subst.
    destruct (String.eqb_spec k k') as [-> | _]; [ | now apply IH ].
    exfalso. apply Hnotin. unfold Js.keys.
    change k' with (fst (k', v)). now apply in_map.
Qed.

Lemma occurrences_pos (x : string) (rows : list Js.row) (k : string) :
  0 < occurrences x rows k <-> In k (categories x rows).
Proof.
  unfold occurrences.
  pose proof (groupOf_None x EmptyString rows k) as H. unfold groupOf in H.
  destruct (rowsOf x rows k) as [ | r rs ]; simpl.
  - split; [ lia | ]. intros Hin. exfalso. now apply (proj1 H).
  - split; [ intros _ | lia ].
    destruct (mem k (categories x rows)) eqn:M; [ now apply mem_In | ].
    apply mem_false in M. apply (proj2 H) in M. discriminate M.
Qed.

Lemma descending_firstn {A : Type} (key : A -> nat) (n : nat) (l : list A) :
  descending key l -> descending key (firstn n l).
Proof.
  unfold descending. intros S. revert n.
  induction S as [ | a l S IH F ]; intros [ | n ]; simpl; try constructor.
  - apply IH.
  - rewrite Forall_forall in *. intros b Hb. apply F.
    rewrite <- (firstn_skipn n l). apply in_or_app. now left.
Qed.

Lemma descending_app {A : Type} (key : A -> nat) (l1 l2 : list A) (a b : A) :
  descending key (l1 ++ l2) -> In a l1 -> In b l2 -> key b <= key a.
Proof.
  unfold descending. induction l1 as [ | x l1 IH ]; simpl; intros S Ha Hb.
  - destruct Ha.
  - inversion S as [ | ? ? S' F ]; subst.
    destruct Ha as [-> | Ha]; [ | now apply IH ].
    rewrite Forall_forall in F. apply F. apply in_or_app. now right.
Qed.

Lemma descending_names {A B : Type} (f : A -> B) (key : A -> nat) (key' : B -> nat)
  (l : list A) :
  (forall a, In a l -> key a = key' (f a)) ->
  descending key l -> descending key' (map f l).
Proof.
  unfold descending. intros H S.
  induction S as [ | a l S IH F ]; simpl; constructor.
  - apply IH. intros b Hb. apply H. now right.
  - rewrite Forall_forall in *. intros b' Hb'.
    apply in_map_iff in Hb'. destruct Hb' as (b & <- & Hb).
    rewrite <- (H a) by now left. rewrite <- (H b) by now right.
    now apply F.
Qed.

Lemma NoDup_firstn {A : Type} (n : nat) (l : list A) :
  NoDup l -> NoDup (firstn n l).
Proof.
  intros H. rewrite <- (firstn_skipn n l) in H. now apply NoDup_app_remove_r in H.
Qed.

(** The entries of the pie chart when no x-axis value is the name of a
    member of [Object.prototype]: each entry is a counted value with the
    number of its rows, the entries are sorted by count, largest first, and
    there are as many as counted values, up to 15. *)
Lemma pieEntries_plain (x : string) (rows : list Js.row) :
  (forall r, In r rows -> Js.inherited (Recommender.category_of x r) = false) ->
  let entries := Recommender.pieEntries x rows in
  (forall k c, In (k, c) entries ->
     counted k = true /\ 0 < occurrences x rows k
     /\ c = Recommender.Count (occurrences x rows k))
  /\ descending countKey entries
  /\ NoDup (map fst entries)
  /\ List.length entries
     = Nat.min 15 (List.length (Js.distinct (filter counted (categories x rows)))).
Proof.
  intros Hplain entries.
  destruct (countValues_after x rows Hplain) as [Hown Hnd].
  set (counts := Recommender.countValues x rows) in *.
  assert (Hentry : forall k c, In (k, c) counts ->
            counted k = true /\ 0 < occurrences x rows k
            /\ c = Recommender.Count (occurrences x rows k)).
  { intros k c Hin. apply (In_own_NoDup k c counts Hnd) in Hin.
    rewrite Hown in Hin. unfold countOf in Hin.
    destruct (counted k); simpl in Hin; [ | discriminate ].
    destruct (Nat.ltb_spec 0 (occurrences x rows k)); [ | discriminate ].
    injection Hin as <-. auto. }
  assert (Hsort : Js.sort Recommender.byCount counts
                  = Js.sort (byKey countKey) counts).
  { apply sort_ext. intros [ka ca] [kb cb] Ha Hb.
    destruct (Hentry ka ca Ha) as (_ & _ & ->).
    destruct (Hentry kb cb Hb) as (_ & _ & ->). reflexivity. }
  subst entries. unfold Recommender.pieEntries, Js.slice0. fold counts.
  rewrite Hsort.
  split; [ | split; [ | split ] ].
  - intros k c Hin. apply Hentry.
    apply (sort_In (byKey countKey) counts). 
    rewrite <- (firstn_skipn 15 (Js.sort _ counts)). apply in_or_app. now left.
  - apply descending_firstn, sort_key_descending.
  - rewrite <- firstn_map. apply NoDup_firstn.
    eapply Permutation_NoDup; [ apply Permutation_map, sort_perm | exact Hnd ].
  - rewrite length_firstn, sort_length. f_equal.
    rewrite <- (length_map fst counts). apply Permutation_length.
    apply NoDup_Permutation; [ exact Hnd | apply distinct_NoDup | ].
    intros k. rewrite distinct_In, filter_In, <- occurrences_pos.
    fold (Js.keys counts). split.
    + intros Hin. destruct (Js.own k counts) eqn:E.
      * rewrite Hown in E. unfold countOf in E.
        destruct (counted k); simpl in E; [ | discriminate ].
        destruct (Nat.ltb_spec 0 (occurrences x rows k)); [ auto | discriminate ].
      * apply own_None_keys in E. contradiction.
    + intros [Hpos Hc]. destruct (Js.own k counts) eqn:E.
      * apply own_In in E. unfold Js.keys.
        change k with (fst (k, c)). now apply in_map.
      * rewrite Hown in E. unfold countOf in E. rewrite Hc in E. simpl in E.
        destruct (Nat.ltb_spec 0 (occurrences x rows k)); [ discriminate | lia ].
Qed.

(** The entries that are kept are the most frequent ones: a counted value
    without an entry has no more rows than any value with an entry. *)
Lemma pieEntries_top (x : string) (rows : list Js.row) :
  (forall r, In r rows -> Js.inherited (Recommender.category_of x r) = false) ->
  forall name kept,
    counted name = true -> 0 < occurrences x rows name ->
    ~ In name (map fst (Recommender.pieEntries x rows)) ->
    In kept (map fst (Recommender.pieEntries x rows)) ->
    occurrences x rows name <= occurrences x rows kept.
Proof.
  intros Hplain name kept Hc Hpos.
  destruct (countValues_after x rows Hplain) as [Hown Hnd].
  set (counts := Recommender.countValues x rows) in *.
  assert (Hentry : forall k c, In (k, c) counts ->
            c = Recommender.Count (occurrences x rows k)).
  { intros k c Hin. apply (In_own_NoDup k c counts Hnd) in Hin.
    rewrite Hown in Hin. unfold countOf in Hin.
    destruct (counted k && Nat.ltb 0 (occurrences x rows k)); [ | discriminate ].
    now injection Hin as <-. }
  assert (Hsort : Js.sort Recommender.byCount counts
                  = Js.sort (byKey countKey) counts).
  { apply sort_ext. intros [ka ca] [kb cb] Ha Hb.
    rewrite (Hentry ka ca Ha), (Hentry kb cb Hb). reflexivity. }
  unfold Recommender.pieEntries, Js.slice0. fold counts. rewrite Hsort.
  set (sorted := Js.sort (byKey countKey) counts).
  intros Hout Hkept.
  assert (Hname : In (name, Recommender.Count (occurrences x rows name)) sorted).
  { apply (sort_In (byKey countKey) counts). apply own_In.
    rewrite Hown. unfold countOf. rewrite Hc.
    destruct (Nat.ltb_spec 0 (occurrences x rows name)); [ reflexivity | lia ]. }
  rewrite <- (firstn_skipn 15 sorted) in Hname.
  apply in_app_or in Hname. destruct Hname as [Hname | Hname].
  - exfalso. apply Hout.
    change name with (fst (name, Recommender.Count (occurrences x rows name))).
    now apply in_map.
  - apply in_map_iff in Hkept. destruct Hkept as ([k c] & E & Hin).
    simpl in E. subst k.
    assert (Hc' : c = Recommender.Count (occurrences x rows kept)).
    { apply Hentry. apply (sort_In (byKey countKey) counts). fold sorted.
      rewrite <- (firstn_skipn 15 sorted). apply in_or_app. now left. }
    subst c.
    apply (descending_app countKey (firstn 15 sorted) (skipn 15 sorted)
             (kept, Recommender.Count (occurrences x rows kept))
             (name, Recommender.Count (occurrences x rows name)));
      [ | exact Hin | exact Hname ].
    rewrite firstn_skipn. apply sort_key_descending.
Qed.

(** A column of 30 counted values gives 15 entries. *)
Lemma pieEntries_cap (x : string) (rows : list Js.row) :
  (forall r, In r rows -> Js.inherited (Recommender.category_of x r) = false) ->
  15 <= List.length (Js.distinct (filter counted (categories x rows))) ->
  List.length (Recommender.pieEntries x rows) = 15.
Proof.
  intros Hplain Hmany.
  destruct (pieEntries_plain x rows Hplain) as (_ & _ & _ & ->). lia.
Qed.

(* ===================================================================== *)
(** * extractMetrics: the correlations *)
(* ===================================================================== *)

Module Readings.

Import Js Schema.

(** Seven rows; column a is the constant 0.3, column b counts from 1. *)
Definition steady : ParsedData :=
  {| columns := ["a"; "b"]%string;
     rows := map (fun b => [("a"%string, VNum 0.3); ("b"%string, VNum b)])
                 [1; 2; 3; 4; 5; 6; 7]%float;
     columnTypes := [("a"%string, TNumber); ("b"%string, TNumber)] |}.

(** A numeric column named like a member of [Object.prototype]. *)
Definition built : ParsedData :=
  {| columns := ["constructor"; "b"]%string;
     rows := [ [("constructor"%string, VNum 1); ("b"%string, VNum 2)];
               [("constructor"%string, VNum 2); ("b"%string, VNum 4)] ];
     columnTypes := [("constructor"%string, TNumber); ("b"%string, TNumber)] |}.

End Readings.

(** [correlations[a][b]], as an own property of an own property. *)
Definition correlation (correlations : Js.dict (Js.dict float)) (a b : string)
  : option float :=
  match Js.own a correlations with
  | Some inner => Js.own b inner
  | None => None
  end.

(** C10: for the constant column a = 0.3 (seven rows) the sums of binary64
    leave a negative residue under the square root: the denominator is NaN,
    not 0, the guard that returns 0 does not fire, and the coefficient that
    extractMetrics stores for (a, b) is NaN. *)
Theorem correlation_of_constant_column :
  map (fun r => Js.get r "a") (Schema.rows Readings.steady)
  = repeat (Js.VNum 0.3) 7
  /\ Metrics.denominator (repeat 0.3%float 7) [1; 2; 3; 4; 5; 6; 7]%float
     = PrimFloat.nan
  /\ Metrics.extractMetrics_correlations Readings.steady
     = Some [ ("a"%string, [("b"%string, PrimFloat.nan)]);
              ("b"%string, [("a"%string, PrimFloat.nan)]) ].
Proof.
  repeat split; vm_compute; reflexivity.
Qed.

(** For a numeric column named "constructor" the inherited member stands
    in for the row of the dictionary: the entry (b, constructor) is stored,
    the entry (constructor, b) is not. *)
Lemma correlations_inherited_name :
  Metrics.extractMetrics_correlations Readings.built
  = Some [ ("b"%string, [("constructor"%string, 1%float)]) ]
  /\ correlation (Metrics.correlationsOf Readings.built) "b" "constructor" = Some 1%float
  /\ correlation (Metrics.correlationsOf Readings.built) "constructor" "b" = None.
Proof.
  repeat split; vm_compute; reflexivity.
Qed.

(** The guard of calculateCorrelation: a zero denominator gives 0. *)
Lemma calculateCorrelation_zero_denominator (x y : list float) :
  PrimFloat.eqb (Metrics.denominator x y) PrimFloat.zero = true ->
  Metrics.calculateCorrelation x y = PrimFloat.zero.
Proof.
  intros H. unfold Metrics.calculateCorrelation. rewrite H.
  now destruct (_ || _).
Qed.

(* --------------------------------------------------------------------- *)
(** ** The dictionary of correlations for ordinary column names *)

Lemma assign_plain {V : Type} (k : string) (v : V) (o : Js.dict V) :
  Js.inherited k = false -> Js.assign k v o = Js.define k v o.
Proof.
  intros H. unfold Js.assign.
  destruct (String.eqb_spec k "__proto__") as [-> | _]; [ discriminate H | reflexivity ].
Qed.

Lemma correlation_ensure (c : string) (correlations : Js.dict (Js.dict float))
  (a b : string) :
  correlation (Metrics.ensure c correlations) a b = correlation correlations a b.
Proof.
  unfold Metrics.ensure, correlation.
  destruct (Js.own c correlations) eqn:E; [ reflexivity | ].
  destruct (Js.inherited c); [ reflexivity | ].
  rewrite own_define. destruct (String.eqb_spec a c) as [-> | _]; [ | reflexivity ].
  now rewrite E.
Qed.

Lemma ensure_own (c k : string) (correlations : Js.dict (Js.dict float)) :
  Js.own k correlations <> None -> Js.own k (Metrics.ensure c correlations) <> None.
Proof.
  unfold Metrics.ensure. destruct (Js.own c correlations); [ tauto | ].
  destruct (Js.inherited c); [ tauto | ].
  rewrite own_define. now destruct (String.eqb k c).
Qed.

Lemma ensure_own_same (c : string) (correlations : Js.dict (Js.dict float)) :
  Js.inherited c = false -> Js.own c (Metrics.ensure c correlations) <> None.
Proof.
  intros H. unfold Metrics.ensure.
  destruct (Js.own c correlations) eqn:E; [ congruence | ].
  rewrite H, own_define_same. discriminate.
Qed.

Lemma put_own (a b k : string) (r : float) (correlations : Js.dict (Js.dict float)) :
  Js.own k correlations <> None -> Js.own k (Metrics.put a b r correlations) <> None.
Proof.
  unfold Metrics.put. destruct (Js.own a correlations) eqn:E; [ | tauto ].
  intros H. destruct (String.eqb_spec k a) as [-> | Hne].
  - rewrite own_replace_same by congruence. discriminate.
  - now rewrite own_replace_other.
Qed.

Lemma correlation_put (a b : string) (r : float)
  (correlations : Js.dict (Js.dict float)) (a' b' : string) :
  Js.own a correlations <> None -> Js.inherited b = false ->
  correlation (Metrics.put a b r correlations) a' b'
  = if String.eqb a' a && String.eqb b' b then Some r
    else correlation correlations a' b'.
Proof.
  intros Hown Hplain. unfold Metrics.put, correlation.
  destruct (Js.own a correlations) as [inner | ] eqn:E; [ | congruence ].
  destruct (String.eqb_spec a' a) as [-> | Hne]; simpl.
  - rewrite own_replace_same by congruence.
    rewrite (assign_plain b r inner Hplain), own_define, E.
    now destruct (String.eqb b' b).
  - now rewrite own_replace_other.
Qed.

Section Correlations.

Variable rows : list Js.row.

(** The coefficient the loop computes for the pair [(col1, col2)]. *)
Definition coefficient (col1 col2 : string) : float :=
  let joint := Metrics.jointValues rows col1 col2 in
  Metrics.calculateCorrelation (map fst joint) (map snd joint).

(** An entry [(a, b)] comes from a visited pair of columns with at least two
    jointly numeric rows. *)
Definition sourced (visited : list (string * string))
  (correlations : Js.dict (Js.dict float)) : Prop :=
  forall a b r,
    correlation correlations a b = Some r ->
    exists col1 col2,
      In (col1, col2) visited
      /\ ((a = col1 /\ b = col2) \/ (a = col2 /\ b = col1))
      /\ 2 <= List.length (Metrics.jointValues rows col1 col2)
      /\ r = coefficient col1 col2.

Definition symmetric (correlations : Js.dict (Js.dict float)) : Prop :=
  forall a b, correlation correlations a b = correlation correlations b a.

Lemma correlate_plain (visited : list (string * string))
  (correlations : Js.dict (Js.dict float)) (col1 col2 : string) :
  Js.inherited col1 = false -> Js.inherited col2 = false ->
  symmetric correlations -> sourced visited correlations ->
  symmetric (Metrics.correlate rows correlations (col1, col2))
  /\ sourced (visited ++ [(col1, col2)])
       (Metrics.correlate rows correlations (col1, col2)).
Proof.
  intros P1 P2 Hsym Hsrc. unfold Metrics.correlate.
  destruct (Nat.ltb_spec 1 (List.length (Metrics.jointValues rows col1 col2)))
    as [Hjoint | Hjoint].
  - fold (coefficient col1 col2).
    set (r := coefficient col1 col2).
    set (E := Metrics.ensure col2 (Metrics.ensure col1 correlations)).
    assert (O1 : Js.own col1 E <> None)
      by (apply ensure_own, ensure_own_same, P1).
    assert (O2 : Js.own col2 E <> None) by (apply ensure_own_same, P2).
    assert (Hread : forall a b,
              correlation (Metrics.put col2 col1 r (Metrics.put col1 col2 r E)) a b
              = if String.eqb a col2 && String.eqb b col1 then Some r
                else if String.eqb a col1 && String.eqb b col2 then Some r
                else correlation correlations a b).
    { intros a b. rewrite correlation_put; [ | now apply put_own | exact P1 ].
      rewrite correlation_put; [ | exact O1 | exact P2 ].
      unfold E. now rewrite !correlation_ensure. }
    split.
    + intros a b. rewrite !Hread, (Hsym a b).
      destruct (String.eqb a col1), (String.eqb a col2),
               (String.eqb b col1), (String.eqb b col2); reflexivity.
    + intros a b r' Hr'. rewrite Hread in Hr'.
      destruct (String.eqb a col2 && String.eqb b col1) eqn:E1.
      * apply andb_true_iff in E1. destruct E1 as [Ea Eb].
        apply String.eqb_eq in Ea, Eb. injection Hr' as <-.
        exists col1, col2. rewrite in_app_iff. simpl. repeat split; auto; lia.
      * destruct (String.eqb a col1 && String.eqb b col2) eqn:E2.
        -- apply andb_true_iff in E2. destruct E2 as [Ea Eb].
           apply String.eqb_eq in Ea, Eb. injection Hr' as <-.
           exists col1, col2. rewrite in_app_iff. simpl. repeat split; auto; lia.
        -- destruct (Hsrc a b r' Hr') as (c1 & c2 & Hin & Hab & Hj & Hr).
           exists c1, c2. rewrite in_app_iff. auto.
  - split; [ exact Hsym | ].
    intros a b r Hr. destruct (Hsrc a b r Hr) as (c1 & c2 & Hin & Hab & Hj & Hr').
    exists c1, c2. rewrite in_app_iff. auto.
Qed.

Lemma correlate_fold (todo visited : list (string * string))
  (correlations : Js.dict (Js.dict float)) :
  (forall p, In p todo -> Js.inherited (fst p) = false /\ Js.inherited (snd p) = false) ->
  symmetric correlations -> sourced visited correlations ->
  symmetric (fold_left (Metrics.correlate rows) todo correlations)
  /\ sourced (visited ++ todo) (fold_left (Metrics.correlate rows) todo correlations).
Proof.
  revert visited correlations.
  induction todo as [ | [col1 col2] todo IH ]; intros visited correlations Hplain Hsym Hsrc;
    cbn [fold_left].
  - now rewrite app_nil_r.
  - destruct (Hplain (col1, col2)) as [P1 P2]; [ now left | ].
    destruct (correlate_plain visited correlations col1 col2 P1 P2 Hsym Hsrc)
      as [Hsym' Hsrc'].
    replace (visited ++ (col1, col2) :: todo) with ((visited ++ [(col1, col2)]) ++ todo)
      by now rewrite <- app_assoc.
    apply IH; auto. intros p Hp. apply Hplain. now right.
Qed.

End Correlations.

Lemma pairs_In (cols : list string) (a b : string) :
  In (a, b) (Metrics.pairs cols) ->
  exists i j, i < j /\ nth_error cols i = Some a /\ nth_error cols j = Some b.
Proof.
  induction cols as [ | c cols IH ]; simpl; [ tauto | ].
  rewrite in_app_iff, in_map_iff. intros [(b' & E & Hin) | Hin].
  - injection E as <- <-. apply In_nth_error in Hin. destruct Hin as (j & Hj).
    exists 0, (S j). repeat split; [ lia | exact Hj ].
  - destruct (IH Hin) as (i & j & Hlt & Hi & Hj).
    exists (S i), (S j). repeat split; [ lia | exact Hi | exact Hj ].
Qed.

(** When no numeric column bears the name of a member of Object.prototype,
    the dictionary of correlations is symmetric, and each of its entries is
    the coefficient of two numeric columns at different positions that have
    at least two jointly numeric rows. *)
Lemma correlations_plain (parsedData : Schema.ParsedData) :
  let numericColumns :=
    filter (Schema.has_type parsedData Schema.TNumber) (Schema.columns parsedData) in
  let correlations := Metrics.correlationsOf parsedData in
  (forall col, In col numericColumns -> Js.inherited col = false) ->
  symmetric correlations
  /\ (forall a b r,
        correlation correlations a b = Some r ->
        exists col1 col2 i j,
          i < j
          /\ nth_error numericColumns i = Some col1
          /\ nth_error numericColumns j = Some col2
          /\ ((a = col1 /\ b = col2) \/ (a = col2 /\ b = col1))
          /\ 2 <= List.length (Metrics.jointValues (Schema.rows parsedData) col1 col2)
          /\ r = coefficient (Schema.rows parsedData) col1 col2).
Proof.
  intros numericColumns correlations Hplain.
  destruct (correlate_fold (Schema.rows parsedData) (Metrics.pairs numericColumns) [] [])
    as [Hsym Hsrc].
  - intros [a b] Hp. apply pairs_In in Hp. destruct Hp as (i & j & _ & Hi & Hj).
    split; apply Hplain; eapply nth_error_In; eassumption.
  - intros a b. reflexivity.
  - intros a b r H. discriminate H.
  - split; [ exact Hsym | ].
    intros a b r Hr. destruct (Hsrc a b r Hr) as (c1 & c2 & Hin & Hab & Hj & Hr').
    apply pairs_In in Hin. destruct Hin as (i & j & Hlt & Hi & Hj').
    exists c1, c2, i, j. auto 10.
Qed.

(* ===================================================================== *)
(** * generateChart: the shares of a pie chart, on ordinary values *)
(* ===================================================================== *)

Lemma distinct_nil (l : list string) : Js.distinct l = [] <-> l = [].
Proof. destruct l; simpl; split; congruence. Qed.

Lemma filter_map_nil {A B : Type} (f : A -> B) (p : B -> bool) (l : list A) :
  filter p (map f l) = [] <-> forall a, In a l -> p (f a) = false.
Proof.
  induction l as [ | a l IH ]; simpl.
  - split; [ intros _ b [] | reflexivity ].
  - destruct (p (f a)) eqn:E.
    + split; [ discriminate | ]. intros H. rewrite (H a) in E by now left.
      discriminate E.
    + rewrite IH. split.
      * intros H b [<- | Hb]; auto.
      * intros H b Hb. apply H. now right.
Qed.

(** [{ name, value }] for a name and the number of its rows. *)
Definition share (x : string) (rows : list Js.row) (name : string)
  : Js.dict Js.value :=
  [ ("name"%string, Js.VStr name);
    ("value"%string, Js.VNum (JsNum.of_nat (occurrences x rows name))) ].

(** What generateChart answers for a pie chart on the final axis [fx]. *)
Definition piePayload (parsedData : Schema.ParsedData) (now : Z)
  (xAxis yAxis dataKey : option string) (fx : string) : Prop :=
  let rows := Schema.rows parsedData in
  let answer :=
    Recommender.generateChart parsedData now Schema.Pie xAxis yAxis dataKey in
  exists names : list string,
    Recommender.pieEntries fx rows
    = map (fun name => (name, Recommender.Count (occurrences fx rows name))) names
    (* the names are counted values that occur, each once *)
    /\ (forall name, In name names ->
          counted name = true /\ 0 < occurrences fx rows name)
    /\ NoDup names
    (* sorted by the number of rows, largest first *)
    /\ descending (occurrences fx rows) names
    (* as many as counted values, up to 15 *)
    /\ List.length names
       = Nat.min 15 (List.length (Js.distinct (filter counted (categories fx rows))))
    (* and the 15 are the most frequent ones *)
    /\ (forall name kept,
          counted name = true -> 0 < occurrences fx rows name ->
          ~ In name names -> In kept names ->
          occurrences fx rows name <= occurrences fx rows kept)
    /\ (names = [] <->
        forall r, In r rows -> counted (Recommender.category_of fx r) = false)
    (* the answer *)
    /\ (names = [] -> answer = Js.Returned None)
    /\ (names <> [] ->
        exists chart,
          answer = Js.Returned (Some chart)
          /\ Schema.type chart = Schema.Pie
          /\ Schema.id chart = ("pie-" ++ JsStr.of_Z now)%string
          /\ Schema.title chart = ("Distribution of " ++ fx)%string
          /\ Schema.xAxis chart = Some fx
          /\ Schema.yAxis chart = yAxis
          /\ Schema.dataKey chart = Some "value"%string
          /\ Schema.data chart = map (share fx rows) names)
    /\ (answer = Js.Returned None <->
        forall r, In r rows -> counted (Recommender.category_of fx r) = false).

(** X1: generateChart for 'pie', on rows of which no x-axis value is the
    name of a member of Object.prototype.  The value of a row is the trimmed
    string form of its x-axis cell, 'Unknown' for a falsy cell; it is
    counted when it is neither empty nor 'Unknown'.  The chart has type
    'pie', id 'pie-' followed by the time, title 'Distribution of ' followed
    by the axis, that axis as xAxis, the yAxis of the call, dataKey 'value',
    and as data one entry { name, value } for each kept value, where value
    is the number of rows with that name.  The kept values are counted
    values that occur, pairwise different, in descending order of their
    number of rows; there are as many as counted values, up to 15, and no
    counted value that is left out has more rows than a kept one.  The
    answer is null exactly when no row has a counted value.  For
    [{cat:"A"},{cat:"A"},{cat:"B"}] the data are
    [{name:"A",value:2},{name:"B",value:1}]. *)
Theorem generateChart_pie_counts :
  forall (parsedData : Schema.ParsedData) (now : Z)
         (xAxis yAxis dataKey : option string) (fx : string),
    Recommender.resolve xAxis (Recommender.defaultCategory parsedData) = Some fx ->
    fx <> EmptyString ->
    (forall r, In r (Schema.rows parsedData) ->
               Js.inherited (Recommender.category_of fx r) = false) ->
    piePayload parsedData now xAxis yAxis dataKey fx
    /\ (forall r,
          Recommender.category_of fx r
          = JsStr.trim
              (Js.ToString
                 (if Js.truthy (Js.get r fx) then Js.get r fx
                  else Js.VStr "Unknown")))
    /\ (forall name,
          counted name = true <-> name <> EmptyString /\ name <> "Unknown"%string)
    /\ (forall rows name,
          occurrences fx rows name
          = List.length
              (filter (fun r => String.eqb (Recommender.category_of fx r) name) rows))
    /\ (exists chart,
          Recommender.generateChart Tables.sales now Schema.Pie
            (Some "cat"%string) yAxis dataKey
          = Js.Returned (Some chart)
          /\ Schema.data chart
             = [ [("name"%string, Js.VStr "A"); ("value"%string, Js.VNum 2)];
                 [("name"%string, Js.VStr "B"); ("value"%string, Js.VNum 1)] ]).
Proof.
  intros pd now xAxis yAxis dataKey fx Hx Hne Hplain.
  split; [ | split; [ | split; [ | split ] ] ].
  - set (rows := Schema.rows pd).
    set (entries := Recommender.pieEntries fx rows).
    assert (G : Recommender.generateChart pd now Schema.Pie xAxis yAxis dataKey
                = Js.Returned
                    (Recommender.finish now Schema.Pie ("Distribution of " ++ fx)%string
                       (Some fx) yAxis (Some "value"%string)
                       (map Recommender.pieEntry entries))).
    { unfold Recommender.generateChart. rewrite Hx.
      destruct fx; [ now contradiction Hne | reflexivity ]. }
    destruct (pieEntries_plain fx rows Hplain) as (Hentry & Hdesc & Hnd & Hlen).
    fold entries in Hentry, Hdesc, Hnd, Hlen.
    pose proof (pieEntries_top fx rows Hplain) as Htop. fold entries in Htop.
    assert (Hcount : entries
                     = map (fun name =>
                              (name, Recommender.Count (occurrences fx rows name)))
                         (map fst entries)).
    { rewrite map_map. rewrite <- (map_id entries) at 1.
      apply map_ext_in. intros [k c] Hin.
      destruct (Hentry k c Hin) as (_ & _ & ->). reflexivity. }
    assert (Hdata : map Recommender.pieEntry entries
                    = map (share fx rows) (map fst entries)).
    { rewrite map_map. apply map_ext_in. intros [k c] Hin.
      destruct (Hentry k c Hin) as (_ & _ & ->). reflexivity. }
    assert (Hnone : map fst entries = [] <->
              forall r, In r rows -> counted (Recommender.category_of fx r) = false).
    { split.
      - intros E r Hr.
        assert (Hd : Js.distinct (filter counted (categories fx rows)) = []).
        { rewrite <- (length_map fst), E in Hlen. simpl in Hlen.
          destruct (Js.distinct _); [ reflexivity | simpl in Hlen; lia ]. }
        apply (proj1 (distinct_nil _)) in Hd. unfold categories in Hd.
        now apply (proj1 (filter_map_nil _ _ _) Hd).
      - intros H.
        assert (Hd : filter counted (categories fx rows) = [])
          by now apply filter_map_nil.
        rewrite Hd in Hlen. simpl in Hlen.
        destruct entries; [ reflexivity | simpl in Hlen; lia ]. }
    assert (Hnull : map fst entries = [] ->
              Recommender.generateChart pd now Schema.Pie xAxis yAxis dataKey
              = Js.Returned None).
    { intros E. rewrite G, Hdata, E. reflexivity. }
    assert (Hchart : map fst entries <> [] ->
              exists chart,
                Recommender.generateChart pd now Schema.Pie xAxis yAxis dataKey
                = Js.Returned (Some chart)
                /\ Schema.type chart = Schema.Pie
                /\ Schema.id chart = ("pie-" ++ JsStr.of_Z now)%string
                /\ Schema.title chart = ("Distribution of " ++ fx)%string
                /\ Schema.xAxis chart = Some fx
                /\ Schema.yAxis chart = yAxis
                /\ Schema.dataKey chart = Some "value"%string
                /\ Schema.data chart = map (share fx rows) (map fst entries)).
    { intros E. rewrite G, Hdata. unfold Recommender.finish.
      destruct (map (share fx rows) (map fst entries)) as [ | e data ] eqn:Ed.
      - apply map_eq_nil in Ed. contradiction.
      - eexists. split; [ reflexivity | ].
        cbn [Schema.type Schema.id Schema.title Schema.xAxis Schema.yAxis
             Schema.dataKey Schema.data].
        repeat (split; [ reflexivity | ]). reflexivity. }
    exists (map fst entries).
    split; [ exact Hcount | ].
    split.
    { intros name Hin. apply in_map_iff in Hin. destruct Hin as ([k c] & <- & Hin).
      destruct (Hentry k c Hin) as (Hc & Hpos & _). now split. }
    split; [ exact Hnd | ].
    split.
    { apply (descending_names fst countKey (occurrences fx rows)); [ | exact Hdesc ].
      intros [k c] Hin. destruct (Hentry k c Hin) as (_ & _ & ->). reflexivity. }
    split; [ now rewrite length_map | ].
    split; [ exact Htop | ].
    split; [ exact Hnone | ].
    split; [ exact Hnull | ].
    split; [ exact Hchart | ].
    split.
    { intros E. apply (proj1 Hnone).
      destruct (map fst entries) as [ | k names ]; [ reflexivity | ].
      destruct Hchart as (chart & Ec & _); [ discriminate | ].
      rewrite Ec in E. discriminate E. }
    intros H. apply Hnull, (proj2 Hnone), H.
  - intros r. reflexivity.
  - intros name. unfold counted. rewrite andb_true_iff, !negb_true_iff.
    rewrite String.eqb_neq. destruct name; simpl; split; intros [H1 H2];
      split; congruence.
  - intros rows name. reflexivity.
  - eexists. split; [ vm_compute; reflexivity | reflexivity ].
Qed.

(** The table of sales by category, charted without axes. *)
Lemma generateChart_pie_counts_witness :
  Recommender.resolve None (Recommender.defaultCategory Tables.sales)
  = Some "cat"%string
  /\ "cat"%string <> EmptyString
  /\ (forall r, In r (Schema.rows Tables.sales) ->
                Js.inherited (Recommender.category_of "cat" r) = false)
  /\ piePayload Tables.sales 0 None None None "cat".
Proof.
  assert (H1 : Recommender.resolve None (Recommender.defaultCategory Tables.sales)
               = Some "cat"%string) by reflexivity.
  assert (H2 : "cat"%string <> EmptyString) by discriminate.
  assert (H3 : forall r, In r (Schema.rows Tables.sales) ->
                         Js.inherited (Recommender.category_of "cat" r) = false).
  { simpl. intros r [<- | [<- | [<- | []]]]; vm_compute; reflexivity. }
  exact (conj H1 (conj H2 (conj H3
           (proj1 (generateChart_pie_counts Tables.sales 0 None None None "cat"
                     H1 H2 H3))))).
Defined.

(* ===================================================================== *)
(** * generateChart: when it throws *)
(* ===================================================================== *)

(** The error of [aggregated[category].push(value)] on an inherited member. *)
Definition pushError : string :=
  "TypeError: aggregated[category].push is not a function".

Lemma aggregate_fold_Threw (x y e : string) (rows : list Js.row) :
  fold_left (Recommender.aggregate_step x y) rows (Js.Threw e) = Js.Threw e.
Proof. induction rows as [ | r rows IH ]; simpl; auto. Qed.

Lemma aggregate_fold_inherited (x y : string) (rows seen : list Js.row)
  (aggregated : Js.dict (list float)) :
  aggregated_after x y seen aggregated ->
  (forall r, In r seen -> Js.inherited (Recommender.category_of x r) = false) ->
  (exists r, In r rows /\ Js.inherited (Recommender.category_of x r) = true) ->
  fold_left (Recommender.aggregate_step x y) rows (Js.Returned aggregated)
  = Js.Threw pushError.
Proof.
  revert seen aggregated.
  induction rows as [ | r rows IH ]; intros seen aggregated Hafter Hseen Hex.
  - destruct Hex as (r & [] & _).
  - cbn [fold_left].
    destruct (Js.inherited (Recommender.category_of x r)) eqn:E.
    + assert (Hown : Js.own (Recommender.category_of x r) aggregated = None).
      { rewrite (after_own x y seen aggregated Hafter). apply groupOf_None.
        unfold categories. rewrite in_map_iff. intros (r' & Hc & Hr').
        apply Hseen in Hr'. congruence. }
      unfold Recommender.aggregate_step at 2. simpl. rewrite Hown, E.
      apply aggregate_fold_Threw.
    + destruct (aggregate_step_after x y seen aggregated r Hafter E)
        as (agg1 & -> & H1).
      apply (IH (seen ++ [r]) agg1 H1).
      * intros r' Hr'. apply in_app_iff in Hr'.
        destruct Hr' as [Hr' | [<- | []]]; auto.
      * destruct Hex as (r0 & [<- | Hin] & Hr0); [ congruence | eauto ].
Qed.

(** The loop of the bar chart throws exactly when a row has a category
    that is the name of a member of [Object.prototype]. *)
Lemma aggregate_Threw (x y e : string) (rows : list Js.row) :
  Recommender.aggregate x y rows = Js.Threw e
  <-> e = pushError
      /\ exists r, In r rows /\ Js.inherited (Recommender.category_of x r) = true.
Proof.
  split.
  - intros H.
    destruct (existsb (fun r => Js.inherited (Recommender.category_of x r)) rows) eqn:E.
    + apply existsb_exists in E.
      pose proof (aggregate_fold_inherited x y rows [] [] (aggregated_nil x y)
                    (fun r (F : In r []) => match F with end) E) as T.
      assert (X : @Js.Threw (Js.dict (list float)) e = Js.Threw pushError)
        by exact (eq_trans (eq_sym H) T).
      injection X as ->.
      split; [ reflexivity | exact E ].
    + destruct (aggregate_after x y rows) as (agg & Hagg & _).
      * intros r Hr. destruct (Js.inherited (Recommender.category_of x r)) eqn:I;
          [ | reflexivity ].
        assert (F : existsb (fun r => Js.inherited (Recommender.category_of x r)) rows
                    = true) by (apply existsb_exists; eauto).
        congruence.
      * congruence.
  - intros [-> Hex].
    apply (aggregate_fold_inherited x y rows [] [] (aggregated_nil x y)); [ | exact Hex ].
    intros r [].
Qed.

Lemma generateChart_Threw (parsedData : Schema.ParsedData) (now : Z)
  (chartType : Schema.ChartType) (xAxis yAxis dataKey : option string) (e : string) :
  Recommender.generateChart parsedData now chartType xAxis yAxis dataKey = Js.Threw e
  <-> chartType = Schema.Bar /\ e = pushError
      /\ exists fx fy,
           Recommender.resolve xAxis (Recommender.defaultCategory parsedData) = Some fx
           /\ Recommender.resolve yAxis (Recommender.defaultValue parsedData) = Some fy
           /\ fx <> EmptyString /\ fy <> EmptyString
           /\ exists r, In r (Schema.rows parsedData)
                        /\ Js.inherited (Recommender.category_of fx r) = true.
Proof.
  split.
  - unfold Recommender.generateChart. destruct chartType.
    + destruct (Recommender.resolve xAxis _) as [fx | ] eqn:Ex; [ | discriminate ].
      destruct (Recommender.resolve yAxis _) as [fy | ] eqn:Ey; [ | discriminate ].
      destruct fx as [ | c fx ]; [ discriminate | ].
      destruct fy as [ | d fy ]; [ discriminate | ].
      simpl. destruct (Recommender.aggregate _ _ _) as [agg | e'] eqn:A;
        [ discriminate | ].
      intros H. injection H as ->. apply aggregate_Threw in A.
      destruct A as [-> Hex]. repeat split.
      exists (String c fx), (String d fy). repeat split; auto; discriminate.
    + destruct (Recommender.resolve xAxis _) as [fx | ]; [ | discriminate ].
      destruct (Recommender.resolve yAxis _) as [fy | ]; [ | discriminate ].
      destruct (_ || _); discriminate.
    + destruct (Recommender.resolve xAxis _) as [fx | ]; [ | discriminate ].
      destruct (JsStr.is_empty fx); discriminate.
    + destruct (Recommender.resolve xAxis _) as [fx | ]; [ | discriminate ].
      destruct (Recommender.resolve yAxis _) as [fy | ]; [ | discriminate ].
      destruct (_ || _); discriminate.
    + discriminate.
  - intros (-> & -> & fx & fy & Hx & Hy & Hfx & Hfy & Hex).
    unfold Recommender.generateChart. rewrite Hx, Hy.
    destruct fx as [ | c fx ]; [ now contradiction Hfx | ].
    destruct fy as [ | d fy ]; [ now contradiction Hfy | ].
    simpl.
    now rewrite (proj2 (aggregate_Threw (String c fx) (String d fy) pushError _)
                   (conj eq_refl Hex)).
Qed.

(** X2: generateChart throws in one situation only: a bar chart, both final
    axes resolved to non-empty names, and some row whose category (the
    trimmed text of its x-axis cell) is the name of a member of
    Object.prototype, such as "constructor": the array the loop expects
    under that key is the inherited member, which has no push.  The error
    is a TypeError, whatever the other rows hold.  Pie, scatter, line and
    area requests never throw. *)
Theorem generateChart_throws :
  (forall (parsedData : Schema.ParsedData) (now : Z) (chartType : Schema.ChartType)
          (xAxis yAxis dataKey : option string) (e : string),
      Recommender.generateChart parsedData now chartType xAxis yAxis dataKey
      = Js.Threw e
      <-> chartType = Schema.Bar /\ e = pushError
          /\ exists fx fy,
               Recommender.resolve xAxis (Recommender.defaultCategory parsedData)
               = Some fx
               /\ Recommender.resolve yAxis (Recommender.defaultValue parsedData)
                  = Some fy
               /\ fx <> EmptyString /\ fy <> EmptyString
               /\ exists r, In r (Schema.rows parsedData)
                            /\ Js.inherited (Recommender.category_of fx r) = true)
  /\ Recommender.generateChart Tables.trades 0 Schema.Bar None None None
     = Js.Threw pushError.
Proof.
  split; [ | vm_compute; reflexivity ].
  intros pd now ct xAxis yAxis dataKey e. apply generateChart_Threw.
Qed.

(* ===================================================================== *)
(** * POST /api/analysis/:id/chart: the answers *)
(* ===================================================================== *)

(** X3: the answers of the chart route.  A chart is sent only for a stored
    analysis and one of the four chart types; it has that type, the id
    built from the type and the clock, and data that are not empty.  Every
    other answer is an error with status 400, 404 or 500: 404 exactly when
    the chart type is valid and no analysis is stored under the id (an
    invalid chart type is reported first, with 400); 500 only for a bar
    chart one of whose rows has a category that is the name of a member of
    Object.prototype. *)
Theorem createChart_answers :
  forall (now : Z) (analysis : option Schema.ParsedData) (req : Routes.body),
    match Routes.createChart now analysis req with
    | Routes.Json chart =>
        exists parsedData chartType,
          analysis = Some parsedData
          /\ Routes.requestedType (Routes.chartType req) = Some chartType
          /\ chartType <> Schema.Area
          /\ Schema.type chart = chartType
          /\ Schema.id chart
             = (Schema.ChartType_name chartType ++ "-" ++ JsStr.of_Z now)%string
          /\ Schema.data chart <> []
    | Routes.Error status _ =>
        (status = 400 \/ status = 404 \/ status = 500)
        /\ (status = 404
            <-> Routes.requestedType (Routes.chartType req) <> None
                /\ analysis = None)
        /\ (status = 500 ->
            Routes.requestedType (Routes.chartType req) = Some Schema.Bar
            /\ exists parsedData fx r,
                 analysis = Some parsedData
                 /\ Recommender.resolve (Routes.xAxis req)
                      (Recommender.defaultCategory parsedData) = Some fx
                 /\ In r (Schema.rows parsedData)
                 /\ Js.inherited (Recommender.category_of fx r) = true)
    end.
Proof.
  intros now analysis req. unfold Routes.createChart.
  destruct (Routes.requestedType (Routes.chartType req)) as [ct | ] eqn:T.
  - destruct analysis as [pd | ].
    + destruct (Routes.unknownAxis _ (Routes.xAxis req)).
      { repeat split; auto; try lia; try discriminate. now intros [_ F]. }
      destruct (Routes.unknownAxis _ (Routes.yAxis req)).
      { repeat split; auto; try lia; try discriminate. now intros [_ F]. }
      destruct (Recommender.generateChart pd now ct _ _ _) as [[chart | ] | e] eqn:G.
      * exists pd, ct. apply generateChart_Some in G. destruct G as (d & _ & Hs).
        pose proof (stamp_id _ _ _ _ Hs) as Hid.
        apply stamp_fields in Hs. destruct Hs as (Ht & _ & _ & _ & _ & Hd & Hne).
        repeat split; auto.
        -- intros ->. unfold Routes.requestedType in T.
           destruct (Routes.chartType req) as [s | ]; [ | discriminate ].
           repeat (destruct (String.eqb s _); [ discriminate | ]). discriminate.
        -- now rewrite Hd.
      * repeat split; auto; try lia; try discriminate. now intros [_ F].
      * apply generateChart_Threw in G.
        destruct G as (-> & _ & fx & fy & Hx & _ & _ & _ & r & Hr & Hi).
        repeat split; auto; try lia; try discriminate.
        -- now intros [_ F].
        -- exists pd, fx, r. auto.
    + repeat split; auto; try lia; try discriminate.
  - repeat split; auto; try lia; try discriminate.
    + now intros [F _].
Qed.

(* ===================================================================== *)
(** * calculateCorrelation: the two arguments *)
(* ===================================================================== *)

Lemma SFmul_comm (prec emax : Z) (a b : SpecFloat.spec_float) :
  SpecFloat.SFmul prec emax a b = SpecFloat.SFmul prec emax b a.
Proof.
  destruct a as [sa | sa | | sa ma ea], b as [sb | sb | | sb mb eb]; simpl;
    try reflexivity; try (now rewrite xorb_comm).
  now rewrite xorb_comm, Pos.mul_comm, Z.add_comm.
Qed.

(** The product of two binary64 values does not depend on their order. *)
Lemma float_mul_comm (a b : float) : PrimFloat.mul a b = PrimFloat.mul b a.
Proof.
  apply FloatAxioms.Prim2SF_inj. rewrite !FloatAxioms.mul_spec. apply SFmul_comm.
Qed.

Lemma sumProducts_comm (x y : list float) :
  Metrics.sumProducts x y = Metrics.sumProducts y x.
Proof.
  unfold Metrics.sumProducts. generalize PrimFloat.zero.
  revert y. induction x as [ | a x IH ]; intros [ | b y ] acc; simpl; auto.
  rewrite (float_mul_comm a b). apply IH.
Qed.

Lemma calculateCorrelation_comm (x y : list float) :
  Metrics.calculateCorrelation x y = Metrics.calculateCorrelation y x.
Proof.
  unfold Metrics.calculateCorrelation.
  destruct (Nat.eqb_spec (List.length x) (List.length y)) as [E | N].
  - rewrite <- E, Nat.eqb_refl. simpl.
    assert (D : Metrics.denominator x y = Metrics.denominator y x).
    { unfold Metrics.denominator. rewrite <- E. f_equal. apply float_mul_comm. }
    assert (U : Metrics.numerator x y = Metrics.numerator y x).
    { unfold Metrics.numerator.
      now rewrite <- E, sumProducts_comm, (float_mul_comm (JsNum.sum x)). }
    now rewrite D, U.
  - destruct (Nat.eqb_spec (List.length y) (List.length x)) as [E | _];
      [ now symmetry in E | reflexivity ].
Qed.

(* ===================================================================== *)
(** * extractMetrics: which correlations are stored *)
(* ===================================================================== *)

Lemma jointValues_swap (rows : list Js.row) (a b : string) :
  Metrics.jointValues rows b a
  = map (fun p => (snd p, fst p)) (Metrics.jointValues rows a b).
Proof.
  unfold Metrics.jointValues.
  induction rows as [ | r rows IH ]; simpl; [ reflexivity | ].
  rewrite map_app, <- IH. f_equal.
  rewrite andb_comm. now destruct (_ && _).
Qed.

Lemma jointValues_length (rows : list Js.row) (a b : string) :
  List.length (Metrics.jointValues rows b a)
  = List.length (Metrics.jointValues rows a b).
Proof. now rewrite jointValues_swap, length_map. Qed.

Lemma coefficient_comm (rows : list Js.row) (a b : string) :
  coefficient rows b a = coefficient rows a b.
Proof.
  unfold coefficient. rewrite jointValues_swap, !map_map. simpl.
  apply calculateCorrelation_comm.
Qed.

(** X4: calculateCorrelation is symmetric in its two arguments, for all
    arrays of binary64 numbers (of equal length or not, with NaN and
    infinities among them): every product the function forms is of values
    that the exchange of x and y exchanges, and the product of two binary64
    values does not depend on their order.  Hence the coefficient that
    extractMetrics computes for two columns does not depend on which of
    them comes first among the columns: the rows it keeps and the number it
    gets are the same. *)
Theorem calculateCorrelation_symmetric :
  (forall x y : list float,
      Metrics.calculateCorrelation x y = Metrics.calculateCorrelation y x)
  /\ (forall (rows : list Js.row) (a b : string),
        Metrics.jointValues rows b a
        = map (fun p => (snd p, fst p)) (Metrics.jointValues rows a b)
        /\ Metrics.calculateCorrelation
             (map fst (Metrics.jointValues rows b a))
             (map snd (Metrics.jointValues rows b a))
           = Metrics.calculateCorrelation
               (map fst (Metrics.jointValues rows a b))
               (map snd (Metrics.jointValues rows a b))).
Proof.
  split; [ exact calculateCorrelation_comm | ].
  intros rows a b. split; [ apply jointValues_swap | apply coefficient_comm ].
Qed.

Lemma In_pairs (cols : list string) (i j : nat) (a b : string) :
  i < j -> nth_error cols i = Some a -> nth_error cols j = Some b ->
  In (a, b) (Metrics.pairs cols).
Proof.
  revert i j. induction cols as [ | c cols IH ]; intros i j Hlt Hi Hj.
  - destruct i; discriminate Hi.
  - simpl. apply in_or_app. destruct j as [ | j ]; [ lia | ]. simpl in Hj.
    destruct i as [ | i ]; simpl in Hi.
    + injection Hi as ->. left. apply in_map. eapply nth_error_In, Hj.
    + right. apply (IH i j); auto. lia.
Qed.

Section StoredCorrelations.

Variable rows : list Js.row.

(** Every visited pair with at least two jointly numeric rows has its
    coefficient in the dictionary. *)
Definition stored (visited : list (string * string))
  (correlations : Js.dict (Js.dict float)) : Prop :=
  forall col1 col2,
    In (col1, col2) visited ->
    2 <= List.length (Metrics.jointValues rows col1 col2) ->
    correlation correlations col1 col2 = Some (coefficient rows col1 col2).

Lemma correlate_read (correlations : Js.dict (Js.dict float)) (col1 col2 a b : string) :
  Js.inherited col1 = false -> Js.inherited col2 = false ->
  2 <= List.length (Metrics.jointValues rows col1 col2) ->
  correlation (Metrics.correlate rows correlations (col1, col2)) a b
  = if String.eqb a col2 && String.eqb b col1 then Some (coefficient rows col1 col2)
    else if String.eqb a col1 && String.eqb b col2 then Some (coefficient rows col1 col2)
    else correlation correlations a b.
Proof.
  intros P1 P2 Hjoint. unfold Metrics.correlate.
  destruct (Nat.ltb_spec 1 (List.length (Metrics.jointValues rows col1 col2)));
    [ | lia ].
  fold (coefficient rows col1 col2).
  set (E := Metrics.ensure col2 (Metrics.ensure col1 correlations)).
  assert (O1 : Js.own col1 E <> None) by (apply ensure_own, ensure_own_same, P1).
  rewrite correlation_put; [ | now apply put_own, ensure_own_same | exact P1 ].
  rewrite correlation_put; [ | exact O1 | exact P2 ].
  unfold E. now rewrite !correlation_ensure.
Qed.

Lemma correlate_skip (correlations : Js.dict (Js.dict float)) (col1 col2 : string) :
  List.length (Metrics.jointValues rows col1 col2) < 2 ->
  Metrics.correlate rows correlations (col1, col2) = correlations.
Proof.
  intros H. unfold Metrics.correlate.
  destruct (Nat.ltb_spec 1 (List.length (Metrics.jointValues rows col1 col2)));
    [ lia | reflexivity ].
Qed.

Lemma correlate_stored (visited : list (string * string))
  (correlations : Js.dict (Js.dict float)) (col1 col2 : string) :
  Js.inherited col1 = false -> Js.inherited col2 = false ->
  stored visited correlations ->
  stored (visited ++ [(col1, col2)]) (Metrics.correlate rows correlations (col1, col2)).
Proof.
  intros P1 P2 Hst c1 c2 Hin Hjoint.
  destruct (Nat.le_gt_cases 2 (List.length (Metrics.jointValues rows col1 col2)))
    as [J | J].
  - rewrite (correlate_read correlations col1 col2 c1 c2 P1 P2 J).
    destruct (String.eqb c1 col2 && String.eqb c2 col1) eqn:E1.
    { apply andb_true_iff in E1. destruct E1 as [Ea Eb].
      apply String.eqb_eq in Ea, Eb. subst. now rewrite coefficient_comm. }
    destruct (String.eqb c1 col1 && String.eqb c2 col2) eqn:E2.
    { apply andb_true_iff in E2. destruct E2 as [Ea Eb].
      apply String.eqb_eq in Ea, Eb. now subst. }
    apply in_app_iff in Hin. destruct Hin as [Hin | [E | []]]; [ now apply Hst | ].
    injection E as <- <-. now rewrite !String.eqb_refl in E2.
  - rewrite (correlate_skip correlations col1 col2 J).
    apply in_app_iff in Hin. destruct Hin as [Hin | [E | []]]; [ now apply Hst | ].
    injection E as <- <-. lia.
Qed.

Lemma correlate_fold_stored (todo visited : list (string * string))
  (correlations : Js.dict (Js.dict float)) :
  (forall p, In p todo -> Js.inherited (fst p) = false /\ Js.inherited (snd p) = false) ->
  stored visited correlations ->
  stored (visited ++ todo) (fold_left (Metrics.correlate rows) todo correlations).
Proof.
  revert visited correlations.
  induction todo as [ | [col1 col2] todo IH ]; intros visited correlations Hplain Hst;
    cbn [fold_left].
  - now rewrite app_nil_r.
  - destruct (Hplain (col1, col2)) as [P1 P2]; [ now left | ].
    replace (visited ++ (col1, col2) :: todo) with ((visited ++ [(col1, col2)]) ++ todo)
      by now rewrite <- app_assoc.
    apply IH; [ | now apply correlate_stored ].
    intros p Hp. apply Hplain. now right.
Qed.

Lemma correlate_fold_skip (todo : list (string * string))
  (correlations : Js.dict (Js.dict float)) :
  (forall col1 col2, In (col1, col2) todo ->
     List.length (Metrics.jointValues rows col1 col2) < 2) ->
  fold_left (Metrics.correlate rows) todo correlations = correlations.
Proof.
  revert correlations.
  induction todo as [ | [col1 col2] todo IH ]; intros correlations H;
    cbn [fold_left]; [ reflexivity | ].
  rewrite correlate_skip by (apply H; now left).
  apply IH. intros c1 c2 Hin. apply H. now right.
Qed.

End StoredCorrelations.

(** X5: the correlations of extractMetrics, for a table none of whose
    numeric columns bears the name of a member of Object.prototype.  With
    [correlations[a][b]] read as an own property of an own property: the
    dictionary is symmetric; an entry (a, b) is stored if and only if a and
    b are numeric columns at two different positions with at least two rows
    in which both convert to a number, and the entry is then the
    coefficient calculateCorrelation gives for the values of these rows;
    the field is left undefined exactly when no pair of numeric columns has
    two such rows. *)
Theorem extractMetrics_correlations_stored :
  forall parsedData : Schema.ParsedData,
    let numericColumns :=
      filter (Schema.has_type parsedData Schema.TNumber) (Schema.columns parsedData) in
    let rows := Schema.rows parsedData in
    let correlations := Metrics.correlationsOf parsedData in
    let paired (a b : string) :=
      exists i j, i <> j
                  /\ nth_error numericColumns i = Some a
                  /\ nth_error numericColumns j = Some b
                  /\ 2 <= List.length (Metrics.jointValues rows a b) in
    (forall col, In col numericColumns -> Js.inherited col = false) ->
    symmetric correlations
    /\ (forall a b r,
          correlation correlations a b = Some r
          <-> paired a b /\ r = coefficient rows a b)
    /\ (Metrics.extractMetrics_correlations parsedData = None
        <-> forall a b, ~ paired a b).
Proof.
  intros pd numericColumns rows correlations paired Hplain.
  destruct (correlations_plain pd Hplain) as [Hsym Hsrc].
  fold numericColumns rows correlations in Hsym, Hsrc.
  assert (Hpairs : forall p, In p (Metrics.pairs numericColumns) ->
            Js.inherited (fst p) = false /\ Js.inherited (snd p) = false).
  { intros [a b] Hp. apply pairs_In in Hp. destruct Hp as (i & j & _ & Hi & Hj).
    split; apply Hplain; eapply nth_error_In; eassumption. }
  assert (Hst : stored rows (Metrics.pairs numericColumns) correlations).
  { apply (correlate_fold_stored rows (Metrics.pairs numericColumns) [] [] Hpairs).
    intros c1 c2 []. }
  assert (Hfwd : forall a b, paired a b ->
            correlation correlations a b = Some (coefficient rows a b)).
  { intros a b (i & j & Hne & Hi & Hj & Hjoint).
    destruct (Nat.lt_total i j) as [Hlt | [-> | Hgt]]; [ | congruence | ].
    - apply Hst; [ | exact Hjoint ]. now apply (In_pairs numericColumns i j).
    - rewrite Hsym, <- coefficient_comm. apply Hst.
      + now apply (In_pairs numericColumns j i).
      + now rewrite jointValues_length. }
  split; [ exact Hsym | split ].
  - intros a b r. split.
    + intros Hr. destruct (Hsrc a b r Hr)
        as (c1 & c2 & i & j & Hlt & Hi & Hj & Hab & Hjoint & ->).
      destruct Hab as [[-> ->] | [-> ->]].
      * split; [ | reflexivity ]. exists i, j. repeat split; auto. lia.
      * split; [ | apply coefficient_comm ].
        exists j, i. repeat split; auto; [ lia | ].
        now rewrite jointValues_length.
    + intros [Hp ->]. now apply Hfwd.
  - unfold Metrics.extractMetrics_correlations. fold correlations. split.
    + intros Hnone a b Hp. apply Hfwd in Hp.
      destruct correlations; [ discriminate Hp | discriminate Hnone ].
    + intros Hno.
      assert (E : correlations = []).
      { apply (correlate_fold_skip rows). intros c1 c2 Hin.
        apply pairs_In in Hin. destruct Hin as (i & j & Hlt & Hi & Hj).
        destruct (Nat.le_gt_cases 2 (List.length (Metrics.jointValues rows c1 c2)))
          as [J | J]; [ | exact J ].
        exfalso. apply (Hno c1 c2). exists i, j. repeat split; auto. lia. }
      now rewrite E.
Qed.

(** A table of two numeric columns with plain names. *)
Lemma extractMetrics_correlations_stored_witness :
  (forall col,
      In col (filter (Schema.has_type (Tables.cloud 3) Schema.TNumber)
                (Schema.columns (Tables.cloud 3))) ->
      Js.inherited col = false)
  /\ symmetric (Metrics.correlationsOf (Tables.cloud 3)).
Proof.
  assert (H : forall col,
             In col (filter (Schema.has_type (Tables.cloud 3) Schema.TNumber)
                       (Schema.columns (Tables.cloud 3))) ->
             Js.inherited col = false).
  { simpl. intros col [<- | [<- | []]]; reflexivity. }
  exact (conj H (proj1 (extractMetrics_correlations_stored (Tables.cloud 3) H))).
Defined.

(* ===================================================================== *)
(** * recommendCharts: how many candidates *)
(* ===================================================================== *)

Ltac rule_short :=
  repeat match goal with
         | |- context [if ?b then _ else _] => destruct b
         | |- context [match ?o with Some _ => _ | None => _ end] => destruct o
         | |- context [match ?l with [] => _ | _ :: _ => _ end] => destruct l
         end;
  simpl; lia.

Lemma barRule_short parsedData features :
  List.length (Recommender.barRule parsedData features) <= 1.
Proof. unfold Recommender.barRule. rule_short. Qed.

Lemma lineRule_short parsedData features :
  List.length (Recommender.lineRule parsedData features) <= 1.
Proof. unfold Recommender.lineRule. rule_short. Qed.

Lemma pieRule_short parsedData features :
  List.length (Recommender.pieRule parsedData features) <= 1.
Proof. unfold Recommender.pieRule. rule_short. Qed.

Lemma scatterRule_short parsedData features :
  List.length (Recommender.scatterRule parsedData features) <= 1.
Proof. unfold Recommender.scatterRule. rule_short. Qed.

Lemma areaRule_short parsedData features :
  List.length (Recommender.areaRule parsedData features) <= 1.
Proof. unfold Recommender.areaRule. rule_short. Qed.

(** A rule pushes nothing, or one candidate of its chart type. *)
Lemma rule_types (rule : list Recommender.ChartRecommendation)
  (chartType : Schema.ChartType) :
  List.length rule <= 1 ->
  (forall rec, In rec rule -> Recommender.chartType rec = chartType) ->
  map Recommender.chartType rule = [] \/ map Recommender.chartType rule = [chartType].
Proof.
  destruct rule as [ | rec [ | rec' rule ] ]; simpl; intros Hlen Htype;
    [ now left | right | lia ].
  now rewrite (Htype rec) by now left.
Qed.

(** X6: recommendCharts returns at most five candidates, and no two of
    them have the same chart type, whatever the table and the features: each
    of the five rules pushes at most one candidate, of its own type, and the
    sort only reorders them. *)
Theorem recommendCharts_one_per_type :
  forall (parsedData : Schema.ParsedData) (features : Recommender.DataFeatures),
    NoDup (map Recommender.chartType
             (Recommender.recommendCharts parsedData features))
    /\ List.length (Recommender.recommendCharts parsedData features) <= 5.
Proof.
  intros pd f.
  pose proof (barRule_short pd f) as Lb. pose proof (lineRule_short pd f) as Ll.
  pose proof (pieRule_short pd f) as Lp. pose proof (scatterRule_short pd f) as Ls.
  pose proof (areaRule_short pd f) as La.
  split.
  - apply (Permutation_NoDup
             (l := map Recommender.chartType (Recommender.recommendations pd f))).
    { apply Permutation_map, sort_perm. }
    unfold Recommender.recommendations. rewrite !map_app.
    destruct (rule_types _ Schema.Bar Lb (barRule_type pd f)) as [-> | ->];
    destruct (rule_types _ Schema.Line Ll (lineRule_type pd f)) as [-> | ->];
    destruct (rule_types _ Schema.Pie Lp (pieRule_type pd f)) as [-> | ->];
    destruct (rule_types _ Schema.Scatter Ls (scatterRule_type pd f)) as [-> | ->];
    destruct (rule_types _ Schema.Area La (areaRule_type pd f)) as [-> | ->];
    simpl; repeat constructor; simpl; intuition discriminate.
  - unfold Recommender.recommendCharts. rewrite sort_length.
    unfold Recommender.recommendations. rewrite !length_app. lia.
Qed.

Module Samples.

Import Js Schema.

(** One categorical column: A, A, A, B, B. *)
Definition shares : ParsedData :=
  {| columns := ["cat"%string];
     rows := map (fun c => [("cat"%string, VStr c)]) ["A"; "A"; "A"; "B"; "B"]%string;
     columnTypes := [("cat"%string, TString)] |}.

End Samples.

Lemma extractFeatures_numeric (parsedData : Schema.ParsedData) :
  Recommender.numNumericColumns (Recommender.extractFeatures parsedData)
  = List.length (filter (Schema.has_type parsedData Schema.TNumber)
                   (Schema.columns parsedData)).
Proof. reflexivity. Qed.

Lemma pieRule_no_numeric parsedData features rec :
  In rec (Recommender.pieRule parsedData features) ->
  filter (Schema.has_type parsedData Schema.TNumber) (Schema.columns parsedData) = [].
Proof.
  unfold Recommender.pieRule.
  destruct (filter (Schema.has_type parsedData Schema.TNumber) _); [ reflexivity | ].
  simpl. rewrite !andb_false_r. intros [].
Qed.

(** X7: with the features extractFeatures computes for the table, a pie
    candidate is never accompanied: when recommendCharts returns a pie
    candidate it returns nothing else.  (The pie rule asks for a table
    without numeric columns, and each of the four other rules asks for at
    least one.) *)
Theorem recommendCharts_pie_alone :
  forall (parsedData : Schema.ParsedData) (rec : Recommender.ChartRecommendation),
    In rec (Recommender.recommendCharts parsedData
              (Recommender.extractFeatures parsedData)) ->
    Recommender.chartType rec = Schema.Pie ->
    Recommender.recommendCharts parsedData (Recommender.extractFeatures parsedData)
    = [rec].
Proof.
  intros pd rec Hin Hpie.
  set (f := Recommender.extractFeatures pd) in *.
  assert (Hrule : In rec (Recommender.pieRule pd f)).
  { apply recommendCharts_In, recommendations_cases in Hin.
    destruct Hin as [H | [H | [H | [H | H]]]]; [ | | exact H | | ];
      [ apply barRule_type in H | apply lineRule_type in H
      | apply scatterRule_type in H | apply areaRule_type in H ];
      congruence. }
  pose proof (pieRule_no_numeric pd f rec Hrule) as Hnone.
  assert (N : Recommender.numNumericColumns f = 0).
  { unfold f. now rewrite extractFeatures_numeric, Hnone. }
  assert (B : Recommender.barRule pd f = []).
  { unfold Recommender.barRule. now rewrite N, andb_false_r. }
  assert (L : Recommender.lineRule pd f = []).
  { unfold Recommender.lineRule. now rewrite N, andb_false_r. }
  assert (S : Recommender.scatterRule pd f = []).
  { unfold Recommender.scatterRule. now rewrite N. }
  assert (A : Recommender.areaRule pd f = []).
  { unfold Recommender.areaRule. now rewrite N, andb_false_r. }
  unfold Recommender.recommendCharts, Recommender.recommendations.
  rewrite B, L, S, A. simpl. rewrite app_nil_r.
  pose proof (pieRule_short pd f) as Hshort.
  destruct (Recommender.pieRule pd f) as [ | rec' [ | rec'' rule ] ];
    [ destruct Hrule | | simpl in Hshort; lia ].
  destruct Hrule as [-> | []]. reflexivity.
Qed.

(** The column A, A, A, B, B gets a pie candidate. *)
Lemma recommendCharts_pie_alone_witness :
  exists rec,
    In rec (Recommender.recommendCharts Samples.shares
              (Recommender.extractFeatures Samples.shares))
    /\ Recommender.chartType rec = Schema.Pie
    /\ Recommender.recommendCharts Samples.shares
         (Recommender.extractFeatures Samples.shares) = [rec].
Proof.
  set (rec := {| Recommender.chartType := Schema.Pie;
                 Recommender.confidence := 0.65;
                 Recommender.xAxis := None;
                 Recommender.yAxis := None;
                 Recommender.dataKey := Some "value"%string;
                 Recommender.title := "Distribution of cat";
                 Recommender.reasoning :=
                   "Categorical distribution with 2 categories - suitable for pie chart" |}).
  assert (H1 : In rec (Recommender.recommendCharts Samples.shares
                         (Recommender.extractFeatures Samples.shares)))
    by (left; vm_compute; reflexivity).
  assert (H2 : Recommender.chartType rec = Schema.Pie) by reflexivity.
  exact (ex_intro _ rec
           (conj H1 (conj H2 (recommendCharts_pie_alone Samples.shares rec H1 H2)))).
Defined.

(* ===================================================================== *)
(** * generateChart: the axes it chooses *)
(* ===================================================================== *)

(** A column of type [ty] whose name is neither identifier-like nor a
    placeholder. *)
Definition qualified (parsedData : Schema.ParsedData) (ty : Schema.ColumnType)
  (col : string) : bool :=
  Schema.has_type parsedData ty col
  && negb (Recommender.isIdentifierColumn col)
  && Recommender.notPlaceholder col.

Lemma find_filter {A : Type} (p q : A -> bool) (l : list A) :
  find p (filter q l) = find (fun a => q a && p a) l.
Proof.
  induction l as [ | a l IH ]; simpl; [ reflexivity | ].
  destruct (q a); simpl; [ | exact IH ]. now rewrite IH.
Qed.

Lemma find_ext {A : Type} (p q : A -> bool) (l : list A) :
  (forall a, p a = q a) -> find p l = find q l.
Proof.
  intros H. induction l as [ | a l IH ]; simpl; [ reflexivity | ].
  now rewrite H, IH.
Qed.

Lemma name_or_first (a b : option string) (s : string) :
  a = Some s -> s <> EmptyString -> Js.name_or a b = Some s.
Proof.
  intros -> Hs. unfold Js.name_or. simpl.
  destruct s; [ now contradiction Hs | reflexivity ].
Qed.

Section DefaultAxes.

Variable parsedData : Schema.ParsedData.
Hypothesis named : ~ In EmptyString (Schema.columns parsedData).

Lemma found_named (p : string -> bool) (col : string) :
  find p (Schema.columns parsedData) = Some col -> col <> EmptyString.
Proof.
  intros H ->. apply find_some in H. now apply named.
Qed.

Lemma defaultCategory_qualified (x : string) :
  find (qualified parsedData Schema.TString) (Schema.columns parsedData) = Some x ->
  Recommender.defaultCategory parsedData = Some x.
Proof.
  intros H. unfold Recommender.defaultCategory.
  apply name_or_first; [ | now apply (found_named _ x H) ].
  rewrite !find_filter. rewrite <- H. apply find_ext. intros a.
  unfold qualified. now rewrite andb_assoc.
Qed.

Lemma defaultValue_qualified (y : string) :
  find (qualified parsedData Schema.TNumber) (Schema.columns parsedData) = Some y ->
  Recommender.defaultValue parsedData = Some y.
Proof.
  intros H. unfold Recommender.defaultValue.
  apply name_or_first; [ | now apply (found_named _ y H) ].
  rewrite !find_filter. rewrite <- H. apply find_ext. intros a.
  unfold qualified. now rewrite andb_assoc.
Qed.

Lemma defaultSecond_qualified (x y : string) :
  find (fun col => qualified parsedData Schema.TNumber col && negb (String.eqb col x))
       (Schema.columns parsedData) = Some y ->
  Recommender.defaultSecond parsedData (Some x) = Some y.
Proof.
  intros H. unfold Recommender.defaultSecond.
  apply name_or_first; [ | now apply (found_named _ y H) ].
  rewrite !find_filter. rewrite <- H. apply find_ext. intros a.
  unfold qualified, Recommender.name_neqb.
  destruct (Schema.has_type parsedData Schema.TNumber a),
           (Recommender.isIdentifierColumn a), (String.eqb a x),
           (Recommender.notPlaceholder a); reflexivity.
Qed.

End DefaultAxes.

(** X8: identifier exclusion for the axes generateChart chooses itself.  On
    a table without an empty column name, for a request without axes that
    is answered with a payload: the x-axis of a bar or pie chart is the
    first string column (in column order) that is neither identifier-like
    nor placeholder-named, when there is one; the y-axis of a bar chart and
    the x-axis of a scatter or line chart is the first such numeric column,
    when there is one; the y-axis of a scatter or line chart is then the
    first such numeric column other than the x-axis, when there is one.  So
    an identifier column is chosen only when no column of the needed type
    qualifies. *)
Theorem generateChart_default_axes :
  forall (parsedData : Schema.ParsedData) (now : Z) (chartType : Schema.ChartType)
         (dataKey : option string) (chart : Schema.ChartConfig),
    ~ In EmptyString (Schema.columns parsedData) ->
    Recommender.generateChart parsedData now chartType None None dataKey
    = Js.Returned (Some chart) ->
    let columns := Schema.columns parsedData in
    (forall x, find (qualified parsedData Schema.TString) columns = Some x ->
               chartType = Schema.Bar \/ chartType = Schema.Pie ->
               Schema.xAxis chart = Some x
               /\ In x columns
               /\ Recommender.isIdentifierColumn x = false
               /\ Recommender.notPlaceholder x = true)
    /\ (forall y, find (qualified parsedData Schema.TNumber) columns = Some y ->
                  chartType = Schema.Bar ->
                  Schema.yAxis chart = Some y
                  /\ In y columns
                  /\ Recommender.isIdentifierColumn y = false
                  /\ Recommender.notPlaceholder y = true)
    /\ (forall x, find (qualified parsedData Schema.TNumber) columns = Some x ->
                  chartType = Schema.Scatter \/ chartType = Schema.Line ->
                  Schema.xAxis chart = Some x
                  /\ Recommender.isIdentifierColumn x = false
                  /\ forall y,
                       find (fun col => qualified parsedData Schema.TNumber col
                                        && negb (String.eqb col x)) columns = Some y ->
                       Schema.yAxis chart = Some y
                       /\ y <> x
                       /\ Recommender.isIdentifierColumn y = false).
Proof.
  intros pd now ct dataKey chart Hnamed G columns.
  apply generateChart_Some in G. destruct G as (d & Hd & Hs).
  apply stamp_fields in Hs. destruct Hs as (_ & _ & Hx & Hy & _).
  apply draftOf_axes in Hd. destruct Hd as (Dx & Dy & _).
  rewrite <- Hx in Dx. rewrite <- Hy in Dy. rewrite <- Hx in Dy. clear Hx Hy.
  rewrite resolve_omitted in Dx by reflexivity.
  assert (Q : forall ty p c, find (fun col => qualified pd ty col && p col) columns = Some c ->
            In c columns /\ Recommender.isIdentifierColumn c = false
            /\ Recommender.notPlaceholder c = true /\ p c = true).
  { intros ty p c H. apply find_some in H. destruct H as [Hin H].
    unfold qualified in H. rewrite !andb_true_iff, negb_true_iff in H. tauto. }
  assert (Q1 : forall ty c, find (qualified pd ty) columns = Some c ->
            In c columns /\ Recommender.isIdentifierColumn c = false
            /\ Recommender.notPlaceholder c = true).
  { intros ty c H.
    destruct (Q ty (fun _ => true) c) as (? & ? & ? & _); [ | auto ].
    rewrite <- H. apply find_ext. intros a. now rewrite andb_true_r. }
  split; [ | split ].
  - intros x Hfind Hct. split; [ | now apply (Q1 Schema.TString) ].
    rewrite Dx. destruct Hct as [-> | ->]; now apply defaultCategory_qualified.
  - intros y Hfind ->. split; [ | now apply (Q1 Schema.TNumber) ].
    rewrite Dy, resolve_omitted by reflexivity.
    now apply defaultValue_qualified.
  - intros x Hfind Hct.
    assert (Ex : Schema.xAxis chart = Some x).
    { rewrite Dx. destruct Hct as [-> | ->]; now apply defaultValue_qualified. }
    split; [ exact Ex | ].
    split; [ now apply (Q1 Schema.TNumber x) | ].
    intros y Hy.
    destruct (Q Schema.TNumber _ y Hy) as (_ & Hid & _ & Hne).
    split; [ | split; [ | exact Hid ] ].
    + rewrite Dy, Ex.
      destruct Hct as [-> | ->]; rewrite resolve_omitted by reflexivity;
        now apply defaultSecond_qualified.
    + intros ->. now rewrite String.eqb_refl in Hne.
Qed.

(** A table of orders: an identifier, a category and an amount. *)
Definition orders : Schema.ParsedData :=
  {| Schema.columns := ["order_id"; "region"; "amount"]%string;
     Schema.rows :=
       map (fun p => [("order_id"%string, Js.VNum (fst (fst p)));
                      ("region"%string, Js.VStr (snd (fst p)));
                      ("amount"%string, Js.VNum (snd p))])
           [ (1%float, "north"%string, 10%float);
             (2%float, "south"%string, 20%float);
             (3%float, "north"%string, 30%float) ];
     Schema.columnTypes :=
       [("order_id"%string, Schema.TNumber); ("region"%string, Schema.TString);
        ("amount"%string, Schema.TNumber)] |}.

(** The bar chart of the orders is of amount by region, not of order_id. *)
Lemma generateChart_default_axes_witness :
  ~ In EmptyString (Schema.columns orders)
  /\ exists chart,
       Recommender.generateChart orders 0 Schema.Bar None None None
       = Js.Returned (Some chart)
       /\ Schema.xAxis chart = Some "region"%string
       /\ Schema.yAxis chart = Some "amount"%string.
Proof.
  assert (H1 : ~ In EmptyString (Schema.columns orders)).
  { simpl. intros [H | [H | [H | []]]]; discriminate H. }
  assert (H2 : { chart | Recommender.generateChart orders 0 Schema.Bar None None None
                         = Js.Returned (Some chart) })
    by (eexists; vm_compute; reflexivity).
  destruct H2 as [chart H2].
  assert (Fx : find (qualified orders Schema.TString) (Schema.columns orders)
               = Some "region"%string) by (vm_compute; reflexivity).
  assert (Fy : find (qualified orders Schema.TNumber) (Schema.columns orders)
               = Some "amount"%string) by (vm_compute; reflexivity).
  pose proof (generateChart_default_axes orders 0 Schema.Bar None chart H1 H2) as T.
  exact (conj H1
           (ex_intro _ chart
              (conj H2
                 (conj (proj1 (proj1 T "region"%string Fx (or_introl eq_refl)))
                       (proj1 (proj1 (proj2 T) "amount"%string Fy eq_refl)))))).
Defined.

(* ===================================================================== *)
(** * detectColumnTypes: the dictionary of types *)
(* ===================================================================== *)

Lemma own_assign_fold {V : Type} (f : string -> V) (cols : list string)
  (acc : Js.dict V) (k : string) :
  k <> "__proto__"%string ->
  Js.own k (fold_left (fun types c => Js.assign c (f c) types) cols acc)
  = if mem k cols then Some (f k) else Js.own k acc.
Proof.
  intros Hk. revert acc.
  induction cols as [ | c cols IH ]; intros acc; cbn [fold_left]; [ reflexivity | ].
  rewrite IH. unfold mem. simpl. fold (mem k cols).
  destruct (mem k cols); [ now rewrite orb_true_r | ]. rewrite orb_false_r.
  unfold Js.assign. destruct (String.eqb_spec c "__proto__") as [-> | Hc].
  - destruct (String.eqb_spec k "__proto__"); [ contradiction | reflexivity ].
  - rewrite own_define. destruct (String.eqb_spec k c) as [-> | _]; reflexivity.
Qed.

Lemma own_proto_assign_fold {V : Type} (f : string -> V) (cols : list string)
  (acc : Js.dict V) :
  Js.own "__proto__" (fold_left (fun types c => Js.assign c (f c) types) cols acc)
  = Js.own "__proto__" acc.
Proof.
  revert acc.
  induction cols as [ | c cols IH ]; intros acc; cbn [fold_left]; [ reflexivity | ].
  rewrite IH. unfold Js.assign.
  destruct (String.eqb_spec c "__proto__") as [-> | Hc]; [ reflexivity | ].
  rewrite own_define.
  destruct (String.eqb_spec "__proto__" c) as [<- | _]; [ contradiction | reflexivity ].
Qed.

Lemma define_NoDup {V : Type} (k : string) (v : V) (o : Js.dict V) :
  NoDup (Js.keys o) -> NoDup (Js.keys (Js.define k v o)).
Proof.
  intros Hnd. unfold Js.define. destruct (Js.own k o) eqn:E.
  - now rewrite keys_replace.
  - apply own_None_keys in E.
    eapply Permutation_NoDup; [ apply insert_new_perm | ].
    constructor; assumption.
Qed.

Lemma assign_fold_NoDup {V : Type} (f : string -> V) (cols : list string)
  (acc : Js.dict V) :
  NoDup (Js.keys acc) ->
  NoDup (Js.keys (fold_left (fun types c => Js.assign c (f c) types) cols acc)).
Proof.
  revert acc.
  induction cols as [ | c cols IH ]; intros acc Hnd; cbn [fold_left]; [ exact Hnd | ].
  apply IH. unfold Js.assign. destruct (String.eqb c "__proto__"); [ exact Hnd | ].
  now apply define_NoDup.
Qed.

Lemma own_keys_assign_fold {V : Type} (f : string -> V) (cols : list string)
  (col : string) :
  In col (Js.keys (fold_left (fun types c => Js.assign c (f c) types) cols []))
  <-> In col cols /\ col <> "__proto__"%string.
Proof.
  set (types := fold_left (fun types c => Js.assign c (f c) types) cols []).
  destruct (String.eqb_spec col "__proto__") as [-> | Hc].
  - split; [ | tauto ]. intros Hin. exfalso.
    assert (E : Js.own "__proto__" types = None)
      by (unfold types; now rewrite own_proto_assign_fold).
    apply own_None_keys in E. contradiction.
  - pose proof (own_assign_fold f cols [] col Hc) as E. fold types in E.
    split.
    + intros Hin. split; [ | exact Hc ].
      destruct (mem col cols) eqn:M; [ now apply mem_In | ].
      simpl in E. apply own_None_keys in E. contradiction.
    + intros [Hin _]. apply mem_In in Hin. rewrite Hin in E.
      destruct (Js.own col types) eqn:O; [ | discriminate ].
      apply own_In in O. unfold Js.keys.
      change col with (fst (col, v)). now apply in_map.
Qed.

Lemma fold_left_pointwise {A B : Type} (f g : A -> B -> A) (l : list B) (a : A) :
  (forall acc b, f acc b = g acc b) -> fold_left f l a = fold_left g l a.
Proof.
  intros H. revert a.
  induction l as [ | b l IH ]; intros a; simpl; [ reflexivity | ].
  now rewrite H, IH.
Qed.

Section TypedTable.

Variable dateParses : string -> bool.

Lemma sampleValues_firstn (rows : list Js.row) (column : string) :
  Inference.sampleValues (firstn 100 rows) column = Inference.sampleValues rows column.
Proof. unfold Inference.sampleValues, Js.slice0. now rewrite firstn_firstn. Qed.

Lemma samplesOf_firstn (rows : list Js.row) (columns : list string) (col : string) :
  Inference.samplesOf (firstn 100 rows) columns col = Inference.samplesOf rows columns col.
Proof.
  unfold Inference.samplesOf, Js.slice0. f_equal.
  rewrite length_firstn, firstn_firstn. f_equal. lia.
Qed.

(** The loop of convertJsonToParsedData that assigns the types, for a
    table that has rows. *)
Lemma inferred_fold (rows : list Js.row) (columns : list string) :
  rows <> [] ->
  Inference.convertJsonToParsedData_columnTypes dateParses rows columns
  = fold_left (fun types c =>
                 Js.assign c
                   (Inference.inferSampleType dateParses
                      (Inference.samplesOf rows columns c)) types)
              columns [].
Proof.
  unfold Inference.convertJsonToParsedData_columnTypes.
  destruct rows; [ congruence | reflexivity ].
Qed.

Lemma inferred_own (rows : list Js.row) (columns : list string) (col : string) :
  col <> "__proto__"%string -> rows <> [] ->
  Js.own col (Inference.convertJsonToParsedData_columnTypes dateParses rows columns)
  = if mem col columns
    then Some (Inference.inferSampleType dateParses
                 (Inference.samplesOf rows columns col))
    else None.
Proof.
  intros Hc Hrows. rewrite (inferred_fold rows columns Hrows).
  apply (own_assign_fold
           (fun c => Inference.inferSampleType dateParses
                       (Inference.samplesOf rows columns c))
           columns [] col Hc).
Qed.

Lemma inferred_proto (rows : list Js.row) (columns : list string) :
  Js.own "__proto__"
    (Inference.convertJsonToParsedData_columnTypes dateParses rows columns) = None.
Proof.
  destruct rows as [ | r rows ]; [ reflexivity | ].
  rewrite inferred_fold by discriminate.
  apply (own_proto_assign_fold
           (fun c => Inference.inferSampleType dateParses
                       (Inference.samplesOf (r :: rows) columns c))
           columns []).
Qed.

(** X9: the dictionary of types that detectColumnTypes (file parser) and
    convertJsonToParsedData (PDF extractor) build.  Each column other than
    "__proto__" is an own key of the dictionary, exactly once, with the type
    the routine infers from the sample of that column; nothing else is a
    key; a column named "__proto__" gets no entry (the assignment is taken
    by the prototype setter, which ignores a string); and the dictionary
    depends on the first 100 rows only: the rows after them never change a
    type. *)
Theorem columnTypes_typed :
  forall (rows : list Js.row) (columns : list string),
    let detected := Inference.detectColumnTypes dateParses rows columns in
    let inferred := Inference.convertJsonToParsedData_columnTypes dateParses rows columns in
    (forall col, col <> "__proto__"%string ->
       Js.own col detected
       = if mem col columns
         then Some (Inference.detectColumnType dateParses rows col) else None)
    /\ (forall col, col <> "__proto__"%string -> rows <> [] ->
          Js.own col inferred
          = if mem col columns
            then Some (Inference.inferSampleType dateParses
                         (Inference.samplesOf rows columns col))
            else None)
    /\ Js.own "__proto__" detected = None /\ Js.own "__proto__" inferred = None
    /\ NoDup (Js.keys detected) /\ NoDup (Js.keys inferred)
    /\ (forall col, In col (Js.keys detected)
                    <-> In col columns /\ col <> "__proto__"%string)
    /\ detected = Inference.detectColumnTypes dateParses (firstn 100 rows) columns
    /\ inferred
       = Inference.convertJsonToParsedData_columnTypes dateParses
           (firstn 100 rows) columns.
Proof.
  intros rows columns detected inferred.
  split; [ | split; [ | split; [ | split; [ | split; [ | split; [ | split; [ | split ]]]]]]].
  - intros col Hc. apply (own_assign_fold _ columns [] col Hc).
  - intros col Hc Hrows. now apply inferred_own.
  - apply (own_proto_assign_fold _ columns []).
  - apply inferred_proto.
  - apply assign_fold_NoDup. constructor.
  - destruct rows as [ | r rows ]; [ constructor | ].
    unfold inferred. rewrite inferred_fold by discriminate.
    apply (assign_fold_NoDup
             (fun c => Inference.inferSampleType dateParses
                         (Inference.samplesOf (r :: rows) columns c))).
    constructor.
  - intros col. apply own_keys_assign_fold.
  - unfold detected, Inference.detectColumnTypes.
    apply fold_left_pointwise. intros acc c.
    unfold Inference.detectColumnType. now rewrite sampleValues_firstn.
  - destruct rows as [ | r rows ]; [ reflexivity | ].
    unfold inferred.
    rewrite (inferred_fold (r :: rows) columns) by discriminate.
    rewrite (inferred_fold (firstn 100 (r :: rows)) columns) by discriminate.
    apply fold_left_pointwise. intros acc c. now rewrite samplesOf_firstn.
Qed.

End TypedTable.

(* ===================================================================== *)
(** * extractFeatures: the counts, and a table without rows or columns *)
(* ===================================================================== *)

(** A column [columnTypes] has an own entry for. *)
Definition isTyped (parsedData : Schema.ParsedData) (col : string) : bool :=
  match Js.own col (Schema.columnTypes parsedData) with
  | Some _ => true
  | None => false
  end.

Lemma type_counts (parsedData : Schema.ParsedData) (cols : list string) :
  List.length (filter (Schema.has_type parsedData Schema.TNumber) cols)
  + List.length (filter (Schema.has_type parsedData Schema.TString) cols)
  + List.length (filter (Schema.has_type parsedData Schema.TDate) cols)
  + List.length (filter (Schema.has_type parsedData Schema.TBoolean) cols)
  = List.length (filter (isTyped parsedData) cols).
Proof.
  induction cols as [ | c cols IH ]; [ reflexivity | ].
  cbn [filter].
  destruct (Schema.has_type parsedData Schema.TNumber c) eqn:N,
           (Schema.has_type parsedData Schema.TString c) eqn:S,
           (Schema.has_type parsedData Schema.TDate c) eqn:D,
           (Schema.has_type parsedData Schema.TBoolean c) eqn:B,
           (isTyped parsedData c) eqn:T;
    cbn [List.length]; try lia;
    exfalso; unfold Schema.has_type, isTyped in *;
    destruct (Js.own c (Schema.columnTypes parsedData)) as [[ | | | ] | ];
    discriminate.
Qed.

Lemma extractFeatures_fields (parsedData : Schema.ParsedData) :
  let f := Recommender.extractFeatures parsedData in
  let columns := Schema.columns parsedData in
  let rows := Schema.rows parsedData in
  Recommender.numStringColumns f
  = List.length (filter (Schema.has_type parsedData Schema.TString) columns)
  /\ Recommender.numDateColumns f
     = List.length (filter (Schema.has_type parsedData Schema.TDate) columns)
  /\ Recommender.numBooleanColumns f
     = List.length (filter (Schema.has_type parsedData Schema.TBoolean) columns)
  /\ Recommender.totalColumns f = List.length columns
  /\ Recommender.totalRows f = List.length rows
  /\ Recommender.hasMultipleMetrics f
     = Nat.ltb 1 (List.length (filter (Schema.has_type parsedData Schema.TNumber) columns))
  /\ Recommender.dataCompleteness f
     = (if Nat.ltb 0 (List.length rows * List.length columns)
        then PrimFloat.div
               (JsNum.of_nat
                  (List.length
                     (flat_map (fun r => filter (fun col => Recommender.filled (Js.get r col))
                                                columns) rows)))
               (JsNum.of_nat (List.length rows * List.length columns))
        else PrimFloat.one)
  /\ Recommender.uniqueValueRatio f
     = PrimFloat.div
         (JsNum.sum
            (map (fun col =>
                    PrimFloat.div (JsNum.of_nat (Recommender.uniqueCount rows col))
                                  (JsNum.of_nat (Nat.max (List.length rows) 1)))
                 columns))
         (JsNum.of_nat
            (List.length
               (map (fun col =>
                       PrimFloat.div (JsNum.of_nat (Recommender.uniqueCount rows col))
                                     (JsNum.of_nat (Nat.max (List.length rows) 1)))
                    columns)))
  /\ Recommender.hasCategoricalData f
     = (Nat.ltb 0 (List.length (filter (Schema.has_type parsedData Schema.TString) columns))
        && existsb (fun col =>
                      PrimFloat.ltb (JsNum.of_nat (Recommender.uniqueCount rows col))
                                    (PrimFloat.mul (JsNum.of_nat (List.length rows)) 0.5))
                   (filter (Schema.has_type parsedData Schema.TString) columns)).
Proof. repeat split. Qed.

Lemma existsb_false {A : Type} (p : A -> bool) (l : list A) :
  (forall a, p a = false) -> existsb p l = false.
Proof.
  intros H. induction l as [ | a l IH ]; simpl; [ reflexivity | ].
  now rewrite H, IH.
Qed.

Lemma extractFeatures_no_rows (parsedData : Schema.ParsedData) :
  Schema.rows parsedData = [] ->
  Recommender.hasCategoricalData (Recommender.extractFeatures parsedData) = false
  /\ Recommender.totalRows (Recommender.extractFeatures parsedData) = 0.
Proof.
  intros Hrows.
  destruct (extractFeatures_fields parsedData)
    as (_ & _ & _ & _ & Hr & _ & _ & _ & Hc).
  rewrite Hc, Hr, Hrows. split; [ | reflexivity ].
  rewrite existsb_false; [ apply andb_false_r | ].
  intros col. vm_compute. reflexivity.
Qed.

(** X10: the features of a table.  The four type counts partition the
    columns that columnTypes has an entry for: a column is counted once, in
    the count of its type, and their sum is totalColumns when every column
    is typed; hasMultipleMetrics says that there are two numeric columns or
    more.  At the edges: for a table without rows or without columns
    dataCompleteness is 1; without rows no column counts as categorical;
    and without columns uniqueValueRatio is NaN, the average of no
    ratios being 0 / 0. *)
Theorem extractFeatures_counts :
  forall parsedData : Schema.ParsedData,
    let f := Recommender.extractFeatures parsedData in
    let columns := Schema.columns parsedData in
    let rows := Schema.rows parsedData in
    Recommender.numNumericColumns f + Recommender.numStringColumns f
    + Recommender.numDateColumns f + Recommender.numBooleanColumns f
    = List.length (filter (isTyped parsedData) columns)
    /\ List.length (filter (isTyped parsedData) columns) <= Recommender.totalColumns f
    /\ ((forall col, In col columns -> isTyped parsedData col = true) ->
        Recommender.numNumericColumns f + Recommender.numStringColumns f
        + Recommender.numDateColumns f + Recommender.numBooleanColumns f
        = Recommender.totalColumns f)
    /\ Recommender.totalColumns f = List.length columns
    /\ Recommender.totalRows f = List.length rows
    /\ (Recommender.hasMultipleMetrics f = true <-> 2 <= Recommender.numNumericColumns f)
    /\ (rows = [] \/ columns = [] -> Recommender.dataCompleteness f = PrimFloat.one)
    /\ (rows = [] -> Recommender.hasCategoricalData f = false)
    /\ (columns = [] -> Recommender.uniqueValueRatio f = PrimFloat.nan).
Proof.
  intros pd f columns rows.
  destruct (extractFeatures_fields pd)
    as (Hs & Hd & Hb & Hc & Hr & Hm & Hcomp & Hu & Hcat).
  fold f columns rows in Hs, Hd, Hb, Hc, Hr, Hm, Hcomp, Hu, Hcat.
  assert (Hn : Recommender.numNumericColumns f
               = List.length (filter (Schema.has_type pd Schema.TNumber) columns))
    by apply extractFeatures_numeric.
  assert (Hsum : Recommender.numNumericColumns f + Recommender.numStringColumns f
                 + Recommender.numDateColumns f + Recommender.numBooleanColumns f
                 = List.length (filter (isTyped pd) columns)).
  { rewrite Hn, Hs, Hd, Hb. apply type_counts. }
  split; [ exact Hsum | ].
  split; [ rewrite Hc; apply filter_length_le | ].
  split.
  { intros Hall. rewrite Hsum, Hc. f_equal. now apply filter_all. }
  split; [ exact Hc | ].
  split; [ exact Hr | ].
  split.
  { rewrite Hm, Hn. apply Nat.ltb_lt. }
  split.
  { intros [E | E]; rewrite Hcomp, E; simpl; [ reflexivity | ].
    now rewrite Nat.mul_0_r. }
  split.
  { intros E. now apply extractFeatures_no_rows. }
  intros E. rewrite Hu, E. vm_compute. reflexivity.
Qed.

(* ===================================================================== *)
(** * A table without rows *)
(* ===================================================================== *)

Lemma generateChart_no_rows (parsedData : Schema.ParsedData) (now : Z)
  (chartType : Schema.ChartType) (xAxis yAxis dataKey : option string) :
  Schema.rows parsedData = [] ->
  Recommender.generateChart parsedData now chartType xAxis yAxis dataKey
  = Js.Returned None.
Proof.
  intros Hrows. unfold Recommender.generateChart. rewrite Hrows.
  destruct chartType.
  - destruct (Recommender.resolve xAxis _) as [x | ]; [ | reflexivity ].
    destruct (Recommender.resolve yAxis _) as [y | ]; [ | reflexivity ].
    destruct (_ || _); reflexivity.
  - destruct (Recommender.resolve xAxis _) as [x | ]; [ | reflexivity ].
    destruct (Recommender.resolve yAxis _) as [y | ]; [ | reflexivity ].
    destruct (_ || _); reflexivity.
  - destruct (Recommender.resolve xAxis _) as [x | ]; [ | reflexivity ].
    destruct (JsStr.is_empty x); reflexivity.
  - destruct (Recommender.resolve xAxis _) as [x | ]; [ | reflexivity ].
    destruct (Recommender.resolve yAxis _) as [y | ]; [ | reflexivity ].
    destruct (_ || _); reflexivity.
  - reflexivity.
Qed.

Lemma lineRule_no_rows parsedData features rec :
  Recommender.totalRows features = 0 ->
  In rec (Recommender.lineRule parsedData features) ->
  Recommender.confidence rec = 0.95%float.
Proof.
  intros Hrows. unfold Recommender.lineRule. rewrite Hrows.
  destruct (Recommender.hasTimeSeries features && _).
  - intros H. rule_cases; reflexivity.
  - rewrite andb_false_r. intros [].
Qed.

(** X11: a table without rows.  With the features extractFeatures computes,
    recommendCharts returns no bar, pie or scatter candidate for it; a line
    candidate (from the time-series rule, confidence 0.95) and an area
    candidate are still possible, since these rules look at the names and
    types of the columns only.  generateChart answers null on such a table,
    for every chart type and all axes: no candidate can be materialised. *)
Theorem recommendCharts_no_rows :
  forall parsedData : Schema.ParsedData,
    Schema.rows parsedData = [] ->
    (forall rec,
        In rec (Recommender.recommendCharts parsedData
                  (Recommender.extractFeatures parsedData)) ->
        (Recommender.chartType rec = Schema.Line
         /\ Recommender.confidence rec = 0.95%float)
        \/ Recommender.chartType rec = Schema.Area)
    /\ (forall now chartType xAxis yAxis dataKey,
          Recommender.generateChart parsedData now chartType xAxis yAxis dataKey
          = Js.Returned None).
Proof.
  intros pd Hrows. split.
  - intros rec Hin.
    destruct (extractFeatures_no_rows pd Hrows) as [Hcat Htotal].
    set (f := Recommender.extractFeatures pd) in *.
    apply recommendCharts_In, recommendations_cases in Hin.
    destruct Hin as [H | [H | [H | [H | H]]]].
    + unfold Recommender.barRule in H. rewrite Hcat in H. destruct H.
    + left. split; [ now apply (lineRule_type pd f) | ].
      now apply (lineRule_no_rows pd f).
    + unfold Recommender.pieRule in H. rewrite Hcat in H. destruct H.
    + unfold Recommender.scatterRule in H. rewrite Htotal, andb_false_r in H.
      destruct H.
    + right. now apply (areaRule_type pd f).
  - intros now ct x y dk. now apply generateChart_no_rows.
Qed.

(** The header of a time series, before any row is there. *)
Definition blank : Schema.ParsedData :=
  {| Schema.columns := ["date"; "value"]%string;
     Schema.rows := [];
     Schema.columnTypes := [("date"%string, Schema.TDate);
                            ("value"%string, Schema.TNumber)] |}.

Lemma recommendCharts_no_rows_witness :
  Schema.rows blank = []
  /\ map Recommender.chartType
       (Recommender.recommendCharts blank (Recommender.extractFeatures blank))
     = [Schema.Line; Schema.Area]
  /\ Recommender.generateChart blank 0%Z Schema.Line
       (Some "date"%string) (Some "value"%string) None
     = Js.Returned None.
Proof.
  assert (H : Schema.rows blank = []) by reflexivity.
  assert (R : map Recommender.chartType
                (Recommender.recommendCharts blank (Recommender.extractFeatures blank))
              = [Schema.Line; Schema.Area]) by (vm_compute; reflexivity).
  exact (conj H (conj R
           (proj2 (recommendCharts_no_rows blank H) 0%Z Schema.Line
              (Some "date"%string) (Some "value"%string) None))).
Defined.

(* ===================================================================== *)
(** * generateMLVisualizations *)
(* ===================================================================== *)

(** The chart that was pushed, if one was. *)
Definition present (chart : option Schema.ChartConfig) : list Schema.ChartConfig :=
  match chart with
  | Some c => [c]
  | None => []
  end.

(** What a chart of generateMLVisualizations is: the answer of generateChart
    for its type, asked without axes. *)
Definition made (parsedData : Schema.ParsedData) (clock : Schema.ChartType -> Z)
  (chartType : Schema.ChartType) (chart : option Schema.ChartConfig) : Prop :=
  forall c, chart = Some c ->
    Recommender.generateChart parsedData (clock chartType) chartType None None None
    = Js.Returned (Some c).

Lemma pushChart_Returned parsedData clock chartType visualizations result :
  Recommender.pushChart parsedData clock chartType visualizations = Js.Returned result ->
  exists chart,
    result = visualizations ++ present chart
    /\ made parsedData clock chartType chart.
Proof.
  unfold Recommender.pushChart.
  destruct (Recommender.generateChart _ _ _ _ _ _) as [[c | ] | e] eqn:G;
    simpl; intros H; try discriminate; injection H as <-.
  - exists (Some c). split; [ reflexivity | ]. intros c' E. now injection E as <-.
  - exists None. split; [ now rewrite app_nil_r | ]. intros c' E. discriminate E.
Qed.

Lemma made_None parsedData clock chartType : made parsedData clock chartType None.
Proof. intros c E. discriminate E. Qed.

(** The charts of generateMLVisualizations, in the order they are pushed. *)
Lemma generateMLVisualizations_present parsedData clock charts :
  Recommender.generateMLVisualizations parsedData clock = Js.Returned charts ->
  exists bar pie scatter line,
    charts = present bar ++ present pie ++ present scatter ++ present line
    /\ made parsedData clock Schema.Bar bar
    /\ made parsedData clock Schema.Pie pie
    /\ made parsedData clock Schema.Scatter scatter
    /\ made parsedData clock Schema.Line line.
Proof.
  unfold Recommender.generateMLVisualizations.
  set (P := Recommender.pushChart parsedData clock).
  assert (Step : forall (guard1 guard2 : bool) ct vs result,
            (if guard1 then P ct vs else if guard2 then P ct vs else Js.Returned vs)
            = Js.Returned result ->
            exists chart, result = vs ++ present chart
                          /\ made parsedData clock ct chart).
  { intros g1 g2 ct vs result H.
    destruct g1; [ now apply pushChart_Returned | ].
    destruct g2; [ now apply pushChart_Returned | ].
    injection H as <-. exists None. split; [ now rewrite app_nil_r | apply made_None ]. }
  match goal with
  | |- Js.bind ?m1 _ = _ -> _ => destruct m1 as [v1 | e1] eqn:E1; [ | discriminate ]
  end.
  apply Step in E1. destruct E1 as (bar & -> & Hbar). simpl Js.bind.
  match goal with
  | |- Js.bind ?m2 _ = _ -> _ => destruct m2 as [v2 | e2] eqn:E2; [ | discriminate ]
  end.
  apply Step in E2. destruct E2 as (pie & -> & Hpie). simpl Js.bind.
  match goal with
  | |- Js.bind ?m3 _ = _ -> _ => destruct m3 as [v3 | e3] eqn:E3; [ | discriminate ]
  end.
  apply Step in E3. destruct E3 as (scatter & -> & Hscatter). simpl Js.bind.
  intros E4. apply Step in E4. destruct E4 as (line & -> & Hline).
  exists bar, pie, scatter, line. simpl. rewrite <- !app_assoc. auto.
Qed.

Lemma made_chart parsedData clock chartType c :
  made parsedData clock chartType (Some c) ->
  Schema.type c = chartType
  /\ Schema.data c <> []
  /\ Schema.id c
     = (Schema.ChartType_name chartType ++ "-" ++ JsStr.of_Z (clock chartType))%string
  /\ axisOf parsedData (Schema.xAxis c)
  /\ (chartType <> Schema.Pie -> axisOf parsedData (Schema.yAxis c))
  /\ (chartType = Schema.Pie ->
      Schema.yAxis c = None /\ Schema.dataKey c = Some "value"%string).
Proof.
  intros H. specialize (H c eq_refl).
  pose proof (generateChart_axes _ _ _ _ _ _ _ H) as (_ & Ax & Ay & Ay' & Ak).
  apply generateChart_Some in H. destruct H as (d & _ & Hs).
  pose proof (stamp_id _ _ _ _ Hs) as Hid.
  apply stamp_fields in Hs. destruct Hs as (Ht & _ & _ & _ & _ & Hd & Hne).
  split; [ exact Ht | ].
  split; [ now rewrite Hd | ].
  split; [ exact Hid | ].
  split; [ now apply Ax | ].
  split; [ now apply Ay' | ].
  intros E. split; [ apply Ay; now right | ].
  now rewrite Ak, E.
Qed.

Lemma present_made parsedData clock chartType chart c :
  made parsedData clock chartType chart -> In c (present chart) ->
  chart = Some c /\ Schema.type c = chartType.
Proof.
  intros Hm Hin.
  destruct chart as [c' | ]; [ destruct Hin as [<- | []] | destruct Hin ].
  split; [ reflexivity | ]. now apply (made_chart parsedData clock chartType c').
Qed.

Lemma generateMLVisualizations_charts_shape parsedData clock charts :
  Recommender.generateMLVisualizations parsedData clock = Js.Returned charts ->
  List.length charts <= 4 /\ NoDup (map Schema.type charts).
Proof.
  intros H.
  destruct (generateMLVisualizations_present parsedData clock charts H)
    as (bar & pie & scatter & line & -> & Hb & Hp & Hs & Hl).
  split.
  - rewrite !length_app. destruct bar, pie, scatter, line; simpl; lia.
  - rewrite !map_app.
    destruct bar as [b | ], pie as [p | ], scatter as [s | ], line as [l | ]; simpl;
      try rewrite (proj2 (present_made _ _ _ _ b Hb (or_introl eq_refl)));
      try rewrite (proj2 (present_made _ _ _ _ p Hp (or_introl eq_refl)));
      try rewrite (proj2 (present_made _ _ _ _ s Hs (or_introl eq_refl)));
      try rewrite (proj2 (present_made _ _ _ _ l Hl (or_introl eq_refl)));
      repeat constructor; simpl; intuition discriminate.
Qed.

(** X12: the charts of generateMLVisualizations.  When it returns, the list
    holds at most four charts, at most one of each of the types bar, pie,
    scatter and line, in this order; each is the payload generateChart
    gives for that type when asked without axes: its data are not empty,
    its id is built from its type and the clock, its x-axis (and, but for a
    pie chart, its y-axis) is a column of the table.  A chart type for
    which generateChart answers null is left out: the list need not hold
    all four. *)
Theorem generateMLVisualizations_charts :
  forall (parsedData : Schema.ParsedData) (clock : Schema.ChartType -> Z)
         (charts : list Schema.ChartConfig),
    Recommender.generateMLVisualizations parsedData clock = Js.Returned charts ->
    (exists bar pie scatter line,
        charts = present bar ++ present pie ++ present scatter ++ present line
        /\ made parsedData clock Schema.Bar bar
        /\ made parsedData clock Schema.Pie pie
        /\ made parsedData clock Schema.Scatter scatter
        /\ made parsedData clock Schema.Line line)
    /\ List.length charts <= 4
    /\ NoDup (map Schema.type charts)
    /\ (forall c, In c charts ->
          Schema.type c <> Schema.Area
          /\ Schema.data c <> []
          /\ Schema.id c
             = (Schema.ChartType_name (Schema.type c) ++ "-"
                ++ JsStr.of_Z (clock (Schema.type c)))%string
          /\ axisOf parsedData (Schema.xAxis c)
          /\ (Schema.type c <> Schema.Pie -> axisOf parsedData (Schema.yAxis c))).
Proof.
  intros pd clock charts H.
  destruct (generateMLVisualizations_charts_shape pd clock charts H) as [Hlen Hnd].
  destruct (generateMLVisualizations_present pd clock charts H)
    as (bar & pie & scatter & line & E & Hb & Hp & Hs & Hl).
  split; [ exists bar, pie, scatter, line; auto | ].
  split; [ exact Hlen | split; [ exact Hnd | ] ].
  intros c Hin. rewrite E, !in_app_iff in Hin.
  assert (M : exists ct, made pd clock ct (Some c) /\ ct <> Schema.Area).
  { destruct Hin as [Hin | [Hin | [Hin | Hin]]];
      [ exists Schema.Bar | exists Schema.Pie
      | exists Schema.Scatter | exists Schema.Line ];
      (split; [ | discriminate ]);
      match goal with
      | Hm : made pd clock ?ct ?o, Hi : In c (present ?o) |- made pd clock ?ct _ =>
          destruct (present_made pd clock ct o c Hm Hi) as [<- _]; exact Hm
      end. }
  destruct M as (ct & Hm & Hne).
  destruct (made_chart pd clock ct c Hm) as (Ht & Hd & Hid & Hx & Hy & _).
  rewrite Ht. auto.
Qed.

(** The table of sales, at clock reading 7. *)
Lemma generateMLVisualizations_charts_witness :
  exists charts,
    Recommender.generateMLVisualizations Tables.sales (fun _ => 7%Z)
    = Js.Returned charts
    /\ map Schema.type charts = [Schema.Bar; Schema.Pie]
    /\ List.length charts <= 4.
Proof.
  assert (H : { charts | Recommender.generateMLVisualizations Tables.sales (fun _ => 7%Z)
                         = Js.Returned charts
                         /\ map Schema.type charts = [Schema.Bar; Schema.Pie] }).
  { eexists. split; vm_compute; reflexivity. }
  destruct H as [charts [H T]].
  exact (ex_intro _ charts
           (conj H (conj T
              (proj1 (proj2 (generateMLVisualizations_charts Tables.sales
                               (fun _ => 7%Z) charts H)))))).
Defined.

(* ===================================================================== *)
(** * generateVisualizations: the two paths *)
(* ===================================================================== *)

Section RuleBasedGroups.

Variables categoryCol valueCol : string.

(** No key of the dictionary is the name of an inherited member. *)
Definition plainKeys (aggregated : Js.dict (list float)) : Prop :=
  forall k, In k (Js.keys aggregated) -> Js.inherited k = false.

Lemma ruleBased_step_plain (aggregated : Js.dict (list float)) (r : Js.row) :
  plainKeys aggregated ->
  Js.inherited (Parsers.category_of categoryCol r) = false ->
  exists aggregated',
    Parsers.aggregate_step categoryCol valueCol (Js.Returned aggregated) r
    = Js.Returned aggregated'
    /\ plainKeys aggregated'.
Proof.
  intros Hkeys Hplain. unfold Parsers.aggregate_step. simpl.
  destruct (Js.own _ aggregated) as [values | ] eqn:E.
  - eexists. split; [ reflexivity | ]. intros k. rewrite keys_replace. apply Hkeys.
  - rewrite Hplain. eexists. split; [ reflexivity | ].
    intros k Hk. unfold Js.define in Hk. rewrite E in Hk.
    apply (Permutation_in k (Permutation_sym (insert_new_perm _ _ _))) in Hk.
    destruct Hk as [<- | Hk]; [ exact Hplain | now apply Hkeys ].
Qed.

Lemma ruleBased_step_inherited (aggregated : Js.dict (list float)) (r : Js.row) :
  plainKeys aggregated ->
  Js.inherited (Parsers.category_of categoryCol r) = true ->
  Parsers.aggregate_step categoryCol valueCol (Js.Returned aggregated) r
  = Js.Threw pushError.
Proof.
  intros Hkeys Hinh. unfold Parsers.aggregate_step. simpl.
  destruct (Js.own _ aggregated) as [values | ] eqn:E.
  - apply own_In in E. apply (in_map fst) in E. apply Hkeys in E. simpl in E.
    congruence.
  - now rewrite Hinh.
Qed.

Lemma ruleBased_fold_Threw (e : string) (rows : list Js.row) :
  fold_left (Parsers.aggregate_step categoryCol valueCol) rows (Js.Threw e)
  = Js.Threw e.
Proof. induction rows as [ | r rows IH ]; simpl; auto. Qed.

Lemma ruleBased_fold (rows : list Js.row) (aggregated : Js.dict (list float)) :
  plainKeys aggregated ->
  if existsb (fun r => Js.inherited (Parsers.category_of categoryCol r)) rows
  then fold_left (Parsers.aggregate_step categoryCol valueCol) rows
         (Js.Returned aggregated) = Js.Threw pushError
  else exists aggregated',
         fold_left (Parsers.aggregate_step categoryCol valueCol) rows
           (Js.Returned aggregated) = Js.Returned aggregated'.
Proof.
  revert aggregated.
  induction rows as [ | r rows IH ]; intros aggregated Hkeys; cbn [fold_left existsb].
  - now exists aggregated.
  - destruct (Js.inherited (Parsers.category_of categoryCol r)) eqn:E; cbn [orb].
    + rewrite (ruleBased_step_inherited aggregated r Hkeys E).
      apply ruleBased_fold_Threw.
    + destruct (ruleBased_step_plain aggregated r Hkeys E) as (agg1 & -> & H1).
      now apply IH.
Qed.

(** aggregateData throws exactly when a row has a category that is the
    name of an inherited member. *)
Lemma aggregateData_Threw (rows : list Js.row) (e : string) :
  Parsers.aggregateData rows categoryCol valueCol = Js.Threw e
  <-> e = pushError
      /\ exists r, In r rows
                   /\ Js.inherited (Parsers.category_of categoryCol r) = true.
Proof.
  unfold Parsers.aggregateData.
  pose proof (ruleBased_fold rows [] (fun k (F : In k []) => match F with end)) as H.
  match goal with
  | |- Js.bind ?m _ = _ <-> _ => destruct m as [agg | e'] eqn:F
  end; simpl.
  - split; [ discriminate | ]. intros [_ (r & Hr & Hi)].
    assert (E : existsb (fun r => Js.inherited (Parsers.category_of categoryCol r)) rows
                = true) by (apply existsb_exists; eauto).
    rewrite E in H.
    assert (X : @Js.Returned (Js.dict (list float)) agg = Js.Threw pushError)
      by exact (eq_trans (eq_sym F) H).
    discriminate X.
  - destruct (existsb _ rows) eqn:E.
    + assert (X : @Js.Threw (Js.dict (list float)) e' = Js.Threw pushError)
        by exact (eq_trans (eq_sym F) H).
      injection X as ->. apply existsb_exists in E. split.
      * intros X. injection X as <-. auto.
      * now intros [-> _].
    + destruct H as (agg & H).
      assert (X : @Js.Threw (Js.dict (list float)) e' = Js.Returned agg)
        by exact (eq_trans (eq_sym F) H).
      discriminate X.
Qed.

End RuleBasedGroups.

Lemma mlVisualizations_cases parsedData clock useML :
  match Parsers.mlVisualizations parsedData clock useML with
  | Some charts =>
      useML = true /\ charts <> []
      /\ Recommender.generateMLVisualizations parsedData clock = Js.Returned charts
  | None =>
      useML = false
      \/ Recommender.generateMLVisualizations parsedData clock = Js.Returned []
      \/ exists e, Recommender.generateMLVisualizations parsedData clock = Js.Threw e
  end.
Proof.
  unfold Parsers.mlVisualizations. destruct useML; [ | now left ].
  destruct (Recommender.generateMLVisualizations parsedData clock) as [[ | c cs] | e];
    [ auto | | eauto ].
  repeat split. discriminate.
Qed.

Lemma ruleBased_types parsedData charts :
  Parsers.ruleBased parsedData = Js.Returned charts ->
  List.length charts <= 4 /\ NoDup (map Schema.type charts).
Proof.
  unfold Parsers.ruleBased.
  destruct (filter (Schema.has_type parsedData Schema.TString) _) as [ | s0 ss ];
    destruct (filter (Schema.has_type parsedData Schema.TNumber) _) as [ | n0 [ | n1 ns ] ];
    simpl;
    try destruct (Parsers.aggregateData _ _ _) as [agg | e]; simpl;
    intros H; try discriminate; injection H as <-; simpl;
    (split; [ lia | repeat constructor; simpl; intuition discriminate ]).
Qed.

(** A labelled table: the label column looks like an identifier, and one
    category is the name of an inherited member. *)
Definition tagged : Schema.ParsedData :=
  {| Schema.columns := ["id"; "cat"; "val"]%string;
     Schema.rows :=
       [ [("id"%string, Js.VStr "a"); ("cat"%string, Js.VStr "constructor");
          ("val"%string, Js.VNum 1)] ];
     Schema.columnTypes :=
       [("id"%string, Schema.TString); ("cat"%string, Schema.TString);
        ("val"%string, Schema.TNumber)] |}.

Lemma tagged_ML_throws (clock : Schema.ChartType -> Z) :
  Recommender.generateMLVisualizations tagged clock = Js.Threw pushError.
Proof. vm_compute. reflexivity. Qed.

Lemma tagged_ruleBased (clock : Schema.ChartType -> Z) :
  exists charts,
    Parsers.generateVisualizations tagged clock true = Js.Returned charts
    /\ map Schema.id charts = ["bar-1"; "pie-1"]%string.
Proof.
  unfold Parsers.generateVisualizations, Parsers.mlVisualizations.
  rewrite tagged_ML_throws.
  eexists. split; [ vm_compute; reflexivity | reflexivity ].
Qed.

(** X13: the two paths of generateVisualizations.  The charts of the ML
    path are returned when that path is enabled, does not throw, and yields
    at least one chart; an exception of the ML path is caught.  Otherwise
    the rule-based charts are returned, and an exception there is not
    caught: generateVisualizations throws exactly when the rule-based path
    is taken, the table has a string and a numeric column, and some row's
    cell in the first string column reads (untrimmed) as the name of a
    member of Object.prototype.  On either path the result holds at most
    four charts, of pairwise different types.  (On the table [tagged] the
    ML path throws and the rule-based charts are returned.) *)
Theorem generateVisualizations_outcome :
  forall (parsedData : Schema.ParsedData) (clock : Schema.ChartType -> Z)
         (useML : bool),
    let stringColumns :=
      filter (Schema.has_type parsedData Schema.TString) (Schema.columns parsedData) in
    let numericColumns :=
      filter (Schema.has_type parsedData Schema.TNumber) (Schema.columns parsedData) in
    let ml := Recommender.generateMLVisualizations parsedData clock in
    let fallsBack :=
      useML = false \/ ml = Js.Returned [] \/ exists e, ml = Js.Threw e in
    (forall chart charts,
        useML = true -> ml = Js.Returned (chart :: charts) ->
        Parsers.generateVisualizations parsedData clock useML
        = Js.Returned (chart :: charts))
    /\ (fallsBack ->
        Parsers.generateVisualizations parsedData clock useML
        = Parsers.ruleBased parsedData)
    /\ (forall e,
          Parsers.generateVisualizations parsedData clock useML = Js.Threw e
          <-> e = pushError /\ fallsBack
              /\ exists categoryCol valueCol r,
                   hd_error stringColumns = Some categoryCol
                   /\ hd_error numericColumns = Some valueCol
                   /\ In r (Schema.rows parsedData)
                   /\ Js.inherited (Parsers.category_of categoryCol r) = true)
    /\ (forall charts,
          Parsers.generateVisualizations parsedData clock useML = Js.Returned charts ->
          List.length charts <= 4 /\ NoDup (map Schema.type charts))
    /\ (Recommender.generateMLVisualizations tagged clock = Js.Threw pushError
        /\ exists charts,
             Parsers.generateVisualizations tagged clock true = Js.Returned charts
             /\ map Schema.id charts = ["bar-1"; "pie-1"]%string).
Proof.
  intros pd clock useML stringColumns numericColumns ml fallsBack.
  pose proof (mlVisualizations_cases pd clock useML) as M. fold ml in M.
  assert (Back : fallsBack <-> Parsers.mlVisualizations pd clock useML = None).
  { unfold fallsBack. destruct (Parsers.mlVisualizations pd clock useML) as [cs | ].
    - destruct M as (U & N & E). split; [ | discriminate ].
      intros [F | [F | [e F]]]; congruence.
    - tauto. }
  assert (Rule : forall e,
            Parsers.ruleBased pd = Js.Threw e
            <-> e = pushError
                /\ exists categoryCol valueCol r,
                     hd_error stringColumns = Some categoryCol
                     /\ hd_error numericColumns = Some valueCol
                     /\ In r (Schema.rows pd)
                     /\ Js.inherited (Parsers.category_of categoryCol r) = true).
  { intros e. unfold Parsers.ruleBased. fold stringColumns numericColumns.
    destruct stringColumns as [ | s0 ss ].
    { simpl. split; [ discriminate | ]. intros (_ & c & v & r & F & _). discriminate F. }
    destruct numericColumns as [ | n0 ns ].
    { simpl. split; [ discriminate | ].
      intros (_ & c & v & r & _ & F & _). discriminate F. }
    simpl hd_error.
    destruct (Parsers.aggregateData (Schema.rows pd) s0 n0) as [agg | e'] eqn:A; simpl.
    - split; [ discriminate | ].
      intros (-> & c & v & r & Ec & Ev & Hr & Hi). injection Ec as <-. injection Ev as <-.
      assert (T : Parsers.aggregateData (Schema.rows pd) s0 n0 = Js.Threw pushError)
        by (apply aggregateData_Threw; eauto).
      congruence.
    - apply aggregateData_Threw in A. destruct A as (-> & r & Hr & Hi). split.
      + intros X. injection X as <-. split; [ reflexivity | ].
        exists s0, n0, r. auto.
      + now intros [-> _]. }
  split; [ | split; [ | split; [ | split ] ] ].
  5: { split; [ apply tagged_ML_throws | apply tagged_ruleBased ]. }
  - intros chart charts -> E.
    unfold Parsers.generateVisualizations, Parsers.mlVisualizations.
    fold ml. now rewrite E.
  - intros F. apply Back in F. unfold Parsers.generateVisualizations. now rewrite F.
  - intros e. unfold Parsers.generateVisualizations.
    destruct (Parsers.mlVisualizations pd clock useML) as [cs | ] eqn:V.
    + split; [ discriminate | ]. intros (_ & F & _). apply Back in F. discriminate F.
    + rewrite Rule. split.
      * intros [-> H]. split; [ reflexivity | ]. split; [ now apply Back | exact H ].
      * intros (-> & _ & H). auto.
  - intros charts. unfold Parsers.generateVisualizations.
    destruct (Parsers.mlVisualizations pd clock useML) as [cs | ] eqn:V.
    + intros X. injection X as <-. destruct M as (_ & _ & E).
      destruct (generateMLVisualizations_charts_shape pd clock cs E) as [L N]. auto.
    + apply ruleBased_types.
Qed.

(* ===================================================================== *)
(** * The rule-based bar chart and the bar chart of generateChart *)
(* ===================================================================== *)

Lemma fold_left_ext_In {A B : Type} (f g : A -> B -> A) (l : list B) (a : A) :
  (forall acc b, In b l -> f acc b = g acc b) -> fold_left f l a = fold_left g l a.
Proof.
  revert a. induction l as [ | b l IH ]; intros a H; simpl; [ reflexivity | ].
  rewrite (H a b) by now left. apply IH. intros acc b' Hb'. apply H. now right.
Qed.

(** The two loops make the same groups when trimming changes no
    category. *)
Lemma aggregateData_aggregate (rows : list Js.row) (categoryCol valueCol : string) :
  (forall r, In r rows ->
     JsStr.trim (Parsers.category_of categoryCol r) = Parsers.category_of categoryCol r) ->
  Parsers.aggregateData rows categoryCol valueCol
  = Js.bind (Recommender.aggregate categoryCol valueCol rows)
      (fun aggregated =>
         Js.Returned (map (Recommender.barEntry categoryCol valueCol) aggregated)).
Proof.
  intros Htrim. unfold Parsers.aggregateData, Recommender.aggregate. f_equal.
  apply fold_left_ext_In. intros acc r Hr.
  unfold Parsers.aggregate_step, Recommender.aggregate_step, Recommender.category_of.
  fold (Parsers.category_of categoryCol r). now rewrite (Htrim r Hr).
Qed.

(** X14: the bar chart of the rule-based path against the bar chart of
    generateChart on the same two columns.  aggregateData does not trim the
    category; when no category of the table has white space at its ends,
    it forms the groups of generateChart (same keys, same order, same
    means), throws when generateChart throws, and the rule-based chart,
    cut at 15 groups, shows the first 15 of the at most 20 groups of the
    chart of generateChart. *)
Theorem aggregateData_agrees :
  forall (parsedData : Schema.ParsedData) (categoryCol valueCol : string),
    let rows := Schema.rows parsedData in
    (forall r, In r rows ->
       JsStr.trim (Parsers.category_of categoryCol r)
       = Parsers.category_of categoryCol r) ->
    categoryCol <> EmptyString -> valueCol <> EmptyString ->
    Parsers.aggregateData rows categoryCol valueCol
    = Js.bind (Recommender.aggregate categoryCol valueCol rows)
        (fun aggregated =>
           Js.Returned (map (Recommender.barEntry categoryCol valueCol) aggregated))
    /\ (forall now dataKey e,
          Recommender.generateChart parsedData now Schema.Bar
            (Some categoryCol) (Some valueCol) dataKey = Js.Threw e
          <-> Parsers.aggregateData rows categoryCol valueCol = Js.Threw e)
    /\ (forall now dataKey chart,
          Recommender.generateChart parsedData now Schema.Bar
            (Some categoryCol) (Some valueCol) dataKey = Js.Returned (Some chart) ->
          exists aggregated,
            Parsers.aggregateData rows categoryCol valueCol = Js.Returned aggregated
            /\ Schema.data chart = Js.slice0 20 aggregated
            /\ Js.slice0 15 aggregated = Js.slice0 15 (Schema.data chart)).
Proof.
  intros pd c v rows Htrim Hc Hv.
  pose proof (aggregateData_aggregate rows c v Htrim) as A.
  assert (G : forall now dataKey,
            Recommender.generateChart pd now Schema.Bar (Some c) (Some v) dataKey
            = Js.bind (Recommender.aggregate c v rows) (fun aggregated =>
                Js.Returned
                  (Recommender.finish now Schema.Bar (v ++ " by " ++ c)%string
                     (Some c) (Some v) dataKey
                     (Js.slice0 20 (map (Recommender.barEntry c v) aggregated))))).
  { intros now dataKey. unfold Recommender.generateChart, Recommender.resolve.
    destruct c; [ now contradiction Hc | ]. destruct v; [ now contradiction Hv | ].
    reflexivity. }
  split; [ exact A | split ].
  - intros now dataKey e. rewrite G, A.
    destruct (Recommender.aggregate c v rows); simpl; split; intros H;
      try discriminate; injection H as <-; reflexivity.
  - intros now dataKey chart. rewrite G, A.
    destruct (Recommender.aggregate c v rows) as [agg | e]; unfold Js.bind;
      cbv beta; [ | discriminate ].
    set (groups := map (Recommender.barEntry c v) agg).
    unfold Recommender.finish.
    destruct (Js.slice0 20 groups) as [ | g gs ] eqn:E; [ discriminate | ].
    intros H. injection H as <-. cbn [Schema.data].
    exists groups. split; [ reflexivity | ]. split; [ now rewrite E | ].
    rewrite <- E. unfold Js.slice0. rewrite firstn_firstn. reflexivity.
Qed.

(** The table of sales. *)
Lemma aggregateData_agrees_witness :
  (forall r, In r (Schema.rows Tables.sales) ->
     JsStr.trim (Parsers.category_of "cat" r) = Parsers.category_of "cat" r)
  /\ "cat"%string <> EmptyString /\ "val"%string <> EmptyString
  /\ Parsers.aggregateData (Schema.rows Tables.sales) "cat" "val"
     = Js.bind (Recommender.aggregate "cat" "val" (Schema.rows Tables.sales))
         (fun aggregated =>
            Js.Returned (map (Recommender.barEntry "cat" "val") aggregated)).
Proof.
  assert (H1 : forall r, In r (Schema.rows Tables.sales) ->
                 JsStr.trim (Parsers.category_of "cat" r) = Parsers.category_of "cat" r).
  { simpl. intros r [<- | [<- | [<- | []]]]; reflexivity. }
  assert (H2 : "cat"%string <> EmptyString) by discriminate.
  assert (H3 : "val"%string <> EmptyString) by discriminate.
  exact (conj H1 (conj H2 (conj H3
           (proj1 (aggregateData_agrees Tables.sales "cat" "val" H1 H2 H3))))).
Defined.

(* ===================================================================== *)
(** * calculateDistribution: the rule-based pie chart *)
(* ===================================================================== *)

Lemma list_sum_perm (l l' : list nat) :
  Permutation l l' -> list_sum l = list_sum l'.
Proof.
  induction 1 as [ | a l l' _ IH | a b l | l l' l'' _ IH1 _ IH2 ]; simpl; lia.
Qed.

Lemma insert_index_entries {V : Type} (i : Z) (k : string) (v : V) (o : Js.dict V) :
  Permutation ((k, v) :: o) (Js.insert_index i k v o).
Proof.
  induction o as [ | [k' v'] o IH ]; simpl; [ apply Permutation_refl | ].
  destruct (Js.array_index k') as [j | ]; [ destruct (j <? i)%Z | ];
    try apply Permutation_refl.
  eapply perm_trans; [ apply perm_swap | ]. now apply perm_skip.
Qed.

Lemma insert_new_entries {V : Type} (k : string) (v : V) (o : Js.dict V) :
  Permutation ((k, v) :: o) (Js.insert_new k v o).
Proof.
  unfold Js.insert_new. destruct (Js.array_index k).
  - apply insert_index_entries.
  - apply Permutation_cons_append.
Qed.

Lemma sum_replace (k : string) (c c' : Recommender.counter)
  (o : Js.dict Recommender.counter) :
  Js.own k o = Some c ->
  list_sum (map countKey (Js.replace k c' o)) + countKey (k, c)
  = list_sum (map countKey o) + countKey (k, c').
Proof.
  induction o as [ | [k' v'] o IH ]; simpl; [ discriminate | ].
  destruct (String.eqb k k') eqn:E.
  - intros H. injection H as ->. unfold countKey. simpl. lia.
  - intros H. specialize (IH H). simpl. unfold countKey in *. simpl in *. lia.
Qed.

Section RuleBasedCounts.

Variable column : string.

(** The number of rows whose cell reads [k]. *)
Definition cells (rows : list Js.row) (k : string) : nat :=
  List.length (filter (fun r => String.eqb (Parsers.category_of column r) k) rows).

Lemma cells_snoc (rows : list Js.row) (r : Js.row) (k : string) :
  cells (rows ++ [r]) k
  = cells rows k + (if String.eqb (Parsers.category_of column r) k then 1 else 0).
Proof.
  unfold cells. rewrite filter_app, length_app. simpl.
  now destruct (String.eqb _ k).
Qed.

Lemma cells_In (rows : list Js.row) (r : Js.row) :
  In r rows -> 0 < cells rows (Parsers.category_of column r).
Proof.
  intros Hin. unfold cells.
  assert (F : In r (filter (fun r' => String.eqb (Parsers.category_of column r')
                                        (Parsers.category_of column r)) rows)).
  { apply filter_In. split; [ exact Hin | apply String.eqb_refl ]. }
  destruct (filter _ rows); [ destruct F | simpl; lia ].
Qed.

Record distribution_after (seen : list Js.row) (counts : Js.dict Recommender.counter)
  : Prop := {
  dist_own : forall k,
    Js.own k counts
    = if Nat.ltb 0 (cells seen k) then Some (Recommender.Count (cells seen k)) else None;
  dist_nodup : NoDup (Js.keys counts);
  dist_total : list_sum (map countKey counts) = List.length seen
}.

Lemma distribution_step (seen : list Js.row) (counts : Js.dict Recommender.counter)
  (r : Js.row) :
  distribution_after seen counts ->
  Js.inherited (Parsers.category_of column r) = false ->
  distribution_after (seen ++ [r]) (Parsers.count_step column counts r).
Proof.
  intros [Hown Hnd Htotal] Hplain. unfold Parsers.count_step.
  set (c := Parsers.category_of column r) in *.
  rewrite (assign_plain c _ counts Hplain).
  assert (Hbump : Recommender.bump counts c = Recommender.Count (cells seen c + 1)).
  { unfold Recommender.bump. rewrite Hown, Hplain.
    destruct (Nat.ltb_spec 0 (cells seen c)); [ reflexivity | ]. f_equal. lia. }
  rewrite Hbump. constructor.
  - intros k. rewrite own_define, cells_snoc. fold c.
    destruct (String.eqb_spec k c) as [-> | Hne].
    + rewrite String.eqb_refl.
      destruct (Nat.ltb_spec 0 (cells seen c + 1)); [ reflexivity | lia ].
    + assert (E : String.eqb c k = false) by (apply String.eqb_neq; congruence).
      now rewrite E, Nat.add_0_r.
  - now apply define_NoDup.
  - rewrite length_app. simpl. rewrite <- Htotal. unfold Js.define.
    destruct (Js.own c counts) as [old | ] eqn:E.
    + pose proof (sum_replace c old (Recommender.Count (cells seen c + 1)) counts E) as S.
      rewrite Hown in E. destruct (Nat.ltb_spec 0 (cells seen c)); [ | discriminate ].
      injection E as <-. unfold countKey in S at 2 4. simpl in S. lia.
    + rewrite <- (list_sum_perm _ _
                    (Permutation_map countKey (insert_new_entries c _ counts))).
      simpl. unfold countKey at 1. simpl.
      rewrite Hown in E. destruct (Nat.ltb_spec 0 (cells seen c)); [ discriminate | ].
      lia.
Qed.

Lemma distribution_fold (rows seen : list Js.row)
  (counts : Js.dict Recommender.counter) :
  distribution_after seen counts ->
  (forall r, In r rows -> Js.inherited (Parsers.category_of column r) = false) ->
  distribution_after (seen ++ rows) (fold_left (Parsers.count_step column) rows counts).
Proof.
  revert seen counts.
  induction rows as [ | r rows IH ]; intros seen counts Hafter Hplain;
    cbn [fold_left].
  - now rewrite app_nil_r.
  - replace (seen ++ r :: rows) with ((seen ++ [r]) ++ rows)
      by now rewrite <- app_assoc.
    apply IH.
    + apply distribution_step; [ exact Hafter | apply Hplain; now left ].
    + intros r' Hr'. apply Hplain. now right.
Qed.

End RuleBasedCounts.

(** X15: calculateDistribution, the pie chart of the rule-based path, on
    rows of which no cell of the column reads as the name of a member of
    Object.prototype.  It returns one { name, value } entry for each
    distinct text of a cell, value being the number of rows with that text,
    in descending order of value.  Unlike the pie chart of generateChart it
    counts every row: a falsy cell (null, undefined, the empty string, 0,
    false, NaN) is counted under 'Unknown', nothing is trimmed, and the
    values add up to the number of rows. *)
Theorem calculateDistribution_counts :
  forall (rows : list Js.row) (column : string),
    (forall r, In r rows -> Js.inherited (Parsers.category_of column r) = false) ->
    exists entries : list (string * Recommender.counter),
      Parsers.calculateDistribution rows column = map Recommender.pieEntry entries
      /\ (forall k c, In (k, c) entries ->
            0 < cells column rows k /\ c = Recommender.Count (cells column rows k))
      /\ (forall r, In r rows ->
            In (Parsers.category_of column r) (map fst entries))
      /\ (forall r, In r rows -> Js.truthy (Js.get r column) = false ->
            In "Unknown"%string (map fst entries))
      /\ NoDup (map fst entries)
      /\ descending countKey entries
      /\ list_sum (map countKey entries) = List.length rows.
Proof.
  intros rows column Hplain.
  set (counts := fold_left (Parsers.count_step column) rows []).
  assert (A : distribution_after column rows counts).
  { apply (distribution_fold column rows [] []); [ | exact Hplain ].
    constructor; [ reflexivity | constructor | reflexivity ]. }
  destruct A as [Hown Hnd Htotal].
  assert (Hentry : forall k c, In (k, c) counts ->
            0 < cells column rows k /\ c = Recommender.Count (cells column rows k)).
  { intros k c Hin. apply (In_own_NoDup k c counts Hnd) in Hin.
    rewrite Hown in Hin.
    destruct (Nat.ltb_spec 0 (cells column rows k)); [ | discriminate ].
    injection Hin as <-. auto. }
  assert (Hsort : Js.sort Recommender.byCount counts
                  = Js.sort (byKey countKey) counts).
  { apply sort_ext. intros [ka ca] [kb cb] Ha Hb.
    destruct (Hentry ka ca Ha) as (_ & ->).
    destruct (Hentry kb cb Hb) as (_ & ->). reflexivity. }
  assert (Hkey : forall r, In r rows ->
            In (Parsers.category_of column r)
               (map fst (Js.sort (byKey countKey) counts))).
  { intros r Hr. pose proof (cells_In column rows r Hr) as Hpos.
    specialize (Hown (Parsers.category_of column r)).
    destruct (Nat.ltb_spec 0 (cells column rows (Parsers.category_of column r)));
      [ | lia ].
    apply own_In in Hown.
    apply (in_map fst) in Hown. simpl in Hown.
    eapply Permutation_in; [ apply Permutation_map, sort_perm | exact Hown ]. }
  exists (Js.sort (byKey countKey) counts).
  split; [ | split; [ | split; [ | split; [ | split; [ | split ]]]]].
  - unfold Parsers.calculateDistribution. fold counts. now rewrite Hsort.
  - intros k c Hin. apply Hentry. now apply (sort_In (byKey countKey) counts).
  - exact Hkey.
  - intros r Hr Hfalsy. specialize (Hkey r Hr).
    unfold Parsers.category_of, Js.or_else in Hkey. now rewrite Hfalsy in Hkey.
  - eapply Permutation_NoDup; [ apply Permutation_map, sort_perm | exact Hnd ].
  - apply sort_key_descending.
  - rewrite <- Htotal. symmetry. apply list_sum_perm, Permutation_map, sort_perm.
Qed.

(** The table of sales: two rows of A, one of B. *)
Lemma calculateDistribution_counts_witness :
  (forall r, In r (Schema.rows Tables.sales) ->
             Js.inherited (Parsers.category_of "cat" r) = false)
  /\ exists entries,
       Parsers.calculateDistribution (Schema.rows Tables.sales) "cat"
       = map Recommender.pieEntry entries
       /\ list_sum (map countKey entries) = 3.
Proof.
  assert (H : forall r, In r (Schema.rows Tables.sales) ->
                        Js.inherited (Parsers.category_of "cat" r) = false).
  { simpl. intros r [<- | [<- | [<- | []]]]; reflexivity. }
  destruct (calculateDistribution_counts (Schema.rows Tables.sales) "cat" H)
    as (entries & E & _ & _ & _ & _ & _ & T).
  exact (conj H (ex_intro _ entries (conj E T))).
Defined.

(* ===================================================================== *)
(** * The patterns on column names *)
(* ===================================================================== *)

Section Patterns.

Import Regex.
Local Open Scope string_scope.

(** What a pattern matches, as a relation. *)
Inductive matches : re -> string -> Prop :=
| MEps : matches Eps EmptyString
| MChr (c d : ascii) : JsStr.ci_eqb c d = true -> matches (Chr d) (String c EmptyString)
| MDigit (c : ascii) : JsStr.is_digit c = true -> matches Digit (String c EmptyString)
| MAnyChar (c : ascii) : matches AnyChar (String c EmptyString)
| MSeq (r1 r2 : re) (s1 s2 : string) :
    matches r1 s1 -> matches r2 s2 -> matches (Seq r1 r2) (s1 ++ s2)
| MAltL (r1 r2 : re) (s : string) : matches r1 s -> matches (Alt r1 r2) s
| MAltR (r1 r2 : re) (s : string) : matches r2 s -> matches (Alt r1 r2) s
| MStarNil (r : re) : matches (Star r) EmptyString
| MStarApp (r : re) (s1 s2 : string) :
    matches r s1 -> matches (Star r) s2 -> matches (Star r) (s1 ++ s2).

Lemma append_empty (s1 s2 : string) :
  s1 ++ s2 = EmptyString -> s1 = EmptyString /\ s2 = EmptyString.
Proof. destruct s1; simpl; [ auto | discriminate ]. Qed.

Lemma append_empty_r (s : string) : s ++ EmptyString = s.
Proof. induction s as [ | c s IH ]; simpl; congruence. Qed.

Lemma append_cons (s1 s2 : string) (c : ascii) (s : string) :
  s1 ++ s2 = String c s ->
  (s1 = EmptyString /\ s2 = String c s)
  \/ exists s1', s1 = String c s1' /\ s = s1' ++ s2.
Proof.
  destruct s1 as [ | c1 s1 ]; simpl; [ auto | ].
  intros H. injection H as -> <-. right. now exists s1.
Qed.

Lemma nullable_matches (r : re) : nullable r = true <-> matches r EmptyString.
Proof.
  split.
  - induction r; simpl; intros H; try discriminate.
    + constructor.
    + apply andb_true_iff in H. destruct H.
      change EmptyString with (EmptyString ++ EmptyString). constructor; auto.
    + apply orb_true_iff in H. destruct H; [ apply MAltL | apply MAltR ]; auto.
    + constructor.
  - remember EmptyString as s eqn:E. induction 1; simpl; try discriminate; auto.
    + apply append_empty in E. destruct E. rewrite IHmatches1, IHmatches2; auto.
    + rewrite IHmatches; auto.
    + rewrite IHmatches; auto. apply orb_true_r.
Qed.

Lemma deriv_sound (c : ascii) (r : re) (s : string) :
  matches (deriv c r) s -> matches r (String c s).
Proof.
  revert s. induction r; simpl; intros s H.
  - inversion H.
  - inversion H.
  - destruct (JsStr.ci_eqb c c0) eqn:E; inversion H; subst. now constructor.
  - destruct (JsStr.is_digit c) eqn:E; inversion H; subst. now constructor.
  - inversion H; subst. constructor.
  - destruct (nullable r1) eqn:N.
    + inversion H; subst.
      * match goal with X : matches (Seq _ _) _ |- _ => inversion X; subst end.
        change (String c (s1 ++ s2)) with (String c s1 ++ s2). constructor; auto.
      * change (String c s) with (EmptyString ++ String c s).
        constructor; [ now apply nullable_matches | auto ].
    + inversion H; subst.
      change (String c (s1 ++ s2)) with (String c s1 ++ s2). constructor; auto.
  - inversion H; subst; [ apply MAltL | apply MAltR ]; auto.
  - inversion H; subst.
    change (String c (s1 ++ s2)) with (String c s1 ++ s2). constructor; auto.
Qed.

Lemma deriv_complete (r : re) (s0 : string) :
  matches r s0 -> forall c s, s0 = String c s -> matches (deriv c r) s.
Proof.
  induction 1; intros c0 s0 E; simpl.
  - discriminate.
  - injection E as -> <-. rewrite H. constructor.
  - injection E as -> <-. rewrite H. constructor.
  - injection E as -> <-. constructor.
  - apply append_cons in E. destruct E as [[-> ->] | (s1' & -> & ->)].
    + assert (N : nullable r1 = true) by now apply nullable_matches.
      rewrite N. apply MAltR. now apply IHmatches2.
    + destruct (nullable r1).
      * apply MAltL. constructor; auto.
      * constructor; auto.
  - apply MAltL. auto.
  - apply MAltR. auto.
  - discriminate.
  - apply append_cons in E. destruct E as [[-> ->] | (s1' & -> & ->)].
    + now apply IHmatches2.
    + constructor; auto.
Qed.

Lemma full_match_matches (r : re) (s : string) :
  full_match r s = true <-> matches r s.
Proof.
  revert r. induction s as [ | c s IH ]; intros r; simpl.
  - apply nullable_matches.
  - rewrite IH. split; [ apply deriv_sound | ].
    intros H. now apply (deriv_complete r (String c s) H).
Qed.

Lemma toLowerCase_app (s1 s2 : string) :
  JsStr.toLowerCase (s1 ++ s2) = JsStr.toLowerCase s1 ++ JsStr.toLowerCase s2.
Proof.
  induction s1 as [ | c s1 IH ]; [ reflexivity | ].
  change (JsStr.toLowerCase (String c (s1 ++ s2))
          = String (JsStr.lower c) (JsStr.toLowerCase s1 ++ JsStr.toLowerCase s2)).
  rewrite <- IH. reflexivity.
Qed.

Lemma toLowerCase_split (a b s : string) :
  JsStr.toLowerCase s = a ++ b ->
  exists s1 s2, s = s1 ++ s2 /\ JsStr.toLowerCase s1 = a /\ JsStr.toLowerCase s2 = b.
Proof.
  revert s. induction a as [ | x a IH ]; intros s H.
  - exists EmptyString, s. auto.
  - destruct s as [ | c s ]; [ discriminate H | ].
    change (String (JsStr.lower c) (JsStr.toLowerCase s) = String x (a ++ b)) in H.
    injection H as Hc Hs. destruct (IH s Hs) as (s1 & s2 & -> & H1 & H2).
    exists (String c s1), s2. repeat split; auto.
    change (String (JsStr.lower c) (JsStr.toLowerCase s1) = String x a). congruence.
Qed.

Lemma lit_matches (w s : string) :
  matches (lit w) s <-> JsStr.toLowerCase s = JsStr.toLowerCase w.
Proof.
  revert s. induction w as [ | c w IH ]; intros s; simpl.
  - split.
    + intros H. inversion H. reflexivity.
    + destruct s; [ constructor | discriminate ].
  - split.
    + intros H. inversion H as [ | | | | r1 r2 s1 s2 H1 H2 | | | | ]; subst.
      inversion H1 as [ | c' d Hc | | | | | | | ]; subst.
      apply IH in H2. apply Ascii.eqb_eq in Hc.
      change (String (JsStr.lower c') (JsStr.toLowerCase s2)
              = String (JsStr.lower c) (JsStr.toLowerCase w)).
      congruence.
    + destruct s as [ | c' s ]; [ discriminate | ].
      intros H.
      change (String (JsStr.lower c') (JsStr.toLowerCase s)
              = String (JsStr.lower c) (JsStr.toLowerCase w)) in H.
      injection H as Hc Hs.
      change (String c' s) with (String c' EmptyString ++ s).
      constructor; [ | now apply IH ].
      constructor. unfold JsStr.ci_eqb. rewrite Hc. apply Ascii.eqb_refl.
Qed.

Lemma any_matches (s : string) : matches (Star AnyChar) s.
Proof.
  induction s as [ | c s IH ]; [ constructor | ].
  change (String c s) with (String c EmptyString ++ s).
  constructor; [ constructor | exact IH ].
Qed.

(** A string of decimal digits. *)
Definition digits (s : string) : bool := forallb JsStr.is_digit (JsStr.to_list s).

Lemma digits_app (s1 s2 : string) : digits (s1 ++ s2) = digits s1 && digits s2.
Proof.
  unfold digits. induction s1 as [ | c s1 IH ]; simpl; [ reflexivity | ].
  now rewrite IH, andb_assoc.
Qed.

Lemma star_digit_matches (s : string) :
  matches (Star Digit) s <-> digits s = true.
Proof.
  split.
  - remember (Star Digit) as r eqn:E. induction 1; try discriminate.
    + reflexivity.
    + injection E as ->. rewrite digits_app, IHmatches2 by reflexivity.
      inversion H; subst. unfold digits. simpl.
      match goal with X : JsStr.is_digit _ = true |- _ => now rewrite X end.
  - induction s as [ | c s IH ]; [ constructor | ].
    unfold digits. simpl. intros H. apply andb_true_iff in H. destruct H as [Hc Hs].
    change (String c s) with (String c EmptyString ++ s).
    constructor; [ now constructor | now apply IH ].
Qed.

Lemma plus_digit_matches (s : string) :
  matches (plus Digit) s <-> s <> EmptyString /\ digits s = true.
Proof.
  unfold plus. split.
  - intros H. inversion H as [ | | | | r1 r2 s1 s2 H1 H2 | | | | ]; subst.
    inversion H1; subst. apply star_digit_matches in H2.
    split; [ discriminate | ]. unfold digits in *. simpl.
    match goal with X : JsStr.is_digit _ = true |- _ => now rewrite X end.
  - intros [Hne H]. destruct s as [ | c s ]; [ now contradiction Hne | ].
    unfold digits in H. simpl in H. apply andb_true_iff in H. destruct H as [Hc Hs].
    change (String c s) with (String c EmptyString ++ s).
    constructor; [ now constructor | now apply star_digit_matches ].
Qed.

Lemma is_digit_lower (c : ascii) :
  JsStr.is_digit (JsStr.lower c) = JsStr.is_digit c.
Proof. destruct c as [[] [] [] [] [] [] [] []]; reflexivity. Qed.

Lemma lower_digit (c : ascii) : JsStr.is_digit c = true -> JsStr.lower c = c.
Proof. destruct c as [[] [] [] [] [] [] [] []]; intros H; try reflexivity; discriminate H. Qed.

Lemma digits_toLowerCase (s : string) : digits (JsStr.toLowerCase s) = digits s.
Proof.
  unfold digits. induction s as [ | c s IH ]; [ reflexivity | ].
  change (JsStr.is_digit (JsStr.lower c)
          && forallb JsStr.is_digit (JsStr.to_list (JsStr.toLowerCase s))
          = JsStr.is_digit c && forallb JsStr.is_digit (JsStr.to_list s)).
  now rewrite is_digit_lower, IH.
Qed.

Lemma toLowerCase_digits (s : string) : digits s = true -> JsStr.toLowerCase s = s.
Proof.
  unfold digits. induction s as [ | c s IH ]; [ reflexivity | ].
  simpl. intros H. apply andb_true_iff in H. destruct H as [Hc Hs].
  change (String (JsStr.lower c) (JsStr.toLowerCase s) = String c s).
  now rewrite (lower_digit c Hc), IH.
Qed.

Lemma toLowerCase_empty (s : string) :
  JsStr.toLowerCase s = EmptyString <-> s = EmptyString.
Proof. destruct s; split; intros H; try reflexivity; discriminate H. Qed.

(** [/^w\d+$/i] *)
Lemma numbered_matches (w s : string) :
  matches (Seq (lit w) (plus Digit)) s
  <-> exists d, d <> EmptyString /\ digits d = true
                /\ JsStr.toLowerCase s = JsStr.toLowerCase w ++ d.
Proof.
  split.
  - intros H. inversion H as [ | | | | r1 r2 s1 s2 H1 H2 | | | | ]; subst.
    apply lit_matches in H1. apply plus_digit_matches in H2. destruct H2 as [Hne Hd].
    exists s2. repeat split; auto.
    now rewrite toLowerCase_app, H1, (toLowerCase_digits s2 Hd).
  - intros (d & Hne & Hd & H).
    apply toLowerCase_split in H. destruct H as (s1 & s2 & -> & H1 & H2).
    constructor; [ now apply lit_matches | ].
    apply plus_digit_matches. split.
    + intros ->. now apply Hne.
    + now rewrite <- digits_toLowerCase, H2.
Qed.

(** [w1_?w2] *)
Lemma joined_matches (w1 w2 s : string) :
  matches (Seq (lit w1) (Seq (opt (Chr "_")) (lit w2))) s
  <-> JsStr.toLowerCase s = JsStr.toLowerCase w1 ++ JsStr.toLowerCase w2
      \/ JsStr.toLowerCase s = JsStr.toLowerCase w1 ++ "_" ++ JsStr.toLowerCase w2.
Proof.
  split.
  - intros H. inversion H as [ | | | | r1 r2 s1 s23 H1 H23 | | | | ]; subst.
    inversion H23 as [ | | | | r2' r3 s2 s3 H2 H3 | | | | ]; subst.
    apply lit_matches in H1, H3. rewrite !toLowerCase_app, H1, H3.
    inversion H2 as [ | | | | | r r' s' Hc | r r' s' He | | ]; subst.
    + inversion Hc as [ | c d E | | | | | | | ]; subst. right.
      apply Ascii.eqb_eq in E.
      change (JsStr.toLowerCase (String c EmptyString))
        with (String (JsStr.lower c) EmptyString).
      now rewrite E.
    + inversion He; subst. now left.
  - intros [H | H].
    + apply toLowerCase_split in H. destruct H as (s1 & s2 & -> & H1 & H2).
      constructor; [ now apply lit_matches | ].
      change s2 with (EmptyString ++ s2).
      constructor; [ apply MAltR; constructor | now apply lit_matches ].
    + apply toLowerCase_split in H. destruct H as (s1 & s23 & -> & H1 & H23).
      apply (toLowerCase_split "_" _ s23) in H23.
      destruct H23 as (s2 & s3 & -> & H2 & H3).
      constructor; [ now apply lit_matches | ].
      constructor; [ apply MAltL | now apply lit_matches ].
      destruct s2 as [ | c [ | c' s2 ] ]; try discriminate H2.
      constructor. unfold JsStr.ci_eqb.
      change (String (JsStr.lower c) EmptyString = "_") in H2.
      injection H2 as ->. reflexivity.
Qed.

Lemma at_start_matches (r : re) (s : string) :
  matches (at_start r) s <-> exists s1 s2, s = s1 ++ s2 /\ matches r s1.
Proof.
  unfold at_start. split.
  - intros H. inversion H; subst. eauto.
  - intros (s1 & s2 & -> & H). constructor; [ exact H | apply any_matches ].
Qed.

Lemma at_end_matches (r : re) (s : string) :
  matches (at_end r) s <-> exists s1 s2, s = s1 ++ s2 /\ matches r s2.
Proof.
  unfold at_end. split.
  - intros H. inversion H; subst. eauto.
  - intros (s1 & s2 & -> & H). constructor; [ apply any_matches | exact H ].
Qed.

Lemma test_matches (r : re) (s : string) : test r s = true <-> matches r s.
Proof. apply full_match_matches. Qed.

(** The names the identifier patterns accept. *)
Definition identifierName (name : string) : Prop :=
  name = "slno" \/ name = "sl_no" \/ name = "id" \/ name = "index"
  \/ (exists prefix, name = prefix ++ "_id")
  \/ (exists rest, name = "serialno" ++ rest)
  \/ (exists rest, name = "serial_no" ++ rest).

Lemma isIdentifierColumn_identifierName (columnName : string) :
  Recommender.isIdentifierColumn columnName = true
  <-> identifierName (JsStr.toLowerCase columnName).
Proof.
  set (s := columnName). set (name := JsStr.toLowerCase s).
  unfold Recommender.isIdentifierColumn, Recommender.IDENTIFIER_PATTERNS, identifierName.
  cbn [existsb]. rewrite !orb_true_iff, !test_matches. unfold anchored.
  rewrite joined_matches, !lit_matches, at_end_matches, at_start_matches.
  fold name.
  change (JsStr.toLowerCase "sl" ++ JsStr.toLowerCase "no") with "slno".
  change (JsStr.toLowerCase "sl" ++ "_" ++ JsStr.toLowerCase "no") with "sl_no".
  change (JsStr.toLowerCase "id") with "id".
  change (JsStr.toLowerCase "index") with "index".
  split.
  - intros [[H | H] | [H | [H | [H | [H | H]]]]]; auto 10.
    + destruct H as (s1 & s2 & E & H). apply lit_matches in H.
      right. right. right. right. left. exists (JsStr.toLowerCase s1).
      unfold name. now rewrite E, toLowerCase_app, H.
    + destruct H as (s1 & s2 & E & H). apply joined_matches in H.
      unfold name. rewrite E, toLowerCase_app.
      destruct H as [-> | ->]; eauto 10.
    + discriminate H.
  - intros [H | [H | [H | [H | [H | [H | H]]]]]]; auto 10.
    + destruct H as (p & H). apply toLowerCase_split in H.
      destruct H as (s1 & s2 & E & _ & H2).
      right. right. left. exists s1, s2. split; [ exact E | now apply lit_matches ].
    + destruct H as (q & H). apply (toLowerCase_split "serialno" q s) in H.
      destruct H as (s1 & s2 & E & H1 & _).
      right. right. right. left. exists s1, s2. split; [ exact E | ].
      apply joined_matches. now left.
    + destruct H as (q & H). apply (toLowerCase_split "serial_no" q s) in H.
      destruct H as (s1 & s2 & E & H1 & _).
      right. right. right. left. exists s1, s2. split; [ exact E | ].
      apply joined_matches. now right.
Qed.

(** X16: which column names isIdentifierColumn takes for identifiers.  With
    the name put in lower case (ASCII letters): exactly the names slno,
    sl_no, id and index, the names that end with _id, and the names that
    start with serialno or serial_no.  The answer depends on the name
    through its lower-case form only.  So order_id, ID and Serial_No_2 are
    identifiers; idx, identity and slnos are not. *)
Theorem isIdentifierColumn_names :
  forall columnName : string,
    let name := JsStr.toLowerCase columnName in
    (Recommender.isIdentifierColumn columnName = true
     <-> name = "slno" \/ name = "sl_no" \/ name = "id" \/ name = "index"
         \/ (exists prefix, name = prefix ++ "_id")
         \/ (exists rest, name = "serialno" ++ rest)
         \/ (exists rest, name = "serial_no" ++ rest))
    /\ (forall other,
          JsStr.toLowerCase other = name ->
          Recommender.isIdentifierColumn other
          = Recommender.isIdentifierColumn columnName)
    /\ map Recommender.isIdentifierColumn
         ["order_id"; "ID"; "Serial_No_2"; "idx"; "identity"; "slnos"]
       = [true; true; true; false; false; false].
Proof.
  intros s name. split; [ apply isIdentifierColumn_identifierName | split ].
  - intros other E.
    destruct (Recommender.isIdentifierColumn s) eqn:C.
    + apply isIdentifierColumn_identifierName.
      rewrite E. now apply isIdentifierColumn_identifierName.
    + destruct (Recommender.isIdentifierColumn other) eqn:O; [ | reflexivity ].
      apply isIdentifierColumn_identifierName in O. rewrite E in O.
      apply isIdentifierColumn_identifierName in O. congruence.
  - vm_compute. reflexivity.
Qed.

(** X17: which column names count as placeholders, the names a decoder
    gives to a column without a header: notPlaceholder is false exactly for
    the names that, in lower case, are empty or column followed by one or
    more decimal digits and nothing else; the answer depends on the name
    through its lower-case form only. *)
Theorem notPlaceholder_names :
  forall col : string,
    let name := JsStr.toLowerCase col in
    (Recommender.notPlaceholder col = false
     <-> exists number,
           number <> EmptyString /\ digits number = true
           /\ (name = "empty" ++ number \/ name = "column" ++ number))
    /\ (forall other,
          JsStr.toLowerCase other = name ->
          Recommender.notPlaceholder other = Recommender.notPlaceholder col).
Proof.
  assert (P : forall col,
            Recommender.notPlaceholder col = false
            <-> exists number,
                  number <> EmptyString /\ digits number = true
                  /\ (JsStr.toLowerCase col = "empty" ++ number
                      \/ JsStr.toLowerCase col = "column" ++ number)).
  { intros col. unfold Recommender.notPlaceholder.
    rewrite andb_false_iff, !negb_false_iff, !test_matches.
    unfold Recommender.re_empty, Recommender.re_column, anchored.
    rewrite !numbered_matches.
    change (JsStr.toLowerCase "empty") with "empty".
    change (JsStr.toLowerCase "column") with "column".
    split.
    - intros [(d & Hne & Hd & H) | (d & Hne & Hd & H)]; exists d; auto.
    - intros (d & Hne & Hd & [H | H]); [ left | right ]; exists d; auto. }
  intros col name. split; [ apply P | ].
  intros other E.
  destruct (Recommender.notPlaceholder col) eqn:C.
  - destruct (Recommender.notPlaceholder other) eqn:O; [ reflexivity | ].
    apply P in O. rewrite E in O. apply P in O. congruence.
  - apply P. rewrite E. now apply P.
Qed.

End Patterns.

(* ===================================================================== *)
(** * convertJsonToParsedData: the names of the columns *)
(* ===================================================================== *)

Lemma to_list_of_list (l : list ascii) : JsStr.to_list (JsStr.of_list l) = l.
Proof. induction l as [ | c l IH ]; simpl; congruence. Qed.

Lemma of_list_to_list (s : string) : JsStr.of_list (JsStr.to_list s) = s.
Proof. induction s as [ | c s IH ]; simpl; congruence. Qed.

Lemma to_list_append (a b : string) :
  JsStr.to_list (a ++ b) = JsStr.to_list a ++ JsStr.to_list b.
Proof. induction a as [ | c a IH ]; simpl; congruence. Qed.

Lemma forallb_rev {A : Type} (p : A -> bool) (l : list A) :
  forallb p (rev l) = forallb p l.
Proof.
  induction l as [ | a l IH ]; simpl; [ reflexivity | ].
  rewrite forallb_app, IH. simpl. rewrite andb_true_r. apply andb_comm.
Qed.

Lemma forallb_filter_id {A : Type} (p : A -> bool) (l : list A) :
  forallb p l = true -> filter p l = l.
Proof.
  induction l as [ | a l IH ]; simpl; [ reflexivity | ].
  intros H. apply andb_true_iff in H. destruct H as [Ha Hl].
  now rewrite Ha, IH.
Qed.

Lemma forallb_filter_same {A : Type} (p : A -> bool) (l : list A) :
  forallb p (filter p l) = true.
Proof.
  induction l as [ | a l IH ]; simpl; [ reflexivity | ].
  destruct (p a) eqn:E; simpl; [ now rewrite E | exact IH ].
Qed.

Lemma is_word_plain (c : ascii) :
  Extractor.is_word c = true -> JsStr.is_ws c = false /\ Extractor.is_strip c = false.
Proof.
  destruct c as [[] [] [] [] [] [] [] []]; intros H; try discriminate H;
    split; reflexivity.
Qed.

Lemma is_digit_word (c : ascii) : JsStr.is_digit c = true -> Extractor.is_word c = true.
Proof.
  intros H. unfold Extractor.is_word. rewrite H. now rewrite orb_true_r.
Qed.

Lemma string_of_uint_digits (d : Decimal.uint) :
  forallb JsStr.is_digit (JsStr.to_list (NilEmpty.string_of_uint d)) = true.
Proof. induction d; simpl; auto. Qed.

Lemma of_nat_digits (n : nat) :
  forallb JsStr.is_digit (JsStr.to_list (JsStr.of_nat n)) = true.
Proof.
  unfold JsStr.of_nat, JsStr.of_Z.
  destruct (Z.of_nat n) eqn:E; simpl.
  - reflexivity.
  - unfold NilZero.string_of_uint.
    destruct (Pos.to_uint p) eqn:U; try apply string_of_uint_digits. reflexivity.
  - lia.
Qed.

Lemma forallb_impl {A : Type} (p q : A -> bool) (l : list A) :
  (forall a, p a = true -> q a = true) -> forallb p l = true -> forallb q l = true.
Proof.
  intros H. induction l as [ | a l IH ]; simpl; [ reflexivity | ].
  intros E. apply andb_true_iff in E. destruct E as [Ea El].
  now rewrite (H a Ea), IH.
Qed.

Section WordNames.

Variable l : list ascii.
Hypothesis words : forallb Extractor.is_word l = true.

Lemma drop_ws_word : JsStr.drop_ws l = l.
Proof.
  destruct l as [ | c l' ]; [ reflexivity | ]. simpl in *.
  apply andb_true_iff in words. destruct words as [Hc _].
  now rewrite (proj1 (is_word_plain c Hc)).
Qed.

Lemma drop_strip_word : Extractor.drop_strip l = l.
Proof.
  destruct l as [ | c l' ]; [ reflexivity | ]. simpl in *.
  apply andb_true_iff in words. destruct words as [Hc _].
  now rewrite (proj2 (is_word_plain c Hc)).
Qed.

End WordNames.

Lemma underscoreSpaces_word (l : list ascii) :
  forallb Extractor.is_word l = true -> Extractor.underscoreSpaces false l = l.
Proof.
  induction l as [ | c l IH ]; simpl; [ reflexivity | ].
  intros H. apply andb_true_iff in H. destruct H as [Hc Hl].
  now rewrite (proj1 (is_word_plain c Hc)), IH.
Qed.

(** A name made of letters, digits and underscores is left as it is. *)
Lemma cleanColumnName_word (col : string) (index : nat) :
  col <> EmptyString ->
  forallb Extractor.is_word (JsStr.to_list col) = true ->
  Extractor.cleanColumnName col index = col.
Proof.
  intros Hne Hw.
  assert (Hr : forallb Extractor.is_word (rev (JsStr.to_list col)) = true)
    by now rewrite forallb_rev.
  assert (T : JsStr.trim col = col).
  { unfold JsStr.trim. rewrite (drop_ws_word _ Hw), (drop_ws_word _ Hr).
    now rewrite rev_involutive, of_list_to_list. }
  unfold Extractor.cleanColumnName. rewrite T. unfold Extractor.stripEnds.
  rewrite (drop_strip_word _ Hw), (drop_strip_word _ Hr), rev_involutive.
  rewrite (underscoreSpaces_word _ Hw), (forallb_filter_id _ _ Hw), of_list_to_list.
  destruct col; [ now contradiction Hne | reflexivity ].
Qed.

Lemma cleanColumnName_is_word (col : string) (index : nat) :
  Extractor.cleanColumnName col index <> EmptyString
  /\ forallb Extractor.is_word (JsStr.to_list (Extractor.cleanColumnName col index))
     = true.
Proof.
  unfold Extractor.cleanColumnName.
  set (cleaned := JsStr.of_list (filter Extractor.is_word _)).
  destruct (JsStr.is_empty cleaned) eqn:E.
  - split; [ discriminate | ].
    rewrite to_list_append, forallb_app. apply andb_true_iff. split; [ reflexivity | ].
    apply (forallb_impl JsStr.is_digit); [ apply is_digit_word | apply of_nat_digits ].
  - split; [ intros H; rewrite H in E; discriminate E | ].
    unfold cleaned. rewrite to_list_of_list. apply forallb_filter_same.
Qed.

Lemma cleanColumnsFrom_names (columns : list string) (index : nat) :
  List.length (Extractor.cleanColumnsFrom index columns) = List.length columns
  /\ forall name, In name (Extractor.cleanColumnsFrom index columns) ->
       name <> EmptyString
       /\ forallb Extractor.is_word (JsStr.to_list name) = true.
Proof.
  revert index. induction columns as [ | col columns IH ]; intros index; simpl.
  - split; [ reflexivity | intros name [] ].
  - destruct (IH (index + 1)) as [Hlen Hnames]. split; [ now rewrite Hlen | ].
    intros name [<- | Hin]; [ apply cleanColumnName_is_word | now apply Hnames ].
Qed.

(** X18: the column names convertJsonToParsedData makes.  Every cleaned
    name is non-empty and consists of ASCII letters, digits and underscores
    only (a name of which nothing is left becomes Column_ followed by its
    1-based position); there are as many cleaned names as keys of the first
    row; a name that is already of this form is left as it is, so cleaning
    is idempotent.  Cleaning does not keep names apart: "a b" and "a_b"
    both become a_b. *)
Theorem cleanColumnName_names :
  forall (col : string) (index : nat),
    let name := Extractor.cleanColumnName col index in
    name <> EmptyString
    /\ forallb Extractor.is_word (JsStr.to_list name) = true
    /\ (col <> EmptyString ->
        forallb Extractor.is_word (JsStr.to_list col) = true -> name = col)
    /\ (forall index', Extractor.cleanColumnName name index' = name)
    /\ (forall columns,
          List.length (Extractor.cleanedColumns columns) = List.length columns
          /\ forall cleaned, In cleaned (Extractor.cleanedColumns columns) ->
               cleaned <> EmptyString
               /\ forallb Extractor.is_word (JsStr.to_list cleaned) = true)
    /\ Extractor.cleanedColumns [" Sl. No "; "a b"; "a_b"; "#"; "Marks (%)"]%string
       = ["Sl_No"; "a_b"; "a_b"; "Column_4"; "Marks_"]%string.
Proof.
  intros col index name.
  destruct (cleanColumnName_is_word col index) as [Hne Hw]. fold name in Hne, Hw.
  split; [ exact Hne | ].
  split; [ exact Hw | ].
  split; [ apply cleanColumnName_word | ].
  split; [ intros index'; now apply cleanColumnName_word | ].
  split; [ intros columns; apply cleanColumnsFrom_names | ].
  vm_compute. reflexivity.
Qed.

(* ===================================================================== *)
(** * convertJsonToParsedData: the final pass *)
(* ===================================================================== *)

Lemma get_assign (col c : string) (v : Js.value) (r : Js.row) :
  col <> "__proto__"%string ->
  Js.get (Js.assign col v r) c = if String.eqb c col then v else Js.get r c.
Proof.
  intros Hcol. unfold Js.assign, Js.get.
  destruct (String.eqb_spec col "__proto__"); [ contradiction | ].
  rewrite own_define. now destruct (String.eqb c col).
Qed.

(** What the final pass makes of the cell of [col]. *)
Definition converted (columnTypes : Js.dict Schema.ColumnType) (row : Js.row)
  (col : string) : Js.value :=
  match Js.own col columnTypes, Js.get row col with
  | Some Schema.TNumber, Js.VNull => Js.VNull
  | Some Schema.TNumber, cell => Js.VNum (Js.ToNumber cell)
  | _, cell => cell
  end.

Lemma converted_again (columnTypes : Js.dict Schema.ColumnType) (row : Js.row)
  (col : string) :
  match Js.own col columnTypes, converted columnTypes row col with
  | Some Schema.TNumber, Js.VNull => Js.VNull
  | Some Schema.TNumber, cell => Js.VNum (Js.ToNumber cell)
  | _, cell => cell
  end
  = converted columnTypes row col.
Proof.
  unfold converted.
  destruct (Js.own col columnTypes) as [[ | | | ] | ]; try reflexivity.
  destruct (Js.get row col); reflexivity.
Qed.

Lemma finalRow_fold (columnTypes : Js.dict Schema.ColumnType)
  (todo done : list string) (row newRow : Js.row) :
  (forall c, c <> "__proto__"%string ->
     Js.get newRow c
     = if mem c done then converted columnTypes row c else Js.get row c) ->
  forall c, c <> "__proto__"%string ->
    Js.get (fold_left (Extractor.convertCell columnTypes) todo newRow) c
    = if mem c (done ++ todo) then converted columnTypes row c else Js.get row c.
Proof.
  revert done newRow.
  induction todo as [ | col todo IH ]; intros done newRow Hinv c Hc; cbn [fold_left].
  - rewrite app_nil_r. now apply Hinv.
  - replace (done ++ col :: todo) with ((done ++ [col]) ++ todo)
      by now rewrite <- app_assoc.
    apply IH; [ | exact Hc ]. clear c Hc. intros c Hc.
    assert (M : mem c (done ++ [col]) = mem c done || String.eqb c col).
    { unfold mem. rewrite existsb_app. simpl. now rewrite orb_false_r. }
    rewrite M.
    destruct (String.eqb_spec col "__proto__") as [-> | Hcol].
    + assert (E : String.eqb c "__proto__" = false) by now apply String.eqb_neq.
      rewrite E, orb_false_r, <- (Hinv c Hc). f_equal.
      unfold Extractor.convertCell, Js.assign. simpl.
      destruct (Js.own "__proto__" columnTypes) as [[ | | | ] | ]; try reflexivity.
      now destruct (Js.get newRow "__proto__").
    + assert (Hcell : Js.get (Extractor.convertCell columnTypes newRow col) c
                      = if String.eqb c col
                        then match Js.own col columnTypes, Js.get newRow col with
                             | Some Schema.TNumber, Js.VNull => Js.VNull
                             | Some Schema.TNumber, cell => Js.VNum (Js.ToNumber cell)
                             | _, cell => cell
                             end
                        else Js.get newRow c).
      { unfold Extractor.convertCell.
        destruct (String.eqb_spec c col) as [-> | Hne].
        - destruct (Js.own col columnTypes) as [[ | | | ] | ]; try reflexivity.
          destruct (Js.get newRow col) eqn:G; try exact G;
            rewrite (get_assign col col _ newRow Hcol), String.eqb_refl; reflexivity.
        - destruct (Js.own col columnTypes) as [[ | | | ] | ]; try reflexivity.
          destruct (Js.get newRow col) eqn:G; try reflexivity;
            rewrite (get_assign col c _ newRow Hcol);
            (destruct (String.eqb_spec c col); [ contradiction | reflexivity ]). }
      rewrite Hcell.
      destruct (String.eqb_spec c col) as [-> | Hne].
      * rewrite orb_true_r, (Hinv col Hcol).
        destruct (mem col done); [ apply converted_again | reflexivity ].
      * rewrite orb_false_r. now apply Hinv.
Qed.

Lemma finalRow_get (columnTypes : Js.dict Schema.ColumnType)
  (cleanedColumns : list string) (row : Js.row) (c : string) :
  c <> "__proto__"%string ->
  Js.get (Extractor.finalRow columnTypes cleanedColumns row) c
  = if mem c cleanedColumns then converted columnTypes row c else Js.get row c.
Proof.
  intros Hc. unfold Extractor.finalRow.
  apply (finalRow_fold columnTypes cleanedColumns [] row row); [ | exact Hc ].
  reflexivity.
Qed.

Lemma forallb_flat_map_In {A B : Type} (p : B -> bool) (f : A -> list B)
  (l : list A) (a : A) (b : B) :
  forallb p (flat_map f l) = true -> In a l -> In b (f a) -> p b = true.
Proof.
  intros H Ha Hb.
  apply (proj1 (forallb_forall p (flat_map f l)) H).
  apply in_flat_map. eauto.
Qed.

Section FinalPass.

Variable dateParses : string -> bool.

(** X19: the final pass of convertJsonToParsedData, with the types the
    function has inferred from the cleaned rows.  In every row of the
    result, the cell of a column typed number is null (when it was null) or
    a number, namely Number of the cleaned cell; the cells of the other
    columns are the cleaned cells.  In the rows the inference has sampled
    (the first 100), a cell of a number column that is there and not null
    was a number or a string that converts to a number: the pass turns no
    such string into NaN.  Past the sample nothing is checked: there a
    string that is no number becomes NaN. *)
Theorem finalRows_numbers :
  forall (cleanedRows : list Js.row) (cleanedColumns : list string),
    let columnTypes :=
      Inference.convertJsonToParsedData_columnTypes dateParses
        cleanedRows cleanedColumns in
    let final := Extractor.finalRow columnTypes cleanedColumns in
    Extractor.finalRows columnTypes cleanedColumns cleanedRows = map final cleanedRows
    /\ (forall row col,
          In col cleanedColumns -> Js.own col columnTypes = Some Schema.TNumber ->
          (Js.get row col = Js.VNull /\ Js.get (final row) col = Js.VNull)
          \/ Js.get (final row) col = Js.VNum (Js.ToNumber (Js.get row col)))
    /\ (forall row col,
          col <> "__proto__"%string ->
          Js.own col columnTypes <> Some Schema.TNumber ->
          Js.get (final row) col = Js.get row col)
    /\ (forall row col,
          In row (firstn 100 cleanedRows) -> In col cleanedColumns ->
          Js.own col columnTypes = Some Schema.TNumber ->
          Js.get row col = Js.VNull \/ Js.get row col = Js.VUndefined
          \/ (exists n, Js.get row col = Js.VNum n
                        /\ Js.get (final row) col = Js.VNum n)
          \/ (exists text, Js.get row col = Js.VStr text
                           /\ Js.get (final row) col = Js.VNum (JsNum.ofString text)
                           /\ JsNum.isNaN (JsNum.ofString text) = false)).
Proof.
  intros rows columns columnTypes final.
  assert (Proto : forall col, Js.own col columnTypes = Some Schema.TNumber ->
            col <> "__proto__"%string).
  { intros col H ->.
    pose proof (inferred_proto dateParses rows columns) as P.
    fold columnTypes in P. congruence. }
  assert (Num : forall row col,
            In col columns -> Js.own col columnTypes = Some Schema.TNumber ->
            Js.get (final row) col = converted columnTypes row col).
  { intros row col Hin Hty. unfold final.
    rewrite (finalRow_get columnTypes columns row col (Proto col Hty)).
    apply mem_In in Hin. now rewrite Hin. }
  split; [ reflexivity | split; [ | split ] ].
  - intros row col Hin Hty. rewrite (Num row col Hin Hty).
    unfold converted. rewrite Hty.
    destruct (Js.get row col); auto.
  - intros row col Hc Hty. unfold final.
    rewrite (finalRow_get columnTypes columns row col Hc).
    destruct (mem col columns); [ | reflexivity ].
    unfold converted.
    destruct (Js.own col columnTypes) as [[ | | | ] | ]; try reflexivity.
    congruence.
  - intros row col Hrow Hcol Hty. rewrite (Num row col Hcol Hty).
    unfold converted. rewrite Hty.
    assert (Hrows : rows <> []).
    { intros E. rewrite E in Hrow. destruct Hrow. }
    pose proof (inferred_own dateParses rows columns col (Proto col Hty) Hrows) as I.
    fold columnTypes in I.
    rewrite Hty in I. apply mem_In in Hcol. rewrite Hcol in I.
    injection I as I. symmetry in I.
    assert (Like : Js.not_nullish (Js.get row col) = true ->
                   Inference.numberLike (Js.get row col) = true).
    { intros Hnn. unfold Inference.inferSampleType in I.
      destruct (Inference.samplesOf rows columns col) as [ | v vs ] eqn:S;
        [ discriminate I | ].
      destruct (forallb Inference.booleanLike (v :: vs)); [ discriminate I | ].
      destruct (forallb Inference.numberLike (v :: vs)) eqn:L.
      - rewrite <- S in L. unfold Inference.samplesOf in L.
        apply (forallb_flat_map_In _ _ _ row (Js.get row col) L).
        + unfold Js.slice0.
          replace (Nat.min 100 (List.length rows)) with
            (List.length (firstn 100 rows)) by (rewrite length_firstn; lia).
          rewrite <- (firstn_all (firstn 100 rows)) in Hrow.
          rewrite firstn_firstn in Hrow.
          replace (Nat.min (List.length (firstn 100 rows)) 100)
            with (List.length (firstn 100 rows)) in Hrow
            by (rewrite length_firstn; lia).
          exact Hrow.
        + apply in_flat_map. exists col. split; [ now apply mem_In | ].
          rewrite String.eqb_refl, Hnn. now left.
      - destruct (forallb (Inference.dateLike dateParses) (v :: vs)); discriminate I. }
    destruct (Js.get row col) as [ | | b | n | text | text ] eqn:G; auto.
    + specialize (Like eq_refl). discriminate Like.
    + right. right. left. eauto.
    + right. right. right. exists text. specialize (Like eq_refl). simpl in Like.
      apply andb_true_iff in Like. destruct Like as [Hn _].
      apply negb_true_iff in Hn. auto.
    + specialize (Like eq_refl). discriminate Like.
Qed.

End FinalPass.

(* ===================================================================== *)
(** * cleanValue: what a cleaned cell is *)
(* ===================================================================== *)

(** A list of characters that does not begin with white space. *)
Definition starts_ok (l : list ascii) : bool :=
  match l with
  | [] => true
  | c :: _ => negb (JsStr.is_ws c)
  end.

(** No white space at either end. *)
Definition edges (l : list ascii) : bool := starts_ok l && starts_ok (rev l).

Lemma drop_ws_starts (l : list ascii) : starts_ok (JsStr.drop_ws l) = true.
Proof.
  induction l as [ | c l IH ]; simpl; [ reflexivity | ].
  destruct (JsStr.is_ws c) eqn:E; [ exact IH | simpl; now rewrite E ].
Qed.

Lemma drop_ws_id (l : list ascii) : starts_ok l = true -> JsStr.drop_ws l = l.
Proof.
  destruct l as [ | c l ]; simpl; [ reflexivity | ].
  intros H. apply negb_true_iff in H. now rewrite H.
Qed.

Lemma drop_ws_suffix (l : list ascii) : exists p, l = p ++ JsStr.drop_ws l.
Proof.
  induction l as [ | c l IH ]; simpl; [ now exists [] | ].
  destruct (JsStr.is_ws c); [ | now exists [] ].
  destruct IH as (p & E). exists (c :: p). simpl. now rewrite <- E.
Qed.

Lemma starts_ok_prefix (l q : list ascii) :
  starts_ok (l ++ q) = true -> starts_ok l = true.
Proof. destruct l; simpl; auto. Qed.

(** The text [trim] returns has no white space at its ends. *)
Lemma trim_edges (s : string) : edges (JsStr.to_list (JsStr.trim s)) = true.
Proof.
  unfold JsStr.trim, edges. rewrite to_list_of_list, rev_involutive.
  set (A := JsStr.drop_ws (JsStr.to_list s)).
  rewrite drop_ws_starts, andb_true_r.
  destruct (drop_ws_suffix (rev A)) as (p & E).
  assert (EA : A = rev (JsStr.drop_ws (rev A)) ++ rev p).
  { rewrite <- rev_app_distr, <- E. now rewrite rev_involutive. }
  apply (starts_ok_prefix _ (rev p)). rewrite <- EA. apply drop_ws_starts.
Qed.

Lemma edges_trim (s : string) :
  edges (JsStr.to_list s) = true -> JsStr.trim s = s.
Proof.
  unfold edges, JsStr.trim. intros H. apply andb_true_iff in H. destruct H as [H1 H2].
  rewrite (drop_ws_id _ H1), (drop_ws_id _ H2), rev_involutive.
  apply of_list_to_list.
Qed.

Lemma trim_trim (s : string) : JsStr.trim (JsStr.trim s) = JsStr.trim s.
Proof. apply edges_trim, trim_edges. Qed.

(** [trim] and the removal of (Approx.) only take characters away. *)
Lemma forallb_drop_ws (p : ascii -> bool) (l : list ascii) :
  forallb p l = true -> forallb p (JsStr.drop_ws l) = true.
Proof.
  intros H. destruct (drop_ws_suffix l) as (q & E). rewrite E, forallb_app in H.
  apply andb_true_iff in H. tauto.
Qed.

Lemma forallb_trim (p : ascii -> bool) (s : string) :
  forallb p (JsStr.to_list s) = true ->
  forallb p (JsStr.to_list (JsStr.trim s)) = true.
Proof.
  intros H. unfold JsStr.trim. rewrite to_list_of_list, forallb_rev.
  apply forallb_drop_ws. rewrite forallb_rev. now apply forallb_drop_ws.
Qed.

Lemma forallb_skipn {A : Type} (p : A -> bool) (n : nat) (l : list A) :
  forallb p l = true -> forallb p (skipn n l) = true.
Proof.
  intros H. rewrite <- (firstn_skipn n l), forallb_app in H.
  apply andb_true_iff in H. tauto.
Qed.

Lemma forallb_removeApprox (p : ascii -> bool) (l : list ascii) :
  forallb p l = true -> forallb p (Extractor.removeApprox l) = true.
Proof.
  induction l as [ | c l IH ]; [ reflexivity | ].
  intros H. cbn [Extractor.removeApprox].
  destruct (Extractor.approxAt (c :: l)); [ now apply forallb_skipn | ].
  simpl in *. apply andb_true_iff in H. destruct H as [Hc Hl].
  now rewrite Hc, IH.
Qed.

(** Not a comma. *)
Definition notComma (c : ascii) : bool := negb (Ascii.eqb c ",").

Definition noComma (s : string) : bool := forallb notComma (JsStr.to_list s).

(** A cleaned text: not empty, without a comma, without white space at its
    ends. *)
Definition cleanedText (s : string) : Prop :=
  s <> EmptyString /\ noComma s = true /\ JsStr.trim s = s.

Lemma cleanText_cleaned (text : string) :
  Extractor.cleanText text = Js.VNull
  \/ exists s, Extractor.cleanText text = Js.VStr s
               /\ cleanedText s /\ Extractor.isMarker s = false.
Proof.
  unfold Extractor.cleanText.
  set (s := JsStr.trim (JsStr.of_list (Extractor.removeApprox _))).
  destruct (Extractor.isMarker s) eqn:M; [ now left | right ].
  exists s. split; [ reflexivity | ]. split; [ | exact M ].
  split; [ | split ].
  - intros E. rewrite E in M. discriminate M.
  - unfold noComma, s. apply forallb_trim. rewrite to_list_of_list.
    apply forallb_removeApprox. rewrite to_list_of_list.
    apply forallb_filter_same.
  - apply trim_trim.
Qed.

(* ------------------------------------------------------------------- *)
(** ** The text of a number *)

(** Neither a comma nor white space. *)
Definition solid (c : ascii) : bool := notComma c && negb (JsStr.is_ws c).

Definition solidText (s : string) : bool := forallb solid (JsStr.to_list s).

Lemma solidText_append (a b : string) :
  solidText (a ++ b) = solidText a && solidText b.
Proof. unfold solidText. now rewrite to_list_append, forallb_app. Qed.

Lemma is_digit_solid (c : ascii) : JsStr.is_digit c = true -> solid c = true.
Proof.
  destruct c as [[] [] [] [] [] [] [] []]; intros H; try discriminate H; reflexivity.
Qed.

Lemma of_uint_solid (d : Decimal.uint) : solidText (NilEmpty.string_of_uint d) = true.
Proof.
  unfold solidText. apply (forallb_impl JsStr.is_digit); [ apply is_digit_solid | ].
  apply string_of_uint_digits.
Qed.

Lemma of_Z_solid (z : Z) : solidText (JsStr.of_Z z) = true.
Proof.
  unfold JsStr.of_Z.
  assert (U : forall d, solidText (NilZero.string_of_uint d) = true).
  { intros d. unfold NilZero.string_of_uint.
    destruct d; try apply of_uint_solid. reflexivity. }
  destruct z; simpl; [ reflexivity | apply U | ].
  change (solid "-" && solidText (NilZero.string_of_uint (Pos.to_uint p)) = true).
  now rewrite U.
Qed.

Lemma of_Z_nonempty (z : Z) : JsStr.of_Z z <> EmptyString.
Proof.
  unfold JsStr.of_Z.
  assert (U : forall d, NilZero.string_of_uint d <> EmptyString).
  { intros d. unfold NilZero.string_of_uint. destruct d; discriminate. }
  destruct z; simpl; [ discriminate | apply U | discriminate ].
Qed.

Lemma zeros_solid (n : Z) : solidText (JsNum.zeros n) = true.
Proof.
  unfold JsNum.zeros. induction (Z.to_nat n) as [ | k IH ]; [ reflexivity | ].
  simpl. unfold solidText in *. simpl. exact IH.
Qed.

Lemma substring_solid (n m : nat) (s : string) :
  solidText s = true -> solidText (String.substring n m s) = true.
Proof.
  unfold solidText. revert n m.
  induction s as [ | c s IH ]; intros n m H.
  - destruct n, m; exact H.
  - simpl in H. apply andb_true_iff in H. destruct H as [Hc Hs].
    destruct n as [ | n ]; [ destruct m as [ | m ] | ]; simpl;
      [ reflexivity | rewrite Hc; now apply IH | now apply IH ].
Qed.

Lemma substr_solid (a len : Z) (s : string) :
  solidText s = true -> solidText (JsNum.substr a len s) = true.
Proof. apply substring_solid. Qed.

Lemma append_nonempty_l (a b : string) : a <> EmptyString -> (a ++ b)%string <> EmptyString.
Proof. intros Ha E. apply append_empty in E. tauto. Qed.

Lemma append_nonempty_r (a b : string) : b <> EmptyString -> (a ++ b)%string <> EmptyString.
Proof. intros Hb E. apply append_empty in E. tauto. Qed.

Lemma positive_to_string_solid (f : float) (m e : Z) :
  solidText (JsNum.positive_to_string f m e) = true
  /\ JsNum.positive_to_string f m e <> EmptyString.
Proof.
  unfold JsNum.positive_to_string.
  destruct (JsNum.frac_of m e) as [num den].
  destruct (JsNum.shortest _ _ _ _ _) as [s n].
  pose proof (of_Z_solid s) as Hs. pose proof (of_Z_nonempty s) as Hn.
  set (ds := JsStr.of_Z s) in *.
  repeat match goal with
         | |- context [if ?b then _ else _] => destruct b
         end;
    (split;
     [ rewrite ?solidText_append, ?Hs, ?zeros_solid, ?substr_solid, ?of_Z_solid
         by assumption; reflexivity
     | repeat first [ assumption
                    | discriminate
                    | apply append_nonempty_l; first [ assumption | discriminate ]
                    | apply append_nonempty_r ] ]).
Qed.

Lemma toString_solid (n : float) :
  solidText (JsNum.toString n) = true /\ JsNum.toString n <> EmptyString.
Proof.
  unfold JsNum.toString.
  destruct (PrimFloat.is_nan n); [ split; [ reflexivity | discriminate ] | ].
  destruct (PrimFloat.is_zero n); [ split; [ reflexivity | discriminate ] | ].
  destruct (PrimFloat.is_infinity n).
  { destruct (PrimFloat.get_sign n); split; try reflexivity; discriminate. }
  destruct (JsNum.decode n) as [[[s m] e] | ]; [ | split; [ reflexivity | discriminate ] ].
  destruct (positive_to_string_solid (PrimFloat.abs n) m e) as [H1 H2].
  split.
  - rewrite solidText_append, H1. now destruct s.
  - now apply append_nonempty_r.
Qed.

Lemma solid_notComma (s : string) : solidText s = true -> noComma s = true.
Proof.
  apply forallb_impl. intros c H. apply andb_true_iff in H. tauto.
Qed.

Lemma solid_starts (l : list ascii) : forallb solid l = true -> starts_ok l = true.
Proof.
  destruct l as [ | c l ]; simpl; [ reflexivity | ].
  intros H. apply andb_true_iff in H. destruct H as [Hc _].
  unfold solid in Hc. apply andb_true_iff in Hc. tauto.
Qed.

Lemma solid_edges (s : string) : solidText s = true -> edges (JsStr.to_list s) = true.
Proof.
  intros H. unfold edges. rewrite (solid_starts _ H), solid_starts; [ reflexivity | ].
  now rewrite forallb_rev.
Qed.

(** A text fit to be a part of a joined array. *)
Definition firm (s : string) : Prop :=
  s <> EmptyString /\ noComma s = true /\ edges (JsStr.to_list s) = true.

Lemma firm_cleanedText (s : string) : firm s <-> cleanedText s.
Proof.
  unfold firm, cleanedText. split; intros (H1 & H2 & H3); repeat split; auto.
  - now apply edges_trim.
  - rewrite <- H3. apply trim_edges.
Qed.

Lemma solid_firm (s : string) : solidText s = true -> s <> EmptyString -> firm s.
Proof.
  intros H Hne. repeat split; [ exact Hne | now apply solid_notComma | now apply solid_edges ].
Qed.

Lemma starts_ok_app (l q : list ascii) : l <> [] -> starts_ok (l ++ q) = starts_ok l.
Proof. destruct l; [ congruence | reflexivity ]. Qed.

Lemma to_list_nonempty (s : string) : s <> EmptyString -> JsStr.to_list s <> [].
Proof. destruct s; [ congruence | discriminate ]. Qed.

Lemma join_firm (parts : list string) :
  parts <> [] -> (forall part, In part parts -> firm part) ->
  firm (Extractor.join " " parts).
Proof.
  induction parts as [ | p parts IH ]; [ congruence | ]. intros _ H.
  destruct parts as [ | q rest ]; [ apply H; now left | ].
  assert (Hp : firm p) by (apply H; now left).
  assert (Hj : firm (Extractor.join " " (q :: rest))).
  { apply IH; [ discriminate | ]. intros part Hin. apply H. now right. }
  change (Extractor.join " " (p :: q :: rest))
    with (p ++ " " ++ Extractor.join " " (q :: rest))%string.
  set (j := Extractor.join " " (q :: rest)) in *.
  destruct Hp as (P1 & P2 & P3). destruct Hj as (J1 & J2 & J3).
  apply andb_true_iff in P3, J3. destruct P3 as [P3 _]. destruct J3 as [_ J3].
  split; [ now apply append_nonempty_l | split ].
  - unfold noComma in *. rewrite !to_list_append, !forallb_app, P2, J2. reflexivity.
  - unfold edges. rewrite !to_list_append, !rev_app_distr.
    rewrite starts_ok_app by now apply to_list_nonempty.
    rewrite <- app_assoc, starts_ok_app.
    + now rewrite P3, J3.
    + intros E. apply (f_equal (@rev ascii)) in E. rewrite rev_involutive in E.
      now apply (to_list_nonempty j J1).
Qed.

Lemma json_induction (P : Extractor.json -> Prop) :
  P Extractor.JNull ->
  (forall b, P (Extractor.JBool b)) ->
  (forall n, P (Extractor.JNum n)) ->
  (forall s, P (Extractor.JStr s)) ->
  (forall items, Forall P items -> P (Extractor.JArray items)) ->
  (forall fields, P (Extractor.JObject fields)) ->
  forall value, P value.
Proof.
  intros HN HB HNum HS HA HO. fix IH 1.
  intros [ | b | n | s | items | fields ];
    [ exact HN | apply HB | apply HNum | apply HS | | apply HO ].
  apply HA. induction items as [ | item items IHitems ]; constructor;
    [ apply IH | exact IHitems ].
Qed.

Section Cleaned.

Variable stringify : list (string * Extractor.json) -> string.

(** What cleanValue may return. *)
Definition cleanedValue (v : Js.value) : Prop :=
  match v with
  | Js.VNull | Js.VNum _ | Js.VBool _ => True
  | Js.VStr s => firm s
  | Js.VUndefined | Js.VObject _ => False
  end.

Lemma cleanText_value (text : string) : cleanedValue (Extractor.cleanText text).
Proof.
  destruct (cleanText_cleaned text) as [-> | (s & -> & H & _)]; [ exact I | ].
  now apply firm_cleanedText.
Qed.

Lemma part_firm (v : Js.value) :
  cleanedValue v -> Js.not_nullish v = true -> firm (Js.ToString v).
Proof.
  destruct v as [ | | b | n | s | s ].
  all: cbn [cleanedValue Js.not_nullish Js.ToString].
  - tauto.
  - discriminate.
  - intros _ _. destruct b; apply solid_firm; try reflexivity; discriminate.
  - intros _ _. destruct (toString_solid n). now apply solid_firm.
  - tauto.
  - tauto.
Qed.

Lemma cleanValue_value (value : Extractor.json) :
  cleanedValue (Extractor.cleanValue stringify value).
Proof.
  induction value as [ | b | n | s | items IH | fields ] using json_induction.
  - exact I.
  - exact I.
  - exact I.
  - apply cleanText_value.
  - cbn [Extractor.cleanValue].
    set (parts := filter Js.not_nullish (map (Extractor.cleanValue stringify) items)).
    assert (Hparts : forall v, In v parts ->
              cleanedValue v /\ Js.not_nullish v = true).
    { intros v Hv. apply filter_In in Hv. destruct Hv as [Hv Hnn].
      split; [ | exact Hnn ]. apply in_map_iff in Hv. destruct Hv as (item & <- & Hin).
      now apply (proj1 (Forall_forall _ items) IH). }
    destruct parts as [ | v vs ] eqn:E; [ exact I | ]. rewrite <- E in *.
    apply join_firm.
    + rewrite E. discriminate.
    + intros part Hin. apply in_map_iff in Hin. destruct Hin as (w & <- & Hw).
      destruct (Hparts w Hw). now apply part_firm.
  - cbn [Extractor.cleanValue]. apply cleanText_value.
Qed.

End Cleaned.

(** X20: what cleanValue returns, for every value JSON.parse can build.  The
    result is null, a number, a boolean or a string, never undefined; a
    number or a boolean is passed through.  A returned string is never
    empty, holds no comma, and has no white space at its ends; unless the
    value is an array, it is none of the markers "---", "-", "NIL" and
    "NA", which become null.  The removal of (Approx.) takes the word and
    the character after it and leaves the parentheses: "12 (Approx.)"
    becomes "12 ()". *)
Theorem cleanValue_cleaned :
  forall (stringify : list (string * Extractor.json) -> string)
         (value : Extractor.json),
    match Extractor.cleanValue stringify value with
    | Js.VNull | Js.VNum _ | Js.VBool _ => True
    | Js.VStr s => s <> EmptyString /\ noComma s = true /\ JsStr.trim s = s
    | Js.VUndefined | Js.VObject _ => False
    end
    /\ (forall s,
          Extractor.cleanValue stringify value = Js.VStr s ->
          (forall items, value <> Extractor.JArray items) ->
          Extractor.isMarker s = false)
    /\ map (Extractor.cleanValue stringify)
         [ Extractor.JStr " 1,234.50 "; Extractor.JStr "NA"; Extractor.JStr " --- ";
           Extractor.JStr "12 (Approx.)";
           Extractor.JArray [Extractor.JStr "a,b"; Extractor.JNull; Extractor.JNum 7];
           Extractor.JObject [("text"%string, Extractor.JStr " x ")] ]
       = [ Js.VStr "1234.50"; Js.VNull; Js.VNull; Js.VStr "12 ()";
           Js.VStr "ab 7"; Js.VStr "x" ].
Proof.
  intros stringify value. split; [ | split ].
  - pose proof (cleanValue_value stringify value) as H.
    destruct (Extractor.cleanValue stringify value); try exact H.
    now apply firm_cleanedText.
  - intros s E Hvalue.
    assert (T : forall text, Extractor.cleanText text = Js.VStr s ->
                Extractor.isMarker s = false).
    { intros text Ht. destruct (cleanText_cleaned text) as [N | (s' & Es & _ & M)];
        congruence. }
    destruct value as [ | b | n | text | items | fields ]; try discriminate E.
    + now apply (T text).
    + now contradiction (Hvalue items).
    + cbn [Extractor.cleanValue] in E. now apply (T _ E).
  - vm_compute. reflexivity.
Qed.

(* ===================================================================== *)
(** * extractMetricsFromPDF: the patterns without the g flag *)
(* ===================================================================== *)

Section MatchAll.

Variable captures : PdfParser.pattern -> string -> list string.
Variable text : string.

Lemma metric_fold_Threw (ps : list PdfParser.pattern) (e : string) :
  fold_left (PdfParser.metric_step captures text) ps (Js.Threw e) = Js.Threw e.
Proof. induction ps as [ | p ps IH ]; simpl; [ reflexivity | exact IH ]. Qed.

Lemma metric_fold_returns (ps : list PdfParser.pattern)
  (metrics : Js.dict PdfParser.metric) :
  (exists result,
      fold_left (PdfParser.metric_step captures text) ps (Js.Returned metrics)
      = Js.Returned result)
  <-> forallb PdfParser.global ps = true.
Proof.
  revert metrics. induction ps as [ | p ps IH ]; intros metrics; cbn [fold_left forallb].
  - split; [ reflexivity | intros _; now exists metrics ].
  - unfold PdfParser.metric_step at 2. unfold PdfParser.matchAll. cbn [Js.bind].
    destruct (PdfParser.global p); cbn [Js.bind andb].
    + apply IH.
    + rewrite metric_fold_Threw. split; [ intros (result & H) | intros H ];
        discriminate H.
Qed.

End MatchAll.

(** X21: extractMetricsFromPDF returns for no text.  The loop calls
    text.matchAll with each pattern in turn, matchAll throws a TypeError
    for a regular expression without the g flag, and the first pattern
    (total) has the flag i only; nothing catches the exception.  In
    general the loop over a list of patterns returns exactly when every
    pattern of the list carries the g flag, as the last two (percentage,
    currency) do. *)
Theorem extractMetricsFromPDF_throws :
  forall (captures : PdfParser.pattern -> string -> list string) (text : string),
    PdfParser.extractMetricsFromPDF captures text
    = Js.Threw "TypeError: String.prototype.matchAll called with a non-global RegExp argument"
    /\ (forall ps : list PdfParser.pattern,
          (exists metrics, PdfParser.metricsOf captures text ps = Js.Returned metrics)
          <-> forallb PdfParser.global ps = true)
    /\ map PdfParser.global PdfParser.patterns = [false; false; false; false; true; true].
Proof.
  intros captures text. split; [ | split ].
  - reflexivity.
  - intros ps. apply metric_fold_returns.
  - reflexivity.
Qed.

(* ===================================================================== *)
(** * POST /api/upload: the filter and the file type *)
(* ===================================================================== *)

Lemma strip_prefix_app (w l : list ascii) :
  (exists rest, JsNum.strip_prefix w l = Some rest) <-> exists rest, l = w ++ rest.
Proof.
  revert l. induction w as [ | a w IH ]; intros l; simpl.
  - split; intros _; now exists l.
  - destruct l as [ | b l ].
    + split; intros (rest & H); discriminate H.
    + destruct (Ascii.eqb_spec a b) as [-> | Hne].
      * rewrite IH. split; intros (rest & H); exists rest; congruence.
      * split; intros (rest & H); [ discriminate H | congruence ].
Qed.

Section FileNames.

Import Regex.
Local Open Scope string_scope.

Lemma endsWith_suffix (s searchString : string) :
  Upload.endsWith s searchString = true <-> exists stem, s = stem ++ searchString.
Proof.
  unfold Upload.endsWith.
  pose proof (strip_prefix_app (rev (JsStr.to_list searchString))
                (rev (JsStr.to_list s))) as P.
  split.
  - intros H.
    destruct (JsNum.strip_prefix _ _) as [rest | ]; [ | discriminate H ].
    destruct (proj1 P (ex_intro _ rest eq_refl)) as (rest' & E).
    exists (JsStr.of_list (rev rest')).
    rewrite <- (of_list_to_list s), <- (of_list_to_list (_ ++ searchString)).
    f_equal. rewrite to_list_append, to_list_of_list.
    rewrite <- (rev_involutive (JsStr.to_list s)), E, rev_app_distr.
    now rewrite rev_involutive.
  - intros (stem & ->).
    destruct (proj2 P) as (rest & ->); [ | reflexivity ].
    exists (rev (JsStr.to_list stem)). now rewrite to_list_append, rev_app_distr.
Qed.

Lemma endsWith_append (stem ext searchString : string) :
  Upload.endsWith (stem ++ ext) searchString
  = match JsNum.strip_prefix (rev (JsStr.to_list searchString))
            (rev (JsStr.to_list ext) ++ rev (JsStr.to_list stem))%list with
    | Some _ => true
    | None => false
    end.
Proof.
  unfold Upload.endsWith. now rewrite to_list_append, rev_app_distr.
Qed.

(** The extensions the route knows, and the type it gives to each. *)
Definition extensions : list string := [".csv"; ".xlsx"; ".xls"; ".json"; ".pdf"].

Definition extensionOf (t : Upload.FileType) (ext : string) : Prop :=
  match t with
  | Upload.Csv => ext = ".csv"
  | Upload.Xlsx => ext = ".xlsx" \/ ext = ".xls"
  | Upload.Json => ext = ".json"
  | Upload.Pdf => ext = ".pdf"
  end.

Lemma extensionOf_extensions (t : Upload.FileType) (ext : string) :
  extensionOf t ext -> In (JsStr.toLowerCase ext) extensions.
Proof.
  destruct t; simpl; intros H; repeat (destruct H as [H | H]); subst; simpl; auto 10.
Qed.

Ltac ends_with := rewrite !endsWith_append; cbn; reflexivity.

Lemma fileType_extension (filename : string) (t : Upload.FileType) :
  Upload.fileType filename = Some t
  <-> exists stem ext, filename = stem ++ ext /\ extensionOf t ext.
Proof.
  split.
  - unfold Upload.fileType.
    destruct (Upload.endsWith filename ".csv") eqn:E1;
      [ | destruct (Upload.endsWith filename ".xlsx") eqn:E2;
          [ | destruct (Upload.endsWith filename ".xls") eqn:E3;
              [ | destruct (Upload.endsWith filename ".json") eqn:E4;
                  [ | destruct (Upload.endsWith filename ".pdf") eqn:E5 ] ] ] ];
      cbn [orb]; intros H; try discriminate H; injection H as <-;
      match goal with
      | X : Upload.endsWith _ ?e = true |- _ =>
          apply endsWith_suffix in X; destruct X as (stem & ->); exists stem, e
      end; simpl; auto.
  - intros (stem & ext & -> & H). unfold Upload.fileType.
    destruct t; simpl in H; repeat (destruct H as [H | H]); subst ext; ends_with.
Qed.

Lemma dotted_matches (r : re) (s : string) :
  matches (Seq (Chr ".") r) s
  <-> exists c rest, s = String c rest /\ JsStr.lower c = "."%char /\ matches r rest.
Proof.
  split.
  - intros H. inversion H as [ | | | | r1 r2 s1 s2 H1 H2 | | | | ]; subst.
    inversion H1 as [ | c d E | | | | | | | ]; subst.
    exists c, s2. split; [ reflexivity | split; [ | exact H2 ] ].
    now apply Ascii.eqb_eq in E.
  - intros (c & rest & -> & E & H).
    change (String c rest) with (String c EmptyString ++ rest).
    constructor; [ | exact H ].
    constructor. unfold JsStr.ci_eqb. rewrite E. reflexivity.
Qed.

Lemma alt_matches (r1 r2 : re) (s : string) :
  matches (Alt r1 r2) s <-> matches r1 s \/ matches r2 s.
Proof.
  split.
  - intros H. inversion H; subst; auto.
  - intros [H | H]; [ now apply MAltL | now apply MAltR ].
Qed.

Lemma extension_matches (c : ascii) (rest : string) :
  JsStr.lower c = "."%char ->
  matches (Alt (lit "csv") (Alt (lit "xlsx") (Alt (lit "xls")
             (Alt (lit "json") (lit "pdf"))))) rest
  <-> In (JsStr.toLowerCase (String c rest)) extensions.
Proof.
  intros E.
  assert (L : forall w,
            matches (lit w) rest
            <-> String "."%char (JsStr.toLowerCase w)
                = JsStr.toLowerCase (String c rest)).
  { intros w. rewrite lit_matches.
    change (JsStr.toLowerCase (String c rest))
      with (String (JsStr.lower c) (JsStr.toLowerCase rest)).
    rewrite E. split; [ congruence | intros H; now injection H ]. }
  rewrite !alt_matches, !L. unfold extensions. cbn [In].
  change (String "."%char (JsStr.toLowerCase "csv")) with ".csv".
  change (String "."%char (JsStr.toLowerCase "xlsx")) with ".xlsx".
  change (String "."%char (JsStr.toLowerCase "xls")) with ".xls".
  change (String "."%char (JsStr.toLowerCase "json")) with ".json".
  change (String "."%char (JsStr.toLowerCase "pdf")) with ".pdf".
  tauto.
Qed.

Lemma re_extension_matches (filename : string) :
  test Upload.re_extension filename = true
  <-> exists stem ext,
        filename = stem ++ ext /\ In (JsStr.toLowerCase ext) extensions.
Proof.
  rewrite test_matches. unfold Upload.re_extension. rewrite at_end_matches.
  split.
  - intros (s1 & s2 & -> & H). exists s1, s2. split; [ reflexivity | ].
    apply dotted_matches in H. destruct H as (c & rest & -> & E & H).
    now apply (extension_matches c rest E).
  - intros (s1 & s2 & -> & H). exists s1, s2. split; [ reflexivity | ].
    destruct s2 as [ | c rest ].
    + unfold extensions in H. simpl in H.
      repeat (destruct H as [H | H]; [ discriminate H | ]). destruct H.
    + assert (E : JsStr.lower c = "."%char).
      { change (JsStr.toLowerCase (String c rest))
          with (String (JsStr.lower c) (JsStr.toLowerCase rest)) in H.
        unfold extensions in H. cbn [In] in H.
        repeat (destruct H as [H | H]; [ now injection H | ]). destruct H. }
      apply dotted_matches. exists c, rest.
      split; [ reflexivity | split; [ exact E | ] ].
      now apply (extension_matches c rest E).
Qed.

Lemma fileFilter_accepts (mimetype filename : string) :
  Upload.fileFilter mimetype filename = true
  <-> In mimetype Upload.allowedTypes
      \/ exists stem ext,
           filename = stem ++ ext /\ In (JsStr.toLowerCase ext) extensions.
Proof.
  unfold Upload.fileFilter. rewrite orb_true_iff, re_extension_matches.
  unfold Routes.includes. fold (mem mimetype Upload.allowedTypes).
  now rewrite mem_In.
Qed.

End FileNames.

(** X22: which uploads are taken.  The filter of multer lets a file pass
    when its MIME type is one of the five allowed types or its name ends,
    in any letter case, with .csv, .xlsx, .xls, .json or .pdf.  The handler
    then settles the file type from the name alone and case-sensitively:
    csv, xlsx (for .xlsx and .xls), json or pdf, and answers 400
    (Unsupported file type) for any other name.  Every name the handler
    knows passes the filter whatever the MIME type; but a name with an
    upper-case extension (data.CSV) passes the filter and is then refused
    by the handler, and so is a file of an allowed MIME type under another
    name (notes.txt sent as text/csv). *)
Theorem upload_file_types :
  forall mimetype filename : string,
    (Upload.fileFilter mimetype filename = true
     <-> In mimetype Upload.allowedTypes
         \/ exists stem ext,
              filename = (stem ++ ext)%string
              /\ In (JsStr.toLowerCase ext) extensions)
    /\ (forall t,
          Upload.fileType filename = Some t
          <-> exists stem ext,
                filename = (stem ++ ext)%string /\ extensionOf t ext)
    /\ (forall t,
          Upload.fileType filename = Some t ->
          Upload.fileFilter mimetype filename = true)
    /\ (forall stem,
          Upload.fileFilter mimetype (stem ++ ".CSV") = true
          /\ Upload.fileType (stem ++ ".CSV") = None)
    /\ Upload.fileFilter "text/csv" "notes.txt" = true
    /\ Upload.fileType "notes.txt" = None.
Proof.
  intros mimetype filename.
  split; [ apply fileFilter_accepts | split; [ apply fileType_extension | ] ].
  split; [ | split; [ | split; reflexivity ] ].
  - intros t H. apply fileType_extension in H. destruct H as (stem & ext & E & H).
    apply fileFilter_accepts. right. exists stem, ext.
    split; [ exact E | now apply extensionOf_extensions with t ].
  - intros stem. split.
    + apply fileFilter_accepts. right. exists stem, ".CSV"%string.
      split; [ reflexivity | now left ].
    + unfold Upload.fileType. rewrite !endsWith_append. reflexivity.
Qed.

(* ===================================================================== *)
(** * calculateDataSummary: the top values of a categorical column *)
(* ===================================================================== *)

(** The entries whose key is no array index. *)
Definition plainEntries {V : Type} (o : Js.dict V) : Js.dict V :=
  filter (fun entry => notIndex (fst entry)) o.

Lemma insert_index_plainEntries {V : Type} (i : Z) (k : string) (v : V)
  (o : Js.dict V) :
  Js.array_index k = Some i ->
  plainEntries (Js.insert_index i k v o) = plainEntries o.
Proof.
  intros Hk. unfold plainEntries.
  assert (Nk : notIndex k = false) by (unfold notIndex, Js.is_index; now rewrite Hk).
  induction o as [ | [k' v'] o IH ]; simpl.
  - now rewrite Nk.
  - destruct (Js.array_index k') as [j | ]; [ destruct (j <? i)%Z | ]; simpl;
      rewrite ?Nk, ?IH; reflexivity.
Qed.

Lemma insert_new_plainEntries {V : Type} (k : string) (v : V) (o : Js.dict V) :
  plainEntries (Js.insert_new k v o) = plainEntries (o ++ [(k, v)]).
Proof.
  unfold Js.insert_new. destruct (Js.array_index k) as [i | ] eqn:Ek.
  - rewrite (insert_index_plainEntries i k v o Ek). unfold plainEntries.
    rewrite filter_app. simpl. unfold notIndex at 3, Js.is_index. rewrite Ek.
    simpl. now rewrite app_nil_r.
  - reflexivity.
Qed.

(** Entries of pairwise different keys, none of them [__proto__], put one
    after the other into an object. *)
Lemma collect_fold {V : Type} (entries acc : Js.dict V) :
  NoDup (Js.keys acc ++ Js.keys entries) ->
  (forall k, In k (Js.keys entries) -> k <> "__proto__"%string) ->
  keyOrdered (Js.keys acc) ->
  let result :=
    fold_left (fun acc entry => Js.assign (fst entry) (snd entry) acc) entries acc in
  Permutation (acc ++ entries) result
  /\ keyOrdered (Js.keys result)
  /\ plainEntries result = plainEntries (acc ++ entries).
Proof.
  revert acc. induction entries as [ | [k v] entries IH ]; intros acc Hnd Hk Hord;
    cbn [fold_left].
  - rewrite app_nil_r. split; [ apply Permutation_refl | now split ].
  - cbn [fst snd].
    assert (Hfresh : Js.own k acc = None).
    { apply own_None_keys. intros Hin.
      apply NoDup_app_remove_r in Hnd as Hacc.
      rewrite <- (app_nil_r (Js.keys acc)) in Hin.
      simpl in Hnd. apply NoDup_remove_2 in Hnd. apply Hnd.
      apply in_or_app. left. now rewrite app_nil_r in Hin. }
    assert (Hassign : Js.assign k v acc = Js.insert_new k v acc).
    { unfold Js.assign.
      destruct (String.eqb_spec k "__proto__") as [E | _].
      - exfalso. apply (Hk k); [ now left | exact E ].
      - unfold Js.define. now rewrite Hfresh. }
    rewrite Hassign.
    destruct (IH (Js.insert_new k v acc)) as (P & O & F).
    + eapply Permutation_NoDup; [ | exact Hnd ].
      simpl. apply Permutation_sym.
      eapply perm_trans; [ | apply Permutation_middle ].
      eapply perm_trans;
        [ apply Permutation_app_tail, Permutation_sym, insert_new_perm | ].
      apply Permutation_refl.
    + intros k' Hk'. apply Hk. now right.
    + now apply insert_new_ordered.
    + split; [ | split; [ exact O | ] ].
      * eapply perm_trans; [ | exact P ].
        eapply perm_trans; [ apply Permutation_sym, Permutation_middle | ].
        apply (Permutation_app_tail entries (insert_new_entries k v acc)).
      * rewrite F. unfold plainEntries. rewrite filter_app.
        pose proof (insert_new_plainEntries k v acc) as I.
        unfold plainEntries in I. rewrite I.
        rewrite <- filter_app, <- app_assoc. reflexivity.
Qed.

Lemma descending_filter {A : Type} (key : A -> nat) (f : A -> bool) (l : list A) :
  descending key l -> descending key (filter f l).
Proof.
  unfold descending. induction 1 as [ | a l S IH F ]; simpl; [ constructor | ].
  destruct (f a); [ | exact IH ].
  constructor; [ exact IH | ].
  rewrite Forall_forall in *. intros b Hb. apply F.
  apply filter_In in Hb. tauto.
Qed.

(** The number of values that read [k]. *)
Definition timesOf (values : list Js.value) (k : string) : nat :=
  List.length (filter (fun val => String.eqb (Js.ToString val) k) values).

Lemma timesOf_snoc (values : list Js.value) (val : Js.value) (k : string) :
  timesOf (values ++ [val]) k
  = timesOf values k + (if String.eqb (Js.ToString val) k then 1 else 0).
Proof.
  unfold timesOf. rewrite filter_app, length_app. simpl.
  now destruct (String.eqb _ k).
Qed.

Lemma timesOf_pos (values : list Js.value) (k : string) :
  0 < timesOf values k <-> In k (map Js.ToString values).
Proof.
  unfold timesOf. rewrite in_map_iff. split.
  - destruct (filter _ values) as [ | val l ] eqn:E; simpl; [ lia | ]. intros _.
    assert (H : In val (filter (fun val => String.eqb (Js.ToString val) k) values))
      by (rewrite E; now left).
    apply filter_In in H. destruct H as [Hin Hk]. apply String.eqb_eq in Hk.
    now exists val.
  - intros (val & Hk & Hin).
    assert (H : In val (filter (fun val => String.eqb (Js.ToString val) k) values)).
    { apply filter_In. split; [ exact Hin | now apply String.eqb_eq ]. }
    destruct (filter _ values); [ destruct H | simpl; lia ].
Qed.

(** What [frequencies] holds after the values [seen]. *)
Record frequencies_after (seen : list Js.value)
  (frequencies : Js.dict Recommender.counter) : Prop := {
  freq_own : forall k,
    Js.own k frequencies
    = if Nat.ltb 0 (timesOf seen k)
      then Some (Recommender.Count (timesOf seen k)) else None;
  freq_nodup : NoDup (Js.keys frequencies)
}.

Lemma frequency_step_after (seen : list Js.value)
  (frequencies : Js.dict Recommender.counter) (val : Js.value) :
  frequencies_after seen frequencies ->
  Js.inherited (Js.ToString val) = false ->
  frequencies_after (seen ++ [val]) (Gemini.frequency_step frequencies val).
Proof.
  intros [Hown Hnd] Hplain. unfold Gemini.frequency_step.
  set (key := Js.ToString val) in *.
  rewrite (assign_plain key _ frequencies Hplain).
  assert (Hbump : Recommender.bump frequencies key
                  = Recommender.Count (timesOf seen key + 1)).
  { unfold Recommender.bump. rewrite Hown, Hplain.
    destruct (Nat.ltb_spec 0 (timesOf seen key)); [ reflexivity | ]. f_equal. lia. }
  rewrite Hbump. constructor.
  - intros k. rewrite own_define, timesOf_snoc. fold key.
    destruct (String.eqb_spec k key) as [-> | Hne].
    + rewrite String.eqb_refl.
      destruct (Nat.ltb_spec 0 (timesOf seen key + 1)); [ reflexivity | lia ].
    + assert (E : String.eqb key k = false) by (apply String.eqb_neq; congruence).
      now rewrite E, Nat.add_0_r.
  - now apply define_NoDup.
Qed.

Lemma frequencies_fold (values seen : list Js.value)
  (frequencies : Js.dict Recommender.counter) :
  frequencies_after seen frequencies ->
  (forall val, In val values -> Js.inherited (Js.ToString val) = false) ->
  frequencies_after (seen ++ values)
    (fold_left Gemini.frequency_step values frequencies).
Proof.
  revert seen frequencies.
  induction values as [ | val values IH ]; intros seen frequencies Hafter Hplain;
    cbn [fold_left].
  - now rewrite app_nil_r.
  - replace (seen ++ val :: values) with ((seen ++ [val]) ++ values)
      by now rewrite <- app_assoc.
    apply IH.
    + apply frequency_step_after; [ exact Hafter | apply Hplain; now left ].
    + intros val' Hval'. apply Hplain. now right.
Qed.

(** Two values that read 10 and one that reads 2. *)
Definition scores : list Js.row :=
  map (fun s => [("score"%string, Js.VStr s)]) ["10"; "10"; "2"]%string.

(** X23: the categorical statistics of calculateDataSummary for a column,
    when no value of the column that is not missing (null, undefined or the
    empty string) reads as the name of a member of Object.prototype.
    uniqueCount is the number of distinct texts of these values.  topValues
    has min(10, uniqueCount) keys, each with the number of values that read
    so, and no text left out occurs more often than one that is kept.  But
    topValues is an object: its keys that are canonical array indices come
    first, in ascending numeric order, whatever their counts; only the
    other keys are in descending order of count.  For the values 10, 10, 2
    the object is { 2: 1, 10: 2 }. *)
Theorem categoricalStats_topValues :
  forall (rows : list Js.row) (col : string),
    let values := Gemini.columnValues rows col in
    let stats := Gemini.categoricalStats rows col in
    let top := Gemini.topValues stats in
    (forall val, In val values -> Js.inherited (Js.ToString val) = false) ->
    Gemini.uniqueCount stats = Js.set_size (map Js.ToString values)
    /\ List.length top = Nat.min 10 (Gemini.uniqueCount stats)
    /\ NoDup (Js.keys top)
    /\ (forall k c, Js.own k top = Some c ->
          0 < timesOf values k /\ c = Recommender.Count (timesOf values k))
    /\ (forall k k', Js.own k top = None -> Js.own k' top <> None ->
          timesOf values k <= timesOf values k')
    /\ keyOrdered (Js.keys top)
    /\ descending countKey (plainEntries top)
    /\ Gemini.topValues (Gemini.categoricalStats scores "score")
       = [("2"%string, Recommender.Count 1); ("10"%string, Recommender.Count 2)].
Proof.
  intros rows col values stats top Hplain.
  set (frequencies := Gemini.frequenciesOf values).
  assert (A : frequencies_after values frequencies).
  { apply (frequencies_fold values [] []); [ | exact Hplain ].
    constructor; [ reflexivity | constructor ]. }
  destruct A as [Hown Hnd].
  assert (Hentry : forall k c, In (k, c) frequencies ->
            0 < timesOf values k /\ c = Recommender.Count (timesOf values k)).
  { intros k c Hin. apply (In_own_NoDup k c frequencies Hnd) in Hin.
    rewrite Hown in Hin.
    destruct (Nat.ltb_spec 0 (timesOf values k)); [ | discriminate ].
    injection Hin as <-. auto. }
  assert (Hsort : Js.sort Recommender.byCount frequencies
                  = Js.sort (byKey countKey) frequencies).
  { apply sort_ext. intros [ka ca] [kb cb] Ha Hb.
    destruct (Hentry ka ca Ha) as (_ & ->).
    destruct (Hentry kb cb Hb) as (_ & ->). reflexivity. }
  set (sorted := Js.sort (byKey countKey) frequencies) in *.
  set (kept := firstn 10 sorted).
  assert (Etop : top = Gemini.collect kept).
  { unfold top, stats, Gemini.categoricalStats, Gemini.topValues, Js.slice0.
    fold values. fold frequencies. now rewrite Hsort. }
  assert (Psorted : Permutation frequencies sorted) by apply sort_perm.
  assert (Dsorted : descending countKey sorted) by apply sort_key_descending.
  assert (Hin_kept : forall e, In e kept -> In e frequencies).
  { intros e He. apply (sort_In (byKey countKey) frequencies).
    fold sorted. rewrite <- (firstn_skipn 10 sorted). apply in_or_app. now left. }
  assert (Nkept : NoDup (Js.keys kept)).
  { unfold Js.keys, kept. rewrite <- firstn_map. apply NoDup_firstn.
    eapply Permutation_NoDup; [ apply Permutation_map, Psorted | exact Hnd ]. }
  assert (Hproto : forall k, In k (Js.keys kept) -> k <> "__proto__"%string).
  { intros k Hk ->. unfold Js.keys in Hk. apply in_map_iff in Hk.
    destruct Hk as ([k c] & E & He). simpl in E. subst k.
    apply Hin_kept, Hentry in He. destruct He as (Hpos & _).
    apply timesOf_pos, in_map_iff in Hpos. destruct Hpos as (val & E & Hval).
    specialize (Hplain val Hval). rewrite E in Hplain. discriminate Hplain. }
  destruct (collect_fold kept [] Nkept Hproto) as (P & O & F);
    [ constructor | ].
  fold (Gemini.collect kept) in P, O, F. rewrite <- Etop in P, O, F.
  simpl in P, F.
  assert (Hunique : Gemini.uniqueCount stats = List.length frequencies).
  { unfold stats, Gemini.categoricalStats, Gemini.uniqueCount. fold values.
    fold frequencies. unfold Js.keys. apply length_map. }
  assert (Hkeys : forall k, Js.own k top <> None <-> exists c, In (k, c) kept).
  { intros k. split.
    - destruct (Js.own k top) as [c | ] eqn:E; [ intros _ | congruence ].
      exists c. apply own_In in E.
      eapply Permutation_in; [ apply Permutation_sym, P | exact E ].
    - intros (c & Hc) E. apply own_None_keys in E. apply E.
      unfold Js.keys. change k with (fst (k, c)). apply in_map.
      eapply Permutation_in; [ exact P | exact Hc ]. }
  split; [ | split; [ | split; [ | split; [ | split; [ | split; [ | split ]]]]]].
  - rewrite Hunique. unfold Js.set_size. rewrite <- (length_map fst frequencies).
    apply Permutation_length.
    apply NoDup_Permutation; [ exact Hnd | apply distinct_NoDup | ].
    intros k. rewrite distinct_In, <- timesOf_pos. fold (Js.keys frequencies).
    specialize (Hown k). split.
    + intros Hin. destruct (Nat.ltb_spec 0 (timesOf values k)); [ assumption | ].
      apply own_None_keys in Hown. contradiction.
    + intros Hpos. destruct (Nat.ltb_spec 0 (timesOf values k)); [ | lia ].
      apply own_In in Hown. unfold Js.keys.
      change k with (fst (k, Recommender.Count (timesOf values k))).
      now apply in_map.
  - rewrite <- (Permutation_length P), Hunique. unfold kept.
    rewrite length_firstn. unfold sorted. now rewrite sort_length.
  - eapply Permutation_NoDup; [ apply Permutation_map, P | exact Nkept ].
  - intros k c E. apply own_In in E. apply Hentry, Hin_kept.
    eapply Permutation_in; [ apply Permutation_sym, P | exact E ].
  - intros k k' Hnone Hsome.
    destruct (Nat.ltb_spec 0 (timesOf values k)) as [Hpos | ]; [ | lia ].
    apply Hkeys in Hsome. destruct Hsome as (c' & Hc').
    pose proof (Hentry k' c' (Hin_kept _ Hc')) as (_ & Ec').
    assert (Hk : In (k, Recommender.Count (timesOf values k)) sorted).
    { apply (sort_In (byKey countKey) frequencies). apply own_In.
      rewrite Hown. destruct (Nat.ltb_spec 0 (timesOf values k)); [ reflexivity | lia ]. }
    rewrite <- (firstn_skipn 10 sorted) in Hk, Dsorted. fold kept in Hk, Dsorted.
    apply in_app_or in Hk. destruct Hk as [Hk | Hk].
    + exfalso. assert (S : Js.own k top <> None) by (apply Hkeys; eauto).
      contradiction.
    + pose proof (descending_app countKey kept _ _ _ Dsorted Hc' Hk) as D.
      rewrite Ec' in D. exact D.
  - exact O.
  - rewrite F. apply descending_filter, descending_firstn, Dsorted.
  - reflexivity.
Qed.

(** The table of sales: the column cat reads A, A, B. *)
Lemma categoricalStats_topValues_witness :
  (forall val, In val (Gemini.columnValues (Schema.rows Tables.sales) "cat") ->
               Js.inherited (Js.ToString val) = false)
  /\ Gemini.uniqueCount (Gemini.categoricalStats (Schema.rows Tables.sales) "cat")
     = Js.set_size
         (map Js.ToString (Gemini.columnValues (Schema.rows Tables.sales) "cat")).
Proof.
  assert (H : forall val,
            In val (Gemini.columnValues (Schema.rows Tables.sales) "cat") ->
            Js.inherited (Js.ToString val) = false).
  { simpl. intros val [<- | [<- | [<- | []]]]; reflexivity. }
  exact (conj H (proj1 (categoricalStats_topValues
                          (Schema.rows Tables.sales) "cat" H))).
Defined.

(* ===================================================================== *)
(** * parsePDFWithGemini: columns and rows *)
(* ===================================================================== *)

(** A string without white space. *)
Definition spaceless (s : string) : bool :=
  forallb (fun c => negb (JsStr.is_ws c)) (JsStr.to_list s).

Lemma underscoreSpaces_spaceless (inRun : bool) (l : list ascii) :
  forallb (fun c => negb (JsStr.is_ws c)) (Extractor.underscoreSpaces inRun l) = true.
Proof.
  revert inRun. induction l as [ | c l IH ]; intros inRun; simpl; [ reflexivity | ].
  destruct (JsStr.is_ws c) eqn:W.
  - destruct inRun; simpl; apply IH.
  - simpl. rewrite W. simpl. apply IH.
Qed.

Lemma cleanColumn_spaceless (extractedColumns : list string) (col : string) :
  PdfParser.cleanColumn extractedColumns col <> EmptyString
  /\ spaceless (PdfParser.cleanColumn extractedColumns col) = true.
Proof.
  unfold PdfParser.cleanColumn.
  set (cleaned := JsStr.of_list _).
  destruct (JsStr.is_empty cleaned) eqn:E.
  - split; [ discriminate | ].
    unfold spaceless. rewrite to_list_append, forallb_app. simpl.
    apply (forallb_impl solid); [ | apply of_Z_solid ].
    intros c H. unfold solid in H. apply andb_true_iff in H. tauto.
  - split.
    + intros H. rewrite H in E. discriminate E.
    + unfold spaceless, cleaned. rewrite to_list_of_list.
      apply underscoreSpaces_spaceless.
Qed.

Lemma cell_defined (row : Js.row) (col : string) :
  PdfParser.cell row col <> Js.VUndefined.
Proof. unfold PdfParser.cell. destruct (Js.get row col); discriminate. Qed.

(** What a converted cell is. *)
Definition converted_cell (value : Js.value) : Prop :=
  value = Js.VNull
  \/ (exists n, value = Js.VNum n /\ JsNum.isNaN n = false)
  \/ (exists s, value = Js.VStr s /\ JsStr.trim s = s).

Lemma convert_cell (value : Js.value) :
  value <> Js.VUndefined -> converted_cell (PdfParser.convert value).
Proof.
  intros Hdef. unfold PdfParser.convert, converted_cell.
  assert (R : forall v,
            converted_cell
              (if negb (JsNum.isNaN (JsNum.ofString
                                       (PdfParser.removeMoney (JsStr.trim (Js.ToString v)))))
                  && negb (JsStr.is_empty (JsStr.trim (Js.ToString v)))
                  && negb (String.eqb (JsStr.trim (Js.ToString v)) "-")
               then Js.VNum (JsNum.ofString
                               (PdfParser.removeMoney (JsStr.trim (Js.ToString v))))
               else Js.VStr (JsStr.trim (Js.ToString v)))).
  { intros v. unfold converted_cell.
    destruct (JsNum.isNaN _) eqn:N; simpl.
    - right. right. eexists. split; [ reflexivity | apply trim_trim ].
    - destruct (negb (JsStr.is_empty _) && _).
      + right. left. eexists. split; [ reflexivity | exact N ].
      + right. right. eexists. split; [ reflexivity | apply trim_trim ]. }
  destruct value as [ | | b | n | s | text ]; try apply R.
  - contradiction.
  - now left.
  - destruct (JsStr.is_empty s) eqn:E; [ | apply R ].
    right. right. exists s. split; [ reflexivity | ].
    destruct s; [ reflexivity | discriminate E ].
Qed.

Section CleanedRow.

Variable row : Js.row.

Lemma setCell_own (cleanedRow : PdfParser.building) (col k : string) :
  k <> "__proto__"%string ->
  Js.own k (PdfParser.properties (PdfParser.setCell row cleanedRow col))
  = if String.eqb k col then Some (PdfParser.convert (PdfParser.cell row k))
    else Js.own k (PdfParser.properties cleanedRow).
Proof.
  intros Hk. unfold PdfParser.setCell.
  destruct (String.eqb_spec col "__proto__") as [-> | Hc]; cbn [andb].
  - assert (E : String.eqb k "__proto__" = false) by now apply String.eqb_neq.
    rewrite E.
    destruct (negb (PdfParser.detached cleanedRow)).
    + now destruct (PdfParser.convert _).
    + cbn [PdfParser.properties]. now rewrite own_define, E.
  - cbn [PdfParser.properties]. rewrite own_define.
    destruct (String.eqb_spec k col) as [-> | _]; reflexivity.
Qed.

Lemma setCell_fold_own (columns : list string) (cleanedRow : PdfParser.building)
  (k : string) :
  k <> "__proto__"%string ->
  Js.own k (PdfParser.properties (fold_left (PdfParser.setCell row) columns cleanedRow))
  = if mem k columns then Some (PdfParser.convert (PdfParser.cell row k))
    else Js.own k (PdfParser.properties cleanedRow).
Proof.
  intros Hk. revert cleanedRow.
  induction columns as [ | col columns IH ]; intros cleanedRow; cbn [fold_left];
    [ reflexivity | ].
  rewrite IH. unfold mem. simpl. fold (mem k columns).
  destruct (mem k columns); [ now rewrite orb_true_r | ]. rewrite orb_false_r.
  now apply setCell_own.
Qed.

(** Every own property holds the converted cell of its own name. *)
Definition filled (cleanedRow : PdfParser.building) : Prop :=
  NoDup (Js.keys (PdfParser.properties cleanedRow))
  /\ forall col value,
       Js.own col (PdfParser.properties cleanedRow) = Some value ->
       value = PdfParser.convert (PdfParser.cell row col).

Lemma setCell_filled (cleanedRow : PdfParser.building) (col : string) :
  filled cleanedRow -> filled (PdfParser.setCell row cleanedRow col).
Proof.
  intros [Hnd Hown]. unfold PdfParser.setCell.
  assert (D : filled {| PdfParser.detached := PdfParser.detached cleanedRow;
                        PdfParser.properties :=
                          Js.define col (PdfParser.convert (PdfParser.cell row col))
                            (PdfParser.properties cleanedRow) |}).
  { split; cbn [PdfParser.properties].
    - now apply define_NoDup.
    - intros k value. rewrite own_define.
      destruct (String.eqb_spec k col) as [-> | _]; [ | apply Hown ].
      intros H. now injection H as <-. }
  destruct (String.eqb col "__proto__" && negb (PdfParser.detached cleanedRow));
    [ | exact D ].
  destruct (PdfParser.convert _); split; cbn [PdfParser.properties]; assumption.
Qed.

Lemma setCell_fold_filled (columns : list string) (cleanedRow : PdfParser.building) :
  filled cleanedRow -> filled (fold_left (PdfParser.setCell row) columns cleanedRow).
Proof.
  revert cleanedRow.
  induction columns as [ | col columns IH ]; intros cleanedRow H; cbn [fold_left];
    [ exact H | ].
  now apply IH, setCell_filled.
Qed.

End CleanedRow.

Lemma cell_get (row other : Js.row) (col : string) :
  Js.get other col = Js.get row col -> PdfParser.cell other col = PdfParser.cell row col.
Proof. unfold PdfParser.cell. now intros ->. Qed.

(** An answer with a header that holds a space and an amount in dollars. *)
Definition orderColumns : list string := ["Order ID"; "Total"]%string.

Definition orderRow : Js.row :=
  [("Order ID"%string, Js.VNum 7); ("Total"%string, Js.VStr "$1,200")].

(** X24: the columns and rows parsePDFWithGemini makes of the answer.
    Every cleaned column name is non-empty and holds no white space.  A
    cleaned row has pairwise different keys, which are the cleaned column
    names (apart from __proto__); each of its cells is the conversion of
    the cell read from the extracted row under the CLEANED name, and is
    null, a number that is not NaN, or a string without white space at its
    ends.  So when the extracted row has no property of the cleaned name
    the cell is null, and the cleaned row depends on the extracted row
    through the properties of the cleaned names only: what the extracted
    row holds under a name that the cleaning changes is lost.  For the
    columns Order ID and Total and the row { Order ID: 7, Total: "$1,200" }
    the result is { Order_ID: null, Total: 1200 }. *)
Theorem parsePDFWithGemini_rows :
  forall (extractedColumns : list string) (row : Js.row),
    let columns := PdfParser.columns extractedColumns in
    let cleanedRow := PdfParser.cleanedRow columns row in
    List.length columns = List.length extractedColumns
    /\ (forall col, In col columns -> col <> EmptyString /\ spaceless col = true)
    /\ NoDup (Js.keys cleanedRow)
    /\ (forall col, col <> "__proto__"%string ->
          (In col (Js.keys cleanedRow) <-> In col columns))
    /\ (forall col value,
          Js.own col cleanedRow = Some value ->
          value = PdfParser.convert (PdfParser.cell row col)
          /\ (value = Js.VNull
              \/ (exists n, value = Js.VNum n /\ JsNum.isNaN n = false)
              \/ (exists s, value = Js.VStr s /\ JsStr.trim s = s)))
    /\ (forall col,
          In col columns -> col <> "__proto__"%string ->
          Js.get row col = Js.VUndefined ->
          Js.own col cleanedRow = Some Js.VNull)
    /\ (forall other,
          (forall col, In col columns -> Js.get other col = Js.get row col) ->
          PdfParser.cleanedRow columns other = cleanedRow)
    /\ PdfParser.columns orderColumns = ["Order_ID"; "Total"]%string
    /\ PdfParser.cleanedRow (PdfParser.columns orderColumns) orderRow
       = [("Order_ID"%string, Js.VNull); ("Total"%string, Js.VNum 1200)].
Proof.
  intros extractedColumns row columns cleanedRow.
  set (start := {| PdfParser.detached := false; PdfParser.properties := [] |}).
  assert (Hown : forall k, k <> "__proto__"%string ->
            Js.own k cleanedRow
            = if mem k columns then Some (PdfParser.convert (PdfParser.cell row k))
              else None).
  { intros k Hk. apply (setCell_fold_own row columns start k Hk). }
  assert (Hfilled : filled row (fold_left (PdfParser.setCell row) columns start)).
  { apply setCell_fold_filled. split; [ constructor | discriminate ]. }
  destruct Hfilled as [Hnd Hvalue].
  split; [ apply length_map | ].
  split; [ | split; [ exact Hnd | ] ].
  { intros col Hcol. unfold columns, PdfParser.columns in Hcol.
    apply in_map_iff in Hcol. destruct Hcol as (c & <- & _).
    apply cleanColumn_spaceless. }
  split; [ | split; [ | split; [ | split; [ | split ] ] ] ].
  - intros col Hcol. specialize (Hown col Hcol). split.
    + intros Hin. destruct (mem col columns) eqn:M; [ now apply mem_In | ].
      apply own_None_keys in Hown. contradiction.
    + intros Hin. apply mem_In in Hin. rewrite Hin in Hown.
      apply own_In in Hown. unfold Js.keys.
      change col with (fst (col, PdfParser.convert (PdfParser.cell row col))).
      now apply in_map.
  - intros col value H. apply Hvalue in H. split; [ exact H | ].
    rewrite H. apply convert_cell, cell_defined.
  - intros col Hcol Hproto Hget. rewrite (Hown col Hproto).
    apply mem_In in Hcol. rewrite Hcol. unfold PdfParser.cell. now rewrite Hget.
  - intros other Hsame. unfold cleanedRow, PdfParser.cleanedRow. f_equal.
    apply fold_left_ext_In. intros acc col Hcol. unfold PdfParser.setCell.
    now rewrite (cell_get row other col (Hsame col Hcol)).
  - reflexivity.
  - vm_compute. reflexivity.
Qed.

(* ===================================================================== *)
(** * The dialog and the chart route *)
(* ===================================================================== *)

Lemma is_empty_true (s : string) : JsStr.is_empty s = true <-> s = EmptyString.
Proof. destruct s; simpl; split; intros H; try reflexivity; discriminate H. Qed.

Lemma is_empty_false (s : string) : JsStr.is_empty s = false <-> s <> EmptyString.
Proof. destruct s; simpl; split; intros H; try discriminate; congruence. Qed.

(** The chart type the server reads in the name the dialog sends. *)
Definition kindType (k : Dialog.ChartKind) : Schema.ChartType :=
  match k with
  | Dialog.Bar => Schema.Bar
  | Dialog.Line => Schema.Line
  | Dialog.Pie => Schema.Pie
  | Dialog.Scatter => Schema.Scatter
  end.

(** The y-axis of a request of the dialog. *)
Definition sentY (s : Dialog.state) : option string :=
  match Dialog.chartType s with
  | Dialog.Pie => None
  | _ => Some (Dialog.yAxis s)
  end.

Section Listed.

Variable columns : list Api.Column.

(** Each axis is empty or the name of a column the server listed: of a
    string or a numeric column for the x-axis, of a numeric column for the
    y-axis. *)
Definition listed (s : Dialog.state) : Prop :=
  (Dialog.xAxis s = EmptyString
   \/ In (Dialog.xAxis s) (map Api.name (Dialog.stringColumns columns))
   \/ In (Dialog.xAxis s) (map Api.name (Dialog.numericColumns columns)))
  /\ (Dialog.yAxis s = EmptyString
      \/ In (Dialog.yAxis s) (map Api.name (Dialog.numericColumns columns))).

(** The columns the component sees are the listed columns or none. *)
Lemma shown_names (c : Dialog.component) (keep : Api.Column -> bool) (name : string) :
  In name (map Api.name (filter keep (Dialog.shown columns c))) ->
  In name (map Api.name (filter keep columns)).
Proof.
  unfold Dialog.shown. destruct (Dialog.loaded c); [ tauto | intros [] ].
Qed.

Lemma firstOption_In (axis : string) (options : list Api.Column) (name : string) :
  Dialog.firstOption axis options = Some name -> In name (map Api.name options).
Proof.
  unfold Dialog.firstOption. destruct options as [ | first rest ]; [ discriminate | ].
  destruct (JsStr.is_empty axis); [ | discriminate ].
  intros H. injection H as <-. now left.
Qed.

Lemma otherNumeric_In (seen : list Api.Column) (xAxis : string) (first : Api.Column) :
  In first (Dialog.numericColumns seen) ->
  In (Dialog.otherNumeric seen xAxis first) (map Api.name (Dialog.numericColumns seen)).
Proof.
  intros Hfirst. unfold Dialog.otherNumeric.
  destruct (find _ (Dialog.numericColumns seen)) as [col | ] eqn:F.
  - apply find_some in F. destruct F as [Hcol _].
    destruct (JsStr.is_empty (Api.name col)); now apply in_map.
  - now apply in_map.
Qed.

(** The names the automatic selection passes to the setters. *)
Lemma autoSelectCalls_names (seen : list Api.Column) (s : Dialog.state) :
  Dialog.toChartType (Dialog.autoSelectCalls seen s) = None
  /\ (forall name, Dialog.toXAxis (Dialog.autoSelectCalls seen s) = Some name ->
        In name (map Api.name (Dialog.stringColumns seen))
        \/ In name (map Api.name (Dialog.numericColumns seen)))
  /\ (forall name, Dialog.toYAxis (Dialog.autoSelectCalls seen s) = Some name ->
        In name (map Api.name (Dialog.numericColumns seen))).
Proof.
  unfold Dialog.autoSelectCalls.
  destruct (Nat.ltb 0 (List.length seen) && Dialog.open s);
    [ | repeat split; intros name H; discriminate H ].
  assert (Second : forall name,
            match Dialog.numericColumns seen with
            | first :: _ :: _ =>
                if JsStr.is_empty (Dialog.yAxis s)
                then Some (Dialog.otherNumeric seen (Dialog.xAxis s) first) else None
            | _ => None
            end = Some name ->
            In name (map Api.name (Dialog.numericColumns seen))).
  { intros name.
    destruct (Dialog.numericColumns seen) as [ | first [ | second rest ] ] eqn:N;
      try discriminate.
    destruct (JsStr.is_empty (Dialog.yAxis s)); [ | discriminate ].
    intros H. injection H as <-. rewrite <- N. apply otherNumeric_In.
    rewrite N. now left. }
  destruct (Dialog.chartType s);
    cbn [Dialog.toChartType Dialog.toXAxis Dialog.toYAxis];
    (split; [ reflexivity | split ]); intros name H;
    try discriminate H;
    eauto using firstOption_In.
Qed.

Lemma enqueue_listed (queued : Dialog.calls) (s : Dialog.state) :
  listed s ->
  (forall name, Dialog.toXAxis queued = Some name ->
     name = EmptyString
     \/ In name (map Api.name (Dialog.stringColumns columns))
     \/ In name (map Api.name (Dialog.numericColumns columns))) ->
  (forall name, Dialog.toYAxis queued = Some name ->
     name = EmptyString
     \/ In name (map Api.name (Dialog.numericColumns columns))) ->
  listed (Dialog.enqueue queued s).
Proof.
  intros [Hx Hy] Qx Qy. unfold listed, Dialog.enqueue.
  cbn [Dialog.xAxis Dialog.yAxis]. split.
  - destruct (Dialog.toXAxis queued) as [name | ]; [ now apply Qx | exact Hx ].
  - destruct (Dialog.toYAxis queued) as [name | ]; [ now apply Qy | exact Hy ].
Qed.

Lemma effects_listed (c : Dialog.component) (openChanged : bool) (s : Dialog.state) :
  listed s -> listed (Dialog.effects (Dialog.shown columns c) openChanged s).
Proof.
  intros H. unfold Dialog.effects.
  destruct (autoSelectCalls_names (Dialog.shown columns c) s) as (_ & Ax & Ay).
  apply enqueue_listed.
  - destruct openChanged; [ | exact H ].
    apply enqueue_listed; [ exact H | | ];
      unfold Dialog.resetCalls; destruct (Dialog.open s);
      cbn [Dialog.toXAxis Dialog.toYAxis Dialog.noCalls]; intros name E;
      try discriminate E; injection E as <-; now left.
  - intros name E. right.
    destruct (Ax name E) as [S | N]; [ left | right ];
      now apply (shown_names c).
  - intros name E. right. now apply (shown_names c), Ay.
Qed.

Lemma step_listed (c c' : Dialog.component) :
  listed (Dialog.hooks c) -> Dialog.step columns c c' -> listed (Dialog.hooks c').
Proof.
  intros H St.
  destruct St as [ c | c b | c value | c col Hcol | c col Hk Hcol | c ];
    cbn [Dialog.hooks].
  - exact H.
  - exact H.
  - split; now left.
  - destruct H as [_ Hy]. split; [ right | exact Hy ].
    cbn [Dialog.xAxis].
    destruct (Dialog.chartType (Dialog.hooks c)); cbn [Dialog.xOptions] in Hcol;
      [ left | right | left | right ];
      apply (shown_names c); now apply in_map.
  - destruct H as [Hx _]. split; [ exact Hx | right ].
    cbn [Dialog.yAxis]. apply (shown_names c). now apply in_map.
  - now apply effects_listed.
Qed.

Lemma reachable_listed (c : Dialog.component) :
  Dialog.reachable columns c -> listed (Dialog.hooks c).
Proof.
  induction 1 as [ | c c' _ IH St ].
  - split; now left.
  - now apply step_listed with c.
Qed.

End Listed.

(** Each effect alone: the state its calls give is the state the effect
    is described by. *)
Lemma resetOnOpen_calls (s : Dialog.state) :
  Dialog.resetOnOpen s = Dialog.enqueue (Dialog.resetCalls s) s.
Proof.
  destruct s as [o k x y]. unfold Dialog.resetOnOpen, Dialog.resetCalls.
  cbn [Dialog.open]. now destruct o.
Qed.

Lemma autoSelect_calls (columns : list Api.Column) (s : Dialog.state) :
  Dialog.autoSelect columns s
  = Dialog.enqueue (Dialog.autoSelectCalls columns s) s.
Proof.
  destruct s as [o k x y]. unfold Dialog.autoSelect, Dialog.autoSelectCalls.
  cbn [Dialog.open Dialog.chartType Dialog.xAxis Dialog.yAxis].
  destruct (Nat.ltb 0 (List.length columns) && o); [ | reflexivity ].
  unfold Dialog.enqueue, Dialog.firstOption.
  destruct k;
    cbn [Dialog.open Dialog.chartType Dialog.xAxis Dialog.yAxis
         Dialog.toChartType Dialog.toXAxis Dialog.toYAxis];
    destruct (Dialog.stringColumns columns) as [ | s0 ss ];
    destruct (Dialog.numericColumns columns) as [ | n0 [ | n1 ns ] ];
    destruct (JsStr.is_empty x); destruct (JsStr.is_empty y); reflexivity.
Qed.

Lemma getColumns_names (parsedData : Schema.ParsedData) (columns : list Api.Column)
  (keep : Api.Column -> bool) (col : string) :
  Api.getColumns (Some parsedData) = Some columns ->
  In col (map Api.name (filter keep columns)) ->
  In col (Schema.columns parsedData).
Proof.
  intros G Hin. injection G as <-.
  apply in_map_iff in Hin. destruct Hin as (c & <- & Hc).
  apply filter_In in Hc. destruct Hc as [Hc _].
  apply in_map_iff in Hc. destruct Hc as (name & <- & Hname). exact Hname.
Qed.

Lemma listed_known (parsedData : Schema.ParsedData) (columns : list Api.Column)
  (s : Dialog.state) :
  Api.getColumns (Some parsedData) = Some columns ->
  listed columns s ->
  (Dialog.xAxis s <> EmptyString ->
   Routes.unknownAxis (Schema.columns parsedData) (Some (Dialog.xAxis s)) = false)
  /\ (Dialog.yAxis s <> EmptyString ->
      Routes.unknownAxis (Schema.columns parsedData) (Some (Dialog.yAxis s)) = false).
Proof.
  intros G [Hx Hy].
  assert (K : forall axis, In axis (Schema.columns parsedData) ->
                Routes.unknownAxis (Schema.columns parsedData) (Some axis) = false).
  { intros axis Hin. unfold Routes.unknownAxis, Routes.includes.
    fold (mem axis (Schema.columns parsedData)).
    apply mem_In in Hin. rewrite Hin. apply andb_false_r. }
  split; intros Hne; apply K.
  - destruct Hx as [Hx | [Hx | Hx]]; [ contradiction | | ];
      apply (getColumns_names parsedData columns _ _ G Hx).
  - destruct Hy as [Hy | Hy]; [ contradiction | ].
    apply (getColumns_names parsedData columns _ _ G Hy).
Qed.

(** generateChart on axes that are given and not empty. *)
Lemma generateChart_chosen (parsedData : Schema.ParsedData) (now : Z)
  (chartType : Schema.ChartType) (x : string) (yAxis : option string) :
  x <> EmptyString ->
  (chartType = Schema.Pie \/ exists y, yAxis = Some y /\ y <> EmptyString) ->
  match Recommender.generateChart parsedData now chartType (Some x) yAxis None with
  | Js.Returned (Some chart) =>
      Schema.type chart = chartType
      /\ Schema.xAxis chart = Some x
      /\ Schema.yAxis chart = yAxis
  | Js.Returned None => True
  | Js.Threw _ => chartType = Schema.Bar
  end.
Proof.
  intros Hx Hy.
  assert (Rx : forall d, Recommender.resolve (Some x) d = Some x).
  { intros d. unfold Recommender.resolve, Js.name_truthy.
    apply is_empty_false in Hx. now rewrite Hx. }
  assert (Ry : forall y d, y <> EmptyString -> Recommender.resolve (Some y) d = Some y).
  { intros y d Hne. unfold Recommender.resolve, Js.name_truthy.
    apply is_empty_false in Hne. now rewrite Hne. }
  assert (Ex : JsStr.is_empty x = false) by now apply is_empty_false.
  assert (F : forall ct title fx fy dk data,
            match Recommender.finish now ct title fx fy dk data with
            | Some chart =>
                Schema.type chart = ct /\ Schema.xAxis chart = fx
                /\ Schema.yAxis chart = fy
            | None => True
            end).
  { intros ct title fx fy dk data. unfold Recommender.finish.
    destruct data; simpl; auto. }
  unfold Recommender.generateChart. destruct chartType.
  - destruct Hy as [Hy | (y & -> & Hy)]; [ discriminate Hy | ].
    rewrite Rx, (Ry y _ Hy).
    assert (Ey : JsStr.is_empty y = false) by now apply is_empty_false.
    rewrite Ex, Ey. cbn [orb].
    destruct (Recommender.aggregate x y (Schema.rows parsedData)) as [agg | e];
      cbn [Js.bind]; [ apply F | reflexivity ].
  - destruct Hy as [Hy | (y & -> & Hy)]; [ discriminate Hy | ].
    rewrite Rx, (Ry y _ Hy).
    assert (Ey : JsStr.is_empty y = false) by now apply is_empty_false.
    rewrite Ex, Ey. cbn [orb]. apply F.
  - rewrite Rx, Ex. apply F.
  - destruct Hy as [Hy | (y & -> & Hy)]; [ discriminate Hy | ].
    rewrite Rx, (Ry y _ Hy).
    assert (Ey : JsStr.is_empty y = false) by now apply is_empty_false.
    rewrite Ex, Ey. cbn [orb]. apply F.
  - exact I.
Qed.

Lemma handleCreate_canCreate (s : Dialog.state) :
  Dialog.canCreate s = true <-> Dialog.handleCreate s <> None.
Proof.
  unfold Dialog.canCreate, Dialog.handleCreate.
  destruct (Dialog.chartType s);
    destruct (JsStr.is_empty (Dialog.xAxis s));
    destruct (JsStr.is_empty (Dialog.yAxis s)); simpl;
    split; intros H; try reflexivity; try discriminate; congruence.
Qed.

Lemma handleCreate_request (s : Dialog.state) (request : Routes.body) :
  Dialog.handleCreate s = Some request ->
  request = {| Routes.chartType := Some (Dialog.kindName (Dialog.chartType s));
               Routes.xAxis := Some (Dialog.xAxis s);
               Routes.yAxis := sentY s;
               Routes.dataKey := None |}
  /\ Dialog.xAxis s <> EmptyString
  /\ (Dialog.chartType s = Dialog.Pie \/ Dialog.yAxis s <> EmptyString).
Proof.
  unfold Dialog.handleCreate, sentY.
  destruct (Dialog.chartType s);
    destruct (JsStr.is_empty (Dialog.xAxis s)) eqn:Ex;
    destruct (JsStr.is_empty (Dialog.yAxis s)) eqn:Ey; simpl;
    intros H; try discriminate H; injection H as <-;
    apply is_empty_false in Ex;
    (split; [ reflexivity | split; [ exact Ex | ] ]);
    try (left; reflexivity); right; now apply is_empty_false.
Qed.

(** X25: the requests of the chart dialog.  The hooks of the dialog
    change through its handlers (opening and closing, the choice of a
    chart type, which clears both axes, the choice of an item of one of the
    two selects) and through the effects of each commit, which read the
    state of one render and whose calls are applied together.  In every
    state the component can reach, the x-axis is empty or the name of a
    string or numeric column the server listed, and the y-axis is empty or
    the name of a listed numeric column.  handleCreate sends a request
    exactly when canCreate holds; and, the columns being those of the
    stored table, the chart route never answers such a request with "Valid
    chartType is required" or "Column not found": it sends a chart of the
    chosen type on the chosen axes, or 400 (the chart would be empty), or
    500, the latter for a bar chart only.  The x-axis need not be of the
    type the select offers for the chart type: when a dialog was closed on
    a line chart before its columns had arrived, re-opening it resets the
    type to bar while the automatic selection of the same commit still
    reads line, and leaves a bar chart on a numeric x-axis. *)
Theorem dialog_requests :
  forall (now : Z) (parsedData : Schema.ParsedData) (columns : list Api.Column)
         (c : Dialog.component) (request : Routes.body),
    Api.getColumns (Some parsedData) = Some columns ->
    Dialog.reachable columns c ->
    Dialog.handleCreate (Dialog.hooks c) = Some request ->
    let s := Dialog.hooks c in
    Dialog.canCreate s = true
    /\ (forall s', Dialog.canCreate s' = true <-> Dialog.handleCreate s' <> None)
    /\ listed columns s
    /\ match Routes.createChart now (Some parsedData) request with
       | Routes.Json chart =>
           Schema.type chart = kindType (Dialog.chartType s)
           /\ Schema.xAxis chart = Some (Dialog.xAxis s)
           /\ Schema.yAxis chart = sentY s
       | Routes.Error status error =>
           (status = 400
            /\ error = "Could not generate chart with selected axes. Check that axes are compatible with chart type."%string)
           \/ (status = 500 /\ Dialog.chartType s = Dialog.Bar)
       end.
Proof.
  intros now pd columns c request G R H s.
  assert (C : Dialog.canCreate s = true).
  { apply handleCreate_canCreate. unfold s. rewrite H. discriminate. }
  pose proof (reachable_listed columns c R) as O. fold s in O.
  split; [ exact C | split; [ apply handleCreate_canCreate | split; [ exact O | ] ] ].
  destruct (handleCreate_request s request H) as (-> & Hx & Hy).
  destruct (listed_known pd columns s G O) as [Kx Ky].
  unfold Routes.createChart. cbn [Routes.chartType Routes.xAxis Routes.yAxis Routes.dataKey].
  assert (T : Routes.requestedType (Some (Dialog.kindName (Dialog.chartType s)))
              = Some (kindType (Dialog.chartType s)))
    by (destruct (Dialog.chartType s); reflexivity).
  rewrite T, (Kx Hx).
  assert (Uy : Routes.unknownAxis (Schema.columns pd) (sentY s) = false).
  { unfold sentY. destruct Hy as [-> | Hy]; [ reflexivity | ].
    destruct (Dialog.chartType s); try reflexivity; now apply Ky. }
  rewrite Uy.
  pose proof (generateChart_chosen pd now (kindType (Dialog.chartType s))
                (Dialog.xAxis s) (sentY s) Hx) as P.
  assert (Q : kindType (Dialog.chartType s) = Schema.Pie
              \/ exists y, sentY s = Some y /\ y <> EmptyString).
  { unfold sentY. destruct Hy as [-> | Hy]; [ now left | ].
    destruct (Dialog.chartType s); [ right | right | now left | right ]; eauto. }
  specialize (P Q).
  destruct (Recommender.generateChart _ _ _ _ _ _) as [[chart | ] | e].
  - exact P.
  - left. split; reflexivity.
  - right. split; [ reflexivity | ].
    destruct (Dialog.chartType s); try discriminate P. reflexivity.
Qed.

(** The columns of the table of sales. *)
Definition salesColumns : list Api.Column :=
  [ {| Api.name := "cat"; Api.type := Some Schema.TString |};
    {| Api.name := "val"; Api.type := Some Schema.TNumber |} ].

(** A component, field by field. *)
Definition componentOf (loaded committed o : bool) (k : Dialog.ChartKind)
  (x y : string) : Dialog.component :=
  {| Dialog.hooks := {| Dialog.open := o; Dialog.chartType := k;
                        Dialog.xAxis := x; Dialog.yAxis := y |};
     Dialog.loaded := loaded; Dialog.committed := committed |}.

(** The dialog is opened and a line chart is chosen while the columns are
    still loading; the dialog is closed, the columns arrive, and the dialog
    is opened again.  Each event is followed by the commit of its render.
    The commit of the re-opening resets the chart type to bar and selects
    the numeric column val as x-axis, the automatic selection still reading
    'line'; the next commit selects val as y-axis. *)
Lemma reopened_reachable :
  Dialog.reachable salesColumns (componentOf true true true Dialog.Bar "val" "val").
Proof.
  assert (R1 : Dialog.reachable salesColumns
                 (componentOf false false false Dialog.Bar EmptyString EmptyString)).
  { exact (Dialog.Step salesColumns _ _ (Dialog.Mounted salesColumns)
             (Dialog.Commit salesColumns Dialog.mounted)). }
  assert (R2 : Dialog.reachable salesColumns
                 (componentOf false false true Dialog.Bar EmptyString EmptyString)).
  { exact (Dialog.Step salesColumns _ _ R1 (Dialog.SetOpen salesColumns _ true)). }
  assert (R3 : Dialog.reachable salesColumns
                 (componentOf false true true Dialog.Bar EmptyString EmptyString)).
  { exact (Dialog.Step salesColumns _ _ R2 (Dialog.Commit salesColumns _)). }
  assert (R4 : Dialog.reachable salesColumns
                 (componentOf false true true Dialog.Line EmptyString EmptyString)).
  { exact (Dialog.Step salesColumns _ _ R3
             (Dialog.ChangeType salesColumns _ Dialog.Line)). }
  assert (R5 : Dialog.reachable salesColumns
                 (componentOf false true true Dialog.Line EmptyString EmptyString)).
  { exact (Dialog.Step salesColumns _ _ R4 (Dialog.Commit salesColumns _)). }
  assert (R6 : Dialog.reachable salesColumns
                 (componentOf false true false Dialog.Line EmptyString EmptyString)).
  { exact (Dialog.Step salesColumns _ _ R5 (Dialog.SetOpen salesColumns _ false)). }
  assert (R7 : Dialog.reachable salesColumns
                 (componentOf false false false Dialog.Line EmptyString EmptyString)).
  { exact (Dialog.Step salesColumns _ _ R6 (Dialog.Commit salesColumns _)). }
  assert (R8 : Dialog.reachable salesColumns
                 (componentOf true false false Dialog.Line EmptyString EmptyString)).
  { exact (Dialog.Step salesColumns _ _ R7 (Dialog.Loaded salesColumns _)). }
  assert (R9 : Dialog.reachable salesColumns
                 (componentOf true false false Dialog.Line EmptyString EmptyString)).
  { exact (Dialog.Step salesColumns _ _ R8 (Dialog.Commit salesColumns _)). }
  assert (R10 : Dialog.reachable salesColumns
                  (componentOf true false true Dialog.Line EmptyString EmptyString)).
  { exact (Dialog.Step salesColumns _ _ R9 (Dialog.SetOpen salesColumns _ true)). }
  assert (R11 : Dialog.reachable salesColumns
                  (componentOf true true true Dialog.Bar "val" EmptyString)).
  { exact (Dialog.Step salesColumns _ _ R10 (Dialog.Commit salesColumns _)). }
  exact (Dialog.Step salesColumns _ _ R11 (Dialog.Commit salesColumns _)).
Defined.

Definition reopenedRequest : Routes.body :=
  {| Routes.chartType := Some "bar"%string; Routes.xAxis := Some "val"%string;
     Routes.yAxis := Some "val"%string; Routes.dataKey := None |}.

Lemma dialog_requests_witness :
  Api.getColumns (Some Tables.sales) = Some salesColumns
  /\ Dialog.reachable salesColumns (componentOf true true true Dialog.Bar "val" "val")
  /\ Dialog.handleCreate
       (Dialog.hooks (componentOf true true true Dialog.Bar "val" "val"))
     = Some reopenedRequest
  /\ Dialog.canCreate
       (Dialog.hooks (componentOf true true true Dialog.Bar "val" "val")) = true
  /\ ~ In "val"%string
         (map Api.name (Dialog.xOptions salesColumns Dialog.Bar)).
Proof.
  assert (H1 : Api.getColumns (Some Tables.sales) = Some salesColumns) by reflexivity.
  assert (H3 : Dialog.handleCreate
                 (Dialog.hooks (componentOf true true true Dialog.Bar "val" "val"))
               = Some reopenedRequest) by reflexivity.
  assert (H4 : ~ In "val"%string
                 (map Api.name (Dialog.xOptions salesColumns Dialog.Bar))).
  { simpl. intros [H | []]. discriminate H. }
  exact (conj H1 (conj reopened_reachable (conj H3 (conj
           (proj1 (dialog_requests 0 Tables.sales salesColumns
                     (componentOf true true true Dialog.Bar "val" "val")
                     reopenedRequest H1 reopened_reachable H3)) H4)))).
Defined.

(** X26: the automatic selection of the dialog settles.  The effect
    depends on the axes it sets, so it runs again after it has set one;
    the second run changes nothing, whatever the state and the columns.
    From cleared axes it selects, for a line or scatter chart on at least
    two numeric columns, the first numeric column for BOTH axes (when its
    name is not empty): the search for a column other than the x-axis
    reads the x-axis of the render in which it was still empty. *)
Theorem autoSelect_settles :
  forall (columns : list Api.Column) (s : Dialog.state),
    Dialog.autoSelect columns (Dialog.autoSelect columns s)
    = Dialog.autoSelect columns s
    /\ (forall first second rest,
          Dialog.numericColumns columns = first :: second :: rest ->
          Api.name first <> EmptyString ->
          Dialog.open s = true ->
          Dialog.chartType s = Dialog.Line \/ Dialog.chartType s = Dialog.Scatter ->
          Dialog.xAxis s = EmptyString ->
          Dialog.yAxis s = EmptyString ->
          Dialog.xAxis (Dialog.autoSelect columns s) = Api.name first
          /\ Dialog.yAxis (Dialog.autoSelect columns s) = Api.name first).
Proof.
  intros columns [o k x y]. split.
  - unfold Dialog.autoSelect.
    cbn [Dialog.open Dialog.chartType Dialog.xAxis Dialog.yAxis].
    destruct (Nat.ltb 0 (List.length columns) && o) eqn:G;
      [ | cbn [Dialog.open]; now rewrite G ].
    assert (X : forall (first : Api.Column) (axis : string),
              (if JsStr.is_empty
                    (if JsStr.is_empty axis then Api.name first else axis)
               then Api.name first
               else if JsStr.is_empty axis then Api.name first else axis)
              = (if JsStr.is_empty axis then Api.name first else axis)).
    { intros first axis. destruct (JsStr.is_empty axis) eqn:E.
      - now destruct (JsStr.is_empty (Api.name first)).
      - now rewrite E. }
    assert (Other : forall first,
              Dialog.otherNumeric columns x first = EmptyString ->
              Api.name first = EmptyString).
    { intros first. unfold Dialog.otherNumeric.
      destruct (find _ _) as [col | ]; [ | tauto ].
      destruct (JsStr.is_empty (Api.name col)) eqn:E; [ tauto | ].
      intros H. rewrite H in E. discriminate E. }
    assert (Y : forall first,
              (if JsStr.is_empty
                    (if JsStr.is_empty y
                     then Dialog.otherNumeric columns x first else y)
               then Dialog.otherNumeric columns
                      (if JsStr.is_empty x then Api.name first else x) first
               else if JsStr.is_empty y
                    then Dialog.otherNumeric columns x first else y)
              = (if JsStr.is_empty y
                 then Dialog.otherNumeric columns x first else y)).
    { intros first. destruct (JsStr.is_empty y) eqn:Ey; [ | now rewrite Ey ].
      destruct (JsStr.is_empty (Dialog.otherNumeric columns x first)) eqn:Eo;
        [ | reflexivity ].
      apply is_empty_true in Eo. pose proof (Other first Eo) as Hf.
      destruct (JsStr.is_empty x) eqn:Ex; [ | reflexivity ].
      apply is_empty_true in Ex. now rewrite Hf, Ex. }
    destruct k.
    + cbn [Dialog.open Dialog.chartType Dialog.xAxis Dialog.yAxis]. rewrite G.
      f_equal.
      * destruct (Dialog.stringColumns columns); [ reflexivity | apply X ].
      * destruct (Dialog.numericColumns columns); [ reflexivity | apply X ].
    + cbn [Dialog.open Dialog.chartType Dialog.xAxis Dialog.yAxis]. rewrite G.
      f_equal.
      * destruct (Dialog.numericColumns columns); [ reflexivity | apply X ].
      * destruct (Dialog.numericColumns columns) as [ | first [ | second rest ] ];
          try reflexivity. apply Y.
    + destruct (Dialog.stringColumns columns) as [ | first rest ] eqn:S.
      * cbn [Dialog.open Dialog.chartType Dialog.xAxis Dialog.yAxis].
        now rewrite G.
      * destruct (JsStr.is_empty x) eqn:Ex;
          cbn [Dialog.open Dialog.chartType Dialog.xAxis Dialog.yAxis];
          rewrite G; [ | now rewrite Ex ].
        destruct (JsStr.is_empty (Api.name first)) eqn:Ef; [ | reflexivity ].
        reflexivity.
    + cbn [Dialog.open Dialog.chartType Dialog.xAxis Dialog.yAxis]. rewrite G.
      f_equal.
      * destruct (Dialog.numericColumns columns); [ reflexivity | apply X ].
      * destruct (Dialog.numericColumns columns) as [ | first [ | second rest ] ];
          try reflexivity. apply Y.
  - cbn [Dialog.open Dialog.chartType Dialog.xAxis Dialog.yAxis].
    intros first second rest N Hf -> Hk -> ->.
    assert (L : 0 < List.length columns).
    { destruct columns; [ discriminate N | simpl; lia ]. }
    apply Nat.ltb_lt in L.
    assert (O : Dialog.otherNumeric columns EmptyString first = Api.name first).
    { unfold Dialog.otherNumeric. rewrite N. cbn [find].
      apply String.eqb_neq in Hf. rewrite Hf. cbn [negb].
      apply String.eqb_neq, is_empty_false in Hf. now rewrite Hf. }
    unfold Dialog.autoSelect.
    cbn [Dialog.open Dialog.chartType Dialog.xAxis Dialog.yAxis].
    rewrite L. cbn [andb].
    destruct Hk as [-> | ->];
      cbn [Dialog.xAxis Dialog.yAxis]; rewrite N; cbn [JsStr.is_empty];
      now rewrite O.
Qed.

(* ===================================================================== *)
(** * generateVisualizations: the ids of the charts *)
(* ===================================================================== *)

(** An id that begins with the name of the chart type and a hyphen. *)
Definition typed_id (chart : Schema.ChartConfig) : Prop :=
  exists stamp : string,
    Schema.id chart
    = (Schema.ChartType_name (Schema.type chart) ++ "-" ++ stamp)%string.

Lemma typed_id_type (a b : Schema.ChartConfig) :
  typed_id a -> typed_id b -> Schema.id a = Schema.id b ->
  Schema.type a = Schema.type b.
Proof.
  intros (sa & Ha) (sb & Hb) E. rewrite Ha, Hb in E.
  destruct (Schema.type a), (Schema.type b); try reflexivity;
    simpl in E; discriminate E.
Qed.

Lemma NoDup_map_finer {A B C : Type} (f : A -> B) (g : A -> C) (l : list A) :
  (forall a b, In a l -> In b l -> g a = g b -> f a = f b) ->
  NoDup (map f l) -> NoDup (map g l).
Proof.
  induction l as [ | x l IH ]; simpl; intros H N; [ constructor | ].
  inversion N as [ | ? ? Hx Nl ]; subst. constructor.
  - intros Hin. apply in_map_iff in Hin. destruct Hin as (y & E & Hy).
    apply Hx. apply in_map_iff. exists y. split; [ | exact Hy ].
    apply H; auto.
  - apply IH; [ | exact Nl ]. intros a b Ha Hb. apply H; auto.
Qed.

Lemma ruleBased_ids parsedData charts :
  Parsers.ruleBased parsedData = Js.Returned charts ->
  forall chart, In chart charts -> typed_id chart.
Proof.
  unfold Parsers.ruleBased.
  destruct (filter (Schema.has_type parsedData Schema.TString) _) as [ | s0 ss ];
    destruct (filter (Schema.has_type parsedData Schema.TNumber) _) as [ | n0 [ | n1 ns ] ];
    simpl;
    try destruct (Parsers.aggregateData _ _ _) as [agg | e]; simpl;
    intros H; try discriminate; injection H as <-; simpl;
    intros chart Hin;
    repeat (destruct Hin as [<- | Hin]; [ now exists "1"%string | ]);
    destruct Hin.
Qed.

Lemma generateMLVisualizations_ids parsedData clock charts :
  Recommender.generateMLVisualizations parsedData clock = Js.Returned charts ->
  forall chart, In chart charts -> typed_id chart.
Proof.
  intros H chart Hin.
  destruct (generateMLVisualizations_present parsedData clock charts H)
    as (bar & pie & scatter & line & -> & Hb & Hp & Hs & Hl).
  assert (M : forall chartType pushed,
            made parsedData clock chartType pushed ->
            In chart (present pushed) -> typed_id chart).
  { intros ct mc Hm Hc. destruct (present_made _ _ _ _ _ Hm Hc) as [-> Ht].
    destruct (made_chart parsedData clock ct chart Hm) as (_ & _ & Hid & _).
    exists (JsStr.of_Z (clock ct)). now rewrite Ht. }
  repeat (apply in_app_or in Hin; destruct Hin as [Hin | Hin]; [ eauto | ]).
  eauto.
Qed.

(** X27: the ids of the charts generateVisualizations returns are pairwise
    different, on the ML path and on the rule-based path, whatever the
    clock: every id begins with the name of the chart's type and a hyphen,
    and no two charts of the list have the same type.  The analysis page
    uses these ids as the keys of the cards it renders
    (key={viz.id}), so the keys of one analysis never collide. *)
Theorem generateVisualizations_ids :
  forall (parsedData : Schema.ParsedData) (clock : Schema.ChartType -> Z)
         (useML : bool),
    match Parsers.generateVisualizations parsedData clock useML with
    | Js.Returned charts =>
        NoDup (map Schema.id charts)
        /\ (forall chart, In chart charts ->
              exists stamp : string,
                Schema.id chart
                = (Schema.ChartType_name (Schema.type chart) ++ "-" ++ stamp)%string)
        /\ (forall a b, In a charts -> In b charts ->
              Schema.id a = Schema.id b -> a = b)
    | Js.Threw _ => True
    end.
Proof.
  intros pd clock useML.
  assert (K : forall charts,
            NoDup (map Schema.type charts) ->
            (forall chart, In chart charts -> typed_id chart) ->
            NoDup (map Schema.id charts)
            /\ (forall chart, In chart charts -> typed_id chart)
            /\ (forall a b, In a charts -> In b charts ->
                  Schema.id a = Schema.id b -> a = b)).
  { intros charts N T.
    assert (F : forall a b, In a charts -> In b charts ->
                  Schema.id a = Schema.id b -> Schema.type a = Schema.type b).
    { intros a b Ha Hb. apply typed_id_type; auto. }
    split; [ now apply (NoDup_map_finer Schema.type) | split; [ exact T | ] ].
    intros a b Ha Hb E. specialize (F a b Ha Hb E).
    clear T E. induction charts as [ | c charts IH ]; [ destruct Ha | ].
    simpl in N. inversion N as [ | ? ? Hc Nc ]; subst.
    destruct Ha as [-> | Ha], Hb as [-> | Hb]; auto.
    - exfalso. apply Hc. rewrite F. now apply in_map.
    - exfalso. apply Hc. rewrite <- F. now apply in_map. }
  unfold Parsers.generateVisualizations.
  pose proof (mlVisualizations_cases pd clock useML) as M.
  destruct (Parsers.mlVisualizations pd clock useML) as [charts | ].
  - destruct M as (_ & _ & G). apply K.
    + now apply (generateMLVisualizations_charts_shape pd clock).
    + now apply (generateMLVisualizations_ids pd clock).
  - destruct (Parsers.ruleBased pd) as [charts | e] eqn:R; [ | exact I ].
    apply K.
    + now apply (ruleBased_types pd).
    + now apply (ruleBased_ids pd).
Qed.
